(* ===== verification/_CoqProject ===== *)
-Q . S2P
Prelude.v
Gre.v
GtpMsg.v
Nas.v
NgapTypes.v
Util.v
Factory.v
Eap5g.v
IkeMsg.v
Proposals.v
Monad.v
NgapMsg.v
Env.v
State.v
ToyEnv.v
Context.v
Xfrm.v
IkeServer.v
IkeSaInit.v
SaSpec.v
IkeAuth.v
IkeEvents.v
NgapSend.v
NgapEvents.v
NgapUe.v
NgapPdu.v
NgapAmf.v
Nwuup.v
Nwucp.v
Invariant.v
System.v
Service.v
Shutdown.v
Start.v
Sessions.v
