(* ===== verification/Prelude.v ===== *)
(** * A verification development for the free5GC N3IWF

    The N3IWF lets a UE on an untrusted access network (WLAN) use a 5G core. Towards the UE it is
    an IKEv2 responder and the end of the IPsec tunnels; towards the core it is an NGAP client of
    the AMF and a GTP-U end point. This library translates the Go code of the repository into
    executable definitions and proves what the code promises about them.

    ** The program and its parts

    Four servers run in one process and share one context:
    - the IKE server (internal/ike) answers IKE_SA_INIT, IKE_AUTH, CREATE_CHILD_SA and
      INFORMATIONAL, and installs the kernel rules of every child SA;
    - the NGAP server (internal/ngap) speaks to the AMFs, decodes the EAP-5G data of the UE and
      manages the RAN UEs and their PDU sessions;
    - the NAS server (internal/nwucp) accepts the TCP connection each UE opens inside its
      signalling SA and forwards NAS messages between UE and AMF;
    - the user plane (internal/nwuup) moves packets between GRE on NWu and GTP-U on N3.
    The IKE and the NGAP server do not call each other: they put events into each other's queue.
    An authentication, for instance, goes from IKE_AUTH (IkeAuth.v) by an event to the EAP-5G
    handler (NgapEvents.v), to the AMF (NgapSend.v), and back through a downlink NAS transport
    (NgapUe.v) and an event to the IKE server (IkeEvents.v).

    ** Which file models what

    - Prelude.v: machine words, octet strings, results with Go's panic, lists, tactics. Monad.v:
      a Go statement sequence as a state transformer with early return, panic, deferred calls
      and recover; record update; loops; the compositional rules of [stable] relations.
    - Without state: Gre.v (internal/gre), GtpMsg.v (internal/gtp/message), Nas.v
      (internal/nas/nas_security and the read loop of nwucp), Util.v (internal/util), Eap5g.v
      (internal/ngap/eap5g.go and message/types.go), Proposals.v (SelectProposal,
      isTransformKernelSupported and the ESP choice of internal/ike/handler.go).
    - Data of the libraries the code calls: NgapTypes.v, NgapMsg.v (free5gc/ngap, with the
      collection of information elements of internal/ngap/handler.go), IkeMsg.v (free5gc/ike).
    - The interface to everything outside: Env.v (classes [Env] and [EnvLaws]); its instance for
      witnesses: ToyEnv.v.
    - internal/context: State.v (one record per Go structure, [World] for N3IWFContext with its
      pools, the heaps of shared objects, the event queues and the effects performed), Context.v
      (the operations of context.go, ikeue.go, ranue.go, n3iwf_ue.go, amf.go).
    - internal/ike: Xfrm.v (xfrm/xfrm.go), IkeServer.v (server.go, dispatcher.go, send.go),
      IkeSaInit.v, IkeAuth.v and IkeEvents.v (handler.go), SaSpec.v (the abstract machine).
    - internal/ngap: NgapSend.v (message/build.go, message/send.go, message/forwardIE.go),
      NgapEvents.v (events from the other goroutines), NgapUe.v and NgapPdu.v (messages about a
      UE and its sessions), NgapAmf.v (messages about the AMF, dispatcher.go, server.go).
    - internal/nwuup: Nwuup.v. internal/nwucp: Nwucp.v. pkg/factory: Factory.v.
    - Composition: Invariant.v (invariant of the shared state, through every handler of both
      servers), System.v (handlers interleaved over the shared state), Service.v (pkg/service and
      the Run and Stop methods: goroutines, packet queues, sockets, wait group), Shutdown.v,
      Start.v (cmd/main.go, NewContext, NewApp), Sessions.v (one PDU session set-up across both
      servers).
    Every definition that translates code carries the lines and the symbol it translates.

    ** How state and operations correspond to the code

    A pointer is a reference into a heap of [World], so two fields that point to one object share
    it, as the temporary set-up data of a UE is shared by both servers; a pointer that may be nil
    is an [option], and a dereference of nil is the outcome [Panicked]. A sync.Map is a [gmap];
    the order of a Range is a parameter of the environment. A handler is a term of the monad [H]:
    changes made before an early return or a panic stay. Calls into the kernel, writes to
    sockets and timers are appended to the trace of effects, and whether they succeed is asked of
    the environment, so every error branch is reachable. A log line has no effect. Integers are
    [Z] with the wrap-around of their Go width where an operation can reach it. Log calls with
    Fatalf, and recover handlers that end in one, end the process in System.v.

    One step of System.v is one turn of a server's loop, one packet, one timer: handlers of
    different goroutines are interleaved at that granularity. Service.v adds the goroutines
    around the handlers; a label of [step] picks the goroutine and says what the operating
    system answers, so a list of labels is a schedule.

    ** What the theorems show

    - Invariants and types: [reachable_pools], [reachable_typed], [reachable_fresh_ids] (System):
      in every reachable state the pools point to live objects stored under their own
      identifiers, machine words are in range, identifiers given out are new.
    - Refinement: [sa_table_refinement] (every run of the process is a run of the SA table of
      SaSpec.v), [process_refines_system] (goroutines, queues and sockets forgotten, the process
      is the system). Equivalence: [ReadConfig_spec], [serveConn_equiv].
    - Safety of the access: [HandleIKESAINIT_outcome], [HandleIKEAUTH_window],
      [auth_failure_no_effect], [unacceptable_packet_no_effect], [checkIKEMessage_spec],
      [ike_packet_keeps_running].
    - Liveness and termination: [shutdown_completes], [blocked_never_done],
      [create_loop_enough], [UnmarshalEAP5GData_total] and [UnmarshalEAP5GData_diverges].
    - Functional behaviour: proposals, IPsec rules, AMF selection, removal of UEs, NAS transport,
      both directions of the user plane, QoS extraction, the sorting and the report of PDU
      sessions, creation of the context.
    - Round trips and bounds: EAP-5G data, NAS envelopes, GRE QoS marking, NAT detection,
      the length field of an envelope.
    - Behaviour that differs from the intention, as theorems: [second_failure_reported_as_set_up],
      [downlink_after_disconnect_ends_process], [failed_start_keeps_interface],
      [UnmarshalEAP5GData_diverges], [EncapNasMsgToEnvelope_truncates], [blocked_never_done].

    ** Fuel and limits

    - The EAP-5G parser gets one unit of fuel per octet and one more. Every turn of its loop
      either consumes octets or leaves the state as it was (a length octet of 254), in which case
      no fuel is enough: running out of fuel is not returning. In the event handler that outcome
      is the panic [hangs]: the run ends there, and what the other goroutines would still do
      while the loop of the NGAP server spins is not covered.
    - The read loop of a NAS connection gets one unit per octet and one more: every turn but the
      last consumes two octets at least ([serveConn_equiv] holds for every stream).
    - The set-up loop of child SAs gets one turn more than there are sessions; [create_loop_enough]
      shows that more make no difference.
    - Loops that draw random identifiers until one is free have no bound in the code;
      [retry_limit] is a parameter of the environment and the theorems name the outcome in which
      it is used up. The attempts to reach an AMF are bounded by three in the code.

    ** Parameters

    [Env]: free5gc/ike (codec, keys, hashes), free5gc/ngap and free5gc/aper, go-gtp, netlink,
    crypto/rand, identifier generators, the IP pool, the operating system's answers. [EnvLaws]: a
    generator gives out values it has not given out, a pool gives 4-octet addresses, ranging over
    a map visits its elements once, random draws have their width. [FactoryEnv] and [TagLaws]:
    YAML, the struct-tag validator, name resolution, files; what the tags require. [NetEnv]:
    sockets. [StartEnv]: key and certificate parsers, network interfaces, the logger's levels.
    Each has a concrete instance with which the theorems are applied to concrete states.

    ** Not modelled

    - Log output and the printing helpers (printAndGetCause, printCriticalityDiagnostics, Print):
      no effect on the state. Metrics, pprof, the flag parser: external packages; the metrics
      calls in the handlers only count.
    - Builders and senders with an empty body, event types nothing sends, a CRC helper without a
      caller; the constructors of events and servers, which only fill in a structure.
    - Data races inside a handler: the accesses to a socket field while another goroutine closes
      it, and interleavings finer than a turn. The locks are therefore without effect here.
    - Contents of encoded packets: the encoders are parameters, the messages are structures.

    ** What is planned next

    - The configuration read by Factory.v as the source of the values [Env] takes from it.
    - Equivalence of the further exchanges (CREATE_CHILD_SA, INFORMATIONAL) with a description of
      their outcomes, as for IKE_SA_INIT; NGAP set-up and UE context release as abstract machines.
    - The life of a UE context across both servers, as Sessions.v does for PDU sessions. *)

From stdpp Require Export prelude list gmap strings.

Declare Scope go_scope.
Delimit Scope go_scope with go.
#[global] Open Scope Z_scope.

(** ** Hint databases of the development

    [go_bytes]: side conditions on bytes and machine words;
    [go_rules]: the compositional rules of the handler monad. *)
Create HintDb go_bytes discriminated.
Create Rewrite HintDb go_len.
Create HintDb go_rules discriminated.

(** ** Machine words

    Go's fixed-width integers are integers with the wrap-around written out. *)
Definition u8 (x : Z) : Z := x `mod` 2 ^ 8.
Definition u16 (x : Z) : Z := x `mod` 2 ^ 16.
Definition u32 (x : Z) : Z := x `mod` 2 ^ 32.
Definition u64 (x : Z) : Z := x `mod` 2 ^ 64.

Definition MaxUint8 : Z := 255.
Definition MaxUint16 : Z := 65535.
Definition MaxUint32 : Z := 4294967295.
Definition MaxInt16 : Z := 32767.

Definition is_byte (b : Z) : Prop := 0 ≤ b < 2 ^ 8.
Definition is_u16 (x : Z) : Prop := 0 ≤ x < 2 ^ 16.
Definition is_u32 (x : Z) : Prop := 0 ≤ x < 2 ^ 32.

#[global] Instance is_byte_dec b : Decision (is_byte b).
Proof. unfold is_byte. apply _. Defined.
#[global] Instance is_u16_dec b : Decision (is_u16 b).
Proof. unfold is_u16. apply _. Defined.
#[global] Instance is_u32_dec b : Decision (is_u32 b).
Proof. unfold is_u32. apply _. Defined.

(** A Go byte slice. *)
Abbreviation bytes := (list Z).
Abbreviation bytes_ok := (Forall is_byte).

Lemma u8_byte x : is_byte (u8 x).
Proof. unfold is_byte, u8. apply Z.mod_pos_bound. lia. Qed.
Lemma u8_id x : is_byte x → u8 x = x.
Proof. unfold is_byte, u8. intros. apply Z.mod_small. lia. Qed.
Lemma u16_id x : is_u16 x → u16 x = x.
Proof. unfold is_u16, u16. intros. apply Z.mod_small. lia. Qed.
Lemma u32_id x : is_u32 x → u32 x = x.
Proof. unfold is_u32, u32. intros. apply Z.mod_small. lia. Qed.
Lemma u16_range x : is_u16 (u16 x).
Proof. unfold is_u16, u16. apply Z.mod_pos_bound. lia. Qed.
Lemma u32_range x : is_u32 (u32 x).
Proof. unfold is_u32, u32. apply Z.mod_pos_bound. lia. Qed.
#[export] Hint Resolve u8_byte u16_range u32_range : go_bytes.

(** *** Bitwise reasoning on bounded words *)
Lemma testbit_bounded x n i : 0 ≤ x < 2 ^ n → 0 ≤ n → n ≤ i → Z.testbit x i = false.
Proof.
  intros Hx Hn Hi. destruct (decide (x = 0)) as [->|]; [apply Z.bits_0|].
  apply Z.bits_above_log2; [lia|].
  assert (Z.log2 x < n) by (apply Z.log2_lt_pow2; lia). lia.
Qed.

Lemma lor_bounded x y n : 0 ≤ n → 0 ≤ x < 2 ^ n → 0 ≤ y < 2 ^ n → 0 ≤ Z.lor x y < 2 ^ n.
Proof.
  intros Hn Hx Hy. assert (0 ≤ Z.lor x y) by (apply Z.lor_nonneg; lia).
  split; [done|]. destruct (decide (x = 0)) as [->|]; [rewrite Z.lor_0_l; lia|].
  destruct (decide (y = 0)) as [->|]; [rewrite Z.lor_0_r; lia|].
  assert (Z.log2 x < n) by (apply Z.log2_lt_pow2; lia).
  assert (Z.log2 y < n) by (apply Z.log2_lt_pow2; lia).
  destruct (decide (Z.lor x y = 0)) as [->|]; [lia|].
  apply Z.log2_lt_pow2; [lia|]. rewrite Z.log2_lor by lia. lia.
Qed.

(** *** Big-endian encoding (encoding/binary.BigEndian) *)
Fixpoint be_get_acc (acc : Z) (bs : bytes) : Z :=
  match bs with
  | [] => acc
  | b :: bs => be_get_acc (acc * 256 + b) bs
  end.
Definition be_get (bs : bytes) : Z := be_get_acc 0 bs.

Fixpoint be_put (n : nat) (x : Z) : bytes :=
  match n with
  | O => []
  | S n => u8 (x `div` 256 ^ Z.of_nat n) :: be_put n x
  end.

Lemma length_be_put n x : length (be_put n x) = n.
Proof. induction n; simpl; congruence. Qed.

Lemma be_put_bytes n x : bytes_ok (be_put n x).
Proof. induction n; simpl; constructor; auto with go_bytes. Qed.

Lemma be_get_acc_app acc xs ys : be_get_acc acc (xs ++ ys) = be_get_acc (be_get_acc acc xs) ys.
Proof. revert acc. induction xs; simpl; auto. Qed.

Lemma be_get_acc_put n acc x :
  be_get_acc acc (be_put n x) = acc * 256 ^ Z.of_nat n + x `mod` 256 ^ Z.of_nat n.
Proof.
  revert acc. induction n as [|n IH]; intros acc; simpl.
  { change (256 ^ Z.of_nat 0) with 1. rewrite Z.mod_1_r. lia. }
  rewrite IH, Nat2Z.inj_succ, Z.pow_succ_r by lia.
  unfold u8. change (2 ^ 8) with 256.
  rewrite (Z.mul_comm 256), (Z.rem_mul_r x (256 ^ Z.of_nat n) 256) by lia. lia.
Qed.

Lemma be_get_put n x : be_get (be_put n x) = x `mod` 256 ^ Z.of_nat n.
Proof. unfold be_get. rewrite be_get_acc_put. lia. Qed.

Lemma be_get_put16 x : is_u16 x → be_get (be_put 2 x) = x.
Proof. intros H. rewrite be_get_put. exact (u16_id x H). Qed.
Lemma be_get_put32 x : is_u32 x → be_get (be_put 4 x) = x.
Proof. intros H. rewrite be_get_put. exact (u32_id x H). Qed.

Lemma be_get_bound_acc acc bs :
  bytes_ok bs → 0 ≤ acc →
  0 ≤ be_get_acc acc bs < (acc + 1) * 256 ^ Z.of_nat (length bs).
Proof.
  intros Hbs. revert acc. induction Hbs as [|b bs Hb _ IH]; intros acc Hacc; simpl.
  { change (256 ^ Z.of_nat 0) with 1. lia. }
  unfold is_byte in Hb. specialize (IH (acc * 256 + b)).
  rewrite Nat2Z.inj_succ, Z.pow_succ_r by lia. nia.
Qed.

Lemma be_get_nonneg bs : bytes_ok bs → 0 ≤ be_get bs.
Proof. intros H. apply (be_get_bound_acc 0 bs H). lia. Qed.
Lemma be_get_u16 bs : bytes_ok bs → length bs = 2%nat → is_u16 (be_get bs).
Proof. intros H Hl. pose proof (be_get_bound_acc 0 bs H) as B. rewrite Hl in B. unfold is_u16, be_get. lia. Qed.
Lemma be_get_u32 bs : bytes_ok bs → length bs = 4%nat → is_u32 (be_get bs).
Proof. intros H Hl. pose proof (be_get_bound_acc 0 bs H) as B. rewrite Hl in B. unfold is_u32, be_get. lia. Qed.

Lemma be_put_2 x : ∃ a b, be_put 2 x = [a; b].
Proof. simpl. eauto. Qed.
Lemma be_put_4 x : ∃ a b c d, be_put 4 x = [a; b; c; d].
Proof. simpl. eauto 8. Qed.

#[export] Hint Rewrite length_be_put be_get_put : go_len.
#[export] Hint Resolve be_put_bytes be_get_nonneg be_get_u16 be_get_u32 : go_bytes.

(** ** Results of Go functions

    A call returns a value, returns an error, or panics (an index out of range,
    a nil dereference). *)
Inductive res (A : Type) : Type :=
| Ok (a : A)
| Err (why : string)
| Panic (why : string).
Arguments Ok {_} a.
Arguments Err {_} why.
Arguments Panic {_} why.

#[global] Instance res_ret : MRet res := λ A a, Ok a.
#[global] Instance res_bind : MBind res := λ A B f r,
  match r with
  | Ok a => f a
  | Err e => Err e
  | Panic e => Panic e
  end.

Definition is_ok {A} (r : res A) : bool := match r with Ok _ => true | _ => false end.
Definition panics {A} (r : res A) : bool := match r with Panic _ => true | _ => false end.

Lemma bind_Ok {A B} (f : A → res B) (r : res A) b :
  (r ≫= f) = Ok b ↔ ∃ a, r = Ok a ∧ f a = Ok b.
Proof. destruct r; simpl; naive_solver. Qed.

(** *** Slices

    [s[i]], [s[lo:]], [s[:hi]] and [s[lo:hi]] panic out of range. (A slice
    expression may reach past the length up to the capacity; every slicing
    expression modelled here bounds by the length.) *)
Definition oob : string := "index out of range".

Definition at_ {A} (s : list A) (i : Z) : res A :=
  if decide (0 ≤ i) then match s !! Z.to_nat i with Some x => Ok x | None => Panic oob end
  else Panic oob.

Definition slice {A} (s : list A) (lo hi : Z) : res (list A) :=
  if decide (0 ≤ lo ∧ lo ≤ hi ∧ hi ≤ Z.of_nat (length s))
  then Ok (take (Z.to_nat (hi - lo)) (drop (Z.to_nat lo) s))
  else Panic oob.

Definition len {A} (s : list A) : Z := Z.of_nat (length s).
Definition slice_from {A} (s : list A) (lo : Z) : res (list A) := slice s lo (len s).
Definition slice_to {A} (s : list A) (hi : Z) : res (list A) := slice s 0 hi.

Lemma len_nonneg {A} (s : list A) : 0 ≤ len s.
Proof. unfold len. lia. Qed.

Lemma len_app {A} (s t : list A) : len (s ++ t) = len s + len t.
Proof. unfold len. rewrite length_app. lia. Qed.
Lemma len_cons {A} (x : A) (s : list A) : len (x :: s) = 1 + len s.
Proof. unfold len. rewrite length_cons. lia. Qed.
Lemma len_nil {A} : len (@nil A) = 0.
Proof. done. Qed.
Lemma len_be_put n x : len (be_put n x) = Z.of_nat n.
Proof. unfold len. by rewrite length_be_put. Qed.
#[export] Hint Rewrite @len_app @len_cons @len_nil len_be_put : go_len.

(** Bounds on the lengths of the slices in sight. *)
Ltac len_lia :=
  autorewrite with go_len in *;
  repeat match goal with
  | |- context [@len ?A ?s] =>
      lazymatch goal with _ : 0 ≤ @len A s |- _ => fail | _ => pose proof (@len_nonneg A s) end
  | _ : context [@len ?A ?s] |- _ =>
      lazymatch goal with _ : 0 ≤ @len A s |- _ => fail | _ => pose proof (@len_nonneg A s) end
  end; lia.

Lemma at_ok {A} (s : list A) i : 0 ≤ i < len s → ∃ x, at_ s i = Ok x ∧ s !! Z.to_nat i = Some x.
Proof.
  unfold at_, len. intros H. rewrite decide_True by lia.
  destruct (lookup_lt_is_Some_2 s (Z.to_nat i)) as [x Hx]; [lia|]. rewrite Hx. eauto.
Qed.

Lemma slice_ok {A} (s : list A) lo hi :
  0 ≤ lo → lo ≤ hi → hi ≤ len s →
  slice s lo hi = Ok (take (Z.to_nat (hi - lo)) (drop (Z.to_nat lo) s)).
Proof. unfold slice, len. intros. by rewrite decide_True. Qed.

Lemma slice_from_ok {A} (s : list A) lo :
  0 ≤ lo ≤ len s → slice_from s lo = Ok (drop (Z.to_nat lo) s).
Proof.
  intros H. unfold slice_from. rewrite slice_ok by lia. f_equal.
  apply take_ge. rewrite length_drop. unfold len in *. lia.
Qed.

Lemma slice_to_ok {A} (s : list A) hi :
  0 ≤ hi ≤ len s → slice_to s hi = Ok (take (Z.to_nat hi) s).
Proof. intros H. unfold slice_to. rewrite slice_ok by lia. by rewrite Z.sub_0_r, drop_0. Qed.

Lemma slice_ok_inv {A} (s t : list A) lo hi :
  slice s lo hi = Ok t →
  0 ≤ lo ∧ lo ≤ hi ∧ hi ≤ len s ∧ t = take (Z.to_nat (hi - lo)) (drop (Z.to_nat lo) s).
Proof. unfold slice, len. case_decide; naive_solver. Qed.

Lemma len_slice {A} (s t : list A) lo hi : slice s lo hi = Ok t → len t = hi - lo.
Proof.
  intros (? & ? & ? & ->)%slice_ok_inv. unfold len in *.
  rewrite length_take, length_drop. lia.
Qed.

Lemma slice_bytes s t lo hi : bytes_ok s → slice s lo hi = Ok t → bytes_ok t.
Proof. intros H (? & ? & ? & ->)%slice_ok_inv. by apply Forall_take, Forall_drop. Qed.
#[export] Hint Resolve slice_bytes : go_bytes.

(** *** Absence of panics *)
Lemma panics_bind {A B} (r : res A) (f : A → res B) :
  panics r = false → (∀ a, r = Ok a → panics (f a) = false) → panics (r ≫= f) = false.
Proof. destruct r; simpl; auto. Qed.

Lemma panics_at {A} (s : list A) i : 0 ≤ i < len s → panics (at_ s i) = false.
Proof. intros (x & -> & _)%at_ok. done. Qed.

Lemma panics_slice {A} (s : list A) lo hi : 0 ≤ lo ≤ hi → hi ≤ len s → panics (slice s lo hi) = false.
Proof. intros ? ?. rewrite slice_ok by lia. done. Qed.

Lemma at_inv {A} (s : list A) i x : at_ s i = Ok x → 0 ≤ i < len s ∧ s !! Z.to_nat i = Some x.
Proof.
  unfold at_, len. case_decide; [|done]. destruct (s !! Z.to_nat i) eqn:E; [|done].
  intros [= ->]. split; [|done]. apply lookup_lt_Some in E. lia.
Qed.

Lemma at_byte s i x : bytes_ok s → at_ s i = Ok x → is_byte x.
Proof. intros H [_ E]%at_inv. by eapply Forall_lookup_1. Qed.
#[export] Hint Resolve at_byte : go_bytes.

(** Splitting a [res] computation found in a hypothesis or the goal. *)
Ltac res_step :=
  match goal with
  | H : Ok _ = Ok _ |- _ => injection H as H; try subst
  | H : Ok _ = Err _ |- _ => discriminate H
  | H : Ok _ = Panic _ |- _ => discriminate H
  | H : Err _ = Ok _ |- _ => discriminate H
  | H : Panic _ = Ok _ |- _ => discriminate H
  | H : Err _ = Panic _ |- _ => discriminate H
  | H : Panic _ = Err _ |- _ => discriminate H
  | H : _ ≫= _ = Ok _ |- _ => apply bind_Ok in H as (? & ? & H)
  end.
Ltac res_inv := repeat (res_step || case_match || case_decide); simplify_eq/=.
