(* ===== verification/Gre.v ===== *)
(** * GRE encapsulation on the NWu interface (internal/gre/message.go)

    The packet record, its getters and setters, [Marshal] and [Unmarshal]. *)

From S2P Require Import Prelude.

(** src/internal/gre/message.go:12-12 (GREHeaderFieldLength) *)
Definition GREHeaderFieldLength : Z := 8.
(** src/internal/gre/message.go:13-13 (GREHeaderKeyFieldLength) *)
Definition GREHeaderKeyFieldLength : Z := 4.
(** src/internal/gre/message.go:18-18 (IPv4) *)
Definition IPv4 : Z := 0x0800.
(** src/internal/gre/message.go:19-19 (IPv6) *)
Definition IPv6 : Z := 0x86DD.

(** src/internal/gre/message.go:22-28 (GREPacket) *)
Record GREPacket := mkGRE {
  flags : Z;
  version : Z;
  protocolType : Z;
  key : Z;
  payload : bytes;
}.

(** The zero value [GREPacket{}]. *)
Definition empty_packet : GREPacket := mkGRE 0 0 0 0 [].

(** The fields hold values of their Go types. *)
Definition packet_ok (p : GREPacket) : Prop :=
  is_byte (flags p) ∧ is_byte (version p) ∧ is_u16 (protocolType p) ∧
  is_u32 (key p) ∧ bytes_ok (payload p).

(** src/internal/gre/message.go:30-39 (GREPacket.Marshal) *)
Definition Marshal (p : GREPacket) : bytes :=
  [flags p; version p] ++ be_put 2 (protocolType p) ++ be_put 4 (key p) ++ payload p.

(** src/internal/gre/message.go:78-80 (GREPacket.GetKeyFlag) *)
Definition GetKeyFlag (p : GREPacket) : bool := bool_decide (Z.land (flags p) 0x20 > 0).

(** src/internal/gre/message.go:41-63 (GREPacket.Unmarshal)

    The receiver's fields that the buffer does not carry keep their values, and
    the payload is appended to the receiver's. *)
Definition Unmarshal (p : GREPacket) (b : bytes) : res GREPacket :=
  if decide (len b < 4) then Err "GRE packet too short"
  else
    f ← at_ b 0;
    v ← at_ b 1;
    pt ← slice b 2 4;
    let p1 := mkGRE f v (be_get pt) (key p) (payload p) in
    let offset := 4 in
    '(p2, offset) ←
      (if GetKeyFlag p1 then
         if decide (len b < offset + GREHeaderKeyFieldLength)
         then Err "GRE packet too short for Key field"
         else
           k ← slice b offset (offset + GREHeaderKeyFieldLength);
           Ok (mkGRE (flags p1) (version p1) (protocolType p1) (be_get k) (payload p1),
               offset + GREHeaderKeyFieldLength)
       else Ok (p1, offset));
    rest ← slice_from b offset;
    Ok (mkGRE (flags p2) (version p2) (protocolType p2) (key p2) (payload p2 ++ rest)).

(** src/internal/gre/message.go:65-68 (GREPacket.SetPayload) *)
Definition SetPayload (p : GREPacket) (payload' : bytes) (protocolType' : Z) : GREPacket :=
  mkGRE (flags p) (version p) protocolType' (key p) payload'.

(** src/internal/gre/message.go:70-72 (GREPacket.GetPayload) *)
Definition GetPayload (p : GREPacket) : bytes * Z := (payload p, protocolType p).

(** src/internal/gre/message.go:74-76 (GREPacket.setKeyFlag) *)
Definition setKeyFlag (p : GREPacket) : GREPacket :=
  mkGRE (Z.lor (flags p) 0x20) (version p) (protocolType p) (key p) (payload p).

(** src/internal/gre/message.go:82-84 (GREPacket.setQFI) *)
Definition setQFI (p : GREPacket) (qfi : Z) : GREPacket :=
  mkGRE (flags p) (version p) (protocolType p)
    (Z.lor (key p) (u32 (Z.shiftl (Z.land qfi 0x3F) 24))) (payload p).

(** src/internal/gre/message.go:86-90 (GREPacket.setRQI) *)
Definition setRQI (p : GREPacket) (rqi : bool) : GREPacket :=
  if rqi then
    mkGRE (flags p) (version p) (protocolType p) (Z.lor (key p) 0x80) (payload p)
  else p.

(** src/internal/gre/message.go:92-100 (GREPacket.GetQFI) *)
Definition GetQFI (p : GREPacket) : res Z :=
  let value := Z.land (Z.shiftr (key p) 24) 0x3F in
  if decide (value > MaxUint8) then Err "GetQFI() value exceeds uint8" else Ok (u8 value).

(** src/internal/gre/message.go:102-104 (GREPacket.GetRQI) *)
Definition GetRQI (p : GREPacket) : bool := bool_decide (Z.land (key p) 0x80 > 0).

(** src/internal/gre/message.go:106-108 (GREPacket.GetKeyField) *)
Definition GetKeyField (p : GREPacket) : Z := key p.

(** src/internal/gre/message.go:110-114 (GREPacket.SetQoS) *)
Definition SetQoS (p : GREPacket) (qfi : Z) (rqi : bool) : GREPacket :=
  setKeyFlag (setRQI (setQFI p qfi) rqi).

(** ** Parsing

    [Unmarshal] is total on byte slices: it panics on none, and it fails on
    exactly the buffers that are too short for the fields their flags announce. *)
Definition gre_short (b : bytes) : bool :=
  bool_decide (len b < 4) ||
  (bool_decide (Z.land (default 0 (b !! 0%nat)) 0x20 > 0) && bool_decide (len b < 8)).

Lemma Unmarshal_eq p b :
  Unmarshal p b =
    match b with
    | f :: v :: p1 :: p2 :: rest =>
        if bool_decide (Z.land f 0x20 > 0) then
          match rest with
          | k1 :: k2 :: k3 :: k4 :: rest =>
              Ok (mkGRE f v (be_get [p1; p2]) (be_get [k1; k2; k3; k4]) (payload p ++ rest))
          | _ => Err "GRE packet too short for Key field"
          end
        else Ok (mkGRE f v (be_get [p1; p2]) (key p) (payload p ++ rest))
    | _ => Err "GRE packet too short"
    end.
Proof.
  unfold Unmarshal, GetKeyFlag.
  destruct b as [|f [|v [|p1 [|p2 rest]]]]; try reflexivity.
  rewrite decide_False by len_lia.
  change (at_ (f :: v :: p1 :: p2 :: rest) 0) with (Ok f). cbn [mbind res_bind].
  change (at_ (f :: v :: p1 :: p2 :: rest) 1) with (Ok v). cbn [mbind res_bind].
  rewrite (slice_ok _ 2 4) by len_lia. cbn [mbind res_bind flags].
  destruct (bool_decide _).
  - destruct rest as [|k1 [|k2 [|k3 [|k4 rest]]]]; try reflexivity.
    unfold GREHeaderKeyFieldLength. rewrite decide_False by len_lia.
    rewrite slice_ok by len_lia. cbn [mbind res_bind].
    rewrite slice_from_ok by len_lia. reflexivity.
  - cbn [mbind res_bind]. rewrite slice_from_ok by len_lia. reflexivity.
Qed.

Lemma Unmarshal_app p f v pt k rest :
  is_u16 pt → is_u32 k →
  Unmarshal p ([f; v] ++ be_put 2 pt ++ be_put 4 k ++ rest) =
    Ok (if bool_decide (Z.land f 0x20 > 0)
        then mkGRE f v pt k (payload p ++ rest)
        else mkGRE f v pt (key p) (payload p ++ be_put 4 k ++ rest)).
Proof.
  intros Hpt%be_get_put16 Hk%be_get_put32.
  destruct (be_put_2 pt) as (? & ? & E1), (be_put_4 k) as (? & ? & ? & ? & E2).
  rewrite E1, E2 in *. rewrite Unmarshal_eq. simpl. rewrite Hpt, Hk. by case_bool_decide.
Qed.

(** *** QoS bits in the key field *)
Lemma setQFI_bits qfi i :
  0 ≤ i → Z.testbit (u32 (Z.shiftl (Z.land qfi 0x3F) 24)) i =
    bool_decide (24 ≤ i < 30) && Z.testbit qfi (i - 24).
Proof.
  intros Hi. unfold u32. change 0x3F with (Z.ones 6).
  destruct (decide (i < 32)).
  - rewrite Z.mod_pow2_bits_low by lia.
    rewrite Z.shiftl_spec, Z.land_spec by lia. destruct (decide (24 ≤ i)).
    + destruct (decide (i < 30)).
      * rewrite Z.ones_spec_low, bool_decide_true by lia. apply andb_true_r.
      * rewrite Z.ones_spec_high, bool_decide_false by lia. apply andb_false_r.
    + rewrite bool_decide_false by lia. by rewrite (Z.testbit_neg_r qfi) by lia.
  - rewrite Z.mod_pow2_bits_high, bool_decide_false by lia. done.
Qed.

Lemma land_ones_small x n : 0 ≤ n → 0 ≤ x < 2 ^ n → Z.land x (Z.ones n) = x.
Proof. intros. rewrite Z.land_ones by lia. apply Z.mod_small. lia. Qed.

Lemma QFI_field_range k : 0 ≤ Z.land (Z.shiftr k 24) 0x3F < 64.
Proof. change 0x3F with (Z.ones 6). rewrite Z.land_ones by lia. apply Z.mod_pos_bound. lia. Qed.

Lemma GetQFI_ok p : GetQFI p = Ok (Z.land (Z.shiftr (key p) 24) 0x3F).
Proof.
  unfold GetQFI, MaxUint8. pose proof (QFI_field_range (key p)).
  rewrite decide_False by lia. rewrite u8_id by (unfold is_byte; lia). done.
Qed.

Lemma testbit_0x80 i : Z.testbit 0x80 i = bool_decide (i = 7).
Proof. change 0x80 with (2 ^ 7). rewrite Z.pow2_bits_eqb by lia. case_bool_decide; lia. Qed.

Lemma land_pow2_pos x n : 0 ≤ n → bool_decide (Z.land x (2 ^ n) > 0) = Z.testbit x n.
Proof.
  intros Hn. assert (Z.land x (2 ^ n) = if Z.testbit x n then 2 ^ n else 0) as ->.
  { apply Z.bits_inj'. intros i Hi. rewrite Z.land_spec, Z.pow2_bits_eqb by lia.
    destruct (Z.eqb_spec n i) as [->|].
    - destruct (Z.testbit x i); [by rewrite Z.pow2_bits_true|by rewrite Z.bits_0].
    - rewrite andb_false_r. destruct (Z.testbit x n); [|by rewrite Z.bits_0].
      symmetry. apply Z.pow2_bits_false. lia. }
  pose proof (Z.pow_pos_nonneg 2 n). destruct (Z.testbit x n); case_bool_decide; lia.
Qed.

Lemma SetQoS_flag p qfi rqi : GetKeyFlag (SetQoS p qfi rqi) = true.
Proof.
  unfold GetKeyFlag. change 0x20 with (2 ^ 5). rewrite land_pow2_pos by lia.
  unfold SetQoS, setKeyFlag, setRQI, setQFI. destruct rqi; cbn [flags];
  rewrite Z.lor_spec; apply orb_true_r.
Qed.

Lemma SetQoS_key_bits p qfi rqi i :
  0 ≤ i →
  Z.testbit (key (SetQoS p qfi rqi)) i =
    Z.testbit (key p) i || (bool_decide (24 ≤ i < 30) && Z.testbit qfi (i - 24))
      || (rqi && bool_decide (i = 7)).
Proof.
  intros Hi. unfold SetQoS, setKeyFlag, setRQI, setQFI.
  destruct rqi; cbn [key]; rewrite ?Z.lor_spec, setQFI_bits, ?testbit_0x80 by done;
    by rewrite ?orb_false_r.
Qed.

(** The key field written for a QoS flow stays a 32-bit word. *)
Lemma SetQoS_key_u32 p qfi rqi : is_u32 (key p) → is_u32 (key (SetQoS p qfi rqi)).
Proof.
  intros Hk. unfold is_u32, SetQoS, setKeyFlag, setRQI, setQFI in *.
  destruct rqi; cbn [key]; repeat apply lor_bounded; auto with go_bytes; try lia; apply u32_range.
Qed.

Lemma GetRQI_SetQoS p qfi rqi : GetRQI (SetQoS p qfi rqi) = GetRQI p || rqi.
Proof.
  unfold GetRQI. change 0x80 with (2 ^ 7). rewrite !land_pow2_pos, SetQoS_key_bits by lia.
  rewrite bool_decide_false, bool_decide_true by lia. by rewrite andb_true_r, andb_false_l, orb_false_r.
Qed.

Lemma GetQFI_SetQoS p qfi rqi :
  GetQFI (SetQoS p qfi rqi) =
    Ok (Z.lor (Z.land (Z.shiftr (key p) 24) 0x3F) (Z.land qfi 0x3F)).
Proof.
  rewrite GetQFI_ok. f_equal. apply Z.bits_inj'. intros i Hi. change 0x3F with (Z.ones 6).
  rewrite Z.lor_spec, !Z.land_spec, !Z.shiftr_spec, SetQoS_key_bits by lia.
  replace (i + 24 - 24) with i by lia. rewrite (bool_decide_false (i + 24 = 7)) by lia.
  destruct (decide (i < 6)).
  - rewrite Z.ones_spec_low, bool_decide_true by lia. by rewrite !andb_true_r, andb_false_r, orb_false_r.
  - rewrite Z.ones_spec_high by lia. by rewrite !andb_false_r.
Qed.

(** ** Properties *)

(** A packet whose key flag is set survives [Marshal] then [Unmarshal]: flags,
    version, protocol type and key are restored and the payload is appended to
    the receiver's. *)
Theorem Marshal_Unmarshal p q :
  packet_ok p → GetKeyFlag p = true →
  Unmarshal q (Marshal p) =
    Ok (mkGRE (flags p) (version p) (protocolType p) (key p) (payload q ++ payload p)).
Proof.
  intros (_ & _ & Hpt & Hk & _) Hf. unfold Marshal, GetKeyFlag in *.
  rewrite Unmarshal_app by done. by rewrite Hf.
Qed.

Lemma Marshal_Unmarshal_witness :
  Unmarshal empty_packet (Marshal (SetQoS (SetPayload empty_packet [69; 0; 1] IPv4) 9 true)) =
    Ok (mkGRE 0x20 0 IPv4 0x09000080 [69; 0; 1]).
Proof.
  apply (Marshal_Unmarshal (mkGRE 0x20 0 IPv4 0x09000080 [69; 0; 1]) empty_packet).
  - vm_compute; repeat constructor; discriminate.
  - reflexivity.
Defined.

(** [Marshal] always writes the 4-byte key field, also when the key flag is
    clear, and [Unmarshal] then reads it as the first 4 bytes of the payload:
    the two are not inverse on packets without key. *)
Theorem Marshal_without_key_flag p q :
  packet_ok p → GetKeyFlag p = false →
  Unmarshal q (Marshal p) =
    Ok (mkGRE (flags p) (version p) (protocolType p) (key q)
          (payload q ++ be_put 4 (key p) ++ payload p)).
Proof.
  intros (_ & _ & Hpt & Hk & _) Hf. unfold Marshal, GetKeyFlag in *.
  rewrite Unmarshal_app by done. by rewrite Hf.
Qed.

Lemma Marshal_without_key_flag_witness :
  Unmarshal empty_packet (Marshal (SetPayload empty_packet [7] IPv4)) =
    Ok (mkGRE 0 0 IPv4 0 [0; 0; 0; 0; 7]).
Proof.
  apply (Marshal_without_key_flag (mkGRE 0 0 IPv4 0 [7]) empty_packet).
  - vm_compute; repeat constructor; discriminate.
  - reflexivity.
Defined.

(** [Unmarshal] panics on no buffer and fails on exactly the buffers too short
    for the header that their flags announce. *)
Theorem Unmarshal_total p b :
  panics (Unmarshal p b) = false ∧ (is_ok (Unmarshal p b) = negb (gre_short b)).
Proof.
  rewrite Unmarshal_eq. unfold gre_short.
  destruct b as [|f [|v [|p1 [|p2 rest]]]]; try (split; reflexivity).
  change (default 0 ((f :: v :: p1 :: p2 :: rest) !! 0%nat)) with f.
  rewrite (bool_decide_false (len _ < 4)) by len_lia. simpl.
  destruct (bool_decide (Z.land f 32 > 0)); simpl; [|done].
  destruct rest as [|k1 [|k2 [|k3 [|k4 rest]]]]; try (split; reflexivity).
  rewrite bool_decide_false by len_lia. done.
Qed.

(** The peer reads back the packet that was built on a fresh one. *)
Lemma SetQoS_fields pl pt qfi rqi :
  let p := SetQoS (SetPayload empty_packet pl pt) qfi rqi in
  GetPayload p = (pl, pt) ∧ GetQFI p = Ok (Z.land qfi 0x3F) ∧ GetRQI p = rqi.
Proof.
  split; [by destruct rqi|]. split; [by rewrite GetQFI_SetQoS|by rewrite GetRQI_SetQoS].
Qed.

Lemma SetQoS_read_back pl pt qfi rqi :
  is_u16 pt →
  let p := SetQoS (SetPayload empty_packet pl pt) qfi rqi in Unmarshal empty_packet (Marshal p) = Ok p.
Proof.
  intros Hpt p. assert (protocolType p = pt ∧ is_u32 (key p)) as [E Hk].
  { split; [by destruct rqi|]. apply SetQoS_key_u32. vm_compute. by split. }
  pose proof (SetQoS_flag (SetPayload empty_packet pl pt) qfi rqi) as Hf. fold p in Hf.
  unfold Marshal. rewrite Unmarshal_app by congruence. unfold GetKeyFlag in Hf. rewrite Hf.
  clear. clearbody p. by destruct p.
Qed.

(** C38. Downlink QoS marking: a GRE packet built for a T-PDU with QFI [qfi] and RQI
    [rqi] on a fresh packet is decoded by the peer to the same payload, the low six
    bits of the QFI and the same RQI. *)
Theorem SetQoS_Marshal_roundtrip pl pt qfi rqi :
  is_u16 pt →
  ∃ p', Unmarshal empty_packet (Marshal (SetQoS (SetPayload empty_packet pl pt) qfi rqi)) = Ok p' ∧
    GetPayload p' = (pl, pt) ∧ GetKeyFlag p' = true ∧
    GetQFI p' = Ok (Z.land qfi 0x3F) ∧ GetRQI p' = rqi.
Proof.
  intros Hpt. exists (SetQoS (SetPayload empty_packet pl pt) qfi rqi).
  destruct (SetQoS_fields pl pt qfi rqi) as (? & ? & ?).
  split; [by apply SetQoS_read_back|]. split; [done|]. split; [apply SetQoS_flag|done].
Qed.

Lemma SetQoS_Marshal_roundtrip_witness :
  ∃ p', Unmarshal empty_packet (Marshal (SetQoS (SetPayload empty_packet [1; 2] IPv4) 73 true)) = Ok p' ∧
    GetPayload p' = ([1; 2], IPv4) ∧ GetKeyFlag p' = true ∧
    GetQFI p' = Ok 9 ∧ GetRQI p' = true.
Proof. apply (SetQoS_Marshal_roundtrip [1; 2] IPv4 73 true). vm_compute. split; [discriminate|done]. Defined.
