(* ===== verification/GtpMsg.v ===== *)
(** * GTP-U T-PDUs with QoS parameters (internal/gtp/message/message.go)

    The wrapper around go-gtp's T-PDU that extracts the QoS flow identifier from
    the PDU session container, and the uplink packet builder. go-gtp itself is not
    part of the repository: its message structures are records of the fields the
    code reads, and the header marshaller is the parameter [marshal] of the
    builder. *)

From S2P Require Import Prelude.

(** The fields of go-gtp's ExtensionHeader and TPDU that the code reads. *)
Record ExtensionHeader := mkEH { eh_Type : Z; eh_Content : bytes; eh_NextType : Z }.
Record TPDU := mkTPDU {
  tpdu_TEID : Z;
  tpdu_Payload : bytes;
  tpdu_hasExt : bool;
  tpdu_ExtensionHeaders : list ExtensionHeader;
}.
(** The arguments of go-gtp's NewHeader(..).WithExtensionHeaders(..). *)
Record GtpHeader := mkGtpHeader {
  gh_flags : Z; gh_type : Z; gh_teid : Z; gh_seq : Z; gh_payload : bytes;
  gh_exts : list ExtensionHeader;
}.

(** Constants of go-gtp (3GPP TS 29.281 5.2.1 and 6.1). *)
Definition ExtHeaderTypePDUSessionContainer : Z := 0x85.
Definition ExtHeaderTypeNoMoreExtensionHeaders : Z := 0.
Definition MsgTypeTPDU : Z := 255.

(** src/internal/gtp/message/message.go:14-14 (DL_PDU_SESSION_INFORMATION_TYPE) *)
Definition DL_PDU_SESSION_INFORMATION_TYPE : Z := 0x00.
(** src/internal/gtp/message/message.go:15-15 (UL_PDU_SESSION_INFORMATION_TYPE) *)
Definition UL_PDU_SESSION_INFORMATION_TYPE : Z := 0x10.

(** src/internal/gtp/message/message.go:18-23 (QoSTPDUPacket) *)
Record QoSTPDUPacket := mkQoS { tPDU : option TPDU; qos : bool; rqi : bool; qfi : Z }.

Definition empty_qos : QoSTPDUPacket := mkQoS None false false 0.

Definition nil_deref : string := "invalid memory address or nil pointer dereference".
Definition deref {A} (o : option A) : res A :=
  match o with Some a => Ok a | None => Panic nil_deref end.

(** src/internal/gtp/message/message.go:25-27 (QoSTPDUPacket.GetPayload) *)
Definition GetPayload (p : QoSTPDUPacket) : res bytes := t ← deref (tPDU p); Ok (tpdu_Payload t).
(** src/internal/gtp/message/message.go:29-31 (QoSTPDUPacket.GetTEID) *)
Definition GetTEID (p : QoSTPDUPacket) : res Z := t ← deref (tPDU p); Ok (tpdu_TEID t).
(** src/internal/gtp/message/message.go:33-35 (QoSTPDUPacket.GetExtensionHeader) *)
Definition GetExtensionHeader (p : QoSTPDUPacket) : res (list ExtensionHeader) :=
  t ← deref (tPDU p); Ok (tpdu_ExtensionHeaders t).
(** src/internal/gtp/message/message.go:37-39 (QoSTPDUPacket.HasQoS) *)
Definition HasQoS (p : QoSTPDUPacket) : bool := qos p.
(** src/internal/gtp/message/message.go:41-43 (QoSTPDUPacket.GetQoSParameters) *)
Definition GetQoSParameters (p : QoSTPDUPacket) : Z * bool := (qfi p, rqi p).

(** src/internal/gtp/message/message.go:63-74 (QoSTPDUPacket.unmarshalExtensionHeader)

    One pass over the extension headers; a container sets the three fields. *)
Fixpoint scan_headers (p : QoSTPDUPacket) (ehs : list ExtensionHeader) : res QoSTPDUPacket :=
  match ehs with
  | [] => Ok p
  | eh :: ehs =>
      if decide (eh_Type eh = ExtHeaderTypePDUSessionContainer) then
        c ← at_ (eh_Content eh) 1;
        scan_headers
          (mkQoS (tPDU p) true (bool_decide (Z.land (Z.shiftr c 6) 0x1 = 1)) (Z.land c 0x3F)) ehs
      else scan_headers p ehs
  end.

(** src/internal/gtp/message/message.go:60-81 (QoSTPDUPacket.unmarshalExtensionHeader) *)
Definition unmarshalExtensionHeader (p : QoSTPDUPacket) : res QoSTPDUPacket :=
  ehs ← GetExtensionHeader p;
  p ← scan_headers p ehs;
  if qos p then Ok p else Err "no PDUSessionContainer in ExtensionHeaders".

(** src/internal/gtp/message/message.go:45-54 (QoSTPDUPacket.Unmarshal) *)
Definition Unmarshal (p : QoSTPDUPacket) (pdu : TPDU) : res QoSTPDUPacket :=
  let p := mkQoS (Some pdu) (qos p) (rqi p) (qfi p) in
  if tpdu_hasExt pdu then unmarshalExtensionHeader p else Ok p.

(** src/internal/gtp/message/message.go:83-98 (BuildQoSGTPPacket)

    [marshal] is go-gtp's header marshaller (None when it fails). *)
Definition BuildQoSGTPPacket (marshal : GtpHeader → option bytes) (teid qfi : Z) (payload : bytes) : res bytes :=
  let header := mkGtpHeader 0x34 MsgTypeTPDU teid 0x00 payload
    [mkEH ExtHeaderTypePDUSessionContainer [UL_PDU_SESSION_INFORMATION_TYPE; qfi]
       ExtHeaderTypeNoMoreExtensionHeaders] in
  match marshal header with
  | Some b => Ok b
  | None => Err "go-gtp Marshal failed"
  end.

(** ** Lemmas *)
Definition is_container (eh : ExtensionHeader) : Prop :=
  eh_Type eh = ExtHeaderTypePDUSessionContainer.
#[global] Instance is_container_dec eh : Decision (is_container eh).
Proof. unfold is_container. apply _. Defined.

(** The container that decides the QoS parameters: the last one. *)
Definition last_container (ehs : list ExtensionHeader) : option ExtensionHeader :=
  last (filter is_container ehs).

Definition container_qos (t : option TPDU) (eh : ExtensionHeader) : QoSTPDUPacket :=
  let c := default 0 (eh_Content eh !! 1%nat) in
  mkQoS t true (Z.testbit c 6) (Z.land c 0x3F).

Lemma rqi_bit c : bool_decide (Z.land (Z.shiftr c 6) 1 = 1) = Z.testbit c 6.
Proof.
  pose proof (Z.land_ones (Z.shiftr c 6) 1) as E. change (Z.ones 1) with 1 in E.
  rewrite E by lia. change (2 ^ 1) with 2. rewrite <- Z.bit0_mod, Z.shiftr_spec by lia.
  change (0 + 6) with 6. by destruct (Z.testbit c 6).
Qed.

Lemma scan_headers_ok p ehs :
  Forall (λ eh, is_container eh → 2 ≤ len (eh_Content eh)) ehs →
  scan_headers p ehs =
    Ok (match last_container ehs with Some eh => container_qos (tPDU p) eh | None => p end).
Proof.
  intros H. revert p. induction H as [|eh ehs Heh _ IH]; intros p; [done|]. simpl.
  unfold last_container in *. rewrite filter_cons. fold (is_container eh).
  destruct (decide (is_container eh)) as [E|E].
  - destruct (at_ok (eh_Content eh) 1) as (c & -> & Hc).
    { specialize (Heh E). lia. }
    simpl. rewrite IH, last_cons, rqi_bit.
    destruct (last _); [done|]. unfold container_qos.
    change (Z.to_nat 1) with 1%nat in Hc. by rewrite Hc.
  - by rewrite IH.
Qed.

Lemma scan_headers_panic p ehs :
  Exists (λ eh, is_container eh ∧ len (eh_Content eh) < 2) ehs →
  panics (scan_headers p ehs) = true.
Proof.
  intros H. revert p. induction H as [eh ehs [Hc Hl]|eh ehs _ IH]; intros p; simpl.
  - rewrite decide_True by done.
    unfold at_. rewrite decide_True by lia.
    rewrite lookup_ge_None_2; [done|]. unfold len in Hl. lia.
  - case_decide; [|apply IH]. destruct (at_ (eh_Content eh) 1) eqn:E; simpl; [apply IH| |done].
    unfold at_ in E. repeat case_match; discriminate.
Qed.

(** ** Properties *)

(** C39. QoS extraction of a downlink T-PDU whose PDU session containers carry at
    least two octets: without the extension-header flag no QoS is recorded; with
    it the last PDU session container decides RQI (bit 6) and QFI (low six bits
    of the second octet), and a T-PDU without container is an error. *)
Theorem Unmarshal_spec pdu :
  Forall (λ eh, is_container eh → 2 ≤ len (eh_Content eh)) (tpdu_ExtensionHeaders pdu) →
  Unmarshal empty_qos pdu =
    (if tpdu_hasExt pdu then
       match last_container (tpdu_ExtensionHeaders pdu) with
       | Some eh => Ok (container_qos (Some pdu) eh)
       | None => Err "no PDUSessionContainer in ExtensionHeaders"
       end
     else Ok (mkQoS (Some pdu) false false 0)).
Proof.
  intros H. unfold Unmarshal, unmarshalExtensionHeader, GetExtensionHeader. simpl.
  destruct (tpdu_hasExt pdu); [|done]. rewrite scan_headers_ok by done. simpl.
  by destruct (last_container _).
Qed.

Lemma Unmarshal_spec_witness :
  Unmarshal empty_qos (mkTPDU 7 [1] true [mkEH 0x85 [0; 0x49] 0xC0; mkEH 0xC0 [] 0x85; mkEH 0x85 [0; 5] 0]) =
    Ok (mkQoS (Some (mkTPDU 7 [1] true [mkEH 0x85 [0; 0x49] 0xC0; mkEH 0xC0 [] 0x85; mkEH 0x85 [0; 5] 0])) true false 5).
Proof.
  apply (Unmarshal_spec (mkTPDU 7 [1] true [mkEH 0x85 [0; 0x49] 0xC0; mkEH 0xC0 [] 0x85; mkEH 0x85 [0; 5] 0])).
  repeat constructor; vm_compute; discriminate.
Defined.

(** A PDU session container with fewer than two octets makes the T-PDU handler
    panic: the content is indexed without a length check. *)
Theorem Unmarshal_short_container_panics p pdu :
  tpdu_hasExt pdu = true →
  Exists (λ eh, is_container eh ∧ len (eh_Content eh) < 2) (tpdu_ExtensionHeaders pdu) →
  panics (Unmarshal p pdu) = true.
Proof.
  intros Hx He. unfold Unmarshal, unmarshalExtensionHeader, GetExtensionHeader. rewrite Hx. simpl.
  pose proof (scan_headers_panic (mkQoS (Some pdu) (qos p) (rqi p) (qfi p)) _ He).
  by destruct (scan_headers _ _).
Qed.

Lemma Unmarshal_short_container_panics_witness :
  panics (Unmarshal empty_qos (mkTPDU 7 [1] true [mkEH 0x85 [0] 0])) = true.
Proof.
  apply Unmarshal_short_container_panics; [done|]. constructor. by split.
Defined.
