(* ===== verification/Nas.v ===== *)
(** * NAS envelopes (internal/nas/nas_security/security.go, internal/nwucp/server.go)

    NAS messages cross the NWu interface as TS 24.502 envelopes (two octets of
    length, then the message) over the TCP connection of the signalling SA. The
    writer is [EncapNasMsgToEnvelope]; the reader is the loop of [serveConn], here a
    function from the octets the peer sends before it closes to the messages handed
    to [forward], in the order in which the goroutines are started. *)

From S2P Require Import Prelude.

(** src/pkg/factory/config.go:32-32 (MAX_BUF_MSG_LEN) *)
Definition MAX_BUF_MSG_LEN : Z := 65535.

(** src/internal/nas/nas_security/security.go:8-18 (EncapNasMsgToEnvelope) *)
Definition EncapNasMsgToEnvelope (nasPDU : bytes) : bytes :=
  be_put 2 (u16 (len nasPDU)) ++ nasPDU.

(** io.ReadFull on the rest of the stream: [n] octets, or nothing when fewer are
    left (io.EOF, io.ErrUnexpectedEOF). *)
Definition ReadFull (n : Z) (stream : bytes) : option (bytes * bytes) :=
  if decide (n ≤ len stream) then Some (take (Z.to_nat n) stream, drop (Z.to_nat n) stream) else None.

(** What one turn of the loop does: stop, or forward a message and go on with the
    buffer of capacity [cap]. *)
Inductive turn := TurnStop | TurnForward (msg : bytes) (cap : Z) (rest : bytes) | TurnPanic.

(** src/internal/nwucp/server.go:160-185 (serveConn)

    One iteration: [cap] is the capacity of the reader's buffer. *)
Definition serveConn_turn (cap : Z) (stream : bytes) : turn :=
  if decide (cap < 2) then TurnPanic
  else
  match ReadFull 2 stream with
  | None => TurnStop
  | Some (hd, stream) =>
      let nasLen := be_get hd in
      let cap := if decide (nasLen > cap) then nasLen else cap in
      match ReadFull nasLen stream with
      | None => TurnStop
      | Some (msg, stream) => TurnForward msg cap stream
      end
  end.

(** The result of the connection loop: the messages forwarded, and whether it
    ended by a read error (after which the connection of the UE is cleared). *)
Inductive conn_end := ConnClosed | ConnPanicked | ConnOutOfFuel.

(** src/internal/nwucp/server.go:143-186 (serveConn) *)
Fixpoint serveConn_loop (fuel : nat) (cap : Z) (stream : bytes) : list bytes * conn_end :=
  match fuel with
  | O => ([], ConnOutOfFuel)
  | S fuel =>
      match serveConn_turn cap stream with
      | TurnStop => ([], ConnClosed)
      | TurnPanic => ([], ConnPanicked)
      | TurnForward msg cap rest =>
          let '(msgs, e) := serveConn_loop fuel cap rest in (msg :: msgs, e)
      end
  end.

(** Each turn consumes at least two octets, so one more turn than octets is enough. *)
Definition serveConn_msgs (stream : bytes) : list bytes * conn_end :=
  serveConn_loop (S (length stream)) MAX_BUF_MSG_LEN stream.

(** ** Lemmas *)
Lemma ReadFull_app xs ys : ReadFull (len xs) (xs ++ ys) = Some (xs, ys).
Proof.
  unfold ReadFull. rewrite decide_True by len_lia.
  unfold len. rewrite Nat2Z.id, take_app_length, drop_app_length. done.
Qed.

Lemma ReadFull_inv n s xs ys :
  0 ≤ n → ReadFull n s = Some (xs, ys) → s = xs ++ ys ∧ len xs = n.
Proof.
  unfold ReadFull. intros Hn. case_decide; [|done]. intros [= <- <-].
  rewrite take_drop. split; [done|]. unfold len in *. rewrite length_take. lia.
Qed.

Lemma serveConn_turn_envelope cap m rest :
  2 ≤ cap → len m < 2 ^ 16 →
  serveConn_turn cap (EncapNasMsgToEnvelope m ++ rest) = TurnForward m (Z.max cap (len m)) rest.
Proof.
  intros Hc Hm. assert (is_u16 (len m)) by (unfold is_u16; len_lia).
  unfold serveConn_turn, EncapNasMsgToEnvelope. rewrite decide_False by lia.
  rewrite u16_id, <- app_assoc by done.
  replace 2 with (len (be_put 2 (len m))) at 1 by len_lia.
  rewrite ReadFull_app, be_get_put16, ReadFull_app by done.
  f_equal. case_decide; lia.
Qed.

Lemma serveConn_turn_rest cap s m cap' rest :
  bytes_ok s → serveConn_turn cap s = TurnForward m cap' rest →
  bytes_ok rest ∧ (length rest < length s)%nat ∧ cap ≤ cap' ∧ len m < 2 ^ 16 ∧
  s = EncapNasMsgToEnvelope m ++ rest.
Proof.
  unfold serveConn_turn. intros Hs. case_decide; [done|].
  destruct (ReadFull 2 s) as [[hd s']|] eqn:E1; [|done].
  apply ReadFull_inv in E1 as [-> Hhd]; [|lia]. apply Forall_app in Hs as [Hhd' Hs'].
  assert (is_u16 (be_get hd)) as Hu by (apply be_get_u16; [done|unfold len in Hhd; lia]).
  destruct (ReadFull (be_get hd) s') as [[m' s'']|] eqn:E2; [|done].
  apply ReadFull_inv in E2 as [-> Hm]; [|unfold is_u16 in Hu; lia].
  apply Forall_app in Hs' as [_ ?]. intros [= -> <- ->]. split; [done|].
  split; [rewrite !length_app; unfold len in Hhd; lia|]. split; [case_decide; lia|].
  unfold is_u16 in Hu. split; [lia|]. unfold EncapNasMsgToEnvelope. rewrite Hm, u16_id by done.
  rewrite <- app_assoc. f_equal.
  destruct hd as [|a [|b []]]; try (unfold len in Hhd; simpl in Hhd; lia).
  inversion Hhd' as [|? ? Ha Hb']; inversion Hb' as [|? ? Hb _]; subst. unfold is_byte in *.
  unfold be_get; simpl. change (256 ^ Z.of_nat 1) with 256. change (256 ^ Z.of_nat 0) with 1.
  unfold u8. rewrite Z.div_1_r. f_equal; [|f_equal].
  - rewrite Z.div_add_l by lia. rewrite Z.div_small by lia. rewrite Z.mod_small; lia.
  - rewrite Z.add_comm, Z.mul_comm. change (2 ^ 8) with 256.
    rewrite (Z.mul_comm 256). rewrite Z.mod_add by lia. rewrite Z.mod_small; lia.
Qed.

Lemma serveConn_loop_envelopes fuel cap ms tail :
  2 ≤ cap → Forall (λ m, len m < 2 ^ 16) ms → (length ms < fuel)%nat →
  (∀ cap', cap ≤ cap' → serveConn_turn cap' tail = TurnStop) →
  serveConn_loop fuel cap (concat (map EncapNasMsgToEnvelope ms) ++ tail) = (ms, ConnClosed).
Proof.
  intros Hc Hms. revert fuel cap Hc. induction Hms as [|m ms Hm _ IH]; intros fuel cap Hc Hf Ht.
  { destruct fuel; [lia|]. simpl. by rewrite Ht. }
  destruct fuel as [|fuel]; simpl in Hf; [lia|]. cbn [serveConn_loop map concat].
  rewrite <- (app_assoc (EncapNasMsgToEnvelope m)), serveConn_turn_envelope by done.
  rewrite IH; [done|lia|lia|]. intros. apply Ht. lia.
Qed.

Lemma length_envelopes ms : (length ms ≤ length (concat (map EncapNasMsgToEnvelope ms)))%nat.
Proof. 
  induction ms; [simpl; lia|]. cbn [map concat]. unfold EncapNasMsgToEnvelope at 1.
  rewrite !length_app, length_be_put. simpl in *. lia.
Qed.

Lemma turn_short_tail cap tail :
  2 ≤ cap → len tail < 2 → serveConn_turn cap tail = TurnStop.
Proof.
  intros ? ?. unfold serveConn_turn, ReadFull. rewrite decide_False by lia.
  by rewrite decide_False by lia.
Qed.

Lemma turn_cut_tail cap m n :
  2 ≤ cap → len m < 2 ^ 16 → 2 ≤ n < 2 + len m →
  serveConn_turn cap (take (Z.to_nat n) (EncapNasMsgToEnvelope m)) = TurnStop.
Proof.
  intros Hc Hm Hn. assert (is_u16 (len m)) by (unfold is_u16; len_lia).
  unfold EncapNasMsgToEnvelope. rewrite u16_id by done.
  rewrite take_app_ge by (rewrite length_be_put; lia). rewrite length_be_put.
  unfold serveConn_turn. rewrite decide_False by lia.
  replace 2 with (len (be_put 2 (len m))) at 1 by len_lia.
  rewrite ReadFull_app, be_get_put16 by done.
  unfold ReadFull. rewrite decide_False; [done|].
  unfold len in *. rewrite length_take. lia.
Qed.

(** ** Properties *)

(** C34. Framing round trip on the NWu control plane: for any sequence of NAS
    messages shorter than 2^16 octets, the connection loop reads from the
    concatenation of their envelopes exactly these messages in order, and
    an envelope cut off by the end of the stream adds nothing; the loop ends by the
    read error, never by a panic. *)
Theorem serveConn_envelopes ms m n :
  Forall (λ m, len m < 2 ^ 16) ms → len m < 2 ^ 16 → 0 ≤ n < 2 + len m →
  serveConn_msgs (concat (map EncapNasMsgToEnvelope ms) ++ take (Z.to_nat n) (EncapNasMsgToEnvelope m))
    = (ms, ConnClosed).
Proof.
  intros Hms Hm Hn. unfold serveConn_msgs, MAX_BUF_MSG_LEN.
  apply serveConn_loop_envelopes; [lia|done| |].
  - rewrite length_app. pose proof (length_envelopes ms). lia.
  - intros cap' ?. destruct (decide (n < 2)).
    + apply turn_short_tail; [lia|]. unfold len. rewrite length_take. lia.
    + apply turn_cut_tail; lia.
Qed.

Lemma serveConn_envelopes_witness :
  serveConn_msgs [0; 2; 0x7E; 0x41; 0; 0; 0; 3; 0x7E] = ([[0x7E; 0x41]; []], ConnClosed).
Proof.
  apply (serveConn_envelopes [[0x7E; 0x41]; []] [0x7E; 1; 2] 3); [|vm_compute; done..].
  repeat constructor; vm_compute; done.
Defined.

(** The connection loop terminates on every stream without a panic, and the
    messages it forwards are exactly the envelopes at the start of the stream: their
    framing followed by the unread rest is the stream. *)
Theorem serveConn_sound stream :
  bytes_ok stream →
  ∃ ms rest, serveConn_msgs stream = (ms, ConnClosed) ∧
    stream = concat (map EncapNasMsgToEnvelope ms) ++ rest ∧
    Forall (λ m, len m < 2 ^ 16) ms.
Proof.
  unfold serveConn_msgs. intros Hs. assert (2 ≤ MAX_BUF_MSG_LEN) as Hc by (unfold MAX_BUF_MSG_LEN; lia).
  revert Hc. generalize MAX_BUF_MSG_LEN as cap.
  assert (length stream < S (length stream))%nat as Hf by lia. revert Hf.
  generalize (S (length stream)) as fuel. intros fuel. revert stream Hs.
  induction fuel as [|fuel IH]; intros s Hs Hf cap Hc; [lia|]. simpl.
  destruct (serveConn_turn cap s) as [|m cap' rest|] eqn:E.
  - exists [], s. by repeat constructor.
  - apply serveConn_turn_rest in E as (Hr & Hlt & Hcap & Hm & ->); [|done].
    destruct (IH rest Hr) with (cap := cap') as (ms & rest' & -> & -> & Hms); [lia|lia|].
    exists (m :: ms), rest'. simpl. rewrite app_assoc. repeat split. by constructor.
  - unfold serveConn_turn in E. repeat case_match; try discriminate. lia.
Qed.

Lemma serveConn_sound_witness :
  ∃ ms rest, serveConn_msgs [0; 1; 9; 0; 5] = (ms, ConnClosed) ∧
    [0; 1; 9; 0; 5] = concat (map EncapNasMsgToEnvelope ms) ++ rest ∧
    Forall (λ m, len m < 2 ^ 16) ms.
Proof. apply (serveConn_sound [0; 1; 9; 0; 5]). repeat constructor; vm_compute; done. Defined.

(** The grammar of the stream: envelopes of messages, then octets that no envelope starts. *)
Inductive framed : bytes → list bytes → Prop :=
| framed_end s : (∀ m rest, len m < 2 ^ 16 → s ≠ EncapNasMsgToEnvelope m ++ rest) → framed s []
| framed_msg m ms rest : len m < 2 ^ 16 → framed rest ms → framed (EncapNasMsgToEnvelope m ++ rest) (m :: ms).

Lemma turn_no_panic cap s : 2 ≤ cap → serveConn_turn cap s ≠ TurnPanic.
Proof. intros Hc E. unfold serveConn_turn in E. repeat case_match; try discriminate. lia. Qed.

Lemma serveConn_loop_framed fuel cap s ms e :
  bytes_ok s → (length s < fuel)%nat → 2 ≤ cap → serveConn_loop fuel cap s = (ms, e) ↔ e = ConnClosed ∧ framed s ms.
Proof.
  revert cap s ms e. induction fuel as [|fuel IH]; intros cap s ms e Hs Hf Hc; [lia|]. cbn [serveConn_loop].
  destruct (serveConn_turn cap s) as [|m cap' rest|] eqn:Et; [..|by apply turn_no_panic in Et].
  - assert (∀ m rest, len m < 2 ^ 16 → s ≠ EncapNasMsgToEnvelope m ++ rest) as Hno.
    { intros m rest Hm ->. by rewrite serveConn_turn_envelope in Et. }
    split; [intros [= <- <-]; split; [done|by constructor]|]. intros [-> Hfr].
    destruct Hfr as [|m ms rest Hm _]; [done|]. by destruct (Hno m rest Hm).
  - apply serveConn_turn_rest in Et as (Hr & Hlt & Hcap & Hm & ->); [|done].
    destruct (serveConn_loop fuel cap' rest) as [ms' e'] eqn:El. apply IH in El as [-> Hfr]; [|done|lia|lia].
    split; [intros [= <- <-]; split; [done|by constructor]|]. intros [-> Hfr'].
    remember (EncapNasMsgToEnvelope m ++ rest) as s eqn:E2 in Hfr'.
    destruct Hfr' as [s Hno|m2 ms2 rest2 Hm2 Hfr2]; [by destruct (Hno m rest Hm)|].
    assert (serveConn_turn cap (EncapNasMsgToEnvelope m ++ rest) = TurnForward m (Z.max cap (len m)) rest) as T1
      by by apply serveConn_turn_envelope.
    rewrite <- E2 in T1. rewrite (serveConn_turn_envelope cap m2 rest2) in T1 by done. injection T1 as -> _ ->.
    f_equal. f_equal. enough (serveConn_loop fuel cap' rest = (ms2, ConnClosed) ∧ serveConn_loop fuel cap' rest = (ms', ConnClosed)) as [E3 E4] by congruence.
    split; (apply IH; [done|lia|lia|done]).
Qed.

(** C35. The reader of a NAS connection is equivalent to the grammar of the stream: for every
    octet stream it ends by the read error, and it forwards a list of messages exactly if the
    stream is the sequence of their envelopes followed by octets with which no complete envelope
    starts. *)
Theorem serveConn_equiv stream ms e :
  bytes_ok stream → serveConn_msgs stream = (ms, e) ↔ e = ConnClosed ∧ framed stream ms.
Proof. intros Hs. apply serveConn_loop_framed; [done|lia|unfold MAX_BUF_MSG_LEN; lia]. Qed.

Lemma serveConn_equiv_witness : framed [0; 1; 9; 0; 5] [[9]].
Proof.
  apply (serveConn_equiv [0; 1; 9; 0; 5] [[9]] ConnClosed); [repeat constructor; vm_compute; done|vm_compute; reflexivity].
Defined.

(** C36. A message of 2^16 octets or more is framed with its length modulo 2^16:
    the envelope does not announce the message. *)
Theorem EncapNasMsgToEnvelope_truncates m :
  2 ^ 16 ≤ len m →
  be_get (take 2 (EncapNasMsgToEnvelope m)) = len m `mod` 2 ^ 16 ∧
  be_get (take 2 (EncapNasMsgToEnvelope m)) < len m.
Proof.
  intros Hm. unfold EncapNasMsgToEnvelope.
  rewrite take_app_le by (rewrite length_be_put; lia). rewrite take_ge by (rewrite length_be_put; lia).
  rewrite be_get_put16 by apply u16_range. split; [done|].
  pose proof (u16_range (len m)) as H. unfold is_u16 in H. lia.
Qed.

Lemma EncapNasMsgToEnvelope_truncates_witness :
  be_get (take 2 (EncapNasMsgToEnvelope (replicate (Z.to_nat 65538) 7))) = 2.
Proof.
  destruct (EncapNasMsgToEnvelope_truncates (replicate (Z.to_nat 65538) 7)) as [H _].
  - unfold len. rewrite length_replicate, Z2Nat.id; lia.
  - rewrite H. unfold len. rewrite length_replicate, Z2Nat.id; [reflexivity|lia].
Defined.
