(* ===== verification/NgapTypes.v ===== *)
(** * Values of the NGAP and ASN.1 libraries

    The structures of free5gc/ngap and free5gc/aper whose fields the N3IWF reads or
    writes. The libraries are not part of the repository; only their data types are
    transcribed here, their encoders and decoders are parameters where they are
    used. *)

From S2P Require Import Prelude.

(** aper.BitString *)
Record BitString := mkBits { bs_Bytes : bytes; bs_BitLength : Z }.

(** ngapType.SNSSAI: the SST octet and the optional three octets of SD. *)
Record SNSSAI := mkSNSSAI { SST : bytes; SD : option bytes }.

(** ngapType.GUAMI *)
Record GUAMI := mkGUAMI {
  guami_PLMNIdentity : bytes;
  guami_AMFRegionID : BitString;
  guami_AMFSetID : BitString;
  guami_AMFPointer : BitString;
}.

(** ngapType.Cause: the present group and the value in it. *)
Inductive CausePresent :=
  CauseRadioNetwork | CauseTransport | CauseNas | CauseProtocol | CauseMisc | CauseNothing.
Record Cause := mkCause { cause_Present : CausePresent; cause_Value : Z }.

#[global] Instance BitString_eq_dec : EqDecision BitString.
Proof. solve_decision. Defined.
#[global] Instance SNSSAI_eq_dec : EqDecision SNSSAI.
Proof. solve_decision. Defined.
#[global] Instance GUAMI_eq_dec : EqDecision GUAMI.
Proof. solve_decision. Defined.
#[global] Instance CausePresent_eq_dec : EqDecision CausePresent.
Proof. solve_decision. Defined.
#[global] Instance Cause_eq_dec : EqDecision Cause.
Proof. solve_decision. Defined.
