(* ===== verification/Util.v ===== *)
(** * Conversions to NGAP values (internal/util/ngap_convert.go)

    PLMN identities and N3IWF identifiers. Strings are ASCII strings; Go's
    strings.Split(s, "") is then the list of characters. *)

From Stdlib Require Import Ascii String.
From S2P Require Import Prelude NgapTypes.

(** src/pkg/factory/config.go:56-59 (PLMNID) *)
Record PLMNID := mkPLMN { Mcc : string; Mnc : string }.

(** src/pkg/factory/config.go:61-68 (SliceSupportItem and SNSSAIItem) *)
Record SliceSupportItem := mkSlice { ss_SST : Z; ss_SD : string }.
(** src/pkg/factory/config.go:51-54 (BroadcastPLMNItem) *)
Record BroadcastPLMNItem := mkBroadcast { bp_PLMNID : PLMNID; bp_TAISliceSupportList : list SliceSupportItem }.
(** src/pkg/factory/config.go:46-49 (SupportedTAItem) *)
Record SupportedTAItem := mkTA { ta_TAC : string; ta_BroadcastPLMNList : list BroadcastPLMNItem }.

Definition chars (s : string) : list ascii := list_ascii_of_string s.

(** encoding/hex.DecodeString: the octets decoded before the first invalid
    character, and whether there was an error. *)
Definition fromHexChar (c : ascii) : option Z :=
  let n := Z.of_N (N_of_ascii c) in
  if decide (48 ≤ n ≤ 57) then Some (n - 48)
  else if decide (97 ≤ n ≤ 102) then Some (n - 97 + 10)
  else if decide (65 ≤ n ≤ 70) then Some (n - 65 + 10)
  else None.

Fixpoint hexDecode (s : list ascii) : bytes * bool :=
  match s with
  | [] => ([], true)
  | [_] => ([], false)
  | p :: q :: s =>
      match fromHexChar p, fromHexChar q with
      | Some a, Some b => let '(bs, ok) := hexDecode s in (Z.lor (Z.shiftl a 4) b :: bs, ok)
      | _, _ => ([], false)
      end
  end.

(** src/internal/util/ngap_convert.go:14-29 (PlmnIdToNgap)

    A decoding error is logged and the octets decoded so far are returned; a
    string too short for the indices panics. *)
Definition PlmnIdToNgap (plmnId : PLMNID) : res bytes :=
  let mcc := chars (Mcc plmnId) in
  let mnc := chars (Mnc plmnId) in
  hexString ←
    (if decide (len mnc = 2) then
       m1 ← at_ mcc 1; m0 ← at_ mcc 0; m2 ← at_ mcc 2; n1 ← at_ mnc 1; n0 ← at_ mnc 0;
       Ok [m1; m0; "f"%char; m2; n1; n0]
     else
       m1 ← at_ mcc 1; m0 ← at_ mcc 0; n0 ← at_ mnc 0; m2 ← at_ mcc 2; n2 ← at_ mnc 2; n1 ← at_ mnc 1;
       Ok [m1; m0; n0; m2; n2; n1]);
  Ok (hexDecode hexString).1.

(** src/internal/util/ngap_convert.go:31-37 (N3iwfIdToNgap) *)
Definition N3iwfIdToNgap (n3iwfId : Z) : BitString := mkBits (be_put 2 n3iwfId) 16.

(** ** The PLMN identity of 3GPP TS 38.413 9.3.3.5

    Three octets hold six digits, the low half of each octet first: the three
    MCC digits, then either the filler 15 and two MNC digits or three MNC digits. *)
Definition halves (bs : bytes) : list Z := concat (map (λ b, [Z.land b 0xF; Z.shiftr b 4]) bs).

Definition plmn_digits (bs : bytes) : option (list Z * list Z) :=
  match halves bs with
  | [m0; m1; m2; f; n0; n1] =>
      if decide (f = 15) then Some ([m0; m1; m2], [n0; n1]) else Some ([m0; m1; m2], [f; n0; n1])
  | _ => None
  end.

(** The digit string written in a configuration. *)
Definition digit_char (d : Z) : ascii := ascii_of_N (Z.to_N (48 + d)).
Definition digits_string (ds : list Z) : string := string_of_list_ascii (map digit_char ds).
Definition is_digit (d : Z) : Prop := 0 ≤ d ≤ 9.

(** ** Lemmas *)
Lemma chars_digits ds : chars (digits_string ds) = map digit_char ds.
Proof. apply list_ascii_of_string_of_list_ascii. Qed.

Lemma fromHexChar_digit d : is_digit d → fromHexChar (digit_char d) = Some d.
Proof.
  intros [H1 H2]. unfold fromHexChar, digit_char.
  rewrite N_ascii_embedding by lia. rewrite Z2N.id by lia.
  rewrite decide_True by lia. f_equal. lia.
Qed.

Lemma nibbles a b :
  0 ≤ a < 16 → 0 ≤ b < 16 →
  Z.land (Z.lor (Z.shiftl a 4) b) 0xF = b ∧ Z.shiftr (Z.lor (Z.shiftl a 4) b) 4 = a.
Proof.
  intros Ha Hb.
  assert (Z.shiftr b 4 = 0) as E1 by (rewrite Z.shiftr_div_pow2 by lia; apply Z.div_small; lia).
  assert (Z.land (Z.shiftl a 4) 0xF = 0) as E2.
  { change 0xF with (Z.ones 4). rewrite Z.land_ones, Z.shiftl_mul_pow2 by lia. apply Z.mod_mul. lia. }
  split.
  - rewrite Z.land_lor_distr_l, E2, Z.lor_0_l. change 0xF with (Z.ones 4).
    rewrite Z.land_ones by lia. apply Z.mod_small. lia.
  - rewrite Z.shiftr_lor, E1, Z.lor_0_r. apply Z.shiftr_shiftl_l. lia.
Qed.

Lemma halves_cons a b bs :
  0 ≤ a < 16 → 0 ≤ b < 16 → halves (Z.lor (Z.shiftl a 4) b :: bs) = b :: a :: halves bs.
Proof. intros Ha Hb. unfold halves. simpl. by destruct (nibbles a b Ha Hb) as [-> ->]. Qed.

(** ** Properties *)

(** PLMN identities of the configuration (three MCC digits, two or three
    MNC digits) are converted to three octets from which TS 38.413's reading
    recovers exactly these digits, the two-digit form by its filler. *)
Theorem PlmnIdToNgap_digits mcc mnc :
  Forall is_digit mcc → Forall is_digit mnc → length mcc = 3%nat →
  (length mnc = 2 ∨ length mnc = 3)%nat →
  ∃ bs, PlmnIdToNgap (mkPLMN (digits_string mcc) (digits_string mnc)) = Ok bs ∧
    length bs = 3%nat ∧ plmn_digits bs = Some (mcc, mnc).
Proof.
  intros Hc Hn Lc Ln.
  destruct mcc as [|m0 [|m1 [|m2 []]]]; try discriminate. decompose_Forall.
  unfold PlmnIdToNgap. simpl Mcc; simpl Mnc. rewrite !chars_digits.
  destruct mnc as [|n0 [|n1 [|n2 []]]]; simpl in Ln; try lia; decompose_Forall.
  all: unfold len; simpl; rewrite !fromHexChar_digit by done; simpl; eexists; split; [done|].
  all: split; [done|]; unfold plmn_digits, is_digit in *; rewrite !halves_cons by lia; simpl.
  - done.
  - by rewrite decide_False by lia.
Qed.

Lemma PlmnIdToNgap_digits_witness :
  ∃ bs, PlmnIdToNgap (mkPLMN "208" "93") = Ok bs ∧ length bs = 3%nat ∧
    plmn_digits bs = Some ([2; 0; 8], [9; 3]).
Proof.
  apply (PlmnIdToNgap_digits [2; 0; 8] [9; 3]); [| |done|by left];
    repeat constructor; unfold is_digit; lia.
Defined.

(** The N3IWF identifier is a 16-bit string that holds the identifier. *)
Theorem N3iwfIdToNgap_roundtrip n :
  is_u16 n → be_get (bs_Bytes (N3iwfIdToNgap n)) = n ∧
    bs_BitLength (N3iwfIdToNgap n) = 8 * len (bs_Bytes (N3iwfIdToNgap n)).
Proof. intros H. split; [by apply be_get_put16|done]. Qed.

Lemma N3iwfIdToNgap_roundtrip_witness : be_get (bs_Bytes (N3iwfIdToNgap 135)) = 135.
Proof. apply (N3iwfIdToNgap_roundtrip 135). vm_compute. split; [discriminate|done]. Defined.
