(* ===== verification/Factory.v ===== *)
(** * The configuration file (pkg/factory/config.go, factory.go)

    The configuration as it is read from YAML, its validation, the accessors the rest of
    the program uses and the setters of the logger section. Parsing of YAML, the tag
    validator and the host test of govalidator, name resolution, the file system and the
    process environment are the class [FactoryEnv]; what the tags require is the class
    [TagLaws]. A pointer that may be nil is an [option]; the locks around the accessors have
    no effect in a model where an accessor is one step. *)

From stdpp Require Import pretty.
From S2P Require Import Util.
From S2P Require Import Prelude.

(** ** The data *)

(** src/pkg/factory/config.go:20-20 (N3iwfDefaultTLSKeyLogPath) *)
Definition N3iwfDefaultTLSKeyLogPath : string := "./log/n3iwfsslkey.log".
(** src/pkg/factory/config.go:21-21 (N3iwfDefaultCertPemPath) *)
Definition N3iwfDefaultCertPemPath : string := "./cert/n3iwf.pem".
(** src/pkg/factory/config.go:22-22 (N3iwfDefaultCertKeyPath) *)
Definition N3iwfDefaultCertKeyPath : string := "./cert/n3iwf.key".
(** src/pkg/factory/config.go:23-23 (N3iwfDefaultConfigPath) *)
Definition N3iwfDefaultConfigPath : string := "./config/n3iwfcfg.yaml".
(** src/pkg/factory/config.go:24-24 (N3iwfDefaultXfrmIfaceName) *)
Definition N3iwfDefaultXfrmIfaceName : string := "ipsec".
(** src/pkg/factory/config.go:25-25 (N3iwfDefaultXfrmIfaceId) *)
Definition N3iwfDefaultXfrmIfaceId : Z := 7.
(** src/pkg/factory/config.go:27-27 (N3iwfMetricsDefaultEnabled) *)
Definition N3iwfMetricsDefaultEnabled : bool := false.
(** src/pkg/factory/config.go:28-28 (N3iwfMetricsDefaultPort) *)
Definition N3iwfMetricsDefaultPort : Z := 9091.
(** src/pkg/factory/config.go:29-29 (N3iwfMetricsDefaultScheme) *)
Definition N3iwfMetricsDefaultScheme : string := "https".
(** src/pkg/factory/config.go:30-30 (N3iwfMetricsDefaultNamespace) *)
Definition N3iwfMetricsDefaultNamespace : string := "free5gc".

(** src/pkg/factory/config.go:51-54 (BroadcastPLMNItem)
    as in the file, where the pointer may be missing. *)
Record BroadcastItem := mkBroadcastItem { bi_PLMNID : option PLMNID; bi_TAISliceSupportList : list SliceSupportItem }.
(** src/pkg/factory/config.go:46-49 (SupportedTAItem) *)
Record TAItem := mkTAItem { ti_TAC : string; ti_BroadcastPLMNList : list BroadcastItem }.
(** src/pkg/factory/config.go:41-44 (GlobalN3IWFID) *)
Record GlobalN3IWFID := mkGlobalID { gi_PLMNID : option PLMNID; gi_N3IWFID : Z }.
(** src/pkg/factory/config.go:35-39 (N3IWFNFInfo) *)
Record N3IWFNFInfo := mkNFInfo {
  ni_GlobalN3IWFID : option GlobalN3IWFID; ni_RanNodeName : string; ni_SupportedTAList : list TAItem;
}.
(** src/pkg/factory/config.go:70-73 (AMFSCTPAddresses) *)
Record AMFSCTPAddresses := mkAMFAddrs { aa_IPAddresses : list string; aa_Port : Z }.
(** src/pkg/factory/config.go:126-129 (Info) *)
Record Info := mkInfo { in_Version : string; in_Description : string }.
(** src/pkg/factory/config.go:152-156 (Logger) *)
Record Logger := mkLogger { lg_Enable : bool; lg_Level : string; lg_ReportCaller : bool }.
(** src/pkg/factory/config.go:158-162 (TimerValue) *)
Record TimerValue := mkTimer { tv_Enable : bool; tv_TransFreq : Z; tv_MaxRetryTimes : Z }.
(** src/pkg/factory/config.go:418-421 (Tls) *)
Record Tls := mkTls { tls_Pem : string; tls_Key : string }.
(** src/pkg/factory/config.go:428-435 (Metrics) *)
Record Metrics := mkMetrics {
  me_Enable : bool; me_Scheme : string; me_BindingIPv4 : string; me_Port : Z; me_Tls : option Tls; me_Namespace : string;
}.
(** src/pkg/factory/config.go:131-150 (Configuration) *)
Record Configuration := mkConfiguration {
  co_N3IWFInfo : option N3IWFNFInfo;
  co_LocalSctpAddr : string;
  co_AMFSCTPAddresses : list AMFSCTPAddresses;
  co_Metrics : option Metrics;
  co_TCPPort : Z;
  co_IKEBindAddr : string;
  co_UEIPAddressRange : string;
  co_IPSecGatewayAddr : string;
  co_XfrmIfaceName : string;
  co_XfrmIfaceId : Z;
  co_N3IWFGTPBindAddress : string;
  co_FQDN : string;
  co_PrivateKey : string;
  co_CertificateAuthority : string;
  co_Certificate : string;
  co_LivenessCheck : option TimerValue;
}.
(** src/pkg/factory/config.go:92-97 (Config) *)
Record Config := mkCfg {
  c_Info : option Info; c_Configuration : option Configuration; c_Logger : option Logger;
}.

(** A host address after resolution, and an SCTP address. *)
Record SCTPAddr := mkSCTPAddr { sa_IPAddrs : list bytes; sa_Port : Z }.

(** ** Packages outside the repository *)
Class FactoryEnv := {
  (** os.ReadFile and yaml.Unmarshal into an empty Config: nothing when one of them fails *)
  read_file : string → option bytes;
  yaml_unmarshal : bytes → option Config;
  (** govalidator: the host test, and the messages of ValidateStruct, none for a valid value *)
  IsHost : string → bool;
  ValidateConfig : Config → list string;
  ValidateMetrics : Metrics → list string;
  ValidateTls : Tls → list string;
  (** net.ResolveIPAddr, os.Getenv *)
  resolve_ip : string → option bytes;
  getenv : string → string;
}.

Section Factory.
Context `{FE : FactoryEnv}.

Definition nil_deref : string := "invalid memory address or nil pointer dereference".
Definition deref {A} (o : option A) : res A := match o with Some a => Ok a | None => Panic nil_deref end.

(** ** Validation

    An error of type govalidator.Errors is the list of its messages; nil is the empty list. *)

(** src/pkg/factory/config.go:75-90 (AMFSCTPAddresses.validate) *)
Definition validate_amf (a : AMFSCTPAddresses) : list string :=
  omap (λ ip, if IsHost ip then None
              else Some ("Invalid AMFSCTPAddresses.IP: " +:+ ip +:+ ", does not validate as IP"))%string
    (aa_IPAddresses a).

(** src/pkg/factory/config.go:164-177 (appendInvalid) *)
Definition appendInvalid (errs : list string) : list string := map (λ e, "invalid " +:+ e)%string errs.

(** src/pkg/factory/config.go:423-426 (Tls.validate) *)
Definition validate_tls (t : Tls) : list string := appendInvalid (ValidateTls t).

(** src/pkg/factory/config.go:439-456 (Metrics.validate)

    The errors of the TLS section are one nested error; here its messages. *)
Definition validate_metrics (m : Metrics) : list string :=
  (match me_Tls m with Some t => validate_tls t | None => [] end) ++ ValidateMetrics m.

(** src/pkg/factory/config.go:105-109 (Config.Validate)

    The first AMF with an invalid address. *)
Fixpoint first_invalid (l : list AMFSCTPAddresses) : list string :=
  match l with
  | [] => []
  | a :: l => match validate_amf a with [] => first_invalid l | errs => errs end
  end.

(** src/pkg/factory/config.go:99-124 (Config.Validate) *)
Definition Validate (c : Config) : list string :=
  let rest := appendInvalid (ValidateConfig c) in
  match c_Configuration c with
  | None => rest
  | Some co =>
      match first_invalid (co_AMFSCTPAddresses co) with
      | [] =>
          match co_Metrics co with
          | Some m => match validate_metrics m with [] => rest | errs => errs end
          | None => rest
          end
      | errs => errs
      end
  end.

(** src/pkg/factory/factory.go:16-32 (InitConfigFactory) *)
Definition InitConfigFactory (f : string) : res Config :=
  let f := if decide (f = EmptyString) then N3iwfDefaultConfigPath else f in
  match read_file f with
  | None => Err "[Factory]"
  | Some content =>
      match yaml_unmarshal content with
      | None => Err "[Factory]"
      | Some c => Ok c
      end
  end.

(** src/pkg/factory/factory.go:34-49 (ReadConfig) *)
Definition ReadConfig (cfgPath : string) : res Config :=
  match InitConfigFactory cfgPath with
  | Ok c => match Validate c with [] => Ok c | _ => Err "Config validate Error" end
  | Err e => Err ("ReadConfig [" +:+ cfgPath +:+ "] Error: " +:+ e)%string
  | Panic e => Panic e
  end.

(** ** Accessors

    Go dereferences the pointers on the way: a missing section is a panic. *)

(** src/pkg/factory/config.go:179-187 (Config.GetVersion) *)
Definition GetVersion (c : Config) : res string := i ← deref (c_Info c); Ok (in_Version i).

(** src/pkg/factory/config.go:233-241 (Config.GetLogEnable) *)
Definition GetLogEnable (c : Config) : bool := match c_Logger c with None => false | Some l => lg_Enable l end.
(** src/pkg/factory/config.go:243-251 (Config.GetLogLevel) *)
Definition GetLogLevel (c : Config) : string := match c_Logger c with None => "info" | Some l => lg_Level l end.
(** src/pkg/factory/config.go:253-261 (Config.GetLogReportCaller) *)
Definition GetLogReportCaller (c : Config) : bool :=
  match c_Logger c with None => false | Some l => lg_ReportCaller l end.

(** src/pkg/factory/config.go:189-202 (Config.SetLogEnable) *)
Definition SetLogEnable (enable : bool) (c : Config) : Config :=
  mkCfg (c_Info c) (c_Configuration c)
    (Some (match c_Logger c with
           | None => mkLogger enable "info" false
           | Some l => mkLogger enable (lg_Level l) (lg_ReportCaller l)
           end)).
(** src/pkg/factory/config.go:204-216 (Config.SetLogLevel) *)
Definition SetLogLevel (level : string) (c : Config) : Config :=
  mkCfg (c_Info c) (c_Configuration c)
    (Some (match c_Logger c with
           | None => mkLogger false level false
           | Some l => mkLogger (lg_Enable l) level (lg_ReportCaller l)
           end)).
(** src/pkg/factory/config.go:218-231 (Config.SetLogReportCaller) *)
Definition SetLogReportCaller (reportCaller : bool) (c : Config) : Config :=
  mkCfg (c_Info c) (c_Configuration c)
    (Some (match c_Logger c with
           | None => mkLogger false "info" reportCaller
           | Some l => mkLogger (lg_Enable l) (lg_Level l) reportCaller
           end)).

(** src/pkg/factory/config.go:263-267 (Config.GetGlobalN3iwfId)

    The pointer in the copy may be nil. *)
Definition GetGlobalN3iwfId (c : Config) : res (option GlobalN3IWFID) :=
  co ← deref (c_Configuration c); i ← deref (co_N3IWFInfo co); Ok (ni_GlobalN3IWFID i).
(** src/pkg/factory/config.go:269-273 (Config.GetRanNodeName) *)
Definition GetRanNodeName (c : Config) : res string :=
  co ← deref (c_Configuration c); i ← deref (co_N3IWFInfo co); Ok (ni_RanNodeName i).
(** src/pkg/factory/config.go:275-290 (Config.GetLocalSctpAddr) *)
Definition GetLocalSctpAddr (c : Config) : res SCTPAddr :=
  co ← deref (c_Configuration c);
  Ok (if decide (co_LocalSctpAddr co = EmptyString) then mkSCTPAddr [] 0
      else match resolve_ip (co_LocalSctpAddr co) with
           | Some ip => mkSCTPAddr [ip] 0
           | None => mkSCTPAddr [] 0
           end).
(** src/pkg/factory/config.go:297-312 (Config.GetAmfSctpAddrs)

    One AMF: the addresses that can be resolved, and the default port. *)
Definition amf_addr (a : AMFSCTPAddresses) : SCTPAddr :=
  mkSCTPAddr (omap resolve_ip (aa_IPAddresses a)) (if decide (aa_Port a = 0) then 38412 else aa_Port a).
(** src/pkg/factory/config.go:292-314 (Config.GetAmfSctpAddrs) *)
Definition GetAmfSctpAddrs (c : Config) : res (list SCTPAddr) :=
  co ← deref (c_Configuration c); Ok (map amf_addr (co_AMFSCTPAddresses co)).
(** src/pkg/factory/config.go:316-323 (Config.GetSupportedTAList)

    A copy; nil is the empty list. *)
Definition GetSupportedTAList (c : Config) : res (list TAItem) :=
  co ← deref (c_Configuration c); i ← deref (co_N3IWFInfo co); Ok (ni_SupportedTAList i).
(** src/pkg/factory/config.go:325-329 (Config.GetIKEBindAddr) *)
Definition GetIKEBindAddr (c : Config) : res string := co ← deref (c_Configuration c); Ok (co_IKEBindAddr co).
(** src/pkg/factory/config.go:331-335 (Config.GetIPSecGatewayAddr) *)
Definition GetIPSecGatewayAddr (c : Config) : res string := co ← deref (c_Configuration c); Ok (co_IPSecGatewayAddr co).
(** src/pkg/factory/config.go:337-341 (Config.GetN3iwfGtpBindAddress) *)
Definition GetN3iwfGtpBindAddress (c : Config) : res string :=
  co ← deref (c_Configuration c); Ok (co_N3IWFGTPBindAddress co).
(** src/pkg/factory/config.go:343-347 (Config.GetNasTcpAddr) *)
Definition GetNasTcpAddr (c : Config) : res string :=
  co ← deref (c_Configuration c); Ok (co_IPSecGatewayAddr co +:+ ":" +:+ pretty (co_TCPPort co))%string.
(** src/pkg/factory/config.go:349-353 (Config.GetNasTcpPort) *)
Definition GetNasTcpPort (c : Config) : res Z := co ← deref (c_Configuration c); Ok (u16 (co_TCPPort co)).
(** src/pkg/factory/config.go:355-359 (Config.GetFQDN) *)
Definition GetFQDN (c : Config) : res string := co ← deref (c_Configuration c); Ok (co_FQDN co).

(** A value or the default for the empty string. *)
Definition or_default (s d : string) : string := if decide (s = EmptyString) then d else s.

(** src/pkg/factory/config.go:361-368 (Config.GetIKECAPemPath) *)
Definition GetIKECAPemPath (c : Config) : res string :=
  co ← deref (c_Configuration c); Ok (or_default (co_CertificateAuthority co) N3iwfDefaultCertPemPath).
(** src/pkg/factory/config.go:370-377 (Config.GetIKECertPemPath) *)
Definition GetIKECertPemPath (c : Config) : res string :=
  co ← deref (c_Configuration c); Ok (or_default (co_Certificate co) N3iwfDefaultCertPemPath).
(** src/pkg/factory/config.go:379-386 (Config.GetIKECertKeyPath) *)
Definition GetIKECertKeyPath (c : Config) : res string :=
  co ← deref (c_Configuration c); Ok (or_default (co_PrivateKey co) N3iwfDefaultCertKeyPath).
(** src/pkg/factory/config.go:388-392 (Config.GetUEIPAddrRange) *)
Definition GetUEIPAddrRange (c : Config) : res string := co ← deref (c_Configuration c); Ok (co_UEIPAddressRange co).
(** src/pkg/factory/config.go:394-401 (Config.GetXfrmIfaceName) *)
Definition GetXfrmIfaceName (c : Config) : res string :=
  co ← deref (c_Configuration c); Ok (or_default (co_XfrmIfaceName co) N3iwfDefaultXfrmIfaceName).
(** src/pkg/factory/config.go:403-410 (Config.GetXfrmIfaceId) *)
Definition GetXfrmIfaceId (c : Config) : res Z :=
  co ← deref (c_Configuration c);
  Ok (if decide (co_XfrmIfaceId co ≠ 0) then co_XfrmIfaceId co else N3iwfDefaultXfrmIfaceId).
(** src/pkg/factory/config.go:412-416 (Config.GetLivenessCheck) *)
Definition GetLivenessCheck (c : Config) : res TimerValue :=
  co ← deref (c_Configuration c); deref (co_LivenessCheck co).

(** The metrics section, when there is one. *)
Definition metrics_of (c : Config) : option Metrics := co ← c_Configuration c; co_Metrics co.

(** src/pkg/factory/config.go:458-465 (Config.AreMetricsEnabled) *)
Definition AreMetricsEnabled (c : Config) : bool :=
  match metrics_of c with Some m => me_Enable m | None => N3iwfMetricsDefaultEnabled end.
(** src/pkg/factory/config.go:467-474 (Config.GetMetricsScheme) *)
Definition GetMetricsScheme (c : Config) : string :=
  match metrics_of c with
  | Some m => or_default (me_Scheme m) N3iwfMetricsDefaultScheme
  | None => N3iwfMetricsDefaultScheme
  end.
(** src/pkg/factory/config.go:476-483 (Config.GetMetricsPort) *)
Definition GetMetricsPort (c : Config) : Z :=
  match metrics_of c with
  | Some m => if decide (me_Port m ≠ 0) then me_Port m else N3iwfMetricsDefaultPort
  | None => N3iwfMetricsDefaultPort
  end.
(** src/pkg/factory/config.go:485-502 (Config.GetMetricsBindingIP)

    The binding address names an environment variable or is the address itself. *)
Definition GetMetricsBindingIP (c : Config) : string :=
  match metrics_of c with
  | None => "0.0.0.0"
  | Some m =>
      if decide (me_BindingIPv4 m ≠ EmptyString) then or_default (getenv (me_BindingIPv4 m)) (me_BindingIPv4 m)
      else "0.0.0.0"
  end.
(** src/pkg/factory/config.go:504-508 (Config.GetMetricsBindingAddr) *)
Definition GetMetricsBindingAddr (c : Config) : string :=
  (GetMetricsBindingIP c +:+ ":" +:+ pretty (GetMetricsPort c))%string.
(** src/pkg/factory/config.go:510-519 (Config.GetMetricsCertPemPath) *)
Definition GetMetricsCertPemPath (c : Config) : res string :=
  co ← deref (c_Configuration c);
  Ok (match m ← co_Metrics co; me_Tls m with Some t => tls_Pem t | None => EmptyString end).
(** src/pkg/factory/config.go:521-529 (Config.GetMetricsCertKeyPath) *)
Definition GetMetricsCertKeyPath (c : Config) : res string :=
  co ← deref (c_Configuration c);
  Ok (match m ← co_Metrics co; me_Tls m with Some t => tls_Key t | None => EmptyString end).
(** src/pkg/factory/config.go:531-538 (Config.GetMetricsNamespace) *)
Definition GetMetricsNamespace (c : Config) : res string :=
  co ← deref (c_Configuration c);
  Ok (match co_Metrics co with
      | Some m => or_default (me_Namespace m) N3iwfMetricsDefaultNamespace
      | None => N3iwfMetricsDefaultNamespace
      end).
End Factory.

(** ** Properties *)

(** What the tags of the file format require of a value that ValidateStruct accepts:
    [required] pointers and lists, [port] and [range] numbers, at every level. *)
Record complete (co : Configuration) : Prop := {
  co_info : ∃ i g p, co_N3IWFInfo co = Some i ∧ ni_GlobalN3IWFID i = Some g ∧ gi_PLMNID g = Some p ∧
    is_u16 (gi_N3IWFID g) ∧
    Forall (λ ta, Forall (λ b, is_Some (bi_PLMNID b)) (ti_BroadcastPLMNList ta)) (ni_SupportedTAList i);
  co_timer : is_Some (co_LivenessCheck co);
  co_port : 1 ≤ co_TCPPort co ≤ 65535;
  co_amfs : co_AMFSCTPAddresses co ≠ [];
  co_ports : Forall (λ a, 0 ≤ aa_Port a ≤ 65535) (co_AMFSCTPAddresses co);
}.
Class TagLaws `{FE : FactoryEnv} := {
  tags_required c : ValidateConfig c = [] →
    is_Some (c_Info c) ∧ is_Some (c_Logger c) ∧ ∃ co, c_Configuration c = Some co ∧ complete co;
}.

Section Properties.
Context `{FE : FactoryEnv}.

Lemma appendInvalid_nil errs : appendInvalid errs = [] ↔ errs = [].
Proof. by destruct errs. Qed.

Lemma validate_amf_nil a : validate_amf a = [] ↔ Forall (λ ip, IsHost ip = true) (aa_IPAddresses a).
Proof.
  unfold validate_amf. induction (aa_IPAddresses a) as [|ip l IH]; [done|].
  rewrite Forall_cons, <- IH. cbn. destruct (IsHost ip); naive_solver.
Qed.

Lemma first_invalid_nil l : first_invalid l = [] ↔ Forall (λ a, validate_amf a = []) l.
Proof.
  induction l as [|a l IH]; [done|]. rewrite Forall_cons, <- IH. cbn. destruct (validate_amf a); naive_solver.
Qed.

Lemma validate_metrics_nil m :
  validate_metrics m = [] ↔ ValidateMetrics m = [] ∧ ∀ t, me_Tls m = Some t → ValidateTls t = [].
Proof.
  unfold validate_metrics, validate_tls. rewrite app_nil. destruct (me_Tls m) as [t|]; [|naive_solver].
  rewrite appendInvalid_nil. naive_solver.
Qed.

Lemma amfs_valid l : Forall (λ a, Forall (λ ip, IsHost ip = true) (aa_IPAddresses a)) l ↔ first_invalid l = [].
Proof. rewrite first_invalid_nil. apply Forall_proper; [|done]. intros a. by rewrite validate_amf_nil. Qed.

Lemma Validate_nil c :
  Validate c = [] ↔
    ValidateConfig c = [] ∧
    ∀ co, c_Configuration c = Some co →
      Forall (λ a, Forall (λ ip, IsHost ip = true) (aa_IPAddresses a)) (co_AMFSCTPAddresses co) ∧
      ∀ m, co_Metrics co = Some m → ValidateMetrics m = [] ∧ ∀ t, me_Tls m = Some t → ValidateTls t = [].
Proof.
  unfold Validate. setoid_rewrite amfs_valid. setoid_rewrite <- validate_metrics_nil.
  rewrite <- (appendInvalid_nil (ValidateConfig c)). destruct (c_Configuration c) as [co|].
  - destruct (first_invalid _) as [|x l] eqn:Ef.
    + destruct (co_Metrics co) as [m|] eqn:Em.
      * destruct (validate_metrics m) as [|y k] eqn:Ev.
        -- split; [|by intros []]. intros H. split; [done|]. intros ? [= <-]. split; [done|]. intros ? E. congruence.
        -- split; [done|]. intros [_ H]. destruct (H co eq_refl) as [_ Hm]. rewrite <- Ev. by apply Hm.
      * split; [|by intros []]. intros H. split; [done|]. intros ? [= <-]. split; [done|]. intros ? E. congruence.
    + split; [done|]. intros [_ H]. destruct (H co eq_refl) as [Hf _]. congruence.
  - split; [|by intros []]. intros H. by split.
Qed.
(** What [Validate] accepts: every AMF address is a host, the metrics section with its TLS
    section and the whole configuration pass the tags. *)
Definition accepted (c : Config) : Prop :=
  ValidateConfig c = [] ∧
  ∀ co, c_Configuration c = Some co →
    Forall (λ a, Forall (λ ip, IsHost ip = true) (aa_IPAddresses a)) (co_AMFSCTPAddresses co) ∧
    ∀ m, co_Metrics co = Some m → ValidateMetrics m = [] ∧ ∀ t, me_Tls m = Some t → ValidateTls t = [].

(** C18. ReadConfig returns a configuration exactly when the file (the default path for an
    empty one) can be read, parses, and the result is accepted: every AMF address is a host and
    the metrics section, its TLS section and the whole pass their tags; otherwise it returns an
    error, and it never panics. *)
Theorem ReadConfig_spec p :
  match ReadConfig p with
  | Ok c => read_file (or_default p N3iwfDefaultConfigPath) ≫= yaml_unmarshal = Some c ∧ accepted c
  | Err _ => ∀ c, read_file (or_default p N3iwfDefaultConfigPath) ≫= yaml_unmarshal = Some c → ¬ accepted c
  | Panic _ => False
  end.
Proof.
  unfold ReadConfig, InitConfigFactory. fold (or_default p N3iwfDefaultConfigPath).
  destruct (read_file _) as [bs|]; [|done]. cbn [mbind option_bind]. destruct (yaml_unmarshal bs) as [c|]; [|done].
  pose proof (Validate_nil c) as Hv. fold (accepted c) in Hv. destruct (Validate c).
  - split; [done|]. by apply Hv.
  - intros ? [= <-] Ha%Hv. done.
Qed.

End Properties.

(** ** A configuration file

    A tag validator that demands the sections and the numbers, and one file. *)
Definition tags_met (c : Config) : bool :=
  match c_Info c, c_Logger c, c_Configuration c with
  | Some _, Some _, Some co =>
      match co_N3IWFInfo co, co_LivenessCheck co with
      | Some (mkNFInfo (Some (mkGlobalID (Some _) n)) _ tas), Some _ =>
          bool_decide (is_u16 n ∧ 1 ≤ co_TCPPort co ≤ 65535 ∧ co_AMFSCTPAddresses co ≠ [] ∧
            Forall (λ ta, Forall (λ b, is_Some (bi_PLMNID b)) (ti_BroadcastPLMNList ta)) tas ∧
            Forall (λ a, 0 ≤ aa_Port a ≤ 65535) (co_AMFSCTPAddresses co))
      | _, _ => false
      end
  | _, _, _ => false
  end.
Lemma tags_met_complete c : tags_met c = true →
  is_Some (c_Info c) ∧ is_Some (c_Logger c) ∧ ∃ co, c_Configuration c = Some co ∧ complete co.
Proof.
  unfold tags_met. destruct (c_Info c) as [v|], (c_Logger c) as [lg|], (c_Configuration c) as [co|]; try done.
  destruct (co_N3IWFInfo co) as [[[[[q|] n]|] nm tas]|] eqn:Ei, (co_LivenessCheck co) as [t|] eqn:Et; try done.
  intros (Hn & Hp & Ha & Ht & Hq)%bool_decide_eq_true. split; [by eexists|]. split; [by eexists|]. exists co.
  split; [done|]. split; [|by eexists|done..]. do 3 eexists. split; [exact Ei|]. done.
Qed.

Definition sample_config : Config :=
  mkCfg (Some (mkInfo "1.0.5" "N3IWF initial local configuration"))
    (Some (mkConfiguration
      (Some (mkNFInfo (Some (mkGlobalID (Some (mkPLMN "208" "93")) 135)) "free5GC_N3IWF"
        [mkTAItem "000001" [mkBroadcastItem (Some (mkPLMN "208" "93")) [mkSlice 1 "010203"]]]))
      EmptyString [mkAMFAddrs ["127.0.0.18"] 0]
      (Some (mkMetrics true "https" "127.0.0.15" 9091 None EmptyString))
      20000 "172.16.2.100" "10.0.0.0/24" "10.0.0.1" EmptyString 0 "10.0.0.2" "n3iwf.Saviah.com"
      EmptyString EmptyString EmptyString (Some (mkTimer true 60 4))))
    (Some (mkLogger true "info" false)).
Definition sample_env : FactoryEnv := {|
  read_file := λ f,
    if decide (f = N3iwfDefaultConfigPath) then Some [1]
    else if decide (f = N3iwfDefaultCertKeyPath) then Some [2]
    else if decide (f = N3iwfDefaultCertPemPath) then Some [3] else None;
  yaml_unmarshal := λ b, if decide (b = [1]) then Some sample_config else None;
  IsHost := λ s, bool_decide (s ≠ EmptyString);
  ValidateConfig := λ c, if tags_met c then [] else ["non zero value required"];
  ValidateMetrics := λ m, if decide (me_Scheme m = "http" ∨ me_Scheme m = "https") then [] else ["scheme"];
  ValidateTls := λ t, if decide (tls_Pem t = EmptyString) then ["required"] else [];
  resolve_ip := λ s, if decide (s = "127.0.0.18") then Some [127; 0; 0; 18] else None;
  getenv := λ _, EmptyString;
|}%string.
#[local] Existing Instance sample_env.
#[local] Instance sample_laws : TagLaws.
Proof. split. intros c. cbn. destruct (tags_met c) eqn:Ht; [|done]. intros _. by apply tags_met_complete. Qed.

Example sample_ReadConfig : ReadConfig EmptyString = Ok sample_config.
Proof. vm_compute. reflexivity. Qed.
Example sample_amf_addrs : GetAmfSctpAddrs sample_config = Ok [mkSCTPAddr [[127; 0; 0; 18]] 38412].
Proof. vm_compute. reflexivity. Qed.
Example sample_nas_addr : GetNasTcpAddr sample_config = Ok "10.0.0.1:20000"%string.
Proof. vm_compute. reflexivity. Qed.

