(* ===== verification/Eap5g.v ===== *)
(** * EAP-5G data (internal/ngap/eap5g.go, internal/ngap/message/types.go)

    The parser of the AN parameters and the NAS PDU carried by an EAP-5G/5G-NAS
    message (TS 24.502). Octet arithmetic is at its width: [2+parameterLength] is a
    uint8 sum, [2+anParameterLength] a uint16 sum. The outer loop does not always make
    progress, so it carries fuel; [None] is a loop that has not ended. The APER
    decoders of free5gc/aper are parameters. *)

From S2P Require Import Prelude NgapTypes.

(** src/internal/ngap/message/types.go:4-9 (ANParametersType constants) *)
Inductive ANParametersType :=
  ANParametersTypeGUAMI | ANParametersTypeSelectedPLMNID
| ANParametersTypeRequestedNSSAI | ANParametersTypeEstablishmentCause | ANParametersTypeOther.

(** The switch of the parser on the type octet. *)
Definition parameter_type (t : Z) : ANParametersType :=
  if decide (t = 1) then ANParametersTypeGUAMI
  else if decide (t = 2) then ANParametersTypeSelectedPLMNID
  else if decide (t = 3) then ANParametersTypeRequestedNSSAI
  else if decide (t = 4) then ANParametersTypeEstablishmentCause
  else ANParametersTypeOther.

(** src/internal/ngap/message/types.go:13-13 (ANParametersLenGUAMI) *)
Definition ANParametersLenGUAMI : Z := 6.
(** src/internal/ngap/message/types.go:14-14 (ANParametersLenPLMNID) *)
Definition ANParametersLenPLMNID : Z := 3.
(** src/internal/ngap/message/types.go:15-15 (ANParametersLenEstCause) *)
Definition ANParametersLenEstCause : Z := 1.

(** src/internal/ngap/message/types.go:19-26 (EstablishmentCause constants) *)
Definition EstablishmentCauses : list Z := [0; 1; 3; 4; 8; 9].
(** src/internal/ngap/message/types.go:23-23 (EstablishmentCauseMO_Data) *)
Definition EstablishmentCauseMO_Data : Z := 4.

(** src/internal/ngap/eap5g.go:16-21 (ANParameters) *)
Record ANParameters := mkAN {
  an_GUAMI : option GUAMI;
  an_SelectedPLMNID : option bytes;
  an_RequestedNSSAI : option (list SNSSAI);
  an_EstablishmentCause : option Z;
}.
Definition empty_an : ANParameters := mkAN None None None None.

Section Parser.
Context (aper_GUAMI : bytes → option GUAMI) (aper_PLMN : bytes → option bytes).

(** src/internal/ngap/eap5g.go:161-167 (UnmarshalEAP5GData)

    [parameterValue := anParameterField[2:]; bound check; [:parameterLength]], the
    same lines in each case of the switch. *)
Definition parameter_value (field : bytes) (plen : Z) : res bytes :=
  v ← slice_from field 2;
  if decide (len v < plen) then Err "error formatting" else slice_to v plen.

(** src/internal/ngap/eap5g.go:176-221 (UnmarshalEAP5GData)

    The S-NSSAI loop. *)
Fixpoint parse_nssai (fuel : nat) (value : bytes) (acc : list SNSSAI) : option (res (list SNSSAI)) :=
  match fuel with
  | O => None
  | S fuel =>
      if decide (len value < 2) then Some (Ok acc)
      else
        match
          l ← at_ value 0;
          v ← slice_from value 1;
          v ← (if decide (len v < l) then Err "error formatting" else slice_to v l);
          item ←
            (match v with
             | [sst] => Ok (mkSNSSAI [sst] None)
             | [sst; sd1; sd2; sd3] => Ok (mkSNSSAI [sst] (Some [sd1; sd2; sd3]))
             | _ => Err "error formatting"
             end);
          rest ← slice_from value (u8 (1 + l));
          Ok (item, rest)
        with
        | Ok (item, rest) => parse_nssai fuel rest (acc ++ [item])
        | Err e => Some (Err e)
        | Panic e => Some (Panic e)
        end
  end.

(** src/internal/ngap/eap5g.go:98-129 (UnmarshalEAP5GData) *)
Definition parse_guami (field : bytes) (plen : Z) (params : ANParameters) : res ANParameters :=
  if decide (plen = 0) then Ok params
  else
    v ← parameter_value field plen;
    if decide (len v ≠ ANParametersLenGUAMI) then Err "unmatched GUAMI length"
    else
      match aper_GUAMI (0 :: v) with
      | Some g => Ok (mkAN (Some g) (an_SelectedPLMNID params) (an_RequestedNSSAI params) (an_EstablishmentCause params))
      | None => Err "unmarshal failed when decoding GUAMI"
      end.

(** src/internal/ngap/eap5g.go:130-158 (UnmarshalEAP5GData) *)
Definition parse_plmn (field : bytes) (plen : Z) (params : ANParameters) : res ANParameters :=
  if decide (plen = 0) then Ok params
  else
    v ← parameter_value field plen;
    if decide (len v ≠ ANParametersLenPLMNID) then Err "unmatched PLMN ID length"
    else
      match aper_PLMN (0 :: v) with
      | Some p => Ok (mkAN (an_GUAMI params) (Some p) (an_RequestedNSSAI params) (an_EstablishmentCause params))
      | None => Err "unmarshal failed when decoding PLMN"
      end.

(** src/internal/ngap/eap5g.go:159-225 (UnmarshalEAP5GData) *)
Definition parse_requested_nssai (field : bytes) (plen : Z) (params : ANParameters) : option (res ANParameters) :=
  if decide (plen = 0) then Some (Ok params)
  else
    match parameter_value field plen with
    | Ok v =>
        match parse_nssai (S (length v)) v [] with
        | Some (Ok l) =>
            Some (Ok (mkAN (an_GUAMI params) (an_SelectedPLMNID params) (Some l) (an_EstablishmentCause params)))
        | Some (Err e) => Some (Err e)
        | Some (Panic e) => Some (Panic e)
        | None => None
        end
    | Err e => Some (Err e)
    | Panic e => Some (Panic e)
    end.

(** src/internal/ngap/eap5g.go:242-259 (UnmarshalEAP5GData) *)
Definition cause_of_octet (b : Z) : Z :=
  let c := Z.land b 0x0f in
  if decide (c ∈ EstablishmentCauses) then c else EstablishmentCauseMO_Data.

(** src/internal/ngap/eap5g.go:226-267 (UnmarshalEAP5GData) *)
Definition parse_cause (field : bytes) (plen : Z) (params : ANParameters) : res ANParameters :=
  if decide (plen = 0) then Ok params
  else
    v ← parameter_value field plen;
    if decide (len v ≠ ANParametersLenEstCause) then Err "unmatched Establishment Cause length"
    else
      b ← at_ v 0;
      Ok (mkAN (an_GUAMI params) (an_SelectedPLMNID params) (an_RequestedNSSAI params) (Some (cause_of_octet b))).

(** src/internal/ngap/eap5g.go:88-273 (UnmarshalEAP5GData)

    One turn of the loop over the AN-parameter field: the new parameters and the
    rest of the field. *)
Definition param_turn (field : bytes) (params : ANParameters) : option (res (ANParameters * bytes)) :=
  match
    t ← at_ field 0; plen ← at_ field 1;
    (if decide (u8 (2 + plen) > len field) then Err "malformed AN-parameter" else Ok (t, plen))
  with
  | Ok (t, plen) =>
      match
        match parameter_type t with
        | ANParametersTypeGUAMI => Some (parse_guami field plen params)
        | ANParametersTypeSelectedPLMNID => Some (parse_plmn field plen params)
        | ANParametersTypeRequestedNSSAI => parse_requested_nssai field plen params
        | ANParametersTypeEstablishmentCause => Some (parse_cause field plen params)
        | ANParametersTypeOther => Some (Ok params)
        end
      with
      | Some r => Some (params ← r; rest ← slice_from field (u8 (2 + plen)); Ok (params, rest))
      | None => None
      end
  | Err e => Some (Err e)
  | Panic e => Some (Panic e)
  end.

(** src/internal/ngap/eap5g.go:84-276 (UnmarshalEAP5GData) *)
Fixpoint parse_params (fuel : nat) (field : bytes) (params : ANParameters) : option (res ANParameters) :=
  match fuel with
  | O => None
  | S fuel =>
      if decide (len field < 2) then Some (Ok params)
      else
        match param_turn field params with
        | Some (Ok (params, field)) => parse_params fuel field params
        | Some (Err e) => Some (Err e)
        | Some (Panic e) => Some (Panic e)
        | None => None
        end
  end.

(** src/internal/ngap/eap5g.go:282-308 (UnmarshalEAP5GData)

    The NAS PDU after the AN parameters; [coded] starts at the AN-parameter length. *)
Definition parse_nas (coded : bytes) (anLen : Z) : res bytes :=
  coded ← slice_from coded (u16 (2 + anLen));
  if decide (len coded < 2) then Err "error formatting"
  else
    l ← slice_to coded 2;
    if decide (be_get l = 0) then Err "no NAS PDU"
    else
      field ← slice_from coded 2;
      if decide (len field < be_get l) then Err "error formatting" else slice_to field (be_get l).

(** src/internal/ngap/eap5g.go:23-63 (UnmarshalEAP5GData)

    The AN-parameter length and the AN-parameter field. *)
Definition an_field (codedData : bytes) : res (bytes * Z * bytes) :=
  if decide (len codedData < 2) then Err "no data to decode"
  else
    codedData ← slice_from codedData 2;
    if decide (len codedData < 2) then Err "error formatting"
    else
      l ← slice_to codedData 2;
      field ← slice_from codedData 2;
      if decide (len field < be_get l) then Err "error formatting"
      else
        field ← slice_to field (be_get l);
        Ok (codedData, be_get l, field).

(** src/internal/ngap/eap5g.go:23-309 (UnmarshalEAP5GData) *)
Definition UnmarshalEAP5GData (fuel : nat) (codedData : bytes) : option (res (option ANParameters * bytes)) :=
  match an_field codedData with
  | Ok (coded, anLen, field) =>
      match
        if decide (anLen = 0) then Some (Ok None)
        else match parse_params fuel field empty_an with
             | Some r => Some (p ← r; Ok (Some p))
             | None => None
             end
      with
      | Some r => Some (p ← r; nas ← parse_nas coded anLen; Ok (p, nas))
      | None => None
      end
  | Err e => Some (Err e)
  | Panic e => Some (Panic e)
  end.

(** ** Lemmas *)

Lemma parameter_value_panics field plen :
  2 ≤ len field → 0 ≤ plen → panics (parameter_value field plen) = false.
Proof.
  intros H ?. unfold parameter_value. apply panics_bind.
  { apply panics_slice; lia. }
  intros v Hv. case_decide; [done|]. apply panics_slice; lia.
Qed.

Lemma parameter_value_len field plen v : parameter_value field plen = Ok v → len v = plen.
Proof.
  unfold parameter_value. intros (w & Hw & H)%bind_Ok. case_decide; [done|].
  apply len_slice in H. lia.
Qed.

(** One S-NSSAI is read or the list is refused; never a panic. *)
Lemma parse_nssai_total fuel value acc :
  bytes_ok value → (length value < fuel)%nat →
  ∃ r, parse_nssai fuel value acc = Some r ∧ panics r = false.
Proof.
  revert value acc. induction fuel as [|fuel IH]; intros value acc Hb Hf; [lia|]. simpl.
  case_decide as Hl; [by eauto|].
  destruct (at_ok value 0) as (l & E0 & Hl0); [lia|]. rewrite E0. cbn [mbind res_bind].
  pose proof (at_byte _ _ _ Hb E0) as Hlb. unfold is_byte in Hlb.
  rewrite (slice_from_ok value 1) by lia. cbn [mbind res_bind].
  case_decide as Hd; [by eauto|]. rewrite slice_to_ok by lia. cbn [mbind res_bind].
  assert (len (take (Z.to_nat l) (drop (Z.to_nat 1) value)) = l) as Hlen.
  { unfold len in *. rewrite length_take, length_drop in *. lia. }
  assert (∀ n, l = Z.of_nat n → (n < 5)%nat →
    slice_from value (u8 (1 + l)) = Ok (drop (S n) value)) as Hs.
  { intros n -> Hn. rewrite u8_id by (unfold is_byte; lia). rewrite slice_from_ok.
    - do 2 f_equal. lia.
    - unfold len in *. rewrite length_drop in *. lia. }
  destruct (take _ _) as [|a [|b [|c [|d [|]]]]]; unfold len in Hlen; cbn [length] in Hlen;
    try (by eexists); cbn [mbind res_bind].
  all: (rewrite (Hs 1%nat) by lia) || (rewrite (Hs 4%nat) by lia); cbn [mbind res_bind].
  all: apply IH; [by apply Forall_drop|rewrite length_drop; unfold len in Hl; lia].
Qed.

Lemma cases_total field plen params t :
  bytes_ok field → 2 ≤ len field → 0 ≤ plen →
  ∃ r,
    match parameter_type t with
    | ANParametersTypeGUAMI => Some (parse_guami field plen params)
    | ANParametersTypeSelectedPLMNID => Some (parse_plmn field plen params)
    | ANParametersTypeRequestedNSSAI => parse_requested_nssai field plen params
    | ANParametersTypeEstablishmentCause => Some (parse_cause field plen params)
    | ANParametersTypeOther => Some (Ok params)
    end = Some r ∧ panics r = false.
Proof.
  intros Hb Hl Hp. pose proof (parameter_value_panics field plen Hl Hp) as Hv.
  destruct (parameter_type t); try (eexists; split; [reflexivity|]).
  - unfold parse_guami. case_decide; [done|]. apply panics_bind; [done|]. intros v _.
    case_decide; [done|]. by destruct (aper_GUAMI _).
  - unfold parse_plmn. case_decide; [done|]. apply panics_bind; [done|]. intros v _.
    case_decide; [done|]. by destruct (aper_PLMN _).
  - unfold parse_requested_nssai. case_decide; [by eauto|].
    destruct (parameter_value field plen) as [v|e|e] eqn:E; [|by eauto|done].
    assert (bytes_ok v) as Hbv.
    { unfold parameter_value in E. apply bind_Ok in E as (w & Hw & E).
      case_decide; [done|]. eauto with go_bytes. }
    destruct (parse_nssai_total (S (length v)) v [] Hbv) as (r & -> & Hr); [lia|].
    destruct r; by eauto.
  - unfold parse_cause. case_decide; [done|]. apply panics_bind; [done|].
    intros v Hvl%parameter_value_len. unfold ANParametersLenEstCause. case_decide; [done|].
    destruct (at_ok v 0) as (b & -> & _); [lia|done].
  - done.
Qed.

(** One turn of the loop never panics, and it drops [u8 (2 + parameterLength)]
    octets. *)
Lemma param_turn_total t plen rest params :
  bytes_ok (t :: plen :: rest) →
  ∃ r, param_turn (t :: plen :: rest) params = Some r ∧ panics r = false ∧
    ∀ p' f', r = Ok (p', f') → f' = drop (Z.to_nat (u8 (2 + plen))) (t :: plen :: rest).
Proof.
  intros Hb. inversion Hb as [|? ? _ Hb']; inversion Hb' as [|? ? Hp _]; subst.
  set (field := t :: plen :: rest) in *. assert (2 ≤ len field) by (unfold field; len_lia).
  unfold param_turn. change (at_ field 0) with (Ok t). change (at_ field 1) with (Ok plen).
  cbn [mbind res_bind]. case_decide as Hd; [by eexists|]. cbn [mbind res_bind].
  destruct (cases_total field plen params t Hb) as (r & -> & Hr); [done|unfold is_byte in Hp; lia|].
  eexists. split; [done|]. pose proof (u8_byte (2 + plen)) as Hu. unfold is_byte in Hu.
  rewrite slice_from_ok by lia. destruct r; simpl; [|done..]. split; [done|]. congruence.
Qed.

Lemma parse_params_total fuel field params :
  bytes_ok field → 254 ∉ field → (length field < fuel)%nat →
  ∃ r, parse_params fuel field params = Some r ∧ panics r = false.
Proof.
  revert field params. induction fuel as [|fuel IH]; intros field params Hb Hn Hf; [lia|]. simpl.
  case_decide as Hl; [by eauto|].
  destruct field as [|t [|plen rest]]; [unfold len in Hl; simpl in Hl; lia..|].
  destruct (param_turn_total t plen rest params Hb) as (r & -> & Hr & Hrest).
  destruct r as [[p' f']|e|e]; [|by eauto|done].
  specialize (Hrest _ _ eq_refl). subst f'.
  assert (u8 (2 + plen) ≠ 0).
  { apply not_elem_of_cons in Hn as [_ [? _]%not_elem_of_cons].
    inversion Hb as [|? ? _ Hb']; inversion Hb' as [|? ? Hp _]; subst. unfold is_byte, u8 in *.
    change (2 ^ 8) with 256 in *. destruct (decide (2 + plen < 256)).
    - rewrite Z.mod_small by lia. lia.
    - replace (2 + plen) with (plen - 254 + 1 * 256) by lia. rewrite Z.mod_add, Z.mod_small by lia. lia. }
  pose proof (u8_byte (2 + plen)) as Hu. unfold is_byte in Hu.
  apply IH; [by apply Forall_drop| |].
  - intros Hin. apply Hn. by eapply subseteq_drop.
  - rewrite length_drop. simpl in *. lia.
Qed.

Lemma an_field_panics coded : bytes_ok coded → panics (an_field coded) = false.
Proof.
  intros Hb. unfold an_field. case_decide; [done|]. apply panics_bind; [apply panics_slice; lia|].
  intros c Hc. case_decide; [done|]. apply panics_bind; [apply panics_slice; lia|]. intros l Hl.
  apply panics_bind; [apply panics_slice; lia|]. intros f Hf. case_decide; [done|].
  assert (0 ≤ be_get l) by eauto with go_bytes.
  apply panics_bind; [apply panics_slice; lia|]. done.
Qed.

Lemma an_field_inv coded c n f :
  bytes_ok coded → an_field coded = Ok (c, n, f) →
  bytes_ok c ∧ is_u16 n ∧ len f = n ∧ 2 + n ≤ len c ∧ f ⊆ coded ∧ bytes_ok f ∧ (length f ≤ length coded)%nat.
Proof.
  unfold an_field. intros Hb H. case_decide as Hd; [done|]. clear Hd.
  apply bind_Ok in H as (c' & Hc & H). case_decide as Hd; [done|]. clear Hd.
  apply bind_Ok in H as (l & Hl & H). apply bind_Ok in H as (f0 & Hf0 & H).
  case_decide as Hd; [done|]. clear Hd. apply bind_Ok in H as (f1 & Hf1 & [= <- <- <-]).
  assert (bytes_ok c') by eauto with go_bytes. assert (bytes_ok l) by eauto with go_bytes.
  pose proof (len_slice _ _ _ _ Hl) as El. pose proof (len_slice _ _ _ _ Hf0) as Ef.
  pose proof (len_slice _ _ _ _ Hf1) as Ef1. pose proof (len_slice _ _ _ _ Hc) as Ec.
  assert (length f1 ≤ length coded)%nat.
  { apply slice_ok_inv in Hf1. unfold len in *. lia. }
  apply slice_ok_inv in Hf1 as (? & ? & ? & ->), Hf0 as (? & ? & ? & ->), Hc as (? & ? & ? & ->).
  split; [done|]. split; [apply be_get_u16; [done|unfold len in El; lia]|].
  split; [lia|]. split; [lia|]. split; [|split; [|done]].
  - intros x Hx. apply subseteq_take, subseteq_drop, subseteq_take, subseteq_drop in Hx.
    by apply subseteq_take, subseteq_drop in Hx.
  - by repeat apply Forall_take || apply Forall_drop.
Qed.

Lemma parse_nas_panics c n :
  bytes_ok c → is_u16 n → 2 + n ≤ len c → panics (parse_nas c n) = false.
Proof.
  intros Hb Hn Hl. unfold parse_nas. pose proof (u16_range (2 + n)) as Hu. unfold is_u16 in *.
  assert (u16 (2 + n) ≤ len c).
  { unfold u16. pose proof (Z.mod_le (2 + n) (2 ^ 16)). lia. }
  apply panics_bind; [apply panics_slice; lia|]. intros c1 H1. case_decide; [done|].
  apply panics_bind; [apply panics_slice; lia|]. intros l Hl1. case_decide; [done|].
  apply panics_bind; [apply panics_slice; lia|]. intros f Hf. case_decide; [done|].
  assert (0 ≤ be_get l) by eauto with go_bytes.
  apply panics_slice; lia.
Qed.

(** ** The AN parameters of TS 24.502 9.3.2.2.2

    A parameter as a peer encodes it, and what it contributes. *)
Inductive AnParam :=
| PGuami (v : bytes)
| PPlmn (v : bytes)
| PNssai (l : list (Z * option (Z * Z * Z)))
| PCause (b : Z)
| PSkip (t : Z) (v : bytes).

Definition enc_snssai (s : Z * option (Z * Z * Z)) : bytes :=
  match s with
  | (sst, None) => [1; sst]
  | (sst, Some (a, b, c)) => [4; sst; a; b; c]
  end.
Definition snssai_of (s : Z * option (Z * Z * Z)) : SNSSAI :=
  match s with
  | (sst, None) => mkSNSSAI [sst] None
  | (sst, Some (a, b, c)) => mkSNSSAI [sst] (Some [a; b; c])
  end.

Definition param_tv (p : AnParam) : Z * bytes :=
  match p with
  | PGuami v => (1, v)
  | PPlmn v => (2, v)
  | PNssai l => (3, concat (map enc_snssai l))
  | PCause b => (4, [b])
  | PSkip t v => (t, v)
  end.
Definition enc_param (p : AnParam) : bytes :=
  let '(t, v) := param_tv p in [t; len v] ++ v.
Definition enc_params (ps : list AnParam) : bytes := concat (map enc_param ps).

(** Well-formed: at most 253 octets of value, and the value fits the type. *)
Definition param_ok (p : AnParam) : Prop :=
  len (param_tv p).2 ≤ 253 ∧
  match p with
  | PGuami v => len v = 6 ∧ is_Some (aper_GUAMI (0 :: v))
  | PPlmn v => len v = 3 ∧ is_Some (aper_PLMN (0 :: v))
  | PNssai l => l ≠ []
  | PCause b => True
  | PSkip t v => v = [] ∨ parameter_type t = ANParametersTypeOther
  end.

Definition apply_param (ps : ANParameters) (p : AnParam) : ANParameters :=
  match p with
  | PGuami v => mkAN (aper_GUAMI (0 :: v)) (an_SelectedPLMNID ps) (an_RequestedNSSAI ps) (an_EstablishmentCause ps)
  | PPlmn v => mkAN (an_GUAMI ps) (aper_PLMN (0 :: v)) (an_RequestedNSSAI ps) (an_EstablishmentCause ps)
  | PNssai l => mkAN (an_GUAMI ps) (an_SelectedPLMNID ps) (Some (map snssai_of l)) (an_EstablishmentCause ps)
  | PCause b => mkAN (an_GUAMI ps) (an_SelectedPLMNID ps) (an_RequestedNSSAI ps) (Some (cause_of_octet b))
  | PSkip _ _ => ps
  end.

Lemma parameter_value_enc t v rest :
  parameter_value ([t; len v] ++ v ++ rest) (len v) = Ok v.
Proof.
  unfold parameter_value. rewrite slice_from_ok by len_lia. cbn [mbind res_bind].
  change (drop (Z.to_nat 2) ([t; len v] ++ v ++ rest)) with (v ++ rest).
  rewrite decide_False by len_lia. rewrite slice_to_ok by len_lia. f_equal.
  unfold len. rewrite Nat2Z.id. apply take_app_length.
Qed.

Lemma parse_nssai_enc fuel l acc :
  (length l < fuel)%nat →
  parse_nssai fuel (concat (map enc_snssai l)) acc = Some (Ok (acc ++ map snssai_of l)).
Proof.
  revert fuel acc. induction l as [|[sst sd] l IH]; intros fuel acc Hf.
  { destruct fuel; [lia|]. simpl. by rewrite app_nil_r. }
  destruct fuel as [|fuel]; simpl in Hf; [lia|]. cbn [map concat].
  generalize (concat (map enc_snssai l)) (IH fuel) => rest E.
  destruct sd as [[[a b] c]|]; cbn [enc_snssai app parse_nssai].
  all: rewrite decide_False by len_lia.
  all: match goal with |- context [at_ (?x :: ?y) 0] => change (at_ (x :: y) 0) with (Ok x) end.
  all: cbn [mbind res_bind]; rewrite (slice_from_ok _ 1) by len_lia; cbn [mbind res_bind].
  all: match goal with |- context [drop (Z.to_nat 1) (?x :: ?y)] => change (drop (Z.to_nat 1) (x :: y)) with y end.
  all: rewrite decide_False by len_lia; rewrite slice_to_ok by len_lia; cbn [mbind res_bind].
  all: rewrite u8_id by (unfold is_byte; lia).
  all: match goal with |- context [take (Z.to_nat ?n) (?x :: ?y)] =>
         let k := eval vm_compute in (Z.to_nat n) in change (Z.to_nat n) with k end; cbn [take]; rewrite take_0.
  all: cbn [mbind res_bind]; rewrite slice_from_ok by len_lia; cbn [mbind res_bind].
  all: match goal with |- context [drop (Z.to_nat ?n) (?x :: ?y)] => change (drop (Z.to_nat n) (x :: y)) with rest end.
  all: rewrite E by lia; by rewrite <- app_assoc.
Qed.

Lemma length_enc_snssai l : (length l ≤ length (concat (map enc_snssai l)))%nat.
Proof.
  induction l as [|[sst [[[a b] c]|]] l IH]; [done|..];
    cbn [map concat]; rewrite length_app; simpl; lia.
Qed.

Lemma param_turn_enc p ps rest :
  param_ok p → param_turn (enc_param p ++ rest) ps = Some (Ok (apply_param ps p, rest)).
Proof.
  intros [Hl Hp]. unfold enc_param. destruct (param_tv p) as [t v] eqn:Etv. simpl in Hl.
  rewrite <- app_assoc. set (field := [t; len v] ++ v ++ rest). pose proof (len_nonneg v).
  assert (u8 (2 + len v) = 2 + len v) as E8 by (apply u8_id; unfold is_byte; lia).
  unfold param_turn. change (at_ field 0) with (Ok t). change (at_ field 1) with (Ok (len v)).
  cbn [mbind res_bind]. rewrite decide_False by (rewrite E8; unfold field; len_lia).
  assert (slice_from field (u8 (2 + len v)) = Ok rest) as Erest.
  { rewrite E8, slice_from_ok by (unfold field; len_lia). f_equal. unfold field.
    rewrite app_assoc. replace (Z.to_nat _) with (length ([t; len v] ++ v)).
    - apply drop_app_length.
    - unfold len. rewrite length_app. simpl. lia. }
  pose proof (parameter_value_enc t v rest : parameter_value field (len v) = Ok v) as Ev.
  destruct p; injection Etv as <- <-; simpl in Hp.
  - destruct Hp as [Hv [gu Hg]]. change (parameter_type 1) with ANParametersTypeGUAMI. cbn iota.
    unfold parse_guami. rewrite decide_False, Ev by lia. cbn [mbind res_bind].
    rewrite decide_False by (unfold ANParametersLenGUAMI; lia). rewrite Hg. cbn [mbind res_bind].
    rewrite Erest. simpl. by rewrite Hg.
  - destruct Hp as [Hv [gu Hg]]. change (parameter_type 2) with ANParametersTypeSelectedPLMNID. cbn iota.
    unfold parse_plmn. rewrite decide_False, Ev by lia. cbn [mbind res_bind].
    rewrite decide_False by (unfold ANParametersLenPLMNID; lia). rewrite Hg. cbn [mbind res_bind].
    rewrite Erest. simpl. by rewrite Hg.
  - change (parameter_type 3) with ANParametersTypeRequestedNSSAI. cbn iota.
    pose proof (length_enc_snssai l). unfold parse_requested_nssai.
    rewrite decide_False, Ev by (destruct l; [done|]; unfold len; simpl in *; lia).
    rewrite parse_nssai_enc by lia. cbn [mbind res_bind]. by rewrite Erest.
  - change (parameter_type 4) with ANParametersTypeEstablishmentCause. cbn iota.
    unfold parse_cause. rewrite decide_False, Ev by len_lia. cbn [mbind res_bind].
    rewrite decide_False by (unfold ANParametersLenEstCause; len_lia).
    change (at_ [b] 0) with (Ok b). cbn [mbind res_bind]. by rewrite Erest.
  - assert (∀ X : option (res ANParameters), match parameter_type t0 with
      | ANParametersTypeGUAMI => Some (parse_guami field (len v0) ps)
      | ANParametersTypeSelectedPLMNID => Some (parse_plmn field (len v0) ps)
      | ANParametersTypeRequestedNSSAI => parse_requested_nssai field (len v0) ps
      | ANParametersTypeEstablishmentCause => Some (parse_cause field (len v0) ps)
      | ANParametersTypeOther => Some (Ok ps) end = Some (Ok ps)) as HX.
    { intros _. destruct Hp as [->| ->]; [|done]. by destruct (parameter_type t0). }
    rewrite (HX None). cbn [mbind res_bind]. by rewrite Erest.
Qed.

Lemma parse_params_enc fuel params ps :
  Forall param_ok params → (length params < fuel)%nat →
  parse_params fuel (enc_params params) ps = Some (Ok (foldl apply_param ps params)).
Proof.
  intros H. revert fuel ps. induction H as [|p params Hp _ IH]; intros fuel ps Hf.
  { destruct fuel; [lia|]. done. }
  destruct fuel as [|fuel]; simpl in Hf; [lia|].
  change (enc_params (p :: params)) with (enc_param p ++ enc_params params). cbn [parse_params].
  rewrite decide_False.
  - rewrite param_turn_enc by done. simpl. apply IH. lia.
  - unfold enc_param. destruct (param_tv p) as [t v]. len_lia.
Qed.

Lemma length_enc_params params : (length params ≤ length (enc_params params))%nat.
Proof.
  induction params as [|p params IH]; [done|].
  change (enc_params (p :: params)) with (enc_param p ++ enc_params params). rewrite length_app.
  unfold enc_param. destruct (param_tv p) as [t v]. simpl. lia.
Qed.

Lemma an_field_enc a b E rest :
  len E < 2 ^ 16 →
  an_field ([a; b] ++ be_put 2 (len E) ++ E ++ rest) =
    Ok (be_put 2 (len E) ++ E ++ rest, len E, E).
Proof.
  intros HE. assert (is_u16 (len E)) by (unfold is_u16; len_lia).
  unfold an_field. rewrite decide_False by len_lia. rewrite (slice_from_ok _ 2) by len_lia.
  change (drop (Z.to_nat 2) ([a; b] ++ be_put 2 (len E) ++ E ++ rest)) with (be_put 2 (len E) ++ E ++ rest).
  cbn [mbind res_bind]. rewrite decide_False by len_lia.
  rewrite (slice_to_ok _ 2), (slice_from_ok _ 2) by len_lia. cbn [mbind res_bind].
  replace (Z.to_nat 2) with (length (be_put 2 (len E))) by (by rewrite length_be_put).
  rewrite take_app_length, drop_app_length, be_get_put16 by done.
  rewrite decide_False, slice_to_ok by len_lia. cbn [mbind res_bind].
  replace (Z.to_nat (len E)) with (length E) by (unfold len; lia). by rewrite take_app_length.
Qed.

Lemma parse_nas_enc E nas rest :
  len E < 2 ^ 16 - 2 → 0 < len nas < 2 ^ 16 →
  parse_nas (be_put 2 (len E) ++ E ++ be_put 2 (len nas) ++ nas ++ rest) (len E) = Ok nas.
Proof.
  intros HE Hn. assert (is_u16 (len nas)) by (unfold is_u16; lia).
  unfold parse_nas. rewrite u16_id by (unfold is_u16; len_lia).
  rewrite slice_from_ok by len_lia. cbn [mbind res_bind].
  rewrite (app_assoc (be_put 2 (len E))).
  replace (Z.to_nat (2 + len E)) with (length (be_put 2 (len E) ++ E)).
  2:{ rewrite length_app, length_be_put. unfold len. lia. }
  rewrite drop_app_length, decide_False by len_lia.
  rewrite (slice_to_ok _ 2), (slice_from_ok _ 2) by len_lia. cbn [mbind res_bind].
  replace (Z.to_nat 2) with (length (be_put 2 (len nas))) by (by rewrite length_be_put).
  rewrite take_app_length, drop_app_length, be_get_put16 by done.
  rewrite decide_False, decide_False, slice_to_ok by len_lia. f_equal.
  unfold len. by rewrite Nat2Z.id, take_app_length.
Qed.

(** ** Properties *)

(** C31. Round trip of EAP-5G data: any list of well-formed AN parameters (GUAMI,
    PLMN, S-NSSAI list, establishment cause, unknown or empty parameters) followed
    by a nonempty NAS PDU decodes to the parameters they carry, later ones
    overriding, and to that NAS PDU; an empty parameter field yields no
    parameters. *)
Theorem UnmarshalEAP5GData_roundtrip a b params nas rest fuel :
  Forall param_ok params → len (enc_params params) < 2 ^ 16 - 2 → 0 < len nas < 2 ^ 16 →
  (length params < fuel)%nat →
  UnmarshalEAP5GData fuel
    ([a; b] ++ be_put 2 (len (enc_params params)) ++ enc_params params ++ be_put 2 (len nas) ++ nas ++ rest)
  = Some (Ok (match params with [] => None | _ => Some (foldl apply_param empty_an params) end, nas)).
Proof.
  intros Hok HE Hn Hf. unfold UnmarshalEAP5GData. rewrite an_field_enc by lia.
  rewrite parse_nas_enc by lia. destruct params as [|p params].
  - by rewrite decide_True.
  - rewrite decide_False.
    + rewrite parse_params_enc by done. done.
    + pose proof (length_enc_params (p :: params)). unfold len. simpl in *. lia.
Qed.


(** C33. An AN parameter of an unsupported type whose length octet is 254 is never
    passed: [2+parameterLength] wraps to 0, the bound check accepts it and the loop
    shifts the field by nothing, so no amount of fuel makes the parser return. *)
Theorem UnmarshalEAP5GData_diverges a b t rest tail fuel :
  parameter_type t = ANParametersTypeOther →
  len (t :: 254 :: rest) < 2 ^ 16 →
  UnmarshalEAP5GData fuel
    ([a; b] ++ be_put 2 (len (t :: 254 :: rest)) ++ (t :: 254 :: rest) ++ tail) = None.
Proof.
  intros Ht Hl. unfold UnmarshalEAP5GData. rewrite an_field_enc by done.
  rewrite decide_False by len_lia.
  assert (∀ f ps, parse_params f (t :: 254 :: rest) ps = None) as ->; [|done].
  induction f as [|f IH]; intros ps; [done|]. cbn [parse_params].
  rewrite decide_False by len_lia. unfold param_turn.
  change (at_ (t :: 254 :: rest) 0) with (Ok t). change (at_ (t :: 254 :: rest) 1) with (Ok 254).
  cbn [mbind res_bind]. change (u8 (2 + 254)) with 0.
  rewrite decide_False by len_lia. rewrite Ht. cbn [mbind res_bind].
  change (u8 (2 + 254)) with 0. rewrite slice_from_ok by len_lia. cbn [mbind res_bind]. apply IH.
Qed.

End Parser.

(** ** Witnesses, with concrete decoders *)
Definition toy_guami (b : bytes) : option GUAMI :=
  Some (mkGUAMI (take 3 (drop 1 b)) (mkBits [1] 8) (mkBits [0; 64] 10) (mkBits [0] 6)).
Definition toy_plmn (b : bytes) : option bytes := Some (drop 1 b).

Lemma UnmarshalEAP5GData_roundtrip_witness :
  UnmarshalEAP5GData toy_guami toy_plmn 9
    [1; 0; 0; 14; 2; 3; 2; 0xf8; 0x39; 9; 0; 3; 2; 1; 1; 4; 1; 3; 0; 2; 0x7e; 0x41]
  = Some (Ok (Some (mkAN None (Some [2; 0xf8; 0x39]) (Some [mkSNSSAI [1] None]) (Some 3)), [0x7e; 0x41])).
Proof.
  apply (UnmarshalEAP5GData_roundtrip toy_guami toy_plmn 1 0
    [PPlmn [2; 0xf8; 0x39]; PSkip 9 []; PNssai [(1, None)]; PCause 3] [0x7e; 0x41] []);
    [|vm_compute; done|vm_compute; done|simpl; lia].
  repeat constructor; vm_compute; done || eauto.
Defined.


Lemma UnmarshalEAP5GData_diverges_witness :
  UnmarshalEAP5GData toy_guami toy_plmn 500 [1; 0; 0; 2; 9; 254; 0; 1; 0x7e] = None.
Proof. apply (UnmarshalEAP5GData_diverges toy_guami toy_plmn 1 0 9 [] [0; 1; 0x7e] 500); vm_compute; done. Defined.
