(* ===== verification/IkeMsg.v ===== *)
(** * IKE messages and addresses

    The data types of free5gc/ike (RFC 7296 messages, EAP packets) and of the
    standard library's net package that the N3IWF reads and builds. The codec and the
    cryptography of free5gc/ike are parameters (see Env.v); only the structures and
    the protocol numbers assigned by IANA and 3GPP are written here. *)

From S2P Require Import Prelude.

(** ** Addresses *)

(** net.IP.To4: 4-byte form, or nil. *)
Definition v4InV6Prefix : bytes := [0; 0; 0; 0; 0; 0; 0; 0; 0; 0; 255; 255].
Definition To4 (ip : bytes) : bytes :=
  if decide (length ip = 4%nat) then ip
  else if decide (length ip = 16%nat ∧ take 12 ip = v4InV6Prefix) then drop 12 ip
  else [].

(** net.IP.Equal: an IPv4 address equals its IPv6 form. *)
Definition IP_Equal (a b : bytes) : bool :=
  if decide (length a = length b) then bool_decide (a = b)
  else bool_decide (To4 a ≠ [] ∧ To4 a = To4 b).

(** net.ParseIP of a dotted address: the 16-byte form. *)
Definition ParseIP (ip4 : bytes) : bytes := v4InV6Prefix ++ ip4.

(** []byte(s) *)
Definition str_bytes (s : string) : bytes :=
  map (λ a, Z.of_N (Ascii.N_of_ascii a)) (String.list_ascii_of_string s).

Record UDPAddr := mkUDP { ua_IP : bytes; ua_Port : Z }.
#[global] Instance UDPAddr_eq_dec : EqDecision UDPAddr.
Proof. solve_decision. Defined.

(** ** Transforms and proposals *)
Record Transform := mkTransform {
  tr_Type : Z;
  tr_ID : Z;
  tr_AttributePresent : bool;
  tr_AttributeValue : Z;
}.
Record Proposal := mkProposal {
  pr_Number : Z;
  pr_ProtocolID : Z;
  pr_SPI : bytes;
  pr_Encr : list Transform;
  pr_Prf : list Transform;
  pr_Integ : list Transform;
  pr_DH : list Transform;
  pr_ESN : list Transform;
}.
#[global] Instance Transform_eq_dec : EqDecision Transform.
Proof. solve_decision. Defined.
#[global] Instance Proposal_eq_dec : EqDecision Proposal.
Proof. solve_decision. Defined.

(** Transform types and identifiers (IANA IKEv2 parameters). *)
Definition TypeEncryptionAlgorithm : Z := 1.
Definition TypePseudorandomFunction : Z := 2.
Definition TypeIntegrityAlgorithm : Z := 3.
Definition TypeDiffieHellmanGroup : Z := 4.
Definition TypeExtendedSequenceNumbers : Z := 5.
Definition ENCR_DES_IV64 : Z := 1.
Definition ENCR_DES : Z := 2.
Definition ENCR_3DES : Z := 3.
Definition ENCR_RC5 : Z := 4.
Definition ENCR_IDEA : Z := 5.
Definition ENCR_CAST : Z := 6.
Definition ENCR_BLOWFISH : Z := 7.
Definition ENCR_3IDEA : Z := 8.
Definition ENCR_DES_IV32 : Z := 9.
Definition ENCR_NULL : Z := 11.
Definition ENCR_AES_CBC : Z := 12.
Definition ENCR_AES_CTR : Z := 13.
Definition AUTH_NONE : Z := 0.
Definition AUTH_HMAC_MD5_96 : Z := 1.
Definition AUTH_HMAC_SHA1_96 : Z := 2.
Definition AUTH_DES_MAC : Z := 3.
Definition AUTH_KPDK_MD5 : Z := 4.
Definition AUTH_AES_XCBC_96 : Z := 5.
Definition AUTH_HMAC_SHA2_256_128 : Z := 12.
Definition DH_1024_BIT_MODP : Z := 2.
Definition ESN_DISABLE : Z := 0.
Definition ESN_ENABLE : Z := 1.

(** ** Payloads *)
Record TrafficSelector := mkTS {
  ts_Type : Z; ts_Protocol : Z; ts_StartPort : Z; ts_EndPort : Z;
  ts_StartAddress : bytes; ts_EndAddress : bytes;
}.
Inductive EapTypeData :=
| EapExpanded (VendorID VendorType : Z) (VendorData : bytes)
| EapOtherType (type : Z).
Record EAP := mkEAP { eap_Code : Z; eap_Identifier : Z; eap_TypeData : option EapTypeData }.

(** ike_message.IKEPayload, one constructor per payload type the handlers name. *)
Inductive Payload :=
| PSA (proposals : list Proposal)
| PKE (group : Z) (data : bytes)
| PNonce (data : bytes)
| PN (protocol notify : Z) (spi data : bytes)
| PIDi (type : Z) (data : bytes)
| PIDr (type : Z) (data : bytes)
| PCERT (encoding : Z) (data : bytes)
| PCERTreq (encoding : Z) (authority : bytes)
| PAUTH (method : Z) (data : bytes)
| PEAP (e : EAP)
| PCP (type : Z) (attributes : list (Z * bytes))
| PTSi (selectors : list TrafficSelector)
| PTSr (selectors : list TrafficSelector)
| PD (protocol spiSize : Z) (count : Z) (spis : list Z)
| POther (type : Z).

Record IKEMessage := mkMsg {
  im_InitiatorSPI : Z;
  im_ResponderSPI : Z;
  im_ExchangeType : Z;
  im_Response : bool;
  im_Initiator : bool;
  im_MessageID : Z;
  im_Payloads : list Payload;
}.
Record IKEHeader := mkHdr {
  ih_InitiatorSPI : Z;
  ih_ResponderSPI : Z;
  ih_MajorVersion : Z;
  ih_ExchangeType : Z;
  ih_MessageID : Z;
}.

(** Protocol numbers (RFC 7296, RFC 3748, TS 24.502). *)
Definition IKE_SA_INIT : Z := 34.
Definition IKE_AUTH : Z := 35.
Definition CREATE_CHILD_SA : Z := 36.
Definition INFORMATIONAL : Z := 37.
Definition IKE_HEADER_LEN : Z := 28.
Definition TypeNone : Z := 0.
Definition TypeIKE : Z := 1.
Definition TypeESP : Z := 3.
Definition INVALID_IKE_SPI : Z := 4.
Definition INVALID_MAJOR_VERSION : Z := 5.
Definition NO_PROPOSAL_CHOSEN : Z := 14.
Definition INVALID_KE_PAYLOAD : Z := 17.
Definition AUTHENTICATION_FAILED : Z := 24.
Definition NAT_DETECTION_SOURCE_IP : Z := 16388.
Definition NAT_DETECTION_DESTINATION_IP : Z := 16389.
Definition ID_FQDN : Z := 2.
Definition X509CertificateSignature : Z := 4.
Definition RSADigitalSignature : Z := 1.
Definition SharedKeyMesageIntegrityCode : Z := 2.
Definition CFG_REPLY : Z := 2.
Definition INTERNAL_IP4_ADDRESS : Z := 1.
Definition INTERNAL_IP4_NETMASK : Z := 2.
Definition TS_IPV4_ADDR_RANGE : Z := 7.
Definition IPProtocolAll : Z := 0.
Definition EapCodeRequest : Z := 1.
Definition EapCodeResponse : Z := 2.
Definition EapCodeSuccess : Z := 3.
Definition EapCodeFailure : Z := 4.
Definition VendorId3GPP : Z := 10415.
Definition VendorTypeEAP5G : Z := 3.
Definition EAP5GType5GStart : Z := 1.
Definition EAP5GType5GStop : Z := 4.
Definition IPPROTO_TCP : Z := 6.
Definition IPPROTO_GRE : Z := 47.

(** Builders of free5gc/ike that only fill a structure. *)
Definition BuildNotification (protocol notify : Z) (spi data : bytes) : Payload := PN protocol notify spi data.
Definition BuildEAPSuccess (identifier : Z) : Payload := PEAP (mkEAP EapCodeSuccess identifier None).
Definition BuildEAPfailure (identifier : Z) : Payload := PEAP (mkEAP EapCodeFailure identifier None).
Definition BuildEAP5GStart (identifier : Z) : Payload :=
  PEAP (mkEAP EapCodeRequest identifier
    (Some (EapExpanded VendorId3GPP VendorTypeEAP5G [EAP5GType5GStart; 0]))).
Definition BuildIndividualTrafficSelector (ip : bytes) : TrafficSelector :=
  mkTS TS_IPV4_ADDR_RANGE IPProtocolAll 0 65535 ip ip.
Definition NewMessage (iSPI rSPI exchange : Z) (response initiator : bool) (messageID : Z)
    (payloads : list Payload) : IKEMessage :=
  mkMsg iSPI rSPI exchange response initiator messageID payloads.
