(* ===== verification/Proposals.v ===== *)
(** * Choice of proposals (internal/ike/handler.go)

    The choice of an IKE proposal ([SelectProposal]) and of the ESP proposal of
    IKE_AUTH, with the table of transforms the kernel supports. The decoders of
    free5gc/ike that say whether a transform is implemented are parameters. *)

From S2P Require Import Prelude IkeMsg.

(** src/internal/ike/handler.go:1868-1993 (isTransformKernelSupported) *)
Definition isTransformKernelSupported (transformType transformID : Z) (attributePresent : bool)
    (attributeValue : Z) : bool :=
  if decide (transformType = TypeEncryptionAlgorithm) then
    if decide (transformID = ENCR_DES_IV64) then false
    else if decide (transformID = ENCR_DES) then true
    else if decide (transformID = ENCR_3DES) then true
    else if decide (transformID = ENCR_RC5) then false
    else if decide (transformID = ENCR_IDEA) then false
    else if decide (transformID = ENCR_CAST) then
      if attributePresent then bool_decide (attributeValue = 128) else false
    else if decide (transformID = ENCR_BLOWFISH) then true
    else if decide (transformID = ENCR_3IDEA) then false
    else if decide (transformID = ENCR_DES_IV32) then false
    else if decide (transformID = ENCR_NULL) then true
    else if decide (transformID = ENCR_AES_CBC) then
      if attributePresent then bool_decide (attributeValue ∈ [128; 192; 256]) else false
    else if decide (transformID = ENCR_AES_CTR) then
      if attributePresent then bool_decide (attributeValue ∈ [128; 192; 256]) else false
    else false
  else if decide (transformType = TypeIntegrityAlgorithm) then
    if decide (transformID = AUTH_NONE) then false
    else if decide (transformID = AUTH_HMAC_SHA1_96) then true
    else if decide (transformID = AUTH_DES_MAC) then false
    else if decide (transformID = AUTH_KPDK_MD5) then false
    else if decide (transformID = AUTH_AES_XCBC_96) then true
    else if decide (transformID = AUTH_HMAC_SHA2_256_128) then true
    else false
  else if decide (transformType = TypeDiffieHellmanGroup) then false
  else if decide (transformType = TypeExtendedSequenceNumbers) then
    bool_decide (transformID = ESN_ENABLE ∨ transformID = ESN_DISABLE)
  else false.

Definition kernel_ok (ty : Z) (t : Transform) : bool :=
  isTransformKernelSupported ty (tr_ID t) (tr_AttributePresent t) (tr_AttributeValue t).

(** The first element that satisfies a test ([for ... { if ok { x = t; break } }]). *)
Definition first {A} (f : A → bool) (l : list A) : option A := head (filter (λ x, f x = true) l).

(** src/internal/ike/handler.go:405-416 (Server.HandleIKEAUTH)

    An optional transform list: [None] when the proposal is skipped. *)
Definition optional_transform (ty : Z) (l : list Transform) : option (option Transform) :=
  match l with
  | [] => Some None
  | _ => match first (kernel_ok ty) l with Some t => Some (Some t) | None => None end
  end.

(** src/internal/ike/handler.go:388-401 (Server.HandleIKEAUTH)

    A mandatory transform list. *)
Definition mandatory_transform (ty : Z) (l : list Transform) : option Transform := first (kernel_ok ty) l.

(** src/internal/ike/handler.go:378-461 (Server.HandleIKEAUTH)

    What one proposal of the UE's SA payload contributes: [None] when the loop goes on
    to the next one. *)
Definition esp_proposal (p : Proposal) : option Proposal :=
  if decide (length (pr_SPI p) ≠ 4%nat) then None
  else
    encr ← mandatory_transform TypeEncryptionAlgorithm (pr_Encr p);
    if decide (pr_Prf p ≠ []) then None
    else
      integ ← optional_transform TypeIntegrityAlgorithm (pr_Integ p);
      dh ← optional_transform TypeDiffieHellmanGroup (pr_DH p);
      esn ← mandatory_transform TypeExtendedSequenceNumbers (pr_ESN p);
      if decide (tr_ID encr = ENCR_NULL ∧ integ = None) then None
      else Some (mkProposal (pr_Number p) (pr_ProtocolID p) (pr_SPI p)
                   [encr] [] (option_list integ) (option_list dh) [esn]).

(** src/internal/ike/handler.go:374-461 (Server.HandleIKEAUTH)

    The ESP proposals of the response SA: at most one, from the first proposal that
    qualifies. *)
Fixpoint select_esp (ps : list Proposal) : list Proposal :=
  match ps with
  | [] => []
  | p :: ps => match esp_proposal p with Some q => [q] | None => select_esp ps end
  end.

Section IKE.
Context (dh_decodes encr_decodes integ_decodes prf_decodes : Transform → bool).

(** src/internal/ike/handler.go:2030-2110 (SelectProposal)

    One turn of the loop. *)
Definition ike_proposal (p : Proposal) : option Proposal :=
  dh ← first (λ t, bool_decide (tr_ID t ≠ DH_1024_BIT_MODP) && dh_decodes t) (pr_DH p);
  encr ← first encr_decodes (pr_Encr p);
  integ ← first integ_decodes (pr_Integ p);
  prf ← first prf_decodes (pr_Prf p);
  if decide (pr_ESN p ≠ []) then None
  else Some (mkProposal (pr_Number p) (pr_ProtocolID p) [] [encr] [prf] [integ] [dh] []).

(** src/internal/ike/handler.go:2027-2112 (SelectProposal) *)
Fixpoint SelectProposal (ps : list Proposal) : list Proposal :=
  match ps with
  | [] => []
  | p :: ps => match ike_proposal p with Some q => [q] | None => SelectProposal ps end
  end.

End IKE.

(** ** Lemmas *)
Lemma first_Some {A} (f : A → bool) l x : first f l = Some x → x ∈ l ∧ f x = true.
Proof.
  unfold first. intros H%head_Some_elem_of. by apply list_elem_of_filter in H as [? ?].
Qed.

Lemma first_None {A} (f : A → bool) l : first f l = None → Forall (λ x, f x = false) l.
Proof.
  unfold first. intros H%head_None. apply Forall_forall. intros x Hx.
  destruct (f x) eqn:E; [|done]. exfalso.
  assert (x ∈ filter (λ x, f x = true) l) as Hin by (by apply list_elem_of_filter).
  rewrite H in Hin. by apply elem_of_nil in Hin.
Qed.

(** A loop that takes the first hit, as a specification. *)
Definition first_hit {A B} (f : A → option B) (l : list A) : list B :=
  match head (omap f l) with Some b => [b] | None => [] end.

Lemma select_esp_first ps : select_esp ps = first_hit esp_proposal ps.
Proof.
  induction ps as [|p ps IH]; [done|]. simpl. unfold first_hit in *. simpl.
  by destruct (esp_proposal p).
Qed.

Lemma SelectProposal_first d e i f ps :
  SelectProposal d e i f ps = first_hit (ike_proposal d e i f) ps.
Proof.
  induction ps as [|p ps IH]; [done|]. simpl. unfold first_hit in *. simpl.
  by destruct (ike_proposal d e i f p).
Qed.

Lemma first_hit_elem {A B} (f : A → option B) l b :
  b ∈ first_hit f l →
  first_hit f l = [b] ∧ ∃ a l1 l2, l = l1 ++ a :: l2 ∧ f a = Some b ∧ Forall (λ x, f x = None) l1.
Proof.
  unfold first_hit. induction l as [|a l IH]; simpl; [by intros ?%elem_of_nil|].
  destruct (f a) as [b'|] eqn:E; simpl.
  - intros ->%list_elem_of_singleton. split; [done|]. exists a, [], l. by repeat constructor.
  - intros H. destruct (IH H) as (? & a' & l1 & l2 & -> & ? & ?). split; [done|].
    exists a', (a :: l1), l2. repeat split; [done|]. by constructor.
Qed.

Lemma kernel_ok_dh t : kernel_ok TypeDiffieHellmanGroup t = false.
Proof. done. Qed.

Lemma optional_dh l o : optional_transform TypeDiffieHellmanGroup l = Some o → o = None ∧ l = [].
Proof.
  unfold optional_transform. destruct l as [|t l]; [naive_solver|].
  destruct (first _ _) as [t'|] eqn:E; [|done]. apply first_Some in E as [_ E].
  by rewrite kernel_ok_dh in E.
Qed.

(** ** Properties *)

(** C26. Choice of the IKE proposal: the result is empty or one proposal built
    from the first offer that qualifies; it holds exactly one transform of each of
    the four mandatory types, all taken from that offer and implemented, the DH group is
    never group 2, and no extended sequence numbers are chosen. *)
Theorem SelectProposal_sound dh encr integ prf ps q :
  q ∈ SelectProposal dh encr integ prf ps →
  SelectProposal dh encr integ prf ps = [q] ∧
  ∃ p l1 l2 d e i f,
    ps = l1 ++ p :: l2 ∧ Forall (λ x, ike_proposal dh encr integ prf x = None) l1 ∧
    q = mkProposal (pr_Number p) (pr_ProtocolID p) [] [e] [f] [i] [d] [] ∧
    d ∈ pr_DH p ∧ e ∈ pr_Encr p ∧ i ∈ pr_Integ p ∧ f ∈ pr_Prf p ∧
    dh d = true ∧ encr e = true ∧ integ i = true ∧ prf f = true ∧
    tr_ID d ≠ DH_1024_BIT_MODP ∧ pr_ESN p = [].
Proof.
  rewrite SelectProposal_first. intros (-> & p & l1 & l2 & -> & Hp & Hl1)%first_hit_elem.
  split; [done|]. unfold ike_proposal in Hp.
  apply bind_Some in Hp as (d & Hd & Hp). apply bind_Some in Hp as (e & He & Hp).
  apply bind_Some in Hp as (i & Hi & Hp). apply bind_Some in Hp as (f & Hf & Hp).
  case_decide as Hesn; [done|]. injection Hp as <-.
  apply first_Some in Hd as [Hd [Hd2%bool_decide_eq_true Hd3]%andb_true_iff],
    He as [? ?], Hi as [? ?], Hf as [? ?].
  exists p, l1, l2, d, e, i, f. repeat split; done.
Qed.

Definition toy_transform (ty id : Z) : Transform := mkTransform ty id true 128.

Lemma SelectProposal_sound_witness :
  SelectProposal (λ _, true) (λ _, true) (λ _, true) (λ _, true)
    [mkProposal 1 1 [] [toy_transform 1 12] [toy_transform 2 5] [toy_transform 3 12] [toy_transform 4 2] [];
     mkProposal 2 1 [] [toy_transform 1 12] [toy_transform 2 5] [toy_transform 3 12]
       [toy_transform 4 2; toy_transform 4 14] []]
  = [mkProposal 2 1 [] [toy_transform 1 12] [toy_transform 2 5] [toy_transform 3 12] [toy_transform 4 14] []].
Proof.
  apply (SelectProposal_sound (λ _, true) (λ _, true) (λ _, true) (λ _, true)
    [mkProposal 1 1 [] [toy_transform 1 12] [toy_transform 2 5] [toy_transform 3 12] [toy_transform 4 2] [];
     mkProposal 2 1 [] [toy_transform 1 12] [toy_transform 2 5] [toy_transform 3 12]
       [toy_transform 4 2; toy_transform 4 14] []]).
  vm_compute. constructor.
Defined.

(** C27. Choice of the ESP proposal of IKE_AUTH: one proposal at most, from the
    first offer that qualifies, with the offer's number and 4-octet SPI; its transforms
    are supported by the kernel, it never has a DH or PRF transform, and encryption
    NULL is accepted only with an integrity algorithm. *)
Theorem select_esp_sound ps q :
  q ∈ select_esp ps →
  select_esp ps = [q] ∧
  ∃ p l1 l2 e n,
    ps = l1 ++ p :: l2 ∧ Forall (λ x, esp_proposal x = None) l1 ∧
    pr_Number q = pr_Number p ∧ pr_SPI q = pr_SPI p ∧ length (pr_SPI q) = 4%nat ∧
    pr_Encr q = [e] ∧ e ∈ pr_Encr p ∧ kernel_ok TypeEncryptionAlgorithm e = true ∧
    pr_ESN q = [n] ∧ n ∈ pr_ESN p ∧ pr_DH q = [] ∧ pr_Prf q = [] ∧
    Forall (λ t, t ∈ pr_Integ p ∧ kernel_ok TypeIntegrityAlgorithm t = true) (pr_Integ q) ∧
    (tr_ID e = ENCR_NULL → pr_Integ q ≠ []).
Proof.
  rewrite select_esp_first. intros (-> & p & l1 & l2 & -> & Hp & Hl1)%first_hit_elem.
  split; [done|]. unfold esp_proposal in Hp. case_decide as Hspi; [done|].
  apply bind_Some in Hp as (e & He & Hp). case_decide; [done|].
  apply bind_Some in Hp as (i & Hi & Hp). apply bind_Some in Hp as (d & [-> Hd]%optional_dh & Hp).
  apply bind_Some in Hp as (n & Hn & Hp). case_decide as Hnull; [done|]. injection Hp as <-.
  apply first_Some in He as [? ?], Hn as [? ?].
  exists p, l1, l2, e, n. repeat split; try done; simpl.
  - destruct i as [t|]; simpl; constructor; [|done]. unfold optional_transform in Hi.
    destruct (pr_Integ p) as [|t' l]; [done|]. destruct (first _ _) as [t2|] eqn:E; [|done].
    injection Hi as ->. by apply first_Some in E.
  - intros Hn2. destruct i; [done|]. exfalso. by apply Hnull.
Qed.

Lemma select_esp_sound_witness :
  select_esp
    [mkProposal 1 3 [1; 2; 3; 4] [toy_transform 1 11] [] [] [] [toy_transform 5 0];
     mkProposal 2 3 [1; 2; 3; 4] [toy_transform 1 20; toy_transform 1 12] [] [toy_transform 3 12] [] [toy_transform 5 0]]
  = [mkProposal 2 3 [1; 2; 3; 4] [toy_transform 1 12] [] [toy_transform 3 12] [] [toy_transform 5 0]].
Proof.
  apply (select_esp_sound
    [mkProposal 1 3 [1; 2; 3; 4] [toy_transform 1 11] [] [] [] [toy_transform 5 0];
     mkProposal 2 3 [1; 2; 3; 4] [toy_transform 1 20; toy_transform 1 12] [] [toy_transform 3 12] [] [toy_transform 5 0]]).
  vm_compute. constructor.
Defined.
