(* ===== verification/Monad.v ===== *)
(** * Go handlers as state transformers

    A statement sequence of a handler is a function from the state to a control
    outcome and a state: it goes on with a value, returns early from the function, or
    panics. State changes made before an early return or a panic stay. Also here:
    record update, loops, deferred clean-up and [recover], and the compositional rules for
    relations between the state before and after a handler ([stable]). *)

From S2P Require Import Prelude.

(** ** Control *)
Inductive ctl (R A : Type) : Type :=
| Next (a : A)
| Return (r : R)
| Panicked (why : string).
Arguments Next {_ _} a.
Arguments Return {_ _} r.
Arguments Panicked {_ _} why.

(** [S]: state; [R]: result of the enclosing Go function; [A]: value of the statement. *)
Definition prog (S R A : Type) : Type := S → ctl R A * S.

#[global] Instance prog_ret {S R} : MRet (prog S R) := λ A a s, (Next a, s).
#[global] Instance prog_bind {S R} : MBind (prog S R) := λ A B f m s,
  match m s with
  | (Next a, s') => f a s'
  | (Return r, s') => (Return r, s')
  | (Panicked e, s') => (Panicked e, s')
  end.

Section Statements.
Context {S R : Type}.

(** [return r] *)
Definition ret {A} (r : R) : prog S R A := λ s, (Return r, s).
Definition panic {A} (why : string) : prog S R A := λ s, (Panicked why, s).
Definition get : prog S R S := λ s, (Next s, s).
Definition gets {A} (f : S → A) : prog S R A := λ s, (Next (f s), s).
Definition modify (f : S → S) : prog S R unit := λ s, (Next tt, f s).

(** [if b { m }] *)
Definition when (b : bool) (m : prog S R unit) : prog S R unit := if b then m else mret tt.

Definition nil_deref : string := "invalid memory address or nil pointer dereference".

(** Use of a pointer (or of a map entry through it) that may be nil. *)
Definition deref {A} (o : option A) : prog S R A :=
  match o with Some a => mret a | None => panic nil_deref end.

(** A computation that may panic but not fail. *)
Definition lift {A} (r : res A) : prog S R A :=
  match r with Ok a => mret a | Err e => panic e | Panic e => panic e end.

(** [for _, x := range l { body }] *)
Fixpoint for_each {A} (l : list A) (body : A → prog S R unit) : prog S R unit :=
  match l with
  | [] => mret tt
  | x :: l => body x;; for_each l body
  end.

(** The same with [break]: the body says whether to go on. *)
Fixpoint for_until {A} (l : list A) (body : A → prog S R bool) : prog S R unit :=
  match l with
  | [] => mret tt
  | x :: l => go_on ← body x; if (go_on : bool) then for_until l body else mret tt
  end.

End Statements.

(** Call of a function: its early return is its result. *)
Definition call {S R R'} (m : prog S R R) : prog S R' R := λ s,
  match m s with
  | (Next r, s') => (Next r, s')
  | (Return r, s') => (Next r, s')
  | (Panicked e, s') => (Panicked e, s')
  end.

(** [defer func() { recover() ... }()] at the top of a goroutine or a dispatcher. *)
Definition recover {S R} (m : prog S unit unit) : prog S R unit := λ s, (Next tt, (m s).2).

(** [defer func() { if !keep { cleanup() } }()] around the rest of the function, whose
    result is [keep]: the clean-up also runs on early return and on panic. *)
Definition defer_unless {S} (cleanup : S → S) (m : prog S bool bool) : prog S unit unit := λ s,
  match m s with
  | (Next true, s') | (Return true, s') => (Next tt, s')
  | (Next false, s') | (Return false, s') => (Next tt, cleanup s')
  | (Panicked e, s') => (Panicked e, cleanup s')
  end.

(** Outcome of running a function body. *)
Definition result {S R} (m : prog S R R) (s : S) : option R :=
  match (m s).1 with Next r | Return r => Some r | Panicked _ => None end.
Definition final {S R A} (m : prog S R A) (s : S) : S := (m s).2.
Definition panicked {S R A} (m : prog S R A) (s : S) : bool :=
  match (m s).1 with Panicked _ => true | _ => false end.

(** ** Record update

    [r <| f := v |>] and [r <| f ::= g |>], for records with an [Eta] instance that
    rebuilds a value from its projections. *)
Class Eta (T : Type) := eta : T → T.
Class Update {T V} (f : T → V) := update : (V → V) → T → T.
Arguments update {T V} f {_} _ _.

Ltac derive_update f :=
  match type of f with
  | ?T → ?V =>
      let u := constr:(λ (g : V → V) (r : T),
        ltac:(let e := eval cbv beta delta [eta] in (@eta T _ r) in
              let e := eval hnf in e in
              let h := eval pattern (f r) in e in
              match h with ?k _ => let b := eval cbv beta in (k (g (f r))) in exact b end)) in
      exact u
  end.
#[export] Hint Extern 1 (Update ?f) => derive_update f : typeclass_instances.

Notation "r <| f := v |>" := (update f (λ _, v) r)
  (at level 12, f at next level, left associativity, format "r  <| f  :=  v |>").
Notation "r <| f ::= g |>" := (update f g r)
  (at level 12, f at next level, left associativity, format "r  <| f  ::=  g |>").

(** ** Relations between the states before and after

    [stable P m]: whatever the outcome of [m], [P] holds between the initial and
    the final state. With a preorder [P] the rules below decompose [m]. Invariants are
    the instance [λ s s', I s → I s']. *)
Definition stable {S R A} (P : S → S → Prop) (m : prog S R A) : Prop := ∀ s, P s (m s).2.

Section Rules.
Context {S R : Type} (P : S → S → Prop) `{!PreOrder P}.

Lemma stable_ret {A} (a : A) : stable P (mret a : prog S R A).
Proof. intros s. reflexivity. Qed.
Lemma stable_return {A} (r : R) : stable P (ret r : prog S R A).
Proof. intros s. reflexivity. Qed.
Lemma stable_panic {A} e : stable P (panic e : prog S R A).
Proof. intros s. reflexivity. Qed.
Lemma stable_get : stable P (get : prog S R S).
Proof. intros s. reflexivity. Qed.
Lemma stable_gets {A} (f : S → A) : stable P (gets f : prog S R A).
Proof. intros s. reflexivity. Qed.
Lemma stable_deref {A} (o : option A) : stable P (deref o : prog S R A).
Proof. destruct o; intros s; reflexivity. Qed.
Lemma stable_lift {A} (r : res A) : stable P (lift r : prog S R A).
Proof. destruct r; intros s; reflexivity. Qed.
Lemma stable_modify f : (∀ s, P s (f s)) → stable P (modify f : prog S R unit).
Proof. intros H s. apply H. Qed.
Lemma stable_bind {A B} (m : prog S R A) (f : A → prog S R B) :
  stable P m → (∀ a, stable P (f a)) → stable P (m ≫= f).
Proof.
  intros Hm Hf s. specialize (Hm s). unfold mbind, prog_bind.
  destruct (m s) as [[a|r|e] s'] eqn:E; simpl in *; try done. etrans; [done|apply Hf].
Qed.
Lemma stable_if {A} (b : bool) (m n : prog S R A) :
  stable P m → stable P n → stable P (if b then m else n).
Proof. by destruct b. Qed.
Lemma stable_when b (m : prog S R unit) : stable P m → stable P (when b m).
Proof. destruct b; [done|]. intros _ s. reflexivity. Qed.
Lemma stable_for_each {A} (l : list A) body :
  (∀ x, stable P (body x : prog S R unit)) → stable P (for_each l body).
Proof.
  intros H. induction l; simpl; [apply stable_ret|]. apply stable_bind; auto.
Qed.
Lemma stable_for_until {A} (l : list A) body :
  (∀ x, stable P (body x : prog S R bool)) → stable P (for_until l body).
Proof.
  intros H. induction l; simpl; [apply stable_ret|]. apply stable_bind; [done|].
  intros [|]; [done|apply stable_ret].
Qed.
Lemma stable_call {R'} (m : prog S R' R') : stable P m → stable P (call m : prog S R R').
Proof. intros H s. specialize (H s). unfold call. by destruct (m s) as [[] ?]. Qed.
Lemma stable_recover (m : prog S unit unit) : stable P m → stable P (recover m : prog S R unit).
Proof. intros H s. apply H. Qed.
Lemma stable_defer_unless cleanup (m : prog S bool bool) :
  stable P m → (∀ s, P s (cleanup s)) → stable P (defer_unless cleanup m).
Proof.
  intros Hm Hc s. specialize (Hm s). unfold defer_unless.
  destruct (m s) as [[[]|[]|] s']; simpl in *; try done; etrans; [done|apply Hc|done|apply Hc|done|apply Hc].
Qed.
End Rules.

(** Decomposition of a handler by the rules; it leaves the state updates and the
    calls of components it has no hint for. *)
Ltac stable_step :=
  lazymatch goal with
  | |- stable ?P (mret _) => refine (stable_ret P _)
  | |- stable ?P (ret _) => refine (stable_return P _)
  | |- stable ?P (panic _) => refine (stable_panic P _)
  | |- stable ?P get => refine (stable_get P)
  | |- stable ?P (gets _) => refine (stable_gets P _)
  | |- stable ?P (deref _) => refine (stable_deref P _)
  | |- stable ?P (lift _) => refine (stable_lift P _)
  | |- stable ?P (when _ _) => refine (stable_when P _ _ _)
  | |- stable ?P (mbind _ _) => refine (stable_bind P _ _ _ (λ a, _))
  | |- stable ?P (for_each _ _) => refine (stable_for_each P _ _ (λ x, _))
  | |- stable ?P (for_until _ _) => refine (stable_for_until P _ _ (λ x, _))
  | |- stable ?P (call _) => refine (stable_call P _ _)
  | |- stable ?P (recover _) => refine (stable_recover P _ _)
  | |- stable _ (let '_ := ?x in _) => destruct x
  | |- stable _ (if ?b then _ else _) => destruct b
  | |- stable _ (match ?x with _ => _ end) => destruct x
  end.
Ltac stable_auto := repeat (stable_step; try (solve [auto with go_rules nocore])).

(** ** Runs of a bind *)
Section Runs.
Context {S R : Type}.

Lemma run_bind {A B} (m : prog S R A) (f : A → prog S R B) s :
  (m ≫= f) s = match m s with
               | (Next a, s') => f a s'
               | (Return r, s') => (Return r, s')
               | (Panicked e, s') => (Panicked e, s')
               end.
Proof. done. Qed.

Lemma run_bind_next {A B} (m : prog S R A) (f : A → prog S R B) s a s' :
  m s = (Next a, s') → (m ≫= f) s = f a s'.
Proof. intros H. by rewrite run_bind, H. Qed.

Lemma run_call {R'} (m : prog S R' R') s :
  (call m : prog S R R') s =
    match m s with
    | (Next r, s') | (Return r, s') => (Next r, s')
    | (Panicked e, s') => (Panicked e, s')
    end.
Proof. unfold call. by destruct (m s) as [[] ?]. Qed.
End Runs.

(** Evaluation of the leading statements of a run whose outcome is known. *)
Ltac run_step :=
  first [ rewrite run_bind | rewrite run_call ];
  cbn [mret prog_ret ret panic get gets modify deref lift when].
