(* ===== verification/NgapMsg.v ===== *)
(** * NGAP messages

    The structures of free5gc/ngap (TS 38.413) that the NGAP handlers read and build.
    The library is not part of the repository: its data types are transcribed here with
    the fields the N3IWF uses, a nil pointer being [None]; the codec is a parameter (see
    Env.v). Opaque values that the N3IWF only stores or forwards are octet strings. *)

From S2P Require Import Prelude Monad NgapTypes.

Abbreviation opaque := (list Z).

(** ** Causes (TS 38.413 9.3.1.2) *)
Definition CauseRadioNetworkPresentUnknownLocalUENGAPID : Z := 14.
Definition CauseRadioNetworkPresentInconsistentRemoteUENGAPID : Z := 15.
Definition CauseRadioNetworkPresentRadioConnectionWithUeLost : Z := 21.
Definition CauseRadioNetworkPresentUnknownPDUSessionID : Z := 26.
Definition CauseRadioNetworkPresentUnkownQosFlowID : Z := 27.
Definition CauseRadioNetworkPresentMultiplePDUSessionIDInstances : Z := 28.
Definition CauseTransportPresentTransportResourceUnavailable : Z := 0.
Definition CauseProtocolPresentAbstractSyntaxErrorReject : Z := 1.
Definition CauseProtocolPresentSemanticError : Z := 4.
Definition CauseProtocolPresentAbstractSyntaxErrorFalselyConstructedMessage : Z := 5.
Definition CauseProtocolPresentUnspecified : Z := 6.

(** ** Items of lists *)

(** A PDU session named in a response list, with its encoded transfer. *)
Record SessionItem := mkItem { si_Id : Z; si_Transfer : opaque }.
(** PDUSessionResourceSetupItemCxtReq and PDUSessionResourceSetupItemSUReq *)
Record SetupItem := mkSetupItem {
  sr_PDUSessionID : Z; sr_NASPDU : option bytes; sr_SNSSAI : SNSSAI; sr_Transfer : opaque;
}.
(** UEAssociatedLogicalNGConnectionItem *)
Record ConnectionItem := mkConnItem { ci_AMFUENGAPID : option Z; ci_RANUENGAPID : option Z }.
Inductive ResetType :=
| ResetNGInterface
| ResetPartOfNGInterface (part : option (list ConnectionItem))
| ResetInvalid (present : Z).
(** UENGAPIDs; a pointer of the group that is not set is [None]. *)
Inductive UENGAPIDs :=
| UENGAPIDPair (amf ran : Z)
| UENGAPIDsAMF (amf : Z)
| UENGAPIDsOther.
(** The TNL association items of an AMF configuration update; the address as encoded, [None]
    for the nil pointer of another alternative. *)
Record TNLItem := mkTNLItem { ti_Address : option opaque; ti_Weight : option Z; ti_Usage : option Z }.
(** OverloadStartNSSAIItem *)
Record OverloadItem := mkOverloadItem {
  oi_Slices : list SNSSAI; oi_Response : option (option Z); oi_Traffic : option Z;
}.

(** ** Information elements of received messages *)
Inductive IEID :=
  idAMFUENGAPID | idRANUENGAPID | idNewAMFUENGAPID | idCause | idResetType | idAMFName
| idServedGUAMIList | idRelativeAMFCapacity | idPLMNSupportList | idTimeToWait | idCriticalityDiagnostics
| idOldAMF | idUEAggregateMaximumBitRate | idCoreNetworkAssistanceInformation | idGUAMI
| idPDUSessionResourceSetupList | idAllowedNSSAI | idUESecurityCapabilities | idSecurityKey
| idUERadioCapability | idIndexToRFSP | idMaskedIMEISV | idNASPDU | idUENGAPIDs
| idPDUSessionResourceModifyListModReq | idPDUSessionResourceModifyListModCfm
| idPDUSessionResourceFailedToModifyListModCfm | idPDUSessionResourceToReleaseListRelCmd
| idAMFTNLAssociationToAddList | idAMFTNLAssociationToRemoveList | idAMFTNLAssociationToUpdateList
| idAMFOverloadResponse | idAMFTrafficLoadReductionIndication | idOverloadStartNSSAIList
| idPDUSessionAggregateMaximumBitRate | idULNGUUPTNLInformation | idPDUSessionType
| idSecurityIndication | idNetworkInstance | idQosFlowSetupRequestList | idULNGUUPTNLModifyList
| idQosFlowAddOrModifyRequestList | idQosFlowToReleaseList.
#[global] Instance IEID_eq_dec : EqDecision IEID.
Proof. solve_decision. Defined.

Inductive IE :=
| ieAMFUENGAPID (v : option Z)
| ieRANUENGAPID (v : option Z)
| ieNewAMFUENGAPID (v : option Z)
| ieCause (v : option Cause)
| ieResetType (v : option ResetType)
| ieAMFName (v : option opaque)
| ieServedGUAMIList (v : option (list GUAMI))
| ieRelativeAMFCapacity (v : option Z)
| iePLMNSupportList (v : option (list bytes))
| ieTimeToWait (v : option Z)
| ieCriticalityDiagnostics (v : option opaque)
| ieUEAggregateMaximumBitRate (v : option opaque)
| ieCoreNetworkAssistanceInformation (v : option opaque)
| ieGUAMI (v : option GUAMI)
| iePDUSessionResourceSetupList (v : option (list SetupItem))
| ieAllowedNSSAI (v : option opaque)
| ieUESecurityCapabilities (v : option opaque)
| ieSecurityKey (v : option bytes)
| ieUERadioCapability (v : option opaque)
| ieIndexToRFSP (v : option Z)
| ieMaskedIMEISV (v : option opaque)
| ieNASPDU (v : option bytes)
| ieUENGAPIDs (v : option UENGAPIDs)
| iePDUSessionResourceModifyListModReq (v : option (list SessionItem))
| iePDUSessionResourceModifyListModCfm (v : option (list SessionItem))
| iePDUSessionResourceFailedToModifyListModCfm (v : option (list SessionItem))
| iePDUSessionResourceToReleaseListRelCmd (v : option (list SessionItem))
| ieAMFTNLAssociationToAddList (v : option (list TNLItem))
| ieAMFTNLAssociationToRemoveList (v : option (list TNLItem))
| ieAMFTNLAssociationToUpdateList (v : option (list TNLItem))
| ieAMFOverloadResponse (v : option (option Z))
| ieAMFTrafficLoadReductionIndication (v : option Z)
| ieOverloadStartNSSAIList (v : option (list OverloadItem))
| ieOther.

(** The local variables an IE loop fills. *)
Record IEs := mkIEs {
  AMFUENGAPID : option Z;
  RANUENGAPID : option Z;
  NewAMFUENGAPID : option Z;
  Cause_ : option Cause;
  ResetType_ : option ResetType;
  AMFName_ : option opaque;
  ServedGUAMIList_ : option (list GUAMI);
  RelativeAMFCapacity_ : option Z;
  PLMNSupportList_ : option (list bytes);
  TimeToWait : option Z;
  CriticalityDiagnostics_ : option opaque;
  UEAggregateMaximumBitRate : option opaque;
  CoreNetworkAssistanceInformation_ : option opaque;
  GUAMI_ : option GUAMI;
  SetupList : option (list SetupItem);
  AllowedNSSAI : option opaque;
  UESecurityCapabilities : option opaque;
  SecurityKey : option bytes;
  UERadioCapability : option opaque;
  IndexToRFSP : option Z;
  MaskedIMEISV_ : option opaque;
  NASPDU : option bytes;
  UENGAPIDs_ : option UENGAPIDs;
  ModifyListModReq : option (list SessionItem);
  ModifyListModCfm : option (list SessionItem);
  FailedToModifyListModCfm : option (list SessionItem);
  ToReleaseListRelCmd : option (list SessionItem);
  TNLToAdd : option (list TNLItem);
  TNLToRemove : option (list TNLItem);
  TNLToUpdate : option (list TNLItem);
  OverloadResponse : option (option Z);
  TrafficLoadReductionIndication : option Z;
  OverloadStartNSSAIList : option (list OverloadItem);
}.

#[global] Instance eta_IEs : Eta IEs := λ r,
  mkIEs (AMFUENGAPID r) (RANUENGAPID r) (NewAMFUENGAPID r) (Cause_ r) (ResetType_ r) (AMFName_ r)
    (ServedGUAMIList_ r) (RelativeAMFCapacity_ r) (PLMNSupportList_ r) (TimeToWait r)
    (CriticalityDiagnostics_ r) (UEAggregateMaximumBitRate r)
    (CoreNetworkAssistanceInformation_ r) (GUAMI_ r) (SetupList r) (AllowedNSSAI r)
    (UESecurityCapabilities r) (SecurityKey r) (UERadioCapability r) (IndexToRFSP r)
    (MaskedIMEISV_ r) (NASPDU r) (UENGAPIDs_ r) (ModifyListModReq r) (ModifyListModCfm r)
    (FailedToModifyListModCfm r) (ToReleaseListRelCmd r) (TNLToAdd r) (TNLToRemove r)
    (TNLToUpdate r) (OverloadResponse r) (TrafficLoadReductionIndication r)
    (OverloadStartNSSAIList r).

(** ** Transfers *)

(** UPTransportLayerInformation with its GTP tunnel *)
Record GTPTunnel := mkTunnel { gt_Address : opaque; gt_TEID : bytes }.
(** The two indications; values other than the three assigned ones are [None]. *)
Inductive Protection := ProtRequired | ProtPreferred | ProtNotNeeded.
Record SecurityIndication := mkSecInd {
  sei_Integrity : option Protection; sei_Confidentiality : option Protection;
}.
Record QosItem := mkQosItem { qi_Identifier : Z; qi_Parameters : opaque }.

(** PDUSessionResourceSetupRequestTransferIEs *)
Inductive TransferIE :=
| tiAMBR (v : option opaque)
| tiULNGUUPTNLInformation (v : option (option GTPTunnel))
| tiPDUSessionType (v : option Z)
| tiSecurityIndication (v : option SecurityIndication)
| tiNetworkInstance (v : option opaque)
| tiQosFlowSetupRequestList (v : option (list QosItem))
| tiOther.

(** PDUSessionResourceModifyRequestTransferIEs; the parameters of a flow may be nil. *)
Record ULNGUUPTNLModifyItem := mkTnlModify { tm_UL : opaque; tm_DL : opaque }.
Record QosModifyItem := mkQosModify { qm_Identifier : Z; qm_Parameters : option opaque }.
Inductive ModifyIE :=
| miAMBR (v : option opaque)
| miULNGUUPTNLModifyList (v : option (list ULNGUUPTNLModifyItem))
| miNetworkInstance (v : option opaque)
| miQosFlowAddOrModifyRequestList (v : option (list QosModifyItem))
| miQosFlowToReleaseList (v : option (list Z))
| miOther.

(** ** Messages *)
Inductive Procedure :=
  ProcNGSetup | ProcNGReset | ProcInitialContextSetup | ProcUEContextModification | ProcUEContextRelease
| ProcDownlinkNASTransport | ProcPDUSessionResourceSetup | ProcPDUSessionResourceModify
| ProcPDUSessionResourceModifyIndication | ProcPDUSessionResourceRelease | ProcErrorIndication
| ProcUERadioCapabilityCheck | ProcAMFConfigurationUpdate | ProcRANConfigurationUpdate
| ProcOverloadStart | ProcOverloadStop | ProcUEContextReleaseRequest | ProcInitialUEMessage
| ProcUplinkNASTransport | ProcNASNonDeliveryIndication | ProcPDUSessionResourceNotify
| ProcDownlinkRANConfigurationTransfer | ProcDownlinkRANStatusTransfer | ProcAMFStatusIndication
| ProcLocationReportingControl | ProcUETNLABindingRelease | ProcUnknown.
#[global] Instance Procedure_eq_dec : EqDecision Procedure.
Proof. solve_decision. Defined.
(** The two procedure codes kept as numbers (TS 38.413 9.4.7). *)
Definition ProcedureCodeInitialContextSetup : Z := 14.
Definition ProcedureCodePDUSessionResourceSetup : Z := 29.
Inductive Outcome := InitiatingMessage | SuccessfulOutcome | UnsuccessfulOutcome.
#[global] Instance Outcome_eq_dec : EqDecision Outcome.
Proof. solve_decision. Defined.

(** A received NGAP-PDU: the present alternative and, unless its pointer is nil, its procedure
    code with the message under its value, whose kind the library fills from the procedure
    code ([None]: that pointer is nil). *)
Record NGAPPDU := mkPDUMsg {
  pm_Present : Outcome; pm_Message : option (Procedure * option (list IE));
}.

(** ** Messages that are sent *)
Inductive Criticality := Reject | Ignore.
Inductive TypeOfError := NotUnderstood | Missing.
Record CritItem := mkCritItem { cr_IECriticality : Criticality; cr_IEID : IEID; cr_TypeOfError : TypeOfError }.
Record CritDiag := mkCritDiag {
  cd_ProcedureCode : option Procedure;
  cd_TriggeringMessage : option Outcome;
  cd_ProcedureCriticality : option Criticality;
  cd_IEs : option (list CritItem);
}.

Inductive OutValue :=
| oAMFUENGAPID (v : Z)
| oRANUENGAPID (v : Z)
| oNASPDU (v : bytes)
| oUserLocationInformation (ip4 ip6 : bytes) (port : Z)
| oRRCEstablishmentCause (v : Z)
| oUEContextRequest
| oAllowedNSSAI (v : opaque)
| oSetupList (v : list SessionItem)
| oFailedToSetupList (v : list SessionItem)
| oModifyList (v : list SessionItem)
| oFailedToModifyList (v : list SessionItem)
| oReleasedList (v : list SessionItem)
| oPDUSessionResourceList (v : list Z)
| oCause (v : Cause)
| oConnectionList (v : list ConnectionItem)
| oTNLSetupList (v : list (option opaque))
| oGlobalN3IWFID (plmn : bytes) (n3iwf : BitString)
| oRANNodeName (v : string)
| oSupportedTAList (v : list (bytes * list (bytes * list SNSSAI)))
| oCriticalityDiagnostics (v : option CritDiag)
(* an element with the diagnostics whose choice of a type is not set *)
| oUnsetDiagnostics (v : option CritDiag)
| oResetType (part : option (list ConnectionItem))
| oModifyListModInd (v : list SessionItem)
| oNotifyList (v : list SessionItem)
| oReleasedListNot (v : list SessionItem)
| oIMSVoiceSupportIndicator (v : Z)
| oTimeToWait (v : Z).
Record OutIE := mkOutIE { oi_Criticality : Criticality; oi_Value : OutValue }.
Record OutMsg := mkOut {
  om_Outcome : Outcome; om_Procedure : Procedure; om_Criticality : Criticality; om_IEs : list OutIE;
}.

(** Transfers that are sent. *)
Record SetupResponseTransfer := mkSetupRes { st_TEID : bytes; st_Address : string; st_QosFlows : list Z }.
Record ModifyResponseTransfer := mkModifyRes {
  mt_UL : option opaque; mt_DL : option opaque;
  mt_QosFlows : list Z; mt_Failed : list (Z * Cause);
}.

(** ** The IE loops *)
Definition no_IEs : IEs :=
  mkIEs None None None None None None None None None None None None None None None None None None None None
    None None None None None None None None None None None None None.

Definition ie_id (e : IE) : option IEID :=
  match e with
  | ieAMFUENGAPID _ => Some idAMFUENGAPID
  | ieRANUENGAPID _ => Some idRANUENGAPID
  | ieNewAMFUENGAPID _ => Some idNewAMFUENGAPID
  | ieCause _ => Some idCause
  | ieResetType _ => Some idResetType
  | ieAMFName _ => Some idAMFName
  | ieServedGUAMIList _ => Some idServedGUAMIList
  | ieRelativeAMFCapacity _ => Some idRelativeAMFCapacity
  | iePLMNSupportList _ => Some idPLMNSupportList
  | ieTimeToWait _ => Some idTimeToWait
  | ieCriticalityDiagnostics _ => Some idCriticalityDiagnostics
  | ieUEAggregateMaximumBitRate _ => Some idUEAggregateMaximumBitRate
  | ieCoreNetworkAssistanceInformation _ => Some idCoreNetworkAssistanceInformation
  | ieGUAMI _ => Some idGUAMI
  | iePDUSessionResourceSetupList _ => Some idPDUSessionResourceSetupList
  | ieAllowedNSSAI _ => Some idAllowedNSSAI
  | ieUESecurityCapabilities _ => Some idUESecurityCapabilities
  | ieSecurityKey _ => Some idSecurityKey
  | ieUERadioCapability _ => Some idUERadioCapability
  | ieIndexToRFSP _ => Some idIndexToRFSP
  | ieMaskedIMEISV _ => Some idMaskedIMEISV
  | ieNASPDU _ => Some idNASPDU
  | ieUENGAPIDs _ => Some idUENGAPIDs
  | iePDUSessionResourceModifyListModReq _ => Some idPDUSessionResourceModifyListModReq
  | iePDUSessionResourceModifyListModCfm _ => Some idPDUSessionResourceModifyListModCfm
  | iePDUSessionResourceFailedToModifyListModCfm _ => Some idPDUSessionResourceFailedToModifyListModCfm
  | iePDUSessionResourceToReleaseListRelCmd _ => Some idPDUSessionResourceToReleaseListRelCmd
  | ieAMFTNLAssociationToAddList _ => Some idAMFTNLAssociationToAddList
  | ieAMFTNLAssociationToRemoveList _ => Some idAMFTNLAssociationToRemoveList
  | ieAMFTNLAssociationToUpdateList _ => Some idAMFTNLAssociationToUpdateList
  | ieAMFOverloadResponse _ => Some idAMFOverloadResponse
  | ieAMFTrafficLoadReductionIndication _ => Some idAMFTrafficLoadReductionIndication
  | ieOverloadStartNSSAIList _ => Some idOverloadStartNSSAIList
  | ieOther => None
  end.

(** Whether the pointer of the IE's value is nil, for the IEs some handler checks. *)
Definition ie_nil (e : IE) : bool :=
  match e with
  | ieAMFUENGAPID None | ieRANUENGAPID None | ieCause None | ieResetType None | ieAMFName None
  | ieServedGUAMIList None | iePLMNSupportList None | ieGUAMI None | iePDUSessionResourceSetupList None
  | ieAllowedNSSAI None | ieUESecurityCapabilities None | ieSecurityKey None | ieNASPDU None
  | ieUENGAPIDs None | iePDUSessionResourceModifyListModReq None
  | iePDUSessionResourceToReleaseListRelCmd None => true
  | _ => false
  end.

(** One turn of an IE loop: [local = ie.Value.Field]. *)
Definition store_ie (l : IEs) (e : IE) : IEs :=
  match e with
  | ieAMFUENGAPID v => l <| AMFUENGAPID := v |>
  | ieRANUENGAPID v => l <| RANUENGAPID := v |>
  | ieNewAMFUENGAPID v => l <| NewAMFUENGAPID := v |>
  | ieCause v => l <| Cause_ := v |>
  | ieResetType v => l <| ResetType_ := v |>
  | ieAMFName v => l <| AMFName_ := v |>
  | ieServedGUAMIList v => l <| ServedGUAMIList_ := v |>
  | ieRelativeAMFCapacity v => l <| RelativeAMFCapacity_ := v |>
  | iePLMNSupportList v => l <| PLMNSupportList_ := v |>
  | ieTimeToWait v => l <| TimeToWait := v |>
  | ieCriticalityDiagnostics v => l <| CriticalityDiagnostics_ := v |>
  | ieUEAggregateMaximumBitRate v => l <| UEAggregateMaximumBitRate := v |>
  | ieCoreNetworkAssistanceInformation v => l <| CoreNetworkAssistanceInformation_ := v |>
  | ieGUAMI v => l <| GUAMI_ := v |>
  | iePDUSessionResourceSetupList v => l <| SetupList := v |>
  | ieAllowedNSSAI v => l <| AllowedNSSAI := v |>
  | ieUESecurityCapabilities v => l <| UESecurityCapabilities := v |>
  | ieSecurityKey v => l <| SecurityKey := v |>
  | ieUERadioCapability v => l <| UERadioCapability := v |>
  | ieIndexToRFSP v => l <| IndexToRFSP := v |>
  | ieMaskedIMEISV v => l <| MaskedIMEISV_ := v |>
  | ieNASPDU v => l <| NASPDU := v |>
  | ieUENGAPIDs v => l <| UENGAPIDs_ := v |>
  | iePDUSessionResourceModifyListModReq v => l <| ModifyListModReq := v |>
  | iePDUSessionResourceModifyListModCfm v => l <| ModifyListModCfm := v |>
  | iePDUSessionResourceFailedToModifyListModCfm v => l <| FailedToModifyListModCfm := v |>
  | iePDUSessionResourceToReleaseListRelCmd v => l <| ToReleaseListRelCmd := v |>
  | ieAMFTNLAssociationToAddList v => l <| TNLToAdd := v |>
  | ieAMFTNLAssociationToRemoveList v => l <| TNLToRemove := v |>
  | ieAMFTNLAssociationToUpdateList v => l <| TNLToUpdate := v |>
  | ieAMFOverloadResponse v => l <| OverloadResponse := v |>
  | ieAMFTrafficLoadReductionIndication v => l <| TrafficLoadReductionIndication := v |>
  | ieOverloadStartNSSAIList v => l <| OverloadStartNSSAIList := v |>
  | ieOther => l
  end.

(** src/internal/ngap/handler.go:2832-2852 (buildCriticalityDiagnosticsIEItem) *)
Definition buildCriticalityDiagnosticsIEItem (ieCriticality : Criticality) (ieID : IEID) (typeOfErr : TypeOfError) : CritItem :=
  mkCritItem ieCriticality ieID typeOfErr.

(** The loop over the IEs of a message: the locals, a later IE of an id replacing an
    earlier one, and the criticality items for the ids in [mandatory] whose value is nil. A
    handler reads only the locals of the ids its switch names. *)
Definition missing_item (id : IEID) : CritItem := buildCriticalityDiagnosticsIEItem Reject id Missing.
Definition collect (mandatory : list IEID) (ies : list IE) : IEs * list CritItem :=
  (foldl store_ie no_IEs ies,
   omap (λ e, id ← ie_id e; if bool_decide (id ∈ mandatory) && ie_nil e then Some (missing_item id) else None) ies).
