(* ===== verification/Env.v ===== *)
(** * The environment of the N3IWF

    What the code takes from packages that are not in the repository, from the kernel
    and from its configuration: the interface [Env] (operations) and [EnvLaws] (the
    documented behaviour that theorems use). The rest of the development is proved
    against this interface; ToyEnv.v instantiates it for the witnesses. *)

From S2P Require Import GtpMsg Util.
From S2P Require Import Prelude NgapTypes NgapMsg IkeMsg.

(** netlink.XfrmStateAlgo, XfrmStateEncap, XfrmState, XfrmPolicyTmpl, XfrmPolicy, Link. *)
Record XfrmStateAlgo := mkAlgo { xa_Name : string; xa_Key : bytes; xa_TruncateLen : Z }.
Record XfrmStateEncap := mkEncap { xe_SrcPort : Z; xe_DstPort : Z }.
Record XfrmState := mkXState {
  xs_Src : bytes; xs_Dst : bytes; xs_Spi : Z; xs_Ifid : Z;
  xs_Auth : option XfrmStateAlgo; xs_Crypt : XfrmStateAlgo; xs_ESN : bool;
  xs_ReplayWindow : Z; xs_Encap : option XfrmStateEncap;
}.
Record IPNet := mkIPNet { in_IP : bytes; in_Mask : bytes }.
Inductive XfrmDir := XFRM_DIR_IN | XFRM_DIR_OUT.
Record XfrmPolicyTmpl := mkTmpl { xt_Src : bytes; xt_Dst : bytes; xt_Spi : Z }.
Record XfrmPolicy := mkXPolicy {
  xp_Src : IPNet; xp_Dst : IPNet; xp_Proto : Z; xp_Dir : XfrmDir; xp_Ifid : Z;
  xp_Tmpls : list XfrmPolicyTmpl;
}.
Record Link := mkLink { ln_Name : string; ln_Index : Z }.

(** security.ChildSAKey: the chosen algorithms and the four keys. *)
Record ChildSAKey := mkChildKey {
  ck_EncrID : Z;
  ck_IntegID : option Z;
  ck_ESN : bool;
  ck_I2R_Encr : bytes;
  ck_I2R_Integ : bytes;
  ck_R2I_Encr : bytes;
  ck_R2I_Integ : bytes;
}.

(** The closures the code hands to time.AfterFunc: resend the NG set-up request on a connection
    to an address, resend the RAN configuration update to an AMF. *)
Inductive TimerCall :=
| ResendNGSetupRequest (sctpAddr : string) (conn : Z)
| ResendRANConfigurationUpdate (amf : nat).

(** The effects that leave the process: IKE and NGAP messages, kernel configuration, NAS
    connections, user-plane packets. *)
Inductive IO :=
| IoIke (msg : IKEMessage) (pkt : bytes) (dst : UDPAddr)
| IoXfrmStateAdd (s : XfrmState)
| IoXfrmPolicyAdd (p : XfrmPolicy)
| IoXfrmStateDel (s : XfrmState)
| IoXfrmPolicyDel (p : XfrmPolicy)
| IoLinkByName (name : string)
| IoLinkAdd (name : string) (parent : Z) (ifid : Z)
| IoAddrAdd (l : Link) (addr : IPNet)
| IoLinkSetUp (l : Link)
| IoLinkDel (l : Link)
| IoRouteAdd (l : Link)
| IoResolve (ip : bytes)
| IoTcpWrite (conn : Z) (data : bytes)
| IoTcpClose (conn : Z)
| IoGtp (pkt : bytes) (dst : string)
| IoGtpPlain (teid : Z) (payload : bytes) (dst : string)
| IoGre (pkt : bytes) (ifIndex : Z) (dst : option bytes)
| IoNgap (conn : Z) (m : OutMsg) (pkt : bytes)
| IoRawSocket
| IoRawSend (pkt : bytes) (dst : bytes) (port : Z)
| IoTimer (seconds : Z) (callback : TimerCall)
| IoSaClosed (spi : Z).

(** The configuration values the modelled code reads; addresses as parsed. *)
Record Config := mkConfig {
  cfg_FQDN : string;
  cfg_IPSecGatewayAddr : bytes;
  cfg_IKEBindAddr : bytes;
  cfg_XfrmIfaceName : string;
  cfg_XfrmIfaceId : Z;
  cfg_NasTcpPort : Z;
  cfg_N3iwfGtpBindAddress : string;
  cfg_LivenessEnable : bool;
  cfg_PLMNID : PLMNID;
  cfg_N3IWFID : Z;
  cfg_RanNodeName : string;
  cfg_SupportedTAList : list SupportedTAItem;
}.

Class Env := {
  cfg : Config;
  (** free5gc/util/idgenerator, free5gc/util/ippool *)
  idgen : Type;
  id_alloc : idgen → option (Z * idgen);
  id_free : Z → idgen → idgen;
  ippool : Type;
  ip_alloc : ippool → option (bytes * ippool);
  ip_release : bytes → ippool → option ippool;
  ip_mask : bytes;
  (** crypto/rand: the draw number n (None: the source failed) *)
  rnd_spi : nat → option Z;
  rnd_u8 : nat → option Z;
  rnd_u32 : nat → option Z;
  rnd_nonce : nat → option bytes;
  (** iteration order of a Go map at the range number n *)
  range_order : ∀ A : Type, nat → list A → list A;
  (** turns granted to a retry loop over random draws *)
  retry_limit : nat;
  (** whether the operating system performs an operation, given the earlier ones *)
  io_ok : list IO → IO → bool;
  io_link : list IO → string → Link;
  (** free5gc/ike: keys, hashes, codec *)
  sakey : Type;
  new_ike_sa_key : Proposal → bytes → bytes → Z → Z → option (sakey * bytes);
  prf_r : sakey → bytes → bytes;
  prf_i : sakey → bytes → bytes;
  prf : sakey → bytes → bytes → bytes;
  encr_transform : sakey → option Transform;
  integ_transform : sakey → Transform;
  new_child_sa_key : Proposal → option ChildSAKey;
  gen_child_sa_key : sakey → bytes → ChildSAKey → option ChildSAKey;
  dh_decodes : Transform → bool;
  encr_decodes : Transform → bool;
  integ_decodes : Transform → bool;
  prf_decodes : Transform → bool;
  sha1 : bytes → bytes;
  rsa_sign : bytes → option bytes;
  ike_encode : IKEMessage → option bytes;
  ike_encode_payloads : list Payload → option bytes;
  ike_encode_encrypt : IKEMessage → option sakey → option bytes;
  ike_parse_header : bytes → option IKEHeader;
  ike_decode_decrypt : bytes → IKEHeader → option sakey → option IKEMessage;
  eap_5g_nas : Z → bytes → option EAP;
  notify_nas_ip4 : bytes → Payload;
  notify_nas_tcp_port : Z → Payload;
  notify_up_ip4 : bytes → Payload;
  notify_5g_qos : Z → list Z → option Payload;
  (** the certificates read at start-up *)
  n3iwf_certificate : bytes;
  (** free5gc/aper, free5gc/ngap *)
  aper_GUAMI : bytes → option GUAMI;
  aper_PLMN : bytes → option bytes;
  aper_encode_GUAMI : option GUAMI → option bytes;
  ngap_encode : OutMsg → option bytes;
  ngap_decode : bytes → option NGAPPDU;
  (** what decoding a set-up transfer leaves in the structure (an error is only logged) *)
  aper_setup_request : bytes → list TransferIE;
  (** the outcome of decoding with a structure instead of a pointer to one *)
  aper_by_value : bytes → res unit;
  (** the flows that failed in a modify confirm transfer; None: decoding failed *)
  aper_modify_confirm : bytes → option (option (list Z));
  aper_setup_response : SetupResponseTransfer → option bytes;
  aper_setup_unsuccessful : Cause → option CritDiag → option bytes;
  aper_modify_response : ModifyResponseTransfer → option bytes;
  aper_modify_unsuccessful : Cause → option CritDiag → option bytes;
  aper_release_response : bytes;
  tla_to_string : opaque → string * string;
  (** gopacket: an IPv4 packet with the protocol ESP from an address to another *)
  esp_packet : bytes → bytes → bytes → option bytes;
  (** net.ResolveUDPAddr *)
  udp_resolves : string → bool;
  (** go-gtp: the header marshaller *)
  gtp_marshal : GtpHeader → option bytes;
}.

(** Documented behaviour used by the theorems. *)
Class EnvLaws `{E : Env} := {
  id_used : idgen → gset Z;
  id_alloc_fresh g x g' : id_alloc g = Some (x, g') → x ∉ id_used g ∧ id_used g' = {[ x ]} ∪ id_used g;
  id_free_used g x : id_used (id_free x g) = id_used g ∖ {[ x ]};
  ip_used : ippool → gset bytes;
  ip_alloc_fresh p x p' : ip_alloc p = Some (x, p') → x ∉ ip_used p ∧ ip_used p' = {[ x ]} ∪ ip_used p;
  ip_alloc_ip4 p x p' : ip_alloc p = Some (x, p') → length x = 4%nat;
  ip_release_used p x p' : ip_release x p = Some p' → ip_used p' = ip_used p ∖ {[ x ]};
  range_order_perm A n l : range_order A n l ≡ₚ l;
  rnd_u32_range n x : rnd_u32 n = Some x → is_u32 x;
  rnd_u8_range n x : rnd_u8 n = Some x → is_byte x;
}.
