(* ===== verification/State.v ===== *)
(** * The state of the N3IWF (internal/context)

    The records of internal/context and one [World] that holds the pools of
    N3IWFContext, the heaps of the objects the code shares by pointer (a pointer is a
    [ref]; objects taken out of a pool stay in their heap as long as something points
    to them), the event queues between the IKE and NGAP goroutines, and the effects
    performed so far. *)

From S2P Require Import Prelude Monad NgapTypes NgapMsg IkeMsg Env.

Abbreviation ref := nat.

(** Values the N3IWF stores or forwards without looking into them. *)
Abbreviation blob := bytes.

(** src/internal/context/ngap.go:27-37 (EvtError) *)
Inductive EvtError :=
  ErrNil | ErrRadioConnWithUeLost | ErrTransportResourceUnavailable | ErrAMFSelection
(** the error strings of other checks in the NGAP handlers *)
| ErrOther (what : string).

(** src/internal/context/ikeue.go:199-203 (UDPSocketInfo) *)
Record UDPSocketInfo := mkSock { us_Conn : Z; us_N3IWFAddr : UDPAddr; us_UEAddr : UDPAddr }.

(** src/internal/context/ikeue.go:45-49 (IkeMsgTemporaryData) *)
Record IkeMsgTemporaryData := mkTempMsg {
  it_SecurityAssociation : list Proposal;
  it_TSi : list TrafficSelector;
  it_TSr : list TrafficSelector;
}.

Section Objects.
Context `{E : Env}.

(** src/internal/context/ikeue.go:51-96 (IKESecurityAssociation) *)
Record IKESecurityAssociation := mkSA {
  IKESAKey : option sakey;
  RemoteSPI : Z;
  LocalSPI : Z;
  InitiatorMessageID : Z;
  ResponderMessageID : Z;
  ConcatenatedNonce : bytes;
  State : Z;
  InitiatorID : option Payload;
  InitiatorCertificate : option Payload;
  IKEAuthResponseSA : option (list Proposal);
  sa_TSi : option (list TrafficSelector);
  sa_TSr : option (list TrafficSelector);
  LastEAPIdentifier : Z;
  sa_IKEConnection : option UDPSocketInfo;
  ResponderSignedOctets : bytes;
  InitiatorSignedOctets : bytes;
  UeBehindNAT : bool;
  N3iwfBehindNAT : bool;
  sa_IkeUE : option ref;
  TemporaryIkeMsg : option IkeMsgTemporaryData;
  DPDReqRetransTimer : bool;
  CurrentRetryTimes : Z;
  IsUseDPD : bool;
}.
#[global] Instance eta_SA : Eta IKESecurityAssociation := λ r,
  mkSA (IKESAKey r) (RemoteSPI r) (LocalSPI r) (InitiatorMessageID r) (ResponderMessageID r)
    (ConcatenatedNonce r) (State r) (InitiatorID r) (InitiatorCertificate r) (IKEAuthResponseSA r)
    (sa_TSi r) (sa_TSr r) (LastEAPIdentifier r) (sa_IKEConnection r) (ResponderSignedOctets r)
    (InitiatorSignedOctets r) (UeBehindNAT r) (N3iwfBehindNAT r) (sa_IkeUE r) (TemporaryIkeMsg r)
    (DPDReqRetransTimer r) (CurrentRetryTimes r) (IsUseDPD r).

(** new(IKESecurityAssociation) *)
Definition zero_SA : IKESecurityAssociation :=
  mkSA None 0 0 0 0 [] 0 None None None None None 0 None [] [] false false None None false 0 false.
End Objects.

(** src/internal/context/ikeue.go:110-145 (ChildSecurityAssociation) *)
Record ChildSecurityAssociation := mkChild {
  InboundSPI : Z;
  OutboundSPI : Z;
  XfrmIface : option Link;
  XfrmStateList : list XfrmState;
  XfrmPolicyList : list XfrmPolicy;
  PeerPublicIPAddr : bytes;
  LocalPublicIPAddr : bytes;
  SelectedIPProtocol : Z;
  TrafficSelectorLocal : IPNet;
  TrafficSelectorRemote : IPNet;
  c_ChildSAKey : option ChildSAKey;
  EnableEncapsulate : bool;
  N3IWFPort : Z;
  NATPort : Z;
  PDUSessionIds : list Z;
  c_IkeUE : option ref;
  LocalIsInitiator : bool;
}.
#[global] Instance eta_Child : Eta ChildSecurityAssociation := λ r,
  mkChild (InboundSPI r) (OutboundSPI r) (XfrmIface r) (XfrmStateList r) (XfrmPolicyList r)
    (PeerPublicIPAddr r) (LocalPublicIPAddr r) (SelectedIPProtocol r) (TrafficSelectorLocal r)
    (TrafficSelectorRemote r) (c_ChildSAKey r) (EnableEncapsulate r) (N3IWFPort r) (NATPort r)
    (PDUSessionIds r) (c_IkeUE r) (LocalIsInitiator r).
Definition zero_Child : ChildSecurityAssociation :=
  mkChild 0 0 None [] [] [] [] 0 (mkIPNet [] []) (mkIPNet [] []) None false 0 0 [] None false.

(** src/internal/context/ikeue.go:19-43 (N3IWFIkeUe) *)
Record N3IWFIkeUe := mkIkeUe {
  IPSecInnerIP : bytes;
  IPSecInnerIPAddr : option bytes;
  N3IWFIKESecurityAssociation : option ref;
  N3IWFChildSecurityAssociation : gmap Z ref;
  TemporaryExchangeMsgIDChildSAMapping : gmap Z ref;
  Kn3iwf : option bytes;
  ue_IKEConnection : option UDPSocketInfo;
  PduSessionListLen : Z;
}.
#[global] Instance eta_IkeUe : Eta N3IWFIkeUe := λ r,
  mkIkeUe (IPSecInnerIP r) (IPSecInnerIPAddr r) (N3IWFIKESecurityAssociation r)
    (N3IWFChildSecurityAssociation r) (TemporaryExchangeMsgIDChildSAMapping r) (Kn3iwf r)
    (ue_IKEConnection r) (PduSessionListLen r).

(** src/internal/context/ikeue.go:205-208 (N3IWFIkeUe.init) *)
Definition init_IkeUe : N3IWFIkeUe := mkIkeUe [] None None ∅ ∅ None None 0.

(** src/internal/context/ranue.go:99-104 (GTPConnectionInfo) *)
Record GTPConnectionInfo := mkGTP {
  UPFIPAddr : string; UPFUDPAddr : string; IncomingTEID : Z; OutgoingTEID : Z;
}.
(** src/internal/context/ranue.go:94-97 (QosFlow) *)
Record QosFlow := mkQosFlow { qf_Identifier : Z; qf_Parameters : blob }.
(** src/internal/context/ranue.go:79-92 (PDUSession) *)
Record PDUSession := mkPDU {
  pdu_Id : Z;
  pdu_Type : option Z;
  pdu_Ambr : option blob;
  pdu_Snssai : SNSSAI;
  pdu_NetworkInstance : option blob;
  SecurityCipher : bool;
  SecurityIntegrity : bool;
  MaximumIntegrityDataRateUplink : option Z;
  MaximumIntegrityDataRateDownlink : option Z;
  GTPConnInfo : option GTPConnectionInfo;
  QFIList : list Z;
  QosFlows : gmap Z QosFlow;
}.
#[global] Instance eta_PDU : Eta PDUSession := λ r,
  mkPDU (pdu_Id r) (pdu_Type r) (pdu_Ambr r) (pdu_Snssai r) (pdu_NetworkInstance r) (SecurityCipher r)
    (SecurityIntegrity r) (MaximumIntegrityDataRateUplink r) (MaximumIntegrityDataRateDownlink r)
    (GTPConnInfo r) (QFIList r) (QosFlows r).

(** src/internal/context/ranue.go:106-121 (PDUSessionSetupTemporaryData) *)
Record PDUSessionSetupTemporaryData := mkTemp {
  UnactivatedPDUSession : list ref;
  NGAPProcedureCode : Z;
  SetupListCxtRes : option (list SessionItem);
  FailedListCxtRes : option (list SessionItem);
  SetupListSURes : option (list SessionItem);
  FailedListSURes : option (list SessionItem);
  FailedErrStr : list EvtError;
  Index : Z;
}.
#[global] Instance eta_Temp : Eta PDUSessionSetupTemporaryData := λ r,
  mkTemp (UnactivatedPDUSession r) (NGAPProcedureCode r) (SetupListCxtRes r) (FailedListCxtRes r)
    (SetupListSURes r) (FailedListSURes r) (FailedErrStr r) (Index r).
Definition zero_Temp : PDUSessionSetupTemporaryData := mkTemp [] 0 None None None None [] 0.

(** src/internal/context/n3iwf_ue.go:12-28 (N3IWFRanUe)
    with the embedded RanUeSharedCtx of ranue.go. Address strings are represented by the
    address, the empty string by no octets; Guti is left out, nothing sets it. The two state fields are booleans as
    in the code (false: None, true: Ongoing). *)
Record N3IWFRanUe := mkRanUe {
  RanUeNgapId : Z;
  AmfUeNgapId : Z;
  IPAddrv4 : bytes;
  IPAddrv6 : bytes;
  PortNumber : Z;
  MaskedIMEISV : option blob;
  ru_AMF : option ref;
  SecurityCapabilities : option blob;
  PduSessionList : gmap Z ref;
  TemporaryPDUSessionSetupData : option ref;
  ru_Guami : option GUAMI;
  IndexToRfsp : Z;
  ru_Ambr : option blob;
  AllowedNssai : option blob;
  RadioCapability : option blob;
  CoreNetworkAssistanceInformation : option blob;
  RRCEstablishmentCause : Z;
  PduSessionReleaseList : list SessionItem;
  UeCtxRelState : bool;
  PduSessResRelState : bool;
  TemporaryCachedNASMessage : option bytes;
  IsNASTCPConnEstablished : bool;
  IsNASTCPConnEstablishedComplete : bool;
  TCPConnection : option Z;
}.
#[global] Instance eta_RanUe : Eta N3IWFRanUe := λ r,
  mkRanUe (RanUeNgapId r) (AmfUeNgapId r) (IPAddrv4 r) (IPAddrv6 r) (PortNumber r) (MaskedIMEISV r)
    (ru_AMF r) (SecurityCapabilities r) (PduSessionList r) (TemporaryPDUSessionSetupData r) (ru_Guami r)
    (IndexToRfsp r) (ru_Ambr r) (AllowedNssai r) (RadioCapability r) (CoreNetworkAssistanceInformation r)
    (RRCEstablishmentCause r) (PduSessionReleaseList r) (UeCtxRelState r) (PduSessResRelState r)
    (TemporaryCachedNASMessage r) (IsNASTCPConnEstablished r) (IsNASTCPConnEstablishedComplete r)
    (TCPConnection r).

(** src/internal/context/ikeue.go:16-16 (AmfUeNgapIdUnspecified) *)
Definition AmfUeNgapIdUnspecified : Z := 0xffffffffff.

(** src/internal/context/n3iwf_ue.go:30-37 (N3IWFRanUe.init)

    [tmp] points to the fresh temporary data. *)
Definition init_RanUe (ranUeNgapId : Z) (tmp : ref) : N3IWFRanUe :=
  mkRanUe ranUeNgapId AmfUeNgapIdUnspecified [] [] 0 None None None ∅ (Some tmp) None 0 None None None None
    0 [] false false None false false None.

(** src/internal/context/amf.go:27-32 (AMFTNLAssociationItem) *)
Record AMFTNLAssociationItem := mkTNL {
  tnl_Ipv4 : string; tnl_Ipv6 : string; tnl_Usage : option Z; tnl_WeightFactor : option Z;
}.
(** src/internal/context/amf.go:40-44 (SliceOverloadItem) *)
Record SliceOverloadItem := mkSliceOverload {
  so_SNssaiList : list SNSSAI; so_Action : option Z; so_TrafficInd : option Z;
}.
(** src/internal/context/amf.go:34-38 (AMFOverloadContent) *)
Record AMFOverloadContent := mkOverload {
  ov_Action : option Z; ov_TrafficInd : option Z; ov_NSSAIList : list SliceOverloadItem;
}.
(** src/internal/context/amf.go:13-25 (N3IWFAMF) *)
Record N3IWFAMF := mkAMF {
  SCTPAddr : string;
  SCTPConn : option Z;
  AMFName : option blob;
  ServedGUAMIList : option (list GUAMI);
  RelativeAMFCapacity : option Z;
  PLMNSupportList : option (list bytes);
  AMFTNLAssociationList : gmap string AMFTNLAssociationItem;
  amf_Overload : option AMFOverloadContent;
  N3iwfRanUeList : gmap Z ref;
}.
#[global] Instance eta_AMF : Eta N3IWFAMF := λ r,
  mkAMF (SCTPAddr r) (SCTPConn r) (AMFName r) (ServedGUAMIList r) (RelativeAMFCapacity r)
    (PLMNSupportList r) (AMFTNLAssociationList r) (amf_Overload r) (N3iwfRanUeList r).

(** ** Events between the IKE and the NGAP goroutine *)

(** src/internal/context/ngap.go:10-278 (NgapEvt and its constructors) *)
Inductive NgapEvt :=
| UnmarshalEAP5GDataEvt (LocalSPI : Z) (EAPVendorData : bytes) (IsInitialUE : bool) (RanUeNgapId : Z)
| SendInitialUEMessageEvt (RanUeNgapId : Z) (IPv4Addr : bytes) (IPv4Port : Z) (NasPDU : bytes)
| SendPDUSessionResourceSetupResEvt (RanUeNgapId : Z)
| SendNASMsgEvt (RanUeNgapId : Z)
| StartTCPSignalNASMsgEvt (RanUeNgapId : Z)
| NASTCPConnEstablishedCompleteEvt (RanUeNgapId : Z)
| SendUEContextReleaseRequestEvt (RanUeNgapId : Z) (ErrMsg : EvtError)
| SendUEContextReleaseCompleteEvt (RanUeNgapId : Z)
| SendPDUSessionResourceReleaseResEvt (RanUeNgapId : Z)
| GetNGAPContextEvt (RanUeNgapId : Z) (NgapCxtReqNumlist : list Z)
| SendUplinkNASTransportEvt (RanUeNgapId : Z) (Pdu : bytes)
| SendInitialContextSetupRespEvt (RanUeNgapId : Z) (ResponseList FailedList : option (list SessionItem))
| SendUEContextReleaseEvt (RanUeNgapId : Z)
| SendPDUSessionResourceReleaseEvt (RanUeNgapId : Z) (DeletPduIds : list Z).

(** src/internal/context/ike.go:5-181 (IkeEvt and its constructors) *)
Inductive IkeEvt :=
| UnmarshalEAP5GDataResponseEvt (LocalSPI : Z) (RanUeNgapId : Z) (NasPDU : bytes)
| SendEAP5GFailureMsgEvt (LocalSPI : Z) (ErrMsg : EvtError)
| SendEAPNASMsgEvt (LocalSPI : Z) (NasPDU : bytes)
| SendEAPSuccessMsgEvt (LocalSPI : Z) (Kn3iwf : option bytes) (PduSessionListLen : Z)
| CreatePDUSessionEvt (LocalSPI : Z) (PduSessionListLen : Z) (TempPDUSessionSetupData : option ref)
| IKEDeleteRequestEvt (LocalSPI : Z)
| SendChildSADeleteRequestEvt (LocalSPI : Z) (ReleaseIdList : list Z)
| IKEContextUpdateEvt (LocalSPI : Z) (Kn3iwf : option bytes)
| GetNGAPContextRepEvt (LocalSPI : Z) (NgapCxtReqNumlist : list Z) (NgapCxt : list (option ref)).

(** src/internal/context/ngap.go:189-191 (CxtTempPDUSessionSetupData) *)
Definition CxtTempPDUSessionSetupData : Z := 0.

(** ** The whole state *)
Section WorldDef.
Context `{E : Env}.

(** src/internal/context/context.go:35-68 (N3IWFContext)
    with the heaps, the queues, the draws and ranges made and the effects performed. *)
Record World := mkWorld {
  RANUENGAPIDGenerator : idgen;
  TEIDGenerator : idgen;
  AMFPool : gmap string ref;
  AMFReInitAvailableList : gmap string bool;
  IKESA : gmap Z ref;
  ChildSA : gmap Z ref;
  GTPConnectionWithUPF : gmap string Z;
  AllocatedUEIPAddress : gmap bytes ref;
  AllocatedUETEID : gmap Z ref;
  IKEUePool : gmap Z ref;
  RANUePool : gmap Z ref;
  IKESPIToNGAPId : gmap Z Z;
  NGAPIdToIKESPI : gmap Z Z;
  IPSecInnerIPPool : ippool;
  XfrmIfaces : gmap Z Link;
  XfrmParentIfaceName : string;
  XfrmIfaceIdOffsetForUP : Z;
  h_sa : gmap ref IKESecurityAssociation;
  h_child : gmap ref ChildSecurityAssociation;
  h_ike : gmap ref N3IWFIkeUe;
  h_ran : gmap ref N3IWFRanUe;
  h_pdu : gmap ref PDUSession;
  h_temp : gmap ref PDUSessionSetupTemporaryData;
  h_amf : gmap ref N3IWFAMF;
  next_ref : ref;
  ngap_queue : list NgapEvt;
  ike_queue : list IkeEvt;
  draws : nat;
  trace : list IO;
}.
#[global] Instance eta_World : Eta World := λ r,
  mkWorld (RANUENGAPIDGenerator r) (TEIDGenerator r) (AMFPool r) (AMFReInitAvailableList r) (IKESA r)
    (ChildSA r) (GTPConnectionWithUPF r) (AllocatedUEIPAddress r) (AllocatedUETEID r) (IKEUePool r)
    (RANUePool r) (IKESPIToNGAPId r) (NGAPIdToIKESPI r) (IPSecInnerIPPool r) (XfrmIfaces r)
    (XfrmParentIfaceName r) (XfrmIfaceIdOffsetForUP r) (h_sa r) (h_child r) (h_ike r) (h_ran r) (h_pdu r)
    (h_temp r) (h_amf r) (next_ref r) (ngap_queue r) (ike_queue r) (draws r) (trace r).
End WorldDef.

(** Handlers over the world. *)
Abbreviation H := (prog World).
