(* ===== verification/ToyEnv.v ===== *)
(** * A concrete environment

    An instance of [Env] that satisfies [EnvLaws], with which the theorems proved against
    the interface are applied to concrete states: counters for identifiers, three inner
    addresses, consecutive draws, hashes and keys that keep their inputs. Which kernel
    and network operations succeed is a parameter. *)

From S2P Require Import GtpMsg Util.
From S2P Require Import Prelude Monad NgapTypes NgapMsg IkeMsg Env State.

Definition toy_config : Config :=
  mkConfig "n3iwf.free5gc.org" [10; 0; 0; 1] [192; 168; 127; 1] "xfrmi" 7 20000 "10.200.200.2" true
    (mkPLMN "208" "93") 135 "n3iwf" [mkTA "000001" [mkBroadcast (mkPLMN "208" "93") [mkSlice 1 "010203"]]].

(** ** Allocation *)
Definition next_id (l : list Z) : Z := 1 + foldr Z.max 0 l.

Lemma next_id_fresh l : next_id l ∉ l.
Proof.
  assert (∀ x, x ∈ l → x < next_id l) as Hlt.
  { unfold next_id. induction l as [|y l IH]; intros x Hx; [by apply not_elem_of_nil in Hx|]. cbn.
    apply elem_of_cons in Hx as [->|Hx]; [lia|]. specialize (IH x Hx). lia. }
  intros Hin%Hlt. lia.
Qed.

Definition toy_addresses : list bytes := [[10; 0; 0; 1]; [10; 0; 0; 2]; [10; 0; 0; 3]].
Definition toy_ip_alloc (used : list bytes) : option (bytes * list bytes) :=
  ip ← head (filter (λ ip, ip ∉ used) toy_addresses); Some (ip, ip :: used).
Definition toy_ip_release (ip : bytes) (used : list bytes) : option (list bytes) :=
  Some (filter (λ x, x ≠ ip) used).

Lemma toy_ip_alloc_inv used ip used' :
  toy_ip_alloc used = Some (ip, used') → ip ∉ used ∧ ip ∈ toy_addresses ∧ used' = ip :: used.
Proof.
  unfold toy_ip_alloc. destruct (head _) as [x|] eqn:Hh; [|done]. cbn. intros [= -> <-].
  apply head_Some_elem_of, list_elem_of_filter in Hh. naive_solver.
Qed.

Lemma list_remove_used `{Countable A} (l : list A) x :
  list_to_set (filter (λ y, y ≠ x) l) = (list_to_set l ∖ {[ x ]} : gset A).
Proof.
  apply set_eq. intros y. rewrite elem_of_difference, !elem_of_list_to_set, list_elem_of_filter. set_solver.
Qed.

(** ** Algorithms *)
Definition toy_encr : Transform := mkTransform TypeEncryptionAlgorithm ENCR_AES_CBC true 256.
Definition toy_integ : Transform := mkTransform TypeIntegrityAlgorithm AUTH_HMAC_SHA1_96 false 0.

Definition toy_child_key (p : Proposal) : option ChildSAKey :=
  match pr_Encr p with
  | e :: _ => Some (mkChildKey (tr_ID e) (tr_ID <$> head (pr_Integ p)) false [] [] [] [])
  | [] => None
  end.
Definition toy_gen_key (key nonce : bytes) (k : ChildSAKey) : option ChildSAKey :=
  Some (mkChildKey (ck_EncrID k) (ck_IntegID k) (ck_ESN k) (1 :: nonce) (2 :: nonce) (3 :: nonce) (4 :: nonce)).

(** A packet: one octet each for version, exchange type, message ID and responder SPI. *)
Definition toy_header (b : bytes) : option IKEHeader :=
  match b with
  | [v; x; i; s] => Some (mkHdr 0 s v x i)
  | _ => None
  end.
Definition toy_proposal : Proposal :=
  mkProposal 1 TypeIKE [] [toy_encr] [mkTransform TypePseudorandomFunction 2 false 0] [toy_integ]
    [mkTransform TypeDiffieHellmanGroup 14 false 0] [].
Definition toy_payloads (h : IKEHeader) : list Payload :=
  if decide (ih_ExchangeType h = IKE_SA_INIT) then [PSA [toy_proposal]; PKE 14 [5]; PNonce [6]] else [].
Definition toy_decode {K} (b : bytes) (h : IKEHeader) (key : K) : option IKEMessage :=
  Some (mkMsg (ih_InitiatorSPI h) (ih_ResponderSPI h) (ih_ExchangeType h) false true (ih_MessageID h) (toy_payloads h)).

(** The NGAP packets: a set-up response, a downlink message without the RAN identifier, and
    downlink messages that carry the packet. *)
Definition toy_ngap_decode (b : bytes) : option NGAPPDU :=
  match b with
  | [] => None
  | [1] => Some (mkPDUMsg SuccessfulOutcome (Some (ProcNGSetup, Some
      [ieAMFName (Some [65]); ieServedGUAMIList (Some []); ieRelativeAMFCapacity (Some 255); iePLMNSupportList (Some [])])))
  | [2] => Some (mkPDUMsg InitiatingMessage (Some (ProcDownlinkNASTransport, Some [ieAMFUENGAPID (Some 1)])))
  | _ => Some (mkPDUMsg InitiatingMessage (Some (ProcDownlinkNASTransport, Some
      [ieAMFUENGAPID (Some 1); ieRANUENGAPID (Some 1); ieNASPDU (Some b)])))
  end.

Definition toy_env (ok : list IO → IO → bool) : Env := {|
  cfg := toy_config;
  idgen := list Z;
  id_alloc := λ l, Some (next_id l, next_id l :: l);
  id_free := λ x l, filter (λ y, y ≠ x) l;
  ippool := list bytes;
  ip_alloc := toy_ip_alloc;
  ip_release := toy_ip_release;
  ip_mask := [255; 255; 255; 0];
  rnd_spi := λ n, Some (100 + Z.of_nat n);
  rnd_u8 := λ n, Some (u8 (Z.of_nat n));
  rnd_u32 := λ n, Some (u32 (Z.of_nat n));
  rnd_nonce := λ n, Some [Z.of_nat n];
  range_order := λ _ _ l, l;
  retry_limit := 8;
  io_ok := ok;
  io_link := λ _ name, mkLink name 1;
  sakey := bytes;
  new_ike_sa_key := λ _ ke nonce _ _, Some (nonce, ke);
  prf_r := λ k d, k ++ d;
  prf_i := λ k d, k ++ d;
  prf := λ k a b, a ++ b;
  encr_transform := λ _, Some toy_encr;
  integ_transform := λ _, toy_integ;
  new_child_sa_key := toy_child_key;
  gen_child_sa_key := toy_gen_key;
  dh_decodes := λ t, bool_decide (tr_ID t = 14);
  encr_decodes := λ t, bool_decide (tr_ID t = ENCR_AES_CBC);
  integ_decodes := λ t, bool_decide (tr_ID t = AUTH_HMAC_SHA1_96);
  prf_decodes := λ t, true;
  sha1 := λ b, b;
  rsa_sign := λ b, Some b;
  ike_encode := λ m, Some [im_MessageID m];
  ike_encode_payloads := λ l, Some [0; 0; 0; 0; len l];
  ike_encode_encrypt := λ m _, Some [im_MessageID m];
  ike_parse_header := toy_header;
  ike_decode_decrypt := λ b h k, toy_decode b h k;
  eap_5g_nas := λ i nas, Some (mkEAP EapCodeRequest i (Some (EapExpanded VendorId3GPP VendorTypeEAP5G nas)));
  notify_nas_ip4 := λ ip, PN TypeNone 55502 [] ip;
  notify_nas_tcp_port := λ p, PN TypeNone 55506 [] (be_put 2 p);
  notify_up_ip4 := λ ip, PN TypeNone 55504 [] ip;
  notify_5g_qos := λ id qfis, Some (PN TypeNone 55501 [] (id :: qfis));
  n3iwf_certificate := [42];
  aper_GUAMI := λ _, None;
  aper_PLMN := λ b, Some b;
  aper_encode_GUAMI := λ g, guami_PLMNIdentity <$> g;
  ngap_encode := λ m, Some [len (om_IEs m)];
  ngap_decode := toy_ngap_decode;
  aper_setup_request := λ b,
    [tiULNGUUPTNLInformation (Some (Some (mkTunnel [10; 0; 0; 9] [0; 0; 0; 77])));
     tiPDUSessionType (Some 0); tiQosFlowSetupRequestList (Some (map (λ q, mkQosItem q []) b))];
  aper_by_value := λ _, Panic "reflect: call of Elem on struct value";
  aper_modify_confirm := λ b, Some (Some b);
  aper_setup_response := λ t, Some (st_TEID t);
  aper_setup_unsuccessful := λ c _, Some [cause_Value c];
  aper_modify_response := λ t, Some (mt_QosFlows t);
  aper_modify_unsuccessful := λ c _, Some [cause_Value c];
  aper_release_response := [0];
  tla_to_string := λ a, (match a with [] => "" | _ => "10.0.0.9" end, "");
  esp_packet := λ src dst esp, Some (src ++ dst ++ esp);
  udp_resolves := λ _, true;
  gtp_marshal := λ h, Some (gh_payload h);
|}.

Lemma toy_laws ok : @EnvLaws (toy_env ok).
Proof.
  refine {| id_used := (λ l, list_to_set l) : @idgen (toy_env ok) → gset Z;
            ip_used := (λ l, list_to_set l) : @ippool (toy_env ok) → gset bytes |}.
  - intros g x g'. cbn. intros [= <- <-]. split; [|done]. rewrite elem_of_list_to_set. apply next_id_fresh.
  - intros g x. apply list_remove_used.
  - intros p x p' (? & ? & ->)%toy_ip_alloc_inv. split; [|done]. by rewrite elem_of_list_to_set.
  - intros p x p' (_ & Hin & _)%toy_ip_alloc_inv. revert x Hin. apply Forall_forall.
    by repeat constructor.
  - intros p x p'. cbn. intros [= <-]. apply list_remove_used.
  - done.
  - intros n x. cbn. intros [= <-]. apply u32_range.
  - intros n x. cbn. intros [= <-]. apply u8_byte.
Defined.

(** All operations succeed; all operations of the IKE socket fail. *)
Definition all_ok : list IO → IO → bool := λ _ _, true.
Definition ike_fails : list IO → IO → bool := λ _ x, match x with IoIke _ _ _ => false | _ => true end.

Definition toy : Env := toy_env all_ok.
Definition toy_deaf : Env := toy_env ike_fails.

(** An N3IWF without UEs and AMFs. *)
Definition world0 (ok : list IO → IO → bool) : @World (toy_env ok) :=
  @mkWorld (toy_env ok) [] [] ∅ ∅ ∅ ∅ ∅ ∅ ∅ ∅ ∅ ∅ ∅ [] {[ 7 := mkLink "xfrmi-default" 7 ]} "eth0" 0 ∅ ∅ ∅ ∅ ∅ ∅ ∅ 0 [] [] 0 [].
