(* ===== verification/Context.v ===== *)
(** * N3IWFContext and its objects (internal/context)

    The operations of context.go, ikeue.go, ranue.go, n3iwf_ue.go and amf.go over the
    [World]: pools, identifiers, the mapping between IKE SPIs and NGAP identifiers,
    creation and removal of UEs, sessions and child SAs, AMF selection. *)

From S2P Require Import Prelude Monad NgapTypes NgapMsg IkeMsg Env State ToyEnv.

(** Go's [error] result: [None] is nil. *)
Abbreviation error := (option string).

Section Context_.
Context `{E : Env}.
Implicit Types w : World.

(** ** Access to the heaps

    Reading or writing through a nil pointer panics. *)
Section Access.
Context {R : Type}.

Definition get_sa (o : option ref) : H R IKESecurityAssociation :=
  r ← deref o; w ← get; deref (h_sa w !! r).
Definition get_child (r : ref) : H R ChildSecurityAssociation := w ← get; deref (h_child w !! r).
Definition get_ike (o : option ref) : H R N3IWFIkeUe := r ← deref o; w ← get; deref (h_ike w !! r).
Definition get_ran (o : option ref) : H R N3IWFRanUe := r ← deref o; w ← get; deref (h_ran w !! r).
Definition get_pdu (o : option ref) : H R PDUSession := r ← deref o; w ← get; deref (h_pdu w !! r).
Definition get_temp (o : option ref) : H R PDUSessionSetupTemporaryData :=
  r ← deref o; w ← get; deref (h_temp w !! r).
Definition get_amf (o : option ref) : H R N3IWFAMF := r ← deref o; w ← get; deref (h_amf w !! r).

Definition upd_sa (r : ref) (f : IKESecurityAssociation → IKESecurityAssociation) : H R unit :=
  modify (λ w, w <| h_sa ::= alter f r |>).
Definition upd_child (r : ref) (f : ChildSecurityAssociation → ChildSecurityAssociation) : H R unit :=
  modify (λ w, w <| h_child ::= alter f r |>).
Definition upd_ike (r : ref) (f : N3IWFIkeUe → N3IWFIkeUe) : H R unit :=
  modify (λ w, w <| h_ike ::= alter f r |>).
Definition upd_ran (r : ref) (f : N3IWFRanUe → N3IWFRanUe) : H R unit :=
  modify (λ w, w <| h_ran ::= alter f r |>).
Definition upd_pdu (r : ref) (f : PDUSession → PDUSession) : H R unit :=
  modify (λ w, w <| h_pdu ::= alter f r |>).
Definition upd_temp (r : ref) (f : PDUSessionSetupTemporaryData → PDUSessionSetupTemporaryData) : H R unit :=
  modify (λ w, w <| h_temp ::= alter f r |>).
Definition upd_amf (r : ref) (f : N3IWFAMF → N3IWFAMF) : H R unit :=
  modify (λ w, w <| h_amf ::= alter f r |>).

(** [new(T)] *)
Definition fresh_ref : H R ref :=
  r ← gets next_ref; modify (λ w, w <| next_ref := S r |>);; mret r.
Definition new_sa v : H R ref := r ← fresh_ref; modify (λ w, w <| h_sa ::= <[r := v]> |>);; mret r.
Definition new_child v : H R ref := r ← fresh_ref; modify (λ w, w <| h_child ::= <[r := v]> |>);; mret r.
Definition new_ike v : H R ref := r ← fresh_ref; modify (λ w, w <| h_ike ::= <[r := v]> |>);; mret r.
Definition new_ran v : H R ref := r ← fresh_ref; modify (λ w, w <| h_ran ::= <[r := v]> |>);; mret r.
Definition new_pdu v : H R ref := r ← fresh_ref; modify (λ w, w <| h_pdu ::= <[r := v]> |>);; mret r.
Definition new_temp v : H R ref := r ← fresh_ref; modify (λ w, w <| h_temp ::= <[r := v]> |>);; mret r.
Definition new_amf v : H R ref := r ← fresh_ref; modify (λ w, w <| h_amf ::= <[r := v]> |>);; mret r.

(** An effect outside the process, recorded; whether it succeeded. *)
Definition do_io (x : IO) : H R bool :=
  ok ← gets (λ w, io_ok (trace w) x);
  modify (λ w, w <| trace ::= cons x |>);; mret ok.

(** A draw from the random source. *)
Definition draw {A} (f : nat → A) : H R A :=
  n ← gets draws; modify (λ w, w <| draws := S n |>);; mret (f n).

(** [for ... := range m]: the entries in the order of this iteration. *)
Definition range_map `{Countable K} {A} (m : gmap K A) : H R (list (K * A)) :=
  n ← gets draws; modify (λ w, w <| draws := S n |>);;
  mret (range_order _ n (map_to_list m)).

(** Send on a channel between the two servers. *)
Definition SendNgapEvt (e : NgapEvt) : H R unit := modify (λ w, w <| ngap_queue ::= λ q, q ++ [e] |>).
Definition SendIkeEvt (e : IkeEvt) : H R unit := modify (λ w, w <| ike_queue ::= λ q, q ++ [e] |>).

End Access.

(** The outcome of a retry loop that used up its turns. *)
Definition out_of_turns : string := "retry limit".

(** ** Pools (context.go) *)

(** src/internal/context/context.go:178-185 (N3IWFContext.NewN3iwfIkeUe) *)
Definition NewN3iwfIkeUe {R} (spi : Z) : H R ref :=
  r ← new_ike init_IkeUe;
  modify (λ w, w <| IKEUePool ::= <[spi := r]> |>);;
  mret r.

(** src/internal/context/context.go:187-202 (N3IWFContext.NewN3iwfRanUe) *)
Definition NewN3iwfRanUe {R} : H R (option ref) :=
  g ← gets RANUENGAPIDGenerator;
  match id_alloc g with
  | None => mret None
  | Some (ranUeNgapId, g) =>
      modify (λ w, w <| RANUENGAPIDGenerator := g |>);;
      tmp ← new_temp zero_Temp;
      r ← new_ran (init_RanUe ranUeNgapId tmp);
      modify (λ w, w <| RANUePool ::= <[ranUeNgapId := r]> |>);;
      mret (Some r)
  end.

(** src/internal/context/context.go:264-266 (N3IWFContext.DeleteNgapIdFromIkeSPI) *)
Definition DeleteNgapIdFromIkeSPI (spi : Z) w : World := w <| IKESPIToNGAPId ::= delete spi |>.
(** src/internal/context/context.go:268-270 (N3IWFContext.DeleteIkeSPIFromNgapId) *)
Definition DeleteIkeSPIFromNgapId (ranUeNgapId : Z) w : World := w <| NGAPIdToIKESPI ::= delete ranUeNgapId |>.
(** src/internal/context/context.go:204-207 (N3IWFContext.DeleteRanUe) *)
Definition DeleteRanUe (ranUeNgapId : Z) w : World :=
  DeleteIkeSPIFromNgapId ranUeNgapId (w <| RANUePool ::= delete ranUeNgapId |>).
(** src/internal/context/context.go:209-212 (N3IWFContext.DeleteIKEUe) *)
Definition DeleteIKEUe (spi : Z) w : World :=
  DeleteNgapIdFromIkeSPI spi (w <| IKEUePool ::= delete spi |>).
(** src/internal/context/context.go:214-221 (N3IWFContext.IkeUePoolLoad) *)
Definition IkeUePoolLoad (spi : Z) w : option ref := IKEUePool w !! spi.
(** src/internal/context/context.go:223-241 (N3IWFContext.RanUePoolLoad) *)
Definition RanUePoolLoad (id : Z) w : option ref := RANUePool w !! id.
(** src/internal/context/context.go:243-246 (N3IWFContext.IkeSpiNgapIdMapping) *)
Definition IkeSpiNgapIdMapping (spi ranUeNgapId : Z) w : World :=
  w <| IKESPIToNGAPId ::= <[spi := ranUeNgapId]> |> <| NGAPIdToIKESPI ::= <[ranUeNgapId := spi]> |>.
(** src/internal/context/context.go:248-254 (N3IWFContext.IkeSpiLoad) *)
Definition IkeSpiLoad (ranUeNgapId : Z) w : option Z := NGAPIdToIKESPI w !! ranUeNgapId.
(** src/internal/context/context.go:256-262 (N3IWFContext.NgapIdLoad) *)
Definition NgapIdLoad (spi : Z) w : option Z := IKESPIToNGAPId w !! spi.
(** src/internal/context/context.go:272-282 (N3IWFContext.RanUeLoadFromIkeSPI) *)
Definition RanUeLoadFromIkeSPI (spi : Z) w : res ref :=
  match IKESPIToNGAPId w !! spi with
  | Some ranNgapId =>
      match RanUePoolLoad ranNgapId w with
      | Some r => Ok r
      | None => Err "cannot find RanUE from RanNgapId"
      end
  | None => Err "cannot find RanNgapId from IkeUe SPI"
  end.
(** src/internal/context/context.go:284-294 (N3IWFContext.IkeUeLoadFromNgapId) *)
Definition IkeUeLoadFromNgapId (ranUeNgapId : Z) w : res ref :=
  match NGAPIdToIKESPI w !! ranUeNgapId with
  | Some spi =>
      match IkeUePoolLoad spi w with
      | Some r => Ok r
      | None => Err "cannot find IkeUe from spi"
      end
  | None => Err "cannot find SPI from NgapId"
  end.

(** src/internal/context/amf.go:46-51 (N3IWFAMF.init) *)
Definition init_AMF (sctpAddr : string) (conn : option Z) : N3IWFAMF :=
  mkAMF sctpAddr conn None None None None ∅ None ∅.
(** src/internal/context/context.go:296-305 (N3IWFContext.NewN3iwfAmf) *)
Definition NewN3iwfAmf {R} (sctpAddr : string) (conn : option Z) : H R ref :=
  amf ← new_amf (init_AMF sctpAddr conn);
  pool ← gets AMFPool;
  match pool !! sctpAddr with
  | Some item => mret item
  | None => modify (λ w, w <| AMFPool ::= <[sctpAddr := amf]> |>);; mret amf
  end.
(** src/internal/context/context.go:307-309 (N3IWFContext.DeleteN3iwfAmf) *)
Definition DeleteN3iwfAmf (sctpAddr : string) w : World := w <| AMFPool ::= delete sctpAddr |>.
(** src/internal/context/context.go:311-317 (N3IWFContext.AMFPoolLoad) *)
Definition AMFPoolLoad (sctpAddr : string) w : option ref := AMFPool w !! sctpAddr.
(** src/internal/context/context.go:319-321 (N3IWFContext.DeleteAMFReInitAvailableFlag) *)
Definition DeleteAMFReInitAvailableFlag (sctpAddr : string) w : World :=
  w <| AMFReInitAvailableList ::= delete sctpAddr |>.
(** src/internal/context/context.go:323-329 (N3IWFContext.AMFReInitAvailableListLoad) *)
Definition AMFReInitAvailableListLoad (sctpAddr : string) w : bool * bool :=
  match AMFReInitAvailableList w !! sctpAddr with Some flag => (flag, true) | None => (true, false) end.
(** src/internal/context/context.go:331-333 (N3IWFContext.AMFReInitAvailableListStore) *)
Definition AMFReInitAvailableListStore (sctpAddr : string) (flag : bool) w : World :=
  w <| AMFReInitAvailableList ::= <[sctpAddr := flag]> |>.

(** src/internal/context/context.go:341-352 (N3IWFContext.NewIKESecurityAssociation)

    The loop: a draw that is not a key of the pool becomes one. *)
Fixpoint new_spi {R} (turns : nat) (sa : ref) : H R (option Z) :=
  match turns with
  | O => panic out_of_turns
  | S turns =>
      localSPI ← draw rnd_spi;
      match localSPI with
      | None => mret None
      | Some spi =>
          pool ← gets IKESA;
          match pool !! spi with
          | Some _ => new_spi turns sa
          | None => modify (λ w, w <| IKESA ::= <[spi := sa]> |>);; mret (Some spi)
          end
      end
  end.

(** src/internal/context/context.go:335-357 (N3IWFContext.NewIKESecurityAssociation) *)
Definition NewIKESecurityAssociation {R} : H R (option ref) :=
  sa ← new_sa zero_SA;
  spi ← new_spi retry_limit sa;
  match spi with
  | None => mret None
  | Some spi => upd_sa sa (λ r, r <| LocalSPI := spi |>);; mret (Some sa)
  end.

(** src/internal/context/context.go:359-361 (N3IWFContext.DeleteIKESecurityAssociation) *)
Definition DeleteIKESecurityAssociation (spi : Z) w : World := w <| IKESA ::= delete spi |>.
(** src/internal/context/context.go:363-369 (N3IWFContext.IKESALoad) *)
Definition IKESALoad (spi : Z) w : option ref := IKESA w !! spi.
(** src/internal/context/context.go:371-373 (N3IWFContext.DeleteGTPConnection) *)
Definition DeleteGTPConnection (upfAddr : string) w : World := w <| GTPConnectionWithUPF ::= delete upfAddr |>.
(** src/internal/context/context.go:375-381 (N3IWFContext.GTPConnectionWithUPFLoad) *)
Definition GTPConnectionWithUPFLoad (upfAddr : string) w : option Z := GTPConnectionWithUPF w !! upfAddr.
(** src/internal/context/context.go:383-385 (N3IWFContext.GTPConnectionWithUPFStore) *)
Definition GTPConnectionWithUPFStore (upfAddr : string) (conn : Z) w : World :=
  w <| GTPConnectionWithUPF ::= <[upfAddr := conn]> |>.

(** src/internal/context/context.go:393-408 (N3IWFContext.NewIPsecInnerUEIP)

    The loop. Address strings are represented by the address itself. *)
Fixpoint new_ue_ip {R} (turns : nat) (ikeUe : ref) : H R (option bytes) :=
  match turns with
  | O => panic out_of_turns
  | S turns =>
      pool ← gets IPSecInnerIPPool;
      match ip_alloc pool with
      | None => mret None
      | Some (ueIPAddr, pool) =>
          modify (λ w, w <| IPSecInnerIPPool := pool |>);;
          if decide (ueIPAddr = cfg_IPSecGatewayAddr cfg) then new_ue_ip turns ikeUe
          else
            used ← gets AllocatedUEIPAddress;
            match used !! ueIPAddr with
            | Some _ => new_ue_ip turns ikeUe
            | None => modify (λ w, w <| AllocatedUEIPAddress ::= <[ueIPAddr := ikeUe]> |>);; mret (Some ueIPAddr)
            end
      end
  end.

(** src/internal/context/context.go:387-411 (N3IWFContext.NewIPsecInnerUEIP) *)
Definition NewIPsecInnerUEIP {R} (ikeUe : ref) : H R (option bytes) := new_ue_ip retry_limit ikeUe.

(** src/internal/context/context.go:413-415 (N3IWFContext.DeleteInternalUEIPAddr) *)
Definition DeleteInternalUEIPAddr (ipAddr : bytes) w : World := w <| AllocatedUEIPAddress ::= delete ipAddr |>.
(** src/internal/context/context.go:417-423 (N3IWFContext.AllocatedUEIPAddressLoad) *)
Definition AllocatedUEIPAddressLoad (ipAddr : bytes) w : option ref := AllocatedUEIPAddress w !! ipAddr.

(** src/internal/context/context.go:425-440 (N3IWFContext.NewTEID) *)
Definition NewTEID {R} (ranUe : ref) : H R Z :=
  g ← gets TEIDGenerator;
  match id_alloc g with
  | None => mret 0
  | Some (teid64, g) =>
      modify (λ w, w <| TEIDGenerator := g |>);;
      if decide (teid64 < 0 ∨ teid64 > MaxUint32) then mret 0
      else
        modify (λ w, w <| AllocatedUETEID ::= <[teid64 := ranUe]> |>);;
        mret teid64
  end.

(** src/internal/context/context.go:442-445 (N3IWFContext.DeleteTEID) *)
Definition DeleteTEID (teid : Z) w : World :=
  w <| TEIDGenerator ::= id_free teid |> <| AllocatedUETEID ::= delete teid |>.
(** src/internal/context/context.go:447-453 (N3IWFContext.AllocatedUETEIDLoad) *)
Definition AllocatedUETEIDLoad (teid : Z) w : option ref := AllocatedUETEID w !! teid.

(** ** AMF (amf.go) *)

(** src/internal/context/amf.go:127-143 (N3IWFAMF.FindAvalibleAMFByCompareGUAMI) *)
Fixpoint guami_served (served : list GUAMI) (ue : option GUAMI) : bool :=
  match served with
  | [] => false
  | g :: served =>
      match aper_encode_GUAMI (Some g), aper_encode_GUAMI ue with
      | Some a, Some b => if decide (a = b) then true else guami_served served ue
      | _, _ => false
      end
  end.
(** src/internal/context/amf.go:127-143 (N3IWFAMF.FindAvalibleAMFByCompareGUAMI) *)
Definition FindAvalibleAMFByCompareGUAMI (amf : N3IWFAMF) (ue : option GUAMI) : res bool :=
  match ServedGUAMIList amf with
  | None => Panic nil_deref
  | Some served => Ok (guami_served served ue)
  end.
(** src/internal/context/amf.go:145-157 (N3IWFAMF.FindAvalibleAMFByCompareSelectedPLMNId) *)
Definition FindAvalibleAMFByCompareSelectedPLMNId (amf : N3IWFAMF) (ue : option bytes) : res bool :=
  match ue with
  | None => Ok false
  | Some plmn =>
      match PLMNSupportList amf with
      | None => Panic nil_deref
      | Some served => Ok (bool_decide (plmn ∈ served))
      end
  end.

(** src/internal/context/context.go:460-477 (N3IWFContext.AMFSelection)

    The Range callback over the AMF pool: the available AMF and the default one. *)
Fixpoint amf_scan {R} (pool : list (string * ref)) (guami : option GUAMI) (plmn : option bytes)
    (default : option ref) : H R (option ref * option ref) :=
  match pool with
  | [] => mret (None, default)
  | (_, r) :: pool =>
      amf ← get_amf (Some r);
      let default := match default with None => Some r | Some d => Some d end in
      byGuami ← lift (FindAvalibleAMFByCompareGUAMI amf guami);
      if (byGuami : bool) then mret (Some r, default)
      else
        byPlmn ← lift (FindAvalibleAMFByCompareSelectedPLMNId amf plmn);
        if (byPlmn : bool) then mret (Some r, default)
        else amf_scan pool guami plmn default
  end.
(** src/internal/context/context.go:455-483 (N3IWFContext.AMFSelection) *)
Definition AMFSelection {R} (guami : option GUAMI) (plmn : option bytes) : H R (option ref) :=
  pool ← gets AMFPool;
  l ← range_map pool;
  '(available, default) ← amf_scan l guami plmn None;
  mret (match available with Some r => Some r | None => default end).

(** src/internal/context/amf.go:53-60 (N3IWFAMF.FindUeByAmfUeNgapID) *)
Fixpoint find_ue {R} (l : list (Z * ref)) (id : Z) : H R (option ref) :=
  match l with
  | [] => mret None
  | (_, r) :: l =>
      u ← get_ran (Some r);
      if decide (AmfUeNgapId u = id) then mret (Some r) else find_ue l id
  end.
(** src/internal/context/amf.go:53-60 (N3IWFAMF.FindUeByAmfUeNgapID) *)
Definition FindUeByAmfUeNgapID {R} (amf : ref) (id : Z) : H R (option ref) :=
  a ← get_amf (Some amf);
  l ← range_map (N3iwfRanUeList a);
  find_ue l id.

(** ** RAN UEs (ranue.go, n3iwf_ue.go) *)

(** src/internal/context/ranue.go:127-133 (RanUeSharedCtx.FindPDUSession) *)
Definition FindPDUSession (u : N3IWFRanUe) (id : Z) : option ref := PduSessionList u !! id.

(** src/internal/context/ranue.go:135-146 (RanUeSharedCtx.CreatePDUSession) *)
Definition CreatePDUSession {R} (ranUe : ref) (id : Z) (snssai : SNSSAI) : H R (option ref) :=
  u ← get_ran (Some ranUe);
  match PduSessionList u !! id with
  | Some _ => mret None
  | None =>
      p ← new_pdu (mkPDU id None None snssai None false false None None None [] ∅);
      upd_ran ranUe (λ u, u <| PduSessionList ::= <[id := p]> |>);;
      mret (Some p)
  end.

(** src/internal/context/ranue.go:148-150 (RanUeSharedCtx.DeletePDUSession) *)
Definition DeletePDUSession {R} (ranUe : ref) (id : Z) : H R unit :=
  upd_ran ranUe (λ u, u <| PduSessionList ::= delete id |>).

(** src/internal/context/n3iwf_ue.go:60-68 (N3IWFRanUe.AttachAMF) *)
Definition AttachAMF {R} (ranUe : ref) (sctpAddr : string) : H R bool :=
  pool ← gets AMFPool;
  match pool !! sctpAddr with
  | Some amf =>
      u ← get_ran (Some ranUe);
      upd_amf amf (λ a, a <| N3iwfRanUeList ::= <[RanUeNgapId u := ranUe]> |>);;
      upd_ran ranUe (λ u, u <| ru_AMF := Some amf |>);;
      mret true
  | None => mret false
  end.

(** src/internal/context/n3iwf_ue.go:70-75 (N3IWFRanUe.DetachAMF) *)
Definition DetachAMF {R} (ranUe : ref) : H R unit :=
  u ← get_ran (Some ranUe);
  match ru_AMF u with
  | None => mret tt
  | Some amf => upd_amf amf (λ a, a <| N3iwfRanUeList ::= delete (RanUeNgapId u) |>)
  end.

(** src/internal/context/n3iwf_ue.go:39-58 (N3IWFRanUe.Remove) *)
Definition RanUe_Remove (ranUe : ref) : H error error :=
  DetachAMF ranUe;;
  u ← get_ran (Some ranUe);
  modify (DeleteRanUe (RanUeNgapId u));;
  l ← range_map (PduSessionList u);
  for_each l (λ '(_, p),
    s ← get_pdu (Some p);
    g ← deref (GTPConnInfo s);
    modify (DeleteTEID (IncomingTEID g)));;
  match TCPConnection u with
  | None => mret None
  | Some conn =>
      ok ← do_io (IoTcpClose conn);
      mret (if (ok : bool) then None else Some "Close TCP conn error"%string)
  end.

(** src/internal/context/amf.go:62-69 (N3IWFAMF.RemoveAllRelatedUe) *)
Fixpoint remove_ues (l : list (Z * ref)) : H error error :=
  match l with
  | [] => mret None
  | (_, r) :: l =>
      err ← call (RanUe_Remove r);
      match err with Some e => mret (Some e) | None => remove_ues l end
  end.
(** src/internal/context/amf.go:62-69 (N3IWFAMF.RemoveAllRelatedUe) *)
Definition RemoveAllRelatedUe (amf : ref) : H error error :=
  a ← get_amf (Some amf);
  l ← range_map (N3iwfRanUeList a);
  remove_ues l.

(** ** IKE UEs (ikeue.go) *)

(** [if err := op(); err != nil { return err }] *)
Definition try_io (x : IO) (e : string) : H error unit :=
  ok ← do_io x; if (ok : bool) then mret tt else ret (Some e).

(** src/internal/context/ikeue.go:254-263 (N3IWFIkeUe.DeleteChildSAXfrm)

    Removal of the XFRM interface of a child SA. *)
Definition delete_iface (c : ChildSecurityAssociation) : H error unit :=
  match XfrmIface c with
  | None => mret tt
  | Some iface =>
      if decide (ln_Name iface = "xfrmi-default"%string) then mret tt
      else
        try_io (IoLinkDel iface) "Delete interface";;
        match XfrmStateList c with
        | [] => panic oob
        | s :: _ =>
            if decide (xs_Ifid s < 0 ∨ xs_Ifid s > MaxUint32)
            then ret (Some "DeleteChildSAXfrm Ifid has out of uint32 range value"%string)
            else modify (λ w, w <| XfrmIfaces ::= delete (u32 (xs_Ifid s)) |>)
        end
  end.

(** src/internal/context/ikeue.go:235-269 (N3IWFIkeUe.DeleteChildSAXfrm) *)
Definition DeleteChildSAXfrm (child : ref) : H error error :=
  c ← get_child child;
  for_each (XfrmStateList c) (λ s, try_io (IoXfrmStateDel s) "Delete xfrmstate");;
  for_each (XfrmPolicyList c) (λ p, try_io (IoXfrmPolicyDel p) "Delete xfrmPolicy");;
  delete_iface c;;
  upd_child child (λ c, c <| XfrmStateList := [] |> <| XfrmPolicyList := [] |>);;
  mret None.

(** src/internal/context/ikeue.go:271-279 (N3IWFIkeUe.DeleteChildSA) *)
Definition DeleteChildSA (ikeUe child : ref) : H error error :=
  err ← call (DeleteChildSAXfrm child);
  match err with
  | Some e => ret (Some e)
  | None =>
      c ← get_child child;
      upd_ike ikeUe (λ u, u <| N3IWFChildSecurityAssociation ::= delete (InboundSPI c) |>);;
      mret None
  end.

(** src/internal/context/ikeue.go:225-229 (N3IWFIkeUe.Remove) *)
Fixpoint delete_children (ikeUe : ref) (l : list (Z * ref)) : H error unit :=
  match l with
  | [] => mret tt
  | (_, child) :: l =>
      err ← call (DeleteChildSA ikeUe child);
      match err with
      | Some e => ret (Some e)
      | None => delete_children ikeUe l
      end
  end.

(** src/internal/context/ikeue.go:210-233 (N3IWFIkeUe.Remove)

    The send on IKESAClosedCh that stops the DPD goroutine is the effect [IoSaClosed]. *)
Definition IkeUe_Remove (ikeUe : ref) : H error error :=
  u ← get_ike (Some ikeUe);
  sa ← get_sa (N3IWFIKESecurityAssociation u);
  when (IsUseDPD sa) (do_io (IoSaClosed (LocalSPI sa));; mret tt);;
  modify (DeleteIKESecurityAssociation (LocalSPI sa));;
  modify (DeleteInternalUEIPAddr (IPSecInnerIP u));;
  pool ← gets IPSecInnerIPPool;
  match ip_release (To4 (IPSecInnerIP u)) pool with
  | None => ret (Some "N3IWFIkeUe Remove()"%string)
  | Some pool =>
      modify (λ w, w <| IPSecInnerIPPool := pool |>);;
      l ← range_map (N3IWFChildSecurityAssociation u);
      delete_children ikeUe l;;
      modify (DeleteIKEUe (LocalSPI sa));;
      mret None
  end.

(** src/internal/context/ikeue.go:283-291 (N3IWFIkeUe.CreateHalfChildSA) *)
Definition CreateHalfChildSA {R} (ikeUe : ref) (msgID inboundSPI pduSessionID : Z) : H R unit :=
  child ← new_child (zero_Child <| InboundSPI := inboundSPI |> <| PDUSessionIds := [pduSessionID] |>
                       <| c_IkeUE := Some ikeUe |>);
  upd_ike ikeUe (λ u, u <| TemporaryExchangeMsgIDChildSAMapping ::= <[msgID := child]> |>).

(** src/internal/context/ikeue.go:293-327 (N3IWFIkeUe.CompleteChildSA) *)
Definition CompleteChildSA (ikeUe : ref) (msgID outboundSPI : Z) (chosen : option (list Proposal))
  : H (option ref) (option ref) :=
  u ← get_ike (Some ikeUe);
  match TemporaryExchangeMsgIDChildSAMapping u !! msgID with
  | None => ret None
  | Some child =>
      upd_ike ikeUe (λ u, u <| TemporaryExchangeMsgIDChildSAMapping ::= delete msgID |>);;
      match chosen with
      | None | Some [] => ret None
      | Some (p :: _) =>
          upd_child child (λ c, c <| OutboundSPI := outboundSPI |>);;
          upd_child child (λ c, c <| c_ChildSAKey := new_child_sa_key p |>);;
          match new_child_sa_key p with
          | None => ret None
          | Some _ =>
              c ← get_child child;
              upd_ike ikeUe (λ u, u <| N3IWFChildSecurityAssociation ::= <[InboundSPI c := child]> |>);;
              modify (λ w, w <| ChildSA ::= <[InboundSPI c := child]> |>);;
              mret (Some child)
          end
      end
  end.

End Context_.

(** ** Runs of the accessors *)
Section Runs.
Context `{E : Env} {R : Type}.
Implicit Types w : World.

Lemma run_get_sa w r v : h_sa w !! r = Some v → (get_sa (Some r) : H R _) w = (Next v, w).
Proof. intros Hr. unfold get_sa, mbind, prog_bind. cbn. by rewrite Hr. Qed.
Lemma run_get_child w r v : h_child w !! r = Some v → (get_child r : H R _) w = (Next v, w).
Proof. intros Hr. unfold get_child, mbind, prog_bind. cbn. by rewrite Hr. Qed.
Lemma run_get_ike w r v : h_ike w !! r = Some v → (get_ike (Some r) : H R _) w = (Next v, w).
Proof. intros Hr. unfold get_ike, mbind, prog_bind. cbn. by rewrite Hr. Qed.
Lemma run_get_ran w r v : h_ran w !! r = Some v → (get_ran (Some r) : H R _) w = (Next v, w).
Proof. intros Hr. unfold get_ran, mbind, prog_bind. cbn. by rewrite Hr. Qed.
Lemma run_get_pdu w r v : h_pdu w !! r = Some v → (get_pdu (Some r) : H R _) w = (Next v, w).
Proof. intros Hr. unfold get_pdu, mbind, prog_bind. cbn. by rewrite Hr. Qed.
Lemma run_get_temp w r v : h_temp w !! r = Some v → (get_temp (Some r) : H R _) w = (Next v, w).
Proof. intros Hr. unfold get_temp, mbind, prog_bind. cbn. by rewrite Hr. Qed.
Lemma run_get_amf w r v : h_amf w !! r = Some v → (get_amf (Some r) : H R _) w = (Next v, w).
Proof. intros Hr. unfold get_amf, mbind, prog_bind. cbn. by rewrite Hr. Qed.
Lemma run_do_io w x :
  (do_io x : H R bool) w = (Next (io_ok (trace w) x), w <| trace ::= cons x |>).
Proof. done. Qed.
Lemma run_range_map `{Countable K} {A} w (m : gmap K A) :
  (range_map m : H R _) w =
    (Next (range_order _ (draws w) (map_to_list m)), w <| draws := S (draws w) |>).
Proof. done. Qed.
Lemma run_draw {A} w (f : nat → A) :
  (draw f : H R A) w = (Next (f (draws w)), w <| draws := S (draws w) |>).
Proof. done. Qed.
End Runs.

(** ** Fresh identifiers *)
Section Fresh.
Context `{E : Env}.
Implicit Types w : World.

(** Some draw within the granted turns is not a key of the pool (or the source
    fails). *)
Definition spi_available (turns : nat) w : Prop :=
  ∃ k, (k < turns)%nat ∧
    match rnd_spi (draws w + k) with Some spi => IKESA w !! spi = None | None => True end.

Lemma new_spi_S {R} turns sa :
  new_spi (S turns) sa =
    (localSPI ← draw rnd_spi;
     match localSPI with
     | None => mret None
     | Some spi =>
         pool ← gets IKESA;
         match pool !! spi with
         | Some _ => new_spi turns sa
         | None => modify (λ w, w <| IKESA ::= <[spi := sa]> |>);; mret (Some spi)
         end
     end : H R (option Z)).
Proof. done. Qed.

Lemma new_ue_ip_S {R} turns ikeUe :
  new_ue_ip (S turns) ikeUe =
    (pool ← gets IPSecInnerIPPool;
     match ip_alloc pool with
     | None => mret None
     | Some (ip, pool) =>
         modify (λ w, w <| IPSecInnerIPPool := pool |>);;
         if decide (ip = cfg_IPSecGatewayAddr cfg) then new_ue_ip turns ikeUe
         else
           used ← gets AllocatedUEIPAddress;
           match used !! ip with
           | Some _ => new_ue_ip turns ikeUe
           | None => modify (λ w, w <| AllocatedUEIPAddress ::= <[ip := ikeUe]> |>);; mret (Some ip)
           end
     end : H R (option bytes)).
Proof. done. Qed.

Lemma new_spi_spec {R} turns sa w :
  match (new_spi turns sa : H R _) w with
  | (Next (Some spi), w') =>
      IKESA w !! spi = None ∧
      ∃ n, w' = w <| draws := n |> <| IKESA ::= <[spi := sa]> |>
  | (Next None, w') => ∃ n, w' = w <| draws := n |>
  | (Return _, _) => False
  | (Panicked _, w') => ¬ spi_available turns w ∧ ∃ n, w' = w <| draws := n |>
  end.
Proof.
  revert w. induction turns as [|turns IH]; intros w.
  { cbn. split; [intros (k & ? & _); lia|]. exists (draws w). by destruct w. }
  rewrite new_spi_S, run_bind, run_draw. destruct (rnd_spi (draws w)) as [spi|] eqn:Hd.
  - rewrite run_bind. cbn [gets]. destruct (IKESA _ !! spi) as [x|] eqn:Hx.
    + specialize (IH (w <| draws := S (draws w) |>)).
      destruct (new_spi turns sa _) as [[[spi'|]|?|?] w'].
      * destruct IH as (? & n & ->). split; [done|]. by exists n.
      * destruct IH as (n & ->). by exists n.
      * done.
      * destruct IH as [IH (n & ->)]. split; [|by exists n].
        intros (k & Hk & Hf). apply IH. destruct k as [|k].
        -- rewrite Nat.add_0_r, Hd in Hf. cbn in Hx. congruence.
        -- exists k. split; [lia|]. cbn. by rewrite <- Nat.add_succ_r.
    + rewrite run_bind. cbn. split; [done|]. by exists (S (draws w)).
  - cbn. by exists (S (draws w)).
Qed.

Lemma NewIKESecurityAssociation_run {R} w :
  match (NewIKESecurityAssociation : H R _) w with
  | (Next (Some sa), w') =>
      ∃ spi n, IKESA w !! spi = None ∧ sa = next_ref w ∧
        w' = w <| next_ref := S (next_ref w) |> <| draws := n |> <| IKESA ::= <[spi := sa]> |>
               <| h_sa ::= <[sa := zero_SA <| LocalSPI := spi |>]> |>
  | (Next None, w') => IKESA w' = IKESA w
  | (Return _, _) => False
  | (Panicked _, w') => ¬ spi_available retry_limit w ∧ IKESA w' = IKESA w
  end.
Proof.
  unfold NewIKESecurityAssociation, new_sa, fresh_ref, gets, modify, upd_sa, mbind, prog_bind.
  cbn -[new_spi].
  match goal with |- context [new_spi _ _ ?x] => set (w1 := x) end.
  pose proof (new_spi_spec (R := R) retry_limit (next_ref w) w1) as Hs.
  destruct (new_spi _ _ w1) as [[[spi|]|?|?] w']; cbn.
  - destruct Hs as (Hf & n & ->). exists spi, n. split; [done|]. split; [done|].
    unfold update, w1. cbn -[alter]. f_equal.
    apply map_eq. intros r. destruct (decide (r = next_ref w)) as [->|Hne].
    + by rewrite lookup_alter_eq, !lookup_insert_eq.
    + by rewrite lookup_alter_ne, !lookup_insert_ne by done.
  - by destruct Hs as (n & ->).
  - done.
  - destruct Hs as [Hs (n & ->)]. done.
Qed.

(** A fresh IKE SA: the SPI was not in use, the pool gains exactly this
    entry, and the object under it is new, empty and knows its SPI; when the random
    source fails the pool is unchanged, and the loop only fails to end when no draw granted to
    it is unused. *)
Theorem NewIKESecurityAssociation_fresh (R : Type) w :
  match (NewIKESecurityAssociation : H R _) w with
  | (Next (Some sa), w') =>
      ∃ spi, IKESA w !! spi = None ∧ IKESA w' = <[spi := sa]> (IKESA w) ∧
        sa = next_ref w ∧ h_sa w' = <[sa := zero_SA <| LocalSPI := spi |>]> (h_sa w)
  | (Next None, w') => IKESA w' = IKESA w
  | (Return _, _) => False
  | (Panicked _, _) => ¬ spi_available retry_limit w
  end.
Proof.
  pose proof (NewIKESecurityAssociation_run (R := R) w) as Hn.
  destruct (NewIKESecurityAssociation w) as [[[sa|]|?|?] w']; [|done|done|tauto].
  destruct Hn as (spi & n & ? & -> & ->). by exists spi.
Qed.

(** The address loop: an address handed out within the granted turns. *)
Lemma new_ue_ip_spec {R} turns ikeUe w :
  match (new_ue_ip turns ikeUe : H R _) w with
  | (Next (Some ip), w') =>
      ip ≠ cfg_IPSecGatewayAddr cfg ∧ AllocatedUEIPAddress w !! ip = None ∧
      ∃ pool, w' = w <| IPSecInnerIPPool := pool |> <| AllocatedUEIPAddress ::= <[ip := ikeUe]> |>
  | (Next None, w') => ∃ pool, w' = w <| IPSecInnerIPPool := pool |> ∧ ip_alloc pool = None
  | (Return _, _) => False
  | (Panicked e, w') => e = out_of_turns ∧ ∃ pool, w' = w <| IPSecInnerIPPool := pool |>
  end.
Proof.
  revert w. induction turns as [|turns IH]; intros w.
  { cbn. split; [done|]. exists (IPSecInnerIPPool w). by destruct w. }
  rewrite new_ue_ip_S, run_bind. cbn [gets].
  destruct (ip_alloc (IPSecInnerIPPool w)) as [[ip pool]|] eqn:Ha.
  2:{ cbn. exists (IPSecInnerIPPool w). split; [by destruct w|done]. }
  rewrite run_bind. cbn [modify]. specialize (IH (w <| IPSecInnerIPPool := pool |>)).
  assert (match (new_ue_ip turns ikeUe : H R _) (w <| IPSecInnerIPPool := pool |>) with
    | (Next (Some ip), w') =>
        ip ≠ cfg_IPSecGatewayAddr cfg ∧ AllocatedUEIPAddress w !! ip = None ∧
        ∃ pool, w' = w <| IPSecInnerIPPool := pool |> <| AllocatedUEIPAddress ::= <[ip := ikeUe]> |>
    | (Next None, w') => ∃ pool, w' = w <| IPSecInnerIPPool := pool |> ∧ ip_alloc pool = None
    | (Return _, _) => False
    | (Panicked e, w') => e = out_of_turns ∧ ∃ pool, w' = w <| IPSecInnerIPPool := pool |>
    end) as IH'.
  { destruct (new_ue_ip turns ikeUe _) as [[[ip'|]|?|?] w'].
    - destruct IH as (? & ? & p & ->). repeat split; try done. by exists p.
    - destruct IH as (p & -> & ?). by exists p.
    - done.
    - destruct IH as (? & p & ->). split; [done|]. by exists p. }
  clear IH. case_decide as Hg; [done|]. rewrite run_bind. cbn [gets].
  destruct (AllocatedUEIPAddress _ !! ip) as [x|] eqn:Hx; [done|].
  cbn. split; [done|]. split; [done|]. by exists pool.
Qed.

(** A UE's inner address is never the gateway's, was not assigned to another
    UE, is recorded for this UE, and no other assignment changes; without a free address
    the assignments are unchanged. *)
Theorem NewIPsecInnerUEIP_fresh (R : Type) ikeUe w :
  match (NewIPsecInnerUEIP ikeUe : H R _) w with
  | (Next (Some ip), w') =>
      ip ≠ cfg_IPSecGatewayAddr cfg ∧ AllocatedUEIPAddress w !! ip = None ∧
      AllocatedUEIPAddress w' = <[ip := ikeUe]> (AllocatedUEIPAddress w)
  | (_, w') => AllocatedUEIPAddress w' = AllocatedUEIPAddress w
  end.
Proof.
  unfold NewIPsecInnerUEIP. pose proof (new_ue_ip_spec (R := R) retry_limit ikeUe w) as Hs.
  destruct (new_ue_ip _ _ w) as [[[ip|]|?|?] w'].
  - destruct Hs as (? & ? & p & ->). done.
  - by destruct Hs as (p & -> & _).
  - done.
  - by destruct Hs as (_ & p & ->).
Qed.

End Fresh.

(** ** Frames

    [keeps f]: a component of the world is the same before and after. *)
Definition keeps `{E : Env} {A} (f : World → A) (w w' : World) : Prop := f w' = f w.
#[global] Instance keeps_preorder `{E : Env} {A} (f : World → A) : PreOrder (keeps f).
Proof. unfold keeps. split; [done|]. intros ? ? ? H1 H2. congruence. Qed.

(** A field of an IKE SA object, as a component of the world. *)
Definition sa_field `{E : Env} {A} (g : IKESecurityAssociation → A) (r : ref) (w : World) : option A :=
  g <$> h_sa w !! r.

Lemma keeps_upd_sa `{E : Env} {R A} (g : IKESecurityAssociation → A) r r' f :
  (∀ v, g (f v) = g v) → stable (keeps (sa_field g r)) (upd_sa r' f : H R unit).
Proof.
  intros Hf w. unfold keeps, sa_field. cbn -[alter].
  destruct (decide (r = r')) as [->|].
  - rewrite lookup_alter_eq. destruct (h_sa w !! r'); cbn; by rewrite ?Hf.
  - by rewrite lookup_alter_ne.
Qed.
#[export] Hint Extern 1 (stable (keeps (sa_field _ _)) (upd_sa _ _)) => apply keeps_upd_sa; reflexivity : go_rules.

(** Decomposition of a handler down to updates that do not touch the component. *)
Ltac keeps_step :=
  first [ solve [auto with go_rules nocore]
        | apply stable_modify; intros ?; reflexivity
        | stable_step
        | progress unfold get_sa, get_child, get_ike, get_ran, get_pdu, get_temp, get_amf,
            upd_child, upd_ike, upd_ran, upd_pdu, upd_temp, upd_amf, new_child, new_ike,
            new_ran, new_pdu, new_temp, new_amf, fresh_ref, do_io, draw, range_map, SendNgapEvt, SendIkeEvt,
            try_io
        | progress unfold upd_sa ].
Ltac keeps_auto := repeat keeps_step.

(** Components the loops over draws and addresses do not touch. *)
Class Outside `{E : Env} {A} (f : World → A) : Prop := {
  outside_draws w n : f (w <| draws := n |>) = f w;
  outside_pool w p : f (w <| IPSecInnerIPPool := p |>) = f w;
  outside_ueip w m : f (w <| AllocatedUEIPAddress := m |>) = f w;
  outside_trace w t : f (w <| trace := t |>) = f w;
  outside_ifaces w m : f (w <| XfrmIfaces := m |>) = f w;
  outside_child w m : f (w <| h_child := m |>) = f w;
}.
#[export] Hint Extern 1 (Outside _) => constructor; intros; reflexivity : typeclass_instances.

Lemma new_ue_ip_keeps `{E : Env} {R A} (f : World → A) `{!Outside f} turns u :
  stable (keeps f) (new_ue_ip turns u : H R (option bytes)).
Proof.
  induction turns as [|turns IH]; [exact (stable_panic _ _)|]. cbn [new_ue_ip].
  repeat (stable_step || apply IH); intros w; unfold keeps; cbn; [apply outside_pool|apply outside_ueip].
Qed.

Lemma DeleteChildSAXfrm_keeps `{E : Env} {A} (f : World → A) `{!Outside f} c :
  stable (keeps f) (DeleteChildSAXfrm c).
Proof.
  unfold DeleteChildSAXfrm, delete_iface, try_io, get_child, do_io, upd_child.
  repeat stable_step; intros w; unfold keeps; cbn;
    apply outside_trace || apply outside_ifaces || apply outside_child.
Qed.
#[export] Hint Extern 1 (stable (keeps _) (new_ue_ip _ _)) =>
  apply new_ue_ip_keeps; typeclasses eauto : go_rules.
#[export] Hint Extern 1 (stable (keeps _) (DeleteChildSAXfrm _)) =>
  apply DeleteChildSAXfrm_keeps; typeclasses eauto : go_rules.

(** Every entry of a map is visited by a range over it, whatever the order. *)
Lemma elem_of_range `{E : Env} `{!EnvLaws} `{Countable K} {A} n (m : gmap K A) p :
  p ∈ (range_order _ n (map_to_list m)).*2 ↔ ∃ k, m !! k = Some p.
Proof.
  rewrite list_elem_of_fmap. split.
  - intros ([k p'] & -> & Hl). exists k. rewrite range_order_perm in Hl. by apply elem_of_map_to_list in Hl.
  - intros [k Hk]. exists (k, p). split; [done|]. rewrite range_order_perm. by apply elem_of_map_to_list.
Qed.

(** ** AMF selection *)
Section Selection.
Context `{E : Env} `{!EnvLaws}.
Implicit Types w : World.

Definition amf_matches w (guami : option GUAMI) (plmn : option bytes) (r : ref) : Prop :=
  match h_amf w !! r with
  | Some a =>
      guami_served (default [] (ServedGUAMIList a)) guami = true ∨
      ∃ p, plmn = Some p ∧ p ∈ default [] (PLMNSupportList a)
  | None => False
  end.
#[global] Instance amf_matches_dec w guami plmn r : Decision (amf_matches w guami plmn r).
Proof.
  unfold amf_matches. destruct (h_amf w !! r) as [a|]; [|apply _].
  apply or_dec; [apply _|]. destruct plmn as [p|]; [|by right; intros (p & ? & _)].
  destruct (decide (p ∈ default [] (PLMNSupportList a))) as [Hp|Hp]; [left; by exists p|right].
  intros (p' & [= <-] & ?). done.
Defined.

(** The AMFs of the pool have completed the NG setup. *)
Definition amf_ready w (r : ref) : Prop :=
  ∃ a, h_amf w !! r = Some a ∧ is_Some (ServedGUAMIList a) ∧ is_Some (PLMNSupportList a).

Lemma amf_scan_spec {R} w guami plmn (l : list (string * ref)) d :
  Forall (amf_ready w) l.*2 →
  (amf_scan l guami plmn d : H R _) w =
    (Next (head (filter (amf_matches w guami plmn) l.*2),
           match d with Some r => Some r | None => head l.*2 end), w).
Proof.
  revert d. induction l as [|[k r] l IH]; intros d Hl; [by destruct d|].
  change (((k, r) :: l).*2) with (r :: l.*2) in *.
  apply Forall_cons in Hl as [(a & Ha & [sg Hsg] & [sp Hsp]) Hl]. cbn [amf_scan].
  rewrite run_bind, (run_get_amf w r a Ha).
  unfold FindAvalibleAMFByCompareGUAMI. rewrite Hsg. cbn [lift]. rewrite run_bind. cbn [mret prog_ret].
  rewrite filter_cons.
  assert (amf_matches w guami plmn r ↔ guami_served sg guami = true ∨ ∃ p, plmn = Some p ∧ p ∈ sp) as Hm.
  { unfold amf_matches. by rewrite Ha, Hsg, Hsp. }
  destruct (guami_served sg guami) eqn:Hg.
  { rewrite decide_True by (apply Hm; by left). by destruct d. }
  unfold FindAvalibleAMFByCompareSelectedPLMNId. rewrite Hsp.
  assert ((lift (match plmn with None => Ok false | Some p => Ok (bool_decide (p ∈ sp)) end)
    : H R bool) w = (Next (bool_decide (amf_matches w guami plmn r)), w)) as Hp.
  { destruct plmn as [p|]; unfold lift, mret, prog_ret; do 2 f_equal.
    - apply bool_decide_ext. naive_solver.
    - symmetry. apply bool_decide_eq_false. naive_solver. }
  rewrite run_bind, Hp. destruct (decide (amf_matches w guami plmn r)) as [Hy|Hn].
  { rewrite bool_decide_true by done. by destruct d. }
  rewrite bool_decide_false, IH by done. by destruct d.
Qed.

(** C30. AMF selection over a pool whose AMFs have completed the NG setup, for
    every iteration order: it selects an AMF of the pool that serves the UE's GUAMI or
    PLMN whenever there is one, otherwise some AMF of the pool, and none only when the
    pool is empty. *)
Theorem AMFSelection_spec (R : Type) w guami plmn :
  (∀ k r, AMFPool w !! k = Some r → amf_ready w r) →
  ∃ o w', (AMFSelection guami plmn : H R _) w = (Next o, w') ∧
    match o with
    | Some r => (∃ k, AMFPool w !! k = Some r) ∧
        ((∃ k r', AMFPool w !! k = Some r' ∧ amf_matches w guami plmn r') → amf_matches w guami plmn r)
    | None => AMFPool w = ∅
    end.
Proof.
  intros Hready. unfold AMFSelection. rewrite run_bind. cbn [gets]. rewrite run_bind, run_range_map, run_bind.
  set (w' := w <| draws := _ |>). set (l := range_order _ _ _).
  pose proof (elem_of_range (draws w) (AMFPool w)) as Hin. fold l in Hin.
  assert (Forall (amf_ready w') l.*2) as Hf.
  { apply Forall_forall. intros r Hr. apply Hin in Hr as [k Hk]. exact (Hready k r Hk). }
  assert (∀ r, amf_matches w guami plmn r ↔ amf_matches w' guami plmn r) as Hmm by done.
  assert (∀ r, head (filter (amf_matches w' guami plmn) l.*2) = Some r →
     (∃ k, AMFPool w !! k = Some r) ∧ amf_matches w guami plmn r) as Hhead.
  { intros r Hr%head_Some_elem_of. apply list_elem_of_filter in Hr as [? Hr]. by apply Hin in Hr. }
  rewrite (amf_scan_spec (R := R) w' guami plmn l None Hf).
  destruct (head (filter _ _)) as [r|] eqn:Hr.
  { do 2 eexists. split; [done|]. destruct (Hhead r eq_refl). split; [done|]. by intros _. }
  do 2 eexists. split; [done|]. apply head_None in Hr.
  destruct (head l.*2) as [r|] eqn:Hl.
  - split; [by apply Hin, head_Some_elem_of|]. intros (k & r' & Hk & Hmr). exfalso.
    assert (r' ∈ filter (amf_matches w' guami plmn) l.*2) as Hx.
    { apply list_elem_of_filter. split; [done|]. apply Hin. by exists k. }
    rewrite Hr in Hx. by apply elem_of_nil in Hx.
  - apply head_None in Hl. apply map_empty. intros k. apply eq_None_not_Some. intros [r Hk].
    assert (r ∈ l.*2) as Hx by (apply Hin; by exists k). rewrite Hl in Hx. by apply elem_of_nil in Hx.
Qed.

End Selection.

(** ** Removal of a RAN UE *)
Section RemoveRan.
Context `{E : Env} `{!EnvLaws}.
Implicit Types w : World.

(** The TEID of a session, when it has a GTP connection. *)
Definition teid_of w (p : ref) : option Z :=
  s ← h_pdu w !! p; g ← GTPConnInfo s; Some (IncomingTEID g).

Definition free_teids (ts : list Z) w : World := foldl (λ w t, DeleteTEID t w) w ts.

Lemma free_teids_spec ts w :
  (∀ t, AllocatedUETEID (free_teids ts w) !! t = if decide (t ∈ ts) then None else AllocatedUETEID w !! t) ∧
  id_used (TEIDGenerator (free_teids ts w)) = id_used (TEIDGenerator w) ∖ list_to_set ts ∧
  h_pdu (free_teids ts w) = h_pdu w ∧ RANUePool (free_teids ts w) = RANUePool w ∧
  NGAPIdToIKESPI (free_teids ts w) = NGAPIdToIKESPI w ∧ IKESPIToNGAPId (free_teids ts w) = IKESPIToNGAPId w ∧
  RANUENGAPIDGenerator (free_teids ts w) = RANUENGAPIDGenerator w ∧ trace (free_teids ts w) = trace w.
Proof.
  revert w. induction ts as [|x ts IH]; intros w.
  { split; [|split; [|done]].
    - intros t. by rewrite decide_False by apply not_elem_of_nil.
    - cbn. apply leibniz_equiv. set_solver. }
  destruct (IH (DeleteTEID x w)) as (Ht & Hu & ? & ? & ? & ? & ? & ?).
  change (free_teids (x :: ts) w) with (free_teids ts (DeleteTEID x w)).
  split; [|split; [|done]].
  - intros t. rewrite Ht. destruct (decide (t ∈ ts)) as [Hin|Hin].
    + by rewrite decide_True by (by right).
    + cbn. destruct (decide (t = x)) as [->|Hne].
      * by rewrite lookup_delete_eq, decide_True by left.
      * rewrite lookup_delete_ne, decide_False by (done || set_solver). done.
  - rewrite Hu. cbn. rewrite id_free_used. set_solver.
Qed.

Lemma free_sessions_run {R} (l : list (Z * ref)) w :
  Forall (λ p, is_Some (teid_of w p)) l.*2 →
  (for_each l (λ '(_, p),
    s ← get_pdu (Some p);
    g ← deref (GTPConnInfo s);
    modify (DeleteTEID (IncomingTEID g))) : H R unit) w =
  (Next tt, free_teids (omap (teid_of w) l.*2) w).
Proof.
  revert w. induction l as [|[k p] l IH]; intros w Hl; [done|].
  change (((k, p) :: l).*2) with (p :: l.*2) in *. apply Forall_cons in Hl as [[t Ht] Hl].
  cbn [for_each omap list_omap]. rewrite Ht. rewrite run_bind.
  unfold teid_of in Ht. destruct (h_pdu w !! p) as [s|] eqn:Hs; [|done]. cbn in Ht.
  destruct (GTPConnInfo s) as [g|] eqn:Hg; [|done]. cbn in Ht. injection Ht as <-.
  rewrite run_bind, (run_get_pdu w p s Hs). rewrite Hg. cbn [deref]. rewrite run_bind.
  cbn [mret prog_ret modify]. apply (IH (DeleteTEID (IncomingTEID g) w)). done.
Qed.

Lemma DetachAMF_run {R} w r u :
  h_ran w !! r = Some u → ∃ amfs, (DetachAMF r : H R unit) w = (Next tt, w <| h_amf := amfs |>).
Proof.
  intros Hu. unfold DetachAMF. rewrite run_bind, (run_get_ran w r u Hu).
  destruct (ru_AMF u) as [a|]; [by eexists|]. exists (h_amf w). by destruct w.
Qed.

(** C23. Removal of a RAN UE whose sessions have GTP connections: it returns; the
    UE leaves the pool and the NGAP-to-IKE map, exactly the TEIDs of its sessions leave
    the TEID table and become free again, and only the error result depends on whether the
    TCP connection closed. *)
Theorem RanUe_Remove_frees w r u :
  h_ran w !! r = Some u →
  (∀ id p, PduSessionList u !! id = Some p → is_Some (teid_of w p)) →
  ∃ err w', RanUe_Remove r w = (Next err, w') ∧
    (err = None ∨ is_Some (TCPConnection u)) ∧
    RANUePool w' = delete (RanUeNgapId u) (RANUePool w) ∧
    NGAPIdToIKESPI w' = delete (RanUeNgapId u) (NGAPIdToIKESPI w) ∧
    IKESPIToNGAPId w' = IKESPIToNGAPId w ∧
    RANUENGAPIDGenerator w' = RANUENGAPIDGenerator w ∧
    (∀ id p t, PduSessionList u !! id = Some p → teid_of w p = Some t →
       AllocatedUETEID w' !! t = None ∧ t ∉ id_used (TEIDGenerator w')) ∧
    (∀ t, (∀ id p, PduSessionList u !! id = Some p → teid_of w p ≠ Some t) →
       AllocatedUETEID w' !! t = AllocatedUETEID w !! t).
Proof.
  intros Hu Hs. unfold RanUe_Remove.
  destruct (DetachAMF_run (R := error) w r u Hu) as (amfs & H1). set (w1 := w <| h_amf := amfs |>) in *.
  rewrite run_bind, H1, run_bind, (run_get_ran w1 r u) by done.
  rewrite run_bind. cbn [modify]. set (w2 := DeleteRanUe (RanUeNgapId u) w1).
  rewrite run_bind, run_range_map.
  set (w3 := w2 <| draws := _ |>). set (l := range_order _ _ _).
  pose proof (elem_of_range (draws w2) (PduSessionList u)) as Hin. fold l in Hin.
  assert (∀ p, teid_of w3 p = teid_of w p) as Hteid by done.
  rewrite run_bind, free_sessions_run.
  2:{ apply Forall_forall. intros p Hp. rewrite Hteid. apply Hin in Hp as [id Hid]. by eapply Hs. }
  destruct (free_teids_spec (omap (teid_of w3) l.*2) w3) as (Ha & Hused & _ & Hp1 & Hp2 & Hp3 & Hp4 & _).
  set (w4 := free_teids _ w3) in *.
  assert (∀ t, t ∈ omap (teid_of w3) l.*2 ↔ ∃ id p, PduSessionList u !! id = Some p ∧ teid_of w p = Some t) as Hts.
  { intros t. rewrite list_elem_of_omap. setoid_rewrite Hin. setoid_rewrite Hteid. naive_solver. }
  assert (∃ err w', (match TCPConnection u with
      | Some conn => ok ← do_io (IoTcpClose conn); mret (if (ok : bool) then None else Some "Close TCP conn error"%string)
      | None => mret None end : H error error) w4 = (Next err, w') ∧ (err = None ∨ is_Some (TCPConnection u)) ∧
      (w' = w4 ∨ ∃ x, w' = w4 <| trace ::= cons x |>)) as (err & w' & -> & Herr & Hw').
  { destruct (TCPConnection u) as [conn|]; [|by eauto 10].
    rewrite run_bind, run_do_io. eexists _, _. split; [done|]. split; [by right; eauto|]. right. by eexists. }
  exists err, w'. split; [done|]. split; [done|].
  assert (RANUePool w' = RANUePool w4 ∧ NGAPIdToIKESPI w' = NGAPIdToIKESPI w4 ∧
    IKESPIToNGAPId w' = IKESPIToNGAPId w4 ∧ RANUENGAPIDGenerator w' = RANUENGAPIDGenerator w4 ∧
    AllocatedUETEID w' = AllocatedUETEID w4 ∧ TEIDGenerator w' = TEIDGenerator w4)
    as (-> & -> & -> & -> & -> & ->) by (destruct Hw' as [->|[x ->]]; done).
  rewrite Hp1, Hp2, Hp3, Hp4. repeat split.
  - rewrite Ha, decide_True; [done|]. apply Hts. eauto.
  - rewrite Hused. apply not_elem_of_difference. right. apply elem_of_list_to_set, Hts. eauto.
  - intros t Ht. rewrite Ha, decide_False; [done|]. rewrite Hts. naive_solver.
Qed.

End RemoveRan.

(** ** Child SAs and removal of an IKE UE *)
Section Children.
Context `{E : Env}.
Implicit Types w : World.

(** Removing the kernel state of child SAs changes only the effects, the interface
    table and the recorded state lists. *)
Definition only_xfrm w w' : Prop :=
  ∃ t x h, w' = w <| trace := t |> <| XfrmIfaces := x |> <| h_child := h |> ∧
    InboundSPI <$> h = InboundSPI <$> h_child w.

#[global] Instance only_xfrm_preorder : PreOrder only_xfrm.
Proof.
  split.
  - intros w. exists (trace w), (XfrmIfaces w), (h_child w). by destruct w.
  - intros w1 w2 w3 (t & x & h & -> & Hh) (t' & x' & h' & -> & Hh'). exists t', x', h'.
    split; [done|]. cbn in Hh'. congruence.
Qed.

Lemma only_xfrm_io {R} x : stable only_xfrm (do_io x : H R bool).
Proof. intros w. exists (x :: trace w), (XfrmIfaces w), (h_child w). by destruct w. Qed.

Lemma only_xfrm_upd {R} c f : (∀ v, InboundSPI (f v) = InboundSPI v) →
  stable only_xfrm (upd_child c f : H R unit).
Proof.
  intros Hf w. exists (trace w), (XfrmIfaces w), (alter f c (h_child w)). split; [by destruct w|].
  apply map_eq. intros k. rewrite !lookup_fmap. destruct (decide (k = c)) as [->|].
  - rewrite lookup_alter_eq. destruct (h_child w !! c); cbn; by rewrite ?Hf.
  - by rewrite lookup_alter_ne.
Qed.

Lemma only_xfrm_ifaces {R} f :
  stable only_xfrm (modify (λ w, w <| XfrmIfaces ::= f |>) : H R unit).
Proof. intros w. exists (trace w), (f (XfrmIfaces w)), (h_child w). by destruct w. Qed.

Lemma DeleteChildSAXfrm_frame c : stable only_xfrm (DeleteChildSAXfrm c).
Proof.
  unfold DeleteChildSAXfrm, delete_iface, try_io, get_child.
  repeat (stable_step || apply only_xfrm_io || apply only_xfrm_ifaces || (apply only_xfrm_upd; done)).
Qed.

Lemma DeleteChildSA_run w u c ch :
  h_child w !! c = Some ch →
  match (call (DeleteChildSA u c) : H error error) w with
  | (Next None, w') => ∃ w1, only_xfrm w w1 ∧
      w' = w1 <| h_ike ::= alter (λ u, u <| N3IWFChildSecurityAssociation ::= delete (InboundSPI ch) |>) u |>
  | (Next (Some _), w') | (Panicked _, w') => only_xfrm w w'
  | (Return _, _) => False
  end.
Proof.
  intros Hc. unfold DeleteChildSA. rewrite run_call, run_bind, run_call.
  pose proof (DeleteChildSAXfrm_frame c w) as Hf.
  destruct (DeleteChildSAXfrm c w) as [r w1] eqn:Hr. cbn in Hf.
  assert (∃ ch', h_child w1 !! c = Some ch' ∧ InboundSPI ch' = InboundSPI ch) as (ch' & Hc' & Hspi).
  { destruct Hf as (t & x & h & -> & Hh). cbn. apply (f_equal (lookup c)) in Hh.
    rewrite !lookup_fmap, Hc in Hh. destruct (h !! c) as [ch'|]; [|done]. exists ch'. split; [done|].
    by injection Hh. }
  assert (∀ o, match
      (match o with
       | Some e => ret (Some e)
       | None => c0 ← get_child c;
           upd_ike u (λ u, u <| N3IWFChildSecurityAssociation ::= delete (InboundSPI c0) |>);; mret None
       end : H error error) w1 with
      | (Next (Some e), w') | (Return (Some e), w') => w' = w1
      | (Next None, w') | (Return None, w') =>
          w' = w1 <| h_ike ::= alter (λ u, u <| N3IWFChildSecurityAssociation ::= delete (InboundSPI ch) |>) u |>
      | (Panicked _, _) => False
      end) as Hrest.
  { intros [e|]; [done|]. rewrite run_bind, (run_get_child w1 c ch' Hc'), Hspi. done. }
  destruct r as [o|o|e]; cbn; [specialize (Hrest o)..|done].
  all: destruct (_ w1) as [[[?|]|[?|]|?] w']; subst; cbn; eauto; done.
Qed.

(** The child SAs of a UE are recorded under their inbound SPI. *)
Definition children_ok w (m : gmap Z ref) : Prop :=
  ∀ spi c, m !! spi = Some c → ∃ ch, h_child w !! c = Some ch ∧ InboundSPI ch = spi.

(** Only this UE's child table changes, by [f]. *)
Definition children_updated (u : ref) (f : gmap Z ref → gmap Z ref) (hs hs' : gmap ref N3IWFIkeUe) : Prop :=
  (∀ ue, hs !! u = Some ue → hs' !! u = Some (ue <| N3IWFChildSecurityAssociation ::= f |>)) ∧
  (∀ u', u' ≠ u → hs' !! u' = hs !! u').

Lemma children_updated_trans u f g h1 h2 h3 :
  children_updated u f h1 h2 → children_updated u g h2 h3 → children_updated u (λ m, g (f m)) h1 h3.
Proof.
  intros [A1 A2] [B1 B2]. split.
  - intros ue Hu. by rewrite (B1 _ (A1 _ Hu)).
  - intros u' Hne. by rewrite B2, A2.
Qed.

Lemma children_updated_alter u f hs :
  children_updated u f hs (alter (λ u, u <| N3IWFChildSecurityAssociation ::= f |>) u hs).
Proof.
  split; [intros ue Hu; by rewrite lookup_alter_eq, Hu|intros u' Hne; by rewrite lookup_alter_ne].
Qed.

Lemma children_in_heap w w' (l : list (Z * ref)) :
  InboundSPI <$> h_child w' = InboundSPI <$> h_child w →
  (∀ spi c, (spi, c) ∈ l → ∃ ch, h_child w !! c = Some ch ∧ InboundSPI ch = spi) →
  (∀ spi c, (spi, c) ∈ l → ∃ ch, h_child w' !! c = Some ch ∧ InboundSPI ch = spi).
Proof.
  intros Hh Hl spi c Hin. destruct (Hl spi c Hin) as (ch & Hc & Hs).
  apply (f_equal (lookup c)) in Hh. rewrite !lookup_fmap, Hc in Hh.
  destruct (h_child w' !! c) as [ch2|]; [|done]. exists ch2. split; [done|]. injection Hh. congruence.
Qed.

Lemma delete_children_run l w u :
  (∀ spi c, (spi, c) ∈ l → ∃ ch, h_child w !! c = Some ch ∧ InboundSPI ch = spi) →
  match delete_children u l w with
  | (Next _, w') => ∃ w1 hs, only_xfrm w w1 ∧ w' = w1 <| h_ike := hs |> ∧
      children_updated u (λ m, foldl (λ m k, delete k m) m l.*1) (h_ike w) hs
  | (Return (Some _), w') | (Panicked _, w') => True
  | (Return None, _) => False
  end.
Proof.
  revert w. induction l as [|[spi c] l IH]; intros w Hl.
  { cbn. exists w, (h_ike w). split; [done|]. split; [by destruct w|].
    split; [|done]. intros ue ->. by destruct ue. }
  destruct (Hl spi c) as (ch & Hc & Hspi); [by left|]. cbn [delete_children]. rewrite run_bind.
  pose proof (DeleteChildSA_run w u c ch Hc) as Hd.
  destruct (call (DeleteChildSA u c) w) as [[[e|]|o|e] w1]; [done| |done|done].
  destruct Hd as (w2 & (t & x & h & -> & Hh) & ->).
  match goal with |- context [delete_children u l ?w'] => specialize (IH w'); set (w1 := w') in * end.
  assert (∀ spi c, (spi, c) ∈ l → ∃ ch, h_child w1 !! c = Some ch ∧ InboundSPI ch = spi) as Hl1.
  { apply (children_in_heap w); [done|]. intros. apply Hl. by right. }
  specialize (IH Hl1). destruct (delete_children u l w1) as [[a|[e|]|e] w']; try done.
  destruct IH as (w3 & hs & (t' & x' & h' & -> & Hh') & -> & Hu).
  exists (w <| trace := t' |> <| XfrmIfaces := x' |> <| h_child := h' |>), hs. split; [|split; [done|]].
  - exists t', x', h'. split; [done|]. cbn in Hh'. congruence.
  - assert (children_updated u (delete spi) (h_ike w) (h_ike w1)) as H1.
    { rewrite <- Hspi. apply children_updated_alter. }
    exact (children_updated_trans u _ _ _ _ _ H1 Hu).
Qed.

Lemma foldl_delete_lookup (ks : list Z) (m : gmap Z ref) k :
  foldl (λ m k, delete k m) m ks !! k = if decide (k ∈ ks) then None else m !! k.
Proof.
  revert m. induction ks as [|k' ks IH]; intros m; cbn.
  { by rewrite decide_False by apply not_elem_of_nil. }
  rewrite IH. destruct (decide (k ∈ ks)) as [Hk|Hk].
  { by rewrite decide_True by by right. }
  destruct (decide (k = k')) as [->|Hne].
  - by rewrite lookup_delete_eq, decide_True by left.
  - rewrite lookup_delete_ne, decide_False by (done || set_solver). done.
Qed.

Lemma delete_all_keys `{!EnvLaws} n (m : gmap Z ref) :
  foldl (λ m k, delete k m) m (range_order _ n (map_to_list m)).*1 = ∅.
Proof.
  apply map_empty. intros k. rewrite foldl_delete_lookup. case_decide as Hk; [done|].
  apply eq_None_not_Some. intros [c Hc]. apply Hk. apply list_elem_of_fmap.
  exists (k, c). split; [done|]. rewrite range_order_perm. by apply elem_of_map_to_list.
Qed.

(** C22. Removal of an IKE UE whose child SAs are recorded under their inbound
    SPIs: when it reports success, the IKE SA, the UE and its SPI-to-NGAP entry have left
    the pools, its inner address is unassigned and returned to the address pool, and its
    child table is empty. The context's ChildSA table and the NGAP-to-SPI table keep
    their entries, and no other UE changes. *)
Theorem IkeUe_Remove_ok `{!EnvLaws} w u ue sar sa :
  h_ike w !! u = Some ue → N3IWFIKESecurityAssociation ue = Some sar → h_sa w !! sar = Some sa →
  children_ok w (N3IWFChildSecurityAssociation ue) →
  result (IkeUe_Remove u) w = Some None →
  let w' := final (IkeUe_Remove u) w in
  IKESA w' = delete (LocalSPI sa) (IKESA w) ∧
  IKEUePool w' = delete (LocalSPI sa) (IKEUePool w) ∧
  IKESPIToNGAPId w' = delete (LocalSPI sa) (IKESPIToNGAPId w) ∧
  AllocatedUEIPAddress w' = delete (IPSecInnerIP ue) (AllocatedUEIPAddress w) ∧
  To4 (IPSecInnerIP ue) ∉ ip_used (IPSecInnerIPPool w') ∧
  h_ike w' !! u = Some (ue <| N3IWFChildSecurityAssociation := ∅ |>) ∧
  (∀ u', u' ≠ u → h_ike w' !! u' = h_ike w !! u') ∧
  ChildSA w' = ChildSA w ∧ NGAPIdToIKESPI w' = NGAPIdToIKESPI w.
Proof.
  intros Hu Hsar Hsa Hch. unfold result, final, IkeUe_Remove.
  rewrite run_bind, (run_get_ike w u ue Hu), run_bind, Hsar, (run_get_sa w sar sa Hsa).
  rewrite run_bind. assert (∃ t, when (IsUseDPD sa) (do_io (IoSaClosed (LocalSPI sa));; mret tt) w =
    (Next tt : ctl error unit, w <| trace := t |>)) as [t ->].
  { destruct (IsUseDPD sa); [by eexists|]. exists (trace w). by destruct w. }
  rewrite run_bind. cbn [modify]. rewrite run_bind. cbn [modify]. rewrite run_bind. cbn [gets].
  set (w1 := DeleteInternalUEIPAddr _ _).
  destruct (ip_release (To4 (IPSecInnerIP ue)) (IPSecInnerIPPool w1)) as [pool|] eqn:Hrel; [|done].
  rewrite run_bind. cbn [modify]. set (w2 := w1 <| IPSecInnerIPPool := pool |>).
  rewrite run_bind, run_range_map. set (w3 := w2 <| draws := _ |>). set (l := range_order _ _ _).
  rewrite run_bind. pose proof (delete_children_run l w3 u) as Hd.
  destruct (delete_children u l w3) as [[a|[e|]|e] w4]; try done; cbn; intros _.
  2:{ exfalso. apply Hd. intros spi c Hin. apply Hch. unfold l in Hin. rewrite range_order_perm in Hin.
      by apply elem_of_map_to_list in Hin. }
  destruct Hd as (w5 & hs & (t' & x & h & -> & _) & -> & [Hh1 Hh2]).
  { intros spi c Hin. apply Hch. unfold l in Hin. rewrite range_order_perm in Hin.
    by apply elem_of_map_to_list in Hin. }
  cbn. repeat split; try done.
  - rewrite (ip_release_used _ _ _ Hrel). set_solver.
  - change (hs !! u = Some (ue <| N3IWFChildSecurityAssociation := ∅ |>)).
    rewrite (Hh1 ue Hu). unfold update. cbn. unfold l. by rewrite delete_all_keys.
Qed.

Lemma CreateHalfChildSA_run {R} w u msgID spi session :
  (CreateHalfChildSA u msgID spi session : H R unit) w =
    (Next tt, w <| next_ref := S (next_ref w) |>
      <| h_child ::= <[next_ref w := zero_Child <| InboundSPI := spi |> <| PDUSessionIds := [session] |>
           <| c_IkeUE := Some u |>]> |>
      <| h_ike ::= alter (λ u, u <| TemporaryExchangeMsgIDChildSAMapping ::= <[msgID := next_ref w]> |>) u |>).
Proof. done. Qed.

(** Creation of a child SA in two steps: after [CreateHalfChildSA] with
    message ID [msgID], [CompleteChildSA] with a proposal for which a key structure
    exists returns the child SA with its inbound and outbound SPI and its session, records
    it under the inbound SPI both at the UE and in the context, and consumes the
    message ID, so that a second completion is refused. *)
Theorem half_then_complete (R : Type) w u ue msgID spi session outbound p ps k :
  h_ike w !! u = Some ue → new_child_sa_key p = Some k →
  let w1 := final (CreateHalfChildSA u msgID spi session : H R unit) w in
  ∃ w2, CompleteChildSA u msgID outbound (Some (p :: ps)) w1 = (Next (Some (next_ref w)), w2) ∧
    h_child w2 !! next_ref w = Some (zero_Child <| InboundSPI := spi |> <| PDUSessionIds := [session] |>
      <| c_IkeUE := Some u |> <| OutboundSPI := outbound |> <| c_ChildSAKey := Some k |>) ∧
    ChildSA w2 = <[spi := next_ref w]> (ChildSA w) ∧
    h_ike w2 !! u = Some (ue
      <| TemporaryExchangeMsgIDChildSAMapping := delete msgID (TemporaryExchangeMsgIDChildSAMapping ue) |>
      <| N3IWFChildSecurityAssociation := <[spi := next_ref w]> (N3IWFChildSecurityAssociation ue) |>) ∧
    result (CompleteChildSA u msgID outbound (Some (p :: ps))) w2 = Some None.
Proof.
  intros Hu Hk. cbn zeta. set (c0 := zero_Child <| InboundSPI := spi |> <| PDUSessionIds := [session] |>
      <| c_IkeUE := Some u |>).
  assert (∃ ue1, h_ike (final (CreateHalfChildSA u msgID spi session : H R unit) w) !! u = Some ue1 ∧
    ue1 = ue <| TemporaryExchangeMsgIDChildSAMapping ::= <[msgID := next_ref w]> |>) as (ue1 & Hu1 & E1).
  { eexists. split; [|done]. unfold final. rewrite CreateHalfChildSA_run. cbn -[alter].
    by rewrite lookup_alter_eq, Hu. }
  assert (h_child (final (CreateHalfChildSA u msgID spi session : H R unit) w) !! next_ref w = Some c0 ∧
    ChildSA (final (CreateHalfChildSA u msgID spi session : H R unit) w) = ChildSA w) as [Hc1 Ec1].
  { unfold final. rewrite CreateHalfChildSA_run. cbn -[alter]. by rewrite lookup_insert_eq. }
  set (w1 := final _ w) in *. unfold CompleteChildSA at 1.
  rewrite run_bind, (run_get_ike w1 u ue1 Hu1).
  assert (TemporaryExchangeMsgIDChildSAMapping ue1 !! msgID = Some (next_ref w)) as Hm.
  { rewrite E1. apply lookup_insert_eq. }
  rewrite Hm. clear Hm. subst ue1.
  unfold upd_ike, upd_child. do 3 (rewrite run_bind; cbn [modify]). rewrite Hk. rewrite run_bind.
  set (c1 := c0 <| OutboundSPI := outbound |> <| c_ChildSAKey := Some k |>).
  match goal with |- context [get_child _ ?x] => set (w2 := x) end.
  assert (h_child w2 !! next_ref w = Some c1) as Hc2.
  { cbn -[alter]. by rewrite !lookup_alter_eq, Hc1. }
  rewrite (run_get_child w2 _ c1 Hc2). do 2 (rewrite run_bind; cbn [modify]).
  match goal with |- context [mret _ ?x] => set (w3 := x) end.
  exists w3. split; [done|]. split; [done|]. split; [by cbn; rewrite Ec1|].
  assert (h_ike w3 !! u = Some (ue
      <| TemporaryExchangeMsgIDChildSAMapping := delete msgID (TemporaryExchangeMsgIDChildSAMapping ue) |>
      <| N3IWFChildSecurityAssociation := <[spi := next_ref w]> (N3IWFChildSecurityAssociation ue) |>)) as Hu3.
  { cbn -[alter]. rewrite !lookup_alter_eq, Hu1. cbn -[alter]. unfold update. cbn -[alter].
    by rewrite delete_insert_eq. }
  split; [done|]. unfold result, CompleteChildSA. rewrite run_bind, (run_get_ike w3 u _ Hu3). cbn.
  by rewrite lookup_delete_eq.
Qed.

End Children.

(** ** Applications to concrete states *)
#[local] Existing Instance toy.
#[local] Existing Instance toy_laws.

Definition toy_guami (plmn : bytes) : GUAMI := mkGUAMI plmn (mkBits [] 0) (mkBits [] 0) (mkBits [] 0).
(** Two AMFs; the second serves the PLMN [[2]]. *)
Definition amf_world : World :=
  world0 all_ok <| AMFPool := {[ "a" := 1%nat; "b" := 2%nat ]} |>
    <| h_amf := {[ 1%nat := init_AMF "a" None <| ServedGUAMIList := Some [toy_guami [1]] |> <| PLMNSupportList := Some [[1]] |>;
                   2%nat := init_AMF "b" None <| ServedGUAMIList := Some [toy_guami [2]] |> <| PLMNSupportList := Some [[2]] |> ]} |>.

Lemma AMFSelection_spec_witness :
  ∃ o w', (AMFSelection None (Some [2]) : H unit _) amf_world = (Next o, w') ∧
    match o with
    | Some r => (∃ k, AMFPool amf_world !! k = Some r) ∧
        ((∃ k r', AMFPool amf_world !! k = Some r' ∧ amf_matches amf_world None (Some [2]) r') →
         amf_matches amf_world None (Some [2]) r)
    | None => AMFPool amf_world = ∅
    end.
Proof.
  apply (AMFSelection_spec unit amf_world None (Some [2])).
  intros k r Hk. cbn in Hk. apply lookup_insert_Some in Hk as [[_ <-]|[_ Hk]].
  - unfold amf_ready. eexists. split; [vm_compute; reflexivity|]. by repeat split; eexists.
  - apply lookup_singleton_Some in Hk as [_ <-].
    eexists. split; [vm_compute; reflexivity|]. by repeat split; eexists.
Defined.

Definition ran_world : World :=
  world0 all_ok <| RANUePool := {[ 5 := 1%nat ]} |> <| NGAPIdToIKESPI := {[ 5 := 100 ]} |>
    <| AllocatedUETEID := {[ 9 := 1%nat ]} |> <| TEIDGenerator := [9] |>
    <| h_ran := {[ 1%nat := init_RanUe 5 3%nat <| PduSessionList := {[ 1 := 2%nat ]} |> ]} |>
    <| h_pdu := {[ 2%nat := mkPDU 1 None None (mkSNSSAI [1] None) None false false None None
                              (Some (mkGTP "10.0.0.9" "10.0.0.9:2152" 9 77)) [] ∅ ]} |>.

Lemma RanUe_Remove_frees_witness :
  ∃ err w', RanUe_Remove 1%nat ran_world = (Next err, w') ∧
    RANUePool w' = delete 5 (RANUePool ran_world) ∧ AllocatedUETEID w' !! 9 = None.
Proof.
  destruct (RanUe_Remove_frees ran_world 1%nat (init_RanUe 5 3%nat <| PduSessionList := {[ 1 := 2%nat ]} |>))
    as (err & w' & Hr & _ & Hp & _ & _ & _ & Ht & _).
  - reflexivity.
  - intros id p Hp. cbn in Hp. apply lookup_singleton_Some in Hp as [_ <-]. by eexists.
  - exists err, w'. split; [exact Hr|]. split; [exact Hp|].
    apply (Ht 1 2%nat 9); reflexivity.
Defined.

(** An IKE UE with one child SA. *)
Definition ike_ue : N3IWFIkeUe :=
  init_IkeUe <| IPSecInnerIP := [10; 0; 0; 2] |> <| N3IWFIKESecurityAssociation := Some 1%nat |>
    <| N3IWFChildSecurityAssociation := {[ 500 := 3%nat ]} |>.
Definition ike_world : World :=
  world0 all_ok <| IKESA := {[ 100 := 1%nat ]} |> <| IKEUePool := {[ 100 := 2%nat ]} |>
    <| ChildSA := {[ 500 := 3%nat ]} |> <| AllocatedUEIPAddress := {[ [10; 0; 0; 2] := 2%nat ]} |>
    <| IPSecInnerIPPool := [[10; 0; 0; 2]] |>
    <| h_sa := {[ 1%nat := zero_SA <| LocalSPI := 100 |> <| sa_IkeUE := Some 2%nat |> ]} |>
    <| h_ike := {[ 2%nat := ike_ue ]} |>
    <| h_child := {[ 3%nat := zero_Child <| InboundSPI := 500 |> ]} |>.

Lemma IkeUe_Remove_ok_witness :
  result (IkeUe_Remove 2%nat) ike_world = Some None ∧
  IKESA (final (IkeUe_Remove 2%nat) ike_world) = delete 100 {[ 100 := 1%nat ]} ∧
  ChildSA (final (IkeUe_Remove 2%nat) ike_world) = {[ 500 := 3%nat ]}.
Proof.
  pose proof (IkeUe_Remove_ok ike_world 2%nat ike_ue 1%nat
    (zero_SA <| LocalSPI := 100 |> <| sa_IkeUE := Some 2%nat |>)) as Hr.
  destruct Hr as (H1 & _ & _ & _ & _ & _ & _ & H2 & _).
  - reflexivity.
  - reflexivity.
  - reflexivity.
  - intros spi c Hc. cbn in Hc. apply lookup_singleton_Some in Hc as [<- <-]. by eexists.
  - vm_compute. reflexivity.
  - split; [vm_compute; reflexivity|]. split; [exact H1|exact H2].
Defined.

Definition esp_proposal : Proposal := mkProposal 1 TypeESP [0; 0; 0; 9] [toy_encr] [] [toy_integ] [] [].
Lemma half_then_complete_witness :
  ∃ w2, CompleteChildSA 2%nat 1 9 (Some [esp_proposal])
      (final (CreateHalfChildSA 2%nat 1 700 (-1) : H unit unit) ike_world) = (Next (Some 0%nat), w2) ∧
    ChildSA w2 = <[700 := 0%nat]> {[ 500 := 3%nat ]}.
Proof.
  destruct (half_then_complete unit ike_world 2%nat ike_ue 1 700 (-1) 9 esp_proposal []
    (mkChildKey ENCR_AES_CBC (Some AUTH_HMAC_SHA1_96) false [] [] [] [])) as (w2 & Hc & _ & Hp & _).
  - reflexivity.
  - reflexivity.
  - exists w2. split; [exact Hc|exact Hp].
Defined.
