(* ===== verification/Xfrm.v ===== *)
(** * IPsec rules of a child SA (internal/ike/xfrm/xfrm.go)

    The kernel states and policies installed for a child SA, the XFRM interface set up
    for additional sessions, and the algorithm tables. The XfrmState structure handed to
    the kernel and the copies recorded in the child SA share their algorithm structures by
    pointer; the overwriting of the keys for the second direction is therefore also
    visible in the recorded first state. *)

From S2P Require Import Prelude Monad NgapTypes NgapMsg IkeMsg Env State ToyEnv Context.

(** src/internal/ike/xfrm/xfrm.go:17-36 (XFRMEncryptionAlgorithmType.String) *)
Definition XFRMEncryptionAlgorithm (id : Z) : string :=
  if decide (id = ENCR_DES) then "cbc(des)"
  else if decide (id = ENCR_3DES) then "cbc(des3_ede)"
  else if decide (id = ENCR_CAST) then "cbc(cast5)"
  else if decide (id = ENCR_BLOWFISH) then "cbc(blowfish)"
  else if decide (id = ENCR_NULL) then "ecb(cipher_null)"
  else if decide (id = ENCR_AES_CBC) then "cbc(aes)"
  else if decide (id = ENCR_AES_CTR) then "rfc3686(ctr(aes))"
  else "".

(** src/internal/ike/xfrm/xfrm.go:40-53 (XFRMIntegrityAlgorithmType.String) *)
Definition XFRMIntegrityAlgorithm (id : Z) : string :=
  if decide (id = AUTH_HMAC_MD5_96) then "hmac(md5)"
  else if decide (id = AUTH_HMAC_SHA1_96) then "hmac(sha1)"
  else if decide (id = AUTH_AES_XCBC_96) then "xcbc(aes)"
  else if decide (id = AUTH_HMAC_SHA2_256_128) then "hmac(sha256)"
  else "".

(** src/internal/ike/xfrm/xfrm.go:242-253 (getTruncateLength) *)
Definition getTruncateLength (transformID : Z) : Z :=
  if decide (transformID = AUTH_HMAC_MD5_96) then 96
  else if decide (transformID = AUTH_HMAC_SHA1_96) then 96
  else if decide (transformID = AUTH_HMAC_SHA2_256_128) then 128
  else 96.

(** The algorithm structures with a direction's keys. *)
Definition crypt_algo (k : ChildSAKey) (key : bytes) : XfrmStateAlgo :=
  mkAlgo (XFRMEncryptionAlgorithm (ck_EncrID k)) key 0.
Definition auth_algo (k : ChildSAKey) (key : bytes) : option XfrmStateAlgo :=
  id ← ck_IntegID k; Some (mkAlgo (XFRMIntegrityAlgorithm id) key (getTruncateLength id)).

(** src/internal/ike/xfrm/xfrm.go:62-101 (ApplyXFRMRule)

    The inbound state: keys of the peer's direction. *)
Definition inbound_state (initiator : bool) (xfrmiId : Z) (c : ChildSecurityAssociation) (k : ChildSAKey) : XfrmState :=
  mkXState (PeerPublicIPAddr c) (LocalPublicIPAddr c) (InboundSPI c) xfrmiId
    (auth_algo k (if initiator then ck_R2I_Integ k else ck_I2R_Integ k))
    (crypt_algo k (if initiator then ck_R2I_Encr k else ck_I2R_Encr k))
    (ck_ESN k) 32 None.

(** src/internal/ike/xfrm/xfrm.go:112-129 (ApplyXFRMRule) *)
Definition inbound_policy (xfrmiId : Z) (c : ChildSecurityAssociation) : XfrmPolicy :=
  mkXPolicy (TrafficSelectorRemote c) (TrafficSelectorLocal c) (SelectedIPProtocol c) XFRM_DIR_IN xfrmiId
    [mkTmpl (PeerPublicIPAddr c) (LocalPublicIPAddr c) (InboundSPI c)].

(** src/internal/ike/xfrm/xfrm.go:140-165 (ApplyXFRMRule)

    The outbound state: own keys, addresses swapped; the encapsulation ports are built as
    (NAT port, N3IWF port) and then swapped. *)
Definition outbound_state (initiator : bool) (xfrmiId : Z) (c : ChildSecurityAssociation) (k : ChildSAKey) : XfrmState :=
  mkXState (LocalPublicIPAddr c) (PeerPublicIPAddr c) (OutboundSPI c) xfrmiId
    (auth_algo k (if initiator then ck_I2R_Integ k else ck_R2I_Integ k))
    (crypt_algo k (if initiator then ck_I2R_Encr k else ck_R2I_Encr k))
    (ck_ESN k) 32
    (if EnableEncapsulate c then Some (mkEncap (N3IWFPort c) (NATPort c)) else None).

(** src/internal/ike/xfrm/xfrm.go:174-182 (ApplyXFRMRule) *)
Definition outbound_policy (xfrmiId : Z) (c : ChildSecurityAssociation) : XfrmPolicy :=
  mkXPolicy (TrafficSelectorLocal c) (TrafficSelectorRemote c) (SelectedIPProtocol c) XFRM_DIR_OUT xfrmiId
    [mkTmpl (LocalPublicIPAddr c) (PeerPublicIPAddr c) (OutboundSPI c)].

(** src/internal/ike/xfrm/xfrm.go:140-150 (ApplyXFRMRule)

    The recorded inbound state once its shared algorithm structures hold the outbound
    keys. *)
Definition rekeyed (initiator : bool) (k : ChildSAKey) (s : XfrmState) : XfrmState :=
  mkXState (xs_Src s) (xs_Dst s) (xs_Spi s) (xs_Ifid s)
    (auth_algo k (if initiator then ck_I2R_Integ k else ck_R2I_Integ k))
    (crypt_algo k (if initiator then ck_I2R_Encr k else ck_R2I_Encr k))
    (xs_ESN s) (xs_ReplayWindow s) (xs_Encap s).

Section Rules_.
Context `{E : Env}.
Implicit Types w : World.

(** src/internal/ike/xfrm/xfrm.go:55-191 (ApplyXFRMRule) *)
Definition ApplyXFRMRule (initiator : bool) (xfrmiId : Z) (child : ref) : H error error :=
  c ← get_child child;
  k ← deref (c_ChildSAKey c);
  let old := XfrmStateList c in
  let s1 := inbound_state initiator xfrmiId c k in
  try_io (IoXfrmStateAdd s1) "Add XFRM state";;
  upd_child child (λ c, c <| XfrmStateList := old ++ [s1] |>);;
  let p1 := inbound_policy xfrmiId c in
  try_io (IoXfrmPolicyAdd p1) "Add XFRM policy";;
  upd_child child (λ c, c <| XfrmPolicyList ::= λ l, l ++ [p1] |>);;
  upd_child child (λ c, c <| XfrmStateList := old ++ [rekeyed initiator k s1] |>);;
  let s2 := outbound_state initiator xfrmiId c k in
  try_io (IoXfrmStateAdd s2) "Add XFRM state";;
  upd_child child (λ c, c <| XfrmStateList := old ++ [rekeyed initiator k s1; s2] |>);;
  let p2 := outbound_policy xfrmiId c in
  try_io (IoXfrmPolicyAdd p2) "Add XFRM policy";;
  upd_child child (λ c, c <| XfrmPolicyList ::= λ l, l ++ [p2] |>);;
  mret None.

(** src/internal/ike/xfrm/xfrm.go:193-240 (SetupIPsecXfrmi)

    [None] when the function returns an error. *)
Definition SetupIPsecXfrmi (xfrmIfaceName parentIfaceName : string) (xfrmIfaceId : Z) (xfrmIfaceAddr : IPNet)
  : H (option Link) (option Link) :=
  ok ← do_io (IoLinkByName parentIfaceName);
  if negb ok then ret None
  else
    parent ← gets (λ w, io_link (trace w) parentIfaceName);
    ok ← do_io (IoLinkAdd xfrmIfaceName (ln_Index parent) xfrmIfaceId);
    if negb ok then ret None
    else
      ok ← do_io (IoLinkByName xfrmIfaceName);
      if negb ok then ret None
      else
        xfrmi ← gets (λ w, io_link (trace w) xfrmIfaceName);
        ok ← do_io (IoAddrAdd xfrmi xfrmIfaceAddr);
        if negb ok then ret None
        else
          ok ← do_io (IoLinkSetUp xfrmi);
          if negb ok then ret None else mret (Some xfrmi).

(** ** Properties *)

(** The kernel operations of a child SA, in order. *)
Definition xfrm_plan (initiator : bool) (xfrmiId : Z) (c : ChildSecurityAssociation) (k : ChildSAKey) : list IO :=
  [IoXfrmStateAdd (inbound_state initiator xfrmiId c k);
   IoXfrmPolicyAdd (inbound_policy xfrmiId c);
   IoXfrmStateAdd (outbound_state initiator xfrmiId c k);
   IoXfrmPolicyAdd (outbound_policy xfrmiId c)].

(** The operations performed before the first one that fails (included), and
    whether all succeeded. *)
Fixpoint perform (t : list IO) (ops : list IO) : list IO * nat * bool :=
  match ops with
  | [] => (t, 0%nat, true)
  | x :: ops =>
      if io_ok t x then let '(t, n, ok) := perform (x :: t) ops in (t, S n, ok)
      else (x :: t, 0%nat, false)
  end.

(** What identifies a state towards the kernel. *)
Definition state_id (s : XfrmState) : bytes * bytes * Z := (xs_Src s, xs_Dst s, xs_Spi s).

Lemma run_try_io x e w :
  try_io x e w = ((if io_ok (trace w) x then Next tt else Return (Some e)), w <| trace ::= cons x |>).
Proof. unfold try_io. rewrite run_bind, run_do_io. by destruct (io_ok _ x). Qed.


(** The recorded inbound state does not keep the inbound keys: after the rules
    are applied both recorded states hold the outbound encryption key, because the
    structure with the key is shared and overwritten. *)
Theorem ApplyXFRMRule_recorded_keys w child c k initiator id :
  h_child w !! child = Some c → c_ChildSAKey c = Some k → XfrmStateList c = [] →
  result (ApplyXFRMRule initiator id child) w = Some None →
  ∃ c', h_child (final (ApplyXFRMRule initiator id child) w) !! child = Some c' ∧
    (xa_Key ∘ xs_Crypt) <$> XfrmStateList c' =
      (let out := if initiator then ck_I2R_Encr k else ck_R2I_Encr k in [out; out]).
Proof.
  intros Hc Hk Hs. unfold final, result, ApplyXFRMRule.
  rewrite run_bind, (run_get_child w child c Hc), run_bind, Hk, Hs. cbn [deref mret prog_ret].
  do 4 (rewrite ?run_bind, run_try_io; destruct (io_ok _ _); [|done];
        repeat (rewrite run_bind; cbn [upd_child modify])).
  intros _. cbn -[alter]. eexists. rewrite !lookup_alter_eq, Hc.
  split; [reflexivity|]. by destruct initiator.
Qed.

End Rules_.

(** ** Applications to concrete states *)
#[local] Existing Instance toy.

Definition xfrm_key : ChildSAKey :=
  mkChildKey ENCR_AES_CBC (Some AUTH_HMAC_SHA1_96) false [1] [2] [3] [4].
Definition xfrm_child : ChildSecurityAssociation :=
  zero_Child <| InboundSPI := 500 |> <| OutboundSPI := 9 |> <| c_ChildSAKey := Some xfrm_key |>.
Definition xfrm_world : World := world0 all_ok <| h_child := {[ 3%nat := xfrm_child ]} |>.


Lemma ApplyXFRMRule_recorded_keys_witness :
  ∃ c', h_child (final (ApplyXFRMRule true 7 3%nat) xfrm_world) !! 3%nat = Some c' ∧
    (xa_Key ∘ xs_Crypt) <$> XfrmStateList c' = [[1]; [1]].
Proof.
  apply (ApplyXFRMRule_recorded_keys xfrm_world 3%nat xfrm_child xfrm_key true 7); [reflexivity..|].
  vm_compute. reflexivity.
Defined.
