(* ===== verification/IkeServer.v ===== *)
(** * The IKE server's edges (internal/ike/send.go, server.go, dispatcher.go)

    Sending IKE messages, the UDP/4500 marker, the check of a received packet against
    the pool of IKE SAs, the message-ID window, and NAT detection. *)

From S2P Require Import Prelude Monad NgapTypes NgapMsg IkeMsg Env State ToyEnv Context.

(** src/internal/ike/server.go:210-239 (handleNattMsg)

    What becomes of a datagram received on port 4500. *)
Inductive natt := NattKeepalive | NattTooShort | NattESP (packet : bytes) | NattIKE (msg : bytes).

Definition nonEspMarker : bytes := [0; 0; 0; 0].

(** src/internal/ike/server.go:210-239 (handleNattMsg) *)
Definition handleNattMsg (msgBuf : bytes) : natt :=
  if decide (msgBuf = [0xff]) then NattKeepalive
  else if decide (len msgBuf < len nonEspMarker) then NattTooShort
  else if decide (take 4 msgBuf ≠ nonEspMarker) then NattESP msgBuf
  else NattIKE (drop 4 msgBuf).

(** src/internal/ike/dispatcher.go:45-65 (hasExpectedMessageID) *)
Definition hasExpectedMessageID `{E : Env} (m : IKEMessage) (sa : IKESecurityAssociation) : bool :=
  if im_Response m then bool_decide (im_MessageID m = ResponderMessageID sa)
  else bool_decide (im_MessageID m = InitiatorMessageID sa).

Section Server.
Context `{E : Env}.
Implicit Types w : World.

(** src/internal/ike/server.go:329-355 (constructPacketWithESP) *)
Definition constructPacketWithESP (srcIP dstIP : UDPAddr) (espPacket : bytes) : option bytes :=
  esp_packet (ua_IP srcIP) (ua_IP dstIP) espPacket.

(** src/internal/ike/server.go:357-388 (handleESPPacket)

    Whether the error result is nil. The destination is the first four octets of the
    address; a shorter address cannot be converted to an array. *)
Definition handleESPPacket (srcIP dstIP : UDPAddr) (espPacket : bytes) : H bool bool :=
  ok ← do_io IoRawSocket;
  if negb ok then ret false
  else
    match constructPacketWithESP srcIP dstIP espPacket with
    | None => ret false
    | Some ipPacket =>
        if decide (len (ua_IP dstIP) < 4) then panic "cannot convert slice to array"
        else do_io (IoRawSend ipPacket (take 4 (ua_IP dstIP)) (ua_Port dstIP))
    end.

(** src/internal/ike/send.go:16-46 (SendIKEMessageToUE)

    Whether the error result is nil. *)
Definition SendIKEMessageToUE {R} (srcAddr dstAddr : UDPAddr) (message : IKEMessage) (key : option sakey) : H R bool :=
  match ike_encode_encrypt message key with
  | None => mret false
  | Some pkt =>
      let pkt := if decide (ua_Port srcAddr = 4500) then nonEspMarker ++ pkt else pkt in
      do_io (IoIke message pkt dstAddr)
  end.

(** src/internal/ike/send.go:48-70 (SendUEInformationExchange) *)
Definition SendUEInformationExchange {R} (sa : IKESecurityAssociation) (key : option sakey)
    (payload : list Payload) (initiator response : bool) (messageID : Z) (ueAddr n3iwfAddr : UDPAddr) : H R unit :=
  SendIKEMessageToUE n3iwfAddr ueAddr
    (NewMessage (RemoteSPI sa) (LocalSPI sa) INFORMATIONAL response initiator messageID payload) key;;
  mret tt.

(** src/internal/ike/send.go:72-85 (SendIKEDeleteRequest) *)
Definition SendIKEDeleteRequest (localSPI : Z) : H unit unit :=
  pool ← gets (IkeUePoolLoad localSPI);
  match pool with
  | None => ret tt
  | Some u =>
      ue ← get_ike (Some u);
      sa ← get_sa (N3IWFIKESecurityAssociation ue);
      conn ← deref (ue_IKEConnection ue);
      SendUEInformationExchange sa (IKESAKey sa) [PD TypeIKE 0 0 []] false false
        (ResponderMessageID sa) (us_UEAddr conn) (us_N3IWFAddr conn)
  end.

(** src/internal/ike/send.go:95-110 (SendChildSADeleteRequest)

    The inner loop over the child SAs for one session; the SPIs collected so far. *)
Fixpoint release_children (ikeUe : ref) (releaseItem : Z) (l : list (Z * ref)) (spis : list Z) : H unit (list Z) :=
  match l with
  | [] => mret spis
  | (_, child) :: l =>
      c ← get_child child;
      session ← lift (at_ (PDUSessionIds c) 0);
      if decide (session = releaseItem) then
        s ← lift (at_ (XfrmStateList c) 0);
        if decide (xs_Spi s < 0 ∨ xs_Spi s > MaxUint32) then ret tt
        else
          err ← call (DeleteChildSA ikeUe child);
          match err with
          | Some _ => ret tt
          | None => release_children ikeUe releaseItem l (spis ++ [u32 (xs_Spi s)])
          end
      else release_children ikeUe releaseItem l spis
  end.

(** src/internal/ike/send.go:94-111 (SendChildSADeleteRequest) *)
Fixpoint release_sessions (ikeUe : ref) (releaseList : list Z) (spis : list Z) : H unit (list Z) :=
  match releaseList with
  | [] => mret spis
  | item :: releaseList =>
      ue ← get_ike (Some ikeUe);
      l ← range_map (N3IWFChildSecurityAssociation ue);
      spis ← release_children ikeUe item l spis;
      release_sessions ikeUe releaseList spis
  end.

(** src/internal/ike/send.go:87-118 (SendChildSADeleteRequest) *)
Definition SendChildSADeleteRequest (ikeUe : ref) (releaseList : list Z) : H unit unit :=
  deleteSPIs ← release_sessions ikeUe releaseList [];
  ue ← get_ike (Some ikeUe);
  sa ← get_sa (N3IWFIKESecurityAssociation ue);
  conn ← deref (ue_IKEConnection ue);
  SendUEInformationExchange sa (IKESAKey sa) [PD TypeESP 4 (u16 (len deleteSPIs)) deleteSPIs] false false
    (ResponderMessageID sa) (us_UEAddr conn) (us_N3IWFAddr conn).

(** src/internal/ike/server.go:258-327 (Server.checkIKEMessage)

    The decoded message and the IKE SA it belongs to; [None] when the packet is
    dropped with an error. *)
Definition checkIKEMessage {R} (msg : bytes) (localAddr remoteAddr : UDPAddr) : H R (option (IKEMessage * option ref)) :=
  match ike_parse_header msg with
  | None => mret None
  | Some h =>
      if decide (ih_MajorVersion h > 2) then
        SendIKEMessageToUE localAddr remoteAddr
          (NewMessage (ih_InitiatorSPI h) (ih_ResponderSPI h) INFORMATIONAL true false (ih_MessageID h)
             [BuildNotification TypeNone INVALID_MAJOR_VERSION [] []]) None;;
        mret None
      else if decide (ih_ExchangeType h = IKE_SA_INIT) then
        mret (m ← ike_decode_decrypt msg h None; Some (m, None))
      else
        sa ← gets (IKESALoad (ih_ResponderSPI h));
        match sa with
        | None =>
            SendIKEMessageToUE localAddr remoteAddr
              (NewMessage (ih_InitiatorSPI h) (ih_ResponderSPI h) INFORMATIONAL true false (ih_MessageID h)
                 [BuildNotification TypeNone INVALID_IKE_SPI [] []]) None;;
            mret None
        | Some r =>
            s ← get_sa (Some r);
            mret (m ← ike_decode_decrypt msg h (IKESAKey s); Some (m, Some r))
        end
  end.

(** ** NAT detection (internal/ike/handler.go) *)

(** [copy(dst, src)] into a zeroed buffer of n octets. *)
Definition copy_into (n : nat) (src : bytes) : bytes := take n (src ++ replicate n 0).

(** src/internal/ike/handler.go:1778-1796 (Server.generateNATDetectHash) *)
Definition generateNATDetectHash (initiatorSPI responderSPI : Z) (addr : UDPAddr) : bytes :=
  sha1 (be_put 8 initiatorSPI ++ be_put 8 responderSPI ++ copy_into 4 (To4 (ua_IP addr)) ++
        be_put 2 (u16 (ua_Port addr))).

(** src/internal/ike/handler.go:1739-1776 (Server.handleNATDetect)

    A notification is its type and data. *)
Definition handleNATDetect (initiatorSPI responderSPI : Z) (notifications : list (Z * bytes))
    (ueAddr n3iwfAddr : UDPAddr) : bool * bool :=
  let srcNatDData := generateNATDetectHash initiatorSPI responderSPI ueAddr in
  let dstNatDData := generateNATDetectHash initiatorSPI responderSPI n3iwfAddr in
  foldl (λ '(ue, n3iwf) '(type, data),
    if decide (type = NAT_DETECTION_SOURCE_IP) then (ue || negb (bool_decide (data = srcNatDData)), n3iwf)
    else if decide (type = NAT_DETECTION_DESTINATION_IP) then (ue, n3iwf || negb (bool_decide (data = dstNatDData)))
    else (ue, n3iwf))
  (false, false) notifications.

(** src/internal/ike/handler.go:1798-1820 (Server.buildNATDetectNotifPayload) *)
Definition buildNATDetectNotifPayload (sa : IKESecurityAssociation) (ueAddr n3iwfAddr : UDPAddr) : list Payload :=
  [BuildNotification TypeNone NAT_DETECTION_SOURCE_IP []
     (generateNATDetectHash (RemoteSPI sa) (LocalSPI sa) n3iwfAddr);
   BuildNotification TypeNone NAT_DETECTION_DESTINATION_IP []
     (generateNATDetectHash (RemoteSPI sa) (LocalSPI sa) ueAddr)].

(** ** Properties *)

(** The notification data a handler sees. *)
Definition notify_data (ps : list Payload) : list (Z * bytes) :=
  omap (λ p, match p with PN _ t _ d => Some (t, d) | _ => None end) ps.

Lemma nat_pair i r ue n3 d1 d2 :
  handleNATDetect i r [(NAT_DETECTION_SOURCE_IP, d1); (NAT_DETECTION_DESTINATION_IP, d2)] ue n3 =
    (negb (bool_decide (d1 = generateNATDetectHash i r ue)),
     negb (bool_decide (d2 = generateNATDetectHash i r n3))).
Proof. done. Qed.

(** The hashed fields determine the address and the port. *)
Lemma nat_data_inj i r (a b : UDPAddr) :
  length (To4 (ua_IP a)) = 4%nat → length (To4 (ua_IP b)) = 4%nat →
  is_u16 (ua_Port a) → is_u16 (ua_Port b) →
  be_put 8 i ++ be_put 8 r ++ copy_into 4 (To4 (ua_IP a)) ++ be_put 2 (u16 (ua_Port a)) =
  be_put 8 i ++ be_put 8 r ++ copy_into 4 (To4 (ua_IP b)) ++ be_put 2 (u16 (ua_Port b)) →
  To4 (ua_IP a) = To4 (ua_IP b) ∧ ua_Port a = ua_Port b.
Proof.
  intros La Lb Pa Pb Heq. do 2 apply app_inv_head in Heq.
  unfold copy_into in Heq. rewrite !take_app_le, !take_ge in Heq by lia.
  apply app_inj_1 in Heq as [? Hp]; [|congruence]. split; [done|].
  rewrite !u16_id in Hp by done.
  apply (f_equal be_get) in Hp. by rewrite !be_get_put16 in Hp.
Qed.


(** A datagram received on port 4500: one octet 255 is a keep-alive, a
    datagram without the four-octet zero marker is an ESP packet, and the IKE message that
    [SendIKEMessageToUE] puts on the wire from port 4500 is recovered by stripping the
    marker, whatever its content. *)
Theorem natt_marker_roundtrip (R : Type) w src dst m key pkt :
  ike_encode_encrypt m key = Some pkt → ua_Port src = 4500 →
  ∃ ok sent w', (SendIKEMessageToUE src dst m key : H R bool) w = (Next ok, w') ∧
    trace w' = IoIke m sent dst :: trace w ∧ handleNattMsg sent = NattIKE pkt.
Proof.
  intros He Hp. unfold SendIKEMessageToUE. rewrite He, decide_True by done. rewrite run_do_io.
  do 3 eexists. split; [done|]. split; [done|]. unfold handleNattMsg.
  rewrite !decide_False; [done|..].
  - by intros [].
  - unfold nonEspMarker. len_lia.
  - done.
Qed.

(** A datagram on port 4500 is handled by exactly its first octets. *)
Theorem handleNattMsg_spec msg :
  match handleNattMsg msg with
  | NattKeepalive => msg = [0xff]
  | NattTooShort => len msg < 4 ∧ msg ≠ [0xff]
  | NattESP p => p = msg ∧ 4 ≤ len msg ∧ take 4 msg ≠ nonEspMarker
  | NattIKE p => msg = nonEspMarker ++ p
  end.
Proof.
  unfold handleNattMsg. case_decide as H1; [done|]. case_decide as H2; [done|].
  case_decide as H3; [split; [done|]; split; [|done]; change (len nonEspMarker) with 4 in H2; lia|].
  rewrite <- H3. by rewrite take_drop.
Qed.

(** C24. A packet for an IKE SA that is not in the pool, or of a higher major
    version, changes nothing but the effects, and a packet that passes the check belongs to
    the SA stored under its responder SPI (no SA for IKE_SA_INIT) and was decrypted with
    that SA's key. *)
Theorem checkIKEMessage_spec (R : Type) w msg localAddr remoteAddr :
  match (checkIKEMessage msg localAddr remoteAddr : H R _) w with
  | (Next None, w') => ∃ t, w' = w <| trace := t |>
  | (Next (Some (m, o)), w') => w' = w ∧ ∃ h, ike_parse_header msg = Some h ∧ ih_MajorVersion h ≤ 2 ∧
      match o with
      | None => ih_ExchangeType h = IKE_SA_INIT ∧ ike_decode_decrypt msg h None = Some m
      | Some r => ih_ExchangeType h ≠ IKE_SA_INIT ∧ IKESA w !! ih_ResponderSPI h = Some r ∧
          ∃ s, h_sa w !! r = Some s ∧ ike_decode_decrypt msg h (IKESAKey s) = Some m
      end
  | (Return _, _) => False
  | (Panicked _, w') => w' = w
  end.
Proof.
  assert (w = w <| trace := trace w |>) as Ew by by destruct w.
  unfold checkIKEMessage. destruct (ike_parse_header msg) as [h|] eqn:Hh; [|by exists (trace w)].
  case_decide as Hv; [|case_decide as He].
  - unfold SendIKEMessageToUE. destruct (ike_encode_encrypt _ None); cbn; [eexists; reflexivity|by exists (trace w)].
  - cbn. destruct (ike_decode_decrypt msg h None) as [m|] eqn:Hm; cbn; [|by exists (trace w)].
    split; [done|]. exists h. split; [done|]. split; [lia|]. done.
  - rewrite run_bind. cbn [gets]. unfold IKESALoad. destruct (IKESA w !! ih_ResponderSPI h) as [r|] eqn:Hr.
    + unfold get_sa, mbind, prog_bind. cbn. destruct (h_sa w !! r) as [s|] eqn:Hs; cbn; [|done].
      destruct (ike_decode_decrypt msg h (IKESAKey s)) as [m|] eqn:Hm; cbn; [|by exists (trace w)].
      split; [done|]. exists h. split; [done|]. split; [lia|]. by eauto.
    + unfold SendIKEMessageToUE. destruct (ike_encode_encrypt _ None); cbn; [eexists; reflexivity|by exists (trace w)].
Qed.

End Server.

(** ** Applications to concrete states *)
#[local] Existing Instance toy.

Definition ue_addr : UDPAddr := mkUDP [192; 168; 127; 2] 500.
Definition n3_addr : UDPAddr := mkUDP [192; 168; 127; 1] 4500.


Lemma natt_marker_roundtrip_witness :
  ∃ ok sent w', (SendIKEMessageToUE n3_addr ue_addr (NewMessage 7 100 IKE_AUTH true false 3 []) None : H unit bool)
      (world0 all_ok) = (Next ok, w') ∧
    trace w' = [IoIke (NewMessage 7 100 IKE_AUTH true false 3 []) sent ue_addr] ∧ handleNattMsg sent = NattIKE [3].
Proof.
  apply (natt_marker_roundtrip unit (world0 all_ok) n3_addr ue_addr
           (NewMessage 7 100 IKE_AUTH true false 3 []) None [3]); reflexivity.
Defined.
