(* ===== verification/IkeSaInit.v ===== *)
(** * IKE_SA_INIT (internal/ike/handler.go, HandleIKESAINIT)

    The handler in the order of the code: validation, choice of the proposal, key
    exchange group, nonce and NAT detection, creation of the IKE SA, and the part under
    the deferred clean-up that removes the SA again unless the response was sent. *)

From S2P Require Import Prelude Monad NgapTypes NgapMsg IkeMsg Proposals Env State Context IkeServer.

Section Init.
Context `{E : Env}.
Implicit Types w : World.

(** The payloads an IKE_SA_INIT request is read for. *)
Record InitPayloads := mkInit {
  in_SA : option (list Proposal);
  in_KE : option (Z * bytes);
  in_Nonce : option bytes;
  in_N : list (Z * bytes);
}.

(** src/internal/ike/handler.go:66-81 (Server.HandleIKESAINIT)

    A later payload of a type replaces an earlier one; notifications accumulate. *)
Definition init_payloads (ps : list Payload) : InitPayloads :=
  foldl (λ r p,
    match p with
    | PSA l => mkInit (Some l) (in_KE r) (in_Nonce r) (in_N r)
    | PKE g d => mkInit (in_SA r) (Some (g, d)) (in_Nonce r) (in_N r)
    | PNonce n => mkInit (in_SA r) (in_KE r) (Some n) (in_N r)
    | PN _ t _ d => mkInit (in_SA r) (in_KE r) (in_Nonce r) (in_N r ++ [(t, d)])
    | _ => r
    end) (mkInit None None None []) ps.

(** The error response: one notification, unprotected. *)
Definition init_error {R} (m : IKEMessage) (n3iwfAddr ueAddr : UDPAddr) (notify : Z) (data : bytes) : H R unit :=
  SendIKEMessageToUE n3iwfAddr ueAddr
    (NewMessage (im_InitiatorSPI m) (im_ResponderSPI m) IKE_SA_INIT true false (im_MessageID m)
       [BuildNotification TypeNone notify [] data]) None;;
  mret tt.

(** src/internal/ike/handler.go:172-249 (Server.HandleIKESAINIT)

    The rest of the handler once the IKE SA exists; the result is keepIKESA. *)
Definition init_rest (m : IKEMessage) (realMessage1 : bytes) (n3iwfAddr ueAddr : UDPAddr)
    (chosen : list Proposal) (p0 : Proposal) (group : Z) (keData nonce localNonce : bytes)
    (ueBehindNAT n3iwfBehindNAT : bool) (sa : ref) : H bool bool :=
  let concatenatedNonce := nonce ++ localNonce in
  upd_sa sa (λ s, s <| RemoteSPI := im_InitiatorSPI m |> <| InitiatorMessageID := 1 |>
                    <| ResponderMessageID := 0 |>);;
  s ← get_sa (Some sa);
  match new_ike_sa_key p0 keData concatenatedNonce (RemoteSPI s) (LocalSPI s) with
  | None => ret false
  | Some (key, localPublicValue) =>
      upd_sa sa (λ s, s <| IKESAKey := Some key |>
                        <| ConcatenatedNonce ::= λ n, n ++ concatenatedNonce |>
                        <| UeBehindNAT := ueBehindNAT |> <| N3iwfBehindNAT := n3iwfBehindNAT |>);;
      s ← get_sa (Some sa);
      let response := NewMessage (im_InitiatorSPI m) (LocalSPI s) IKE_SA_INIT true false (im_MessageID m)
        ([PSA chosen; PNonce localNonce; PKE group localPublicValue] ++
         buildNATDetectNotifPayload s ueAddr n3iwfAddr) in
      upd_sa sa (λ s, s <| InitiatorSignedOctets := realMessage1 ++ localNonce |>);;
      match ike_encode response with
      | None => ret false
      | Some data =>
          upd_sa sa (λ s, s <| ResponderSignedOctets := data ++ nonce |>);;
          match ike_encode_payloads [PIDr ID_FQDN (str_bytes (cfg_FQDN cfg))] with
          | None => ret false
          | Some idPayloadData =>
              id ← lift (slice_from idPayloadData 4);
              upd_sa sa (λ s, s <| ResponderSignedOctets ::= λ o, o ++ prf_r key id |>);;
              ok ← SendIKEMessageToUE n3iwfAddr ueAddr response None;
              if (ok : bool) then mret true else ret false
          end
      end
  end.

(** The deferred function: the SA is deleted under the SPI it holds. *)
Definition drop_sa (sa : ref) w : World :=
  match h_sa w !! sa with
  | Some s => DeleteIKESecurityAssociation (LocalSPI s) w
  | None => w
  end.

(** src/internal/ike/handler.go:34-250 (Server.HandleIKESAINIT) *)
Definition HandleIKESAINIT (n3iwfAddr ueAddr : UDPAddr) (m : IKEMessage) (realMessage1 : bytes) : H unit unit :=
  if decide (im_MessageID m ≠ 0) then ret tt
  else
    let p := init_payloads (im_Payloads m) in
    match in_SA p with
    | None => ret tt
    | Some offered =>
        let chosen := SelectProposal dh_decodes encr_decodes integ_decodes prf_decodes offered in
        match chosen with
        | [] => init_error m n3iwfAddr ueAddr NO_PROPOSAL_CHOSEN [];; ret tt
        | p0 :: _ =>
            match in_KE p with
            | None => ret tt
            | Some (keGroup, keData) =>
                dh ← lift (at_ (pr_DH p0) 0);
                if decide (tr_ID dh ≠ keGroup) then
                  init_error m n3iwfAddr ueAddr INVALID_KE_PAYLOAD (be_put 2 (tr_ID dh));; ret tt
                else
                  match in_Nonce p with
                  | None => ret tt
                  | Some nonce =>
                      localNonce ← draw rnd_nonce;
                      match localNonce with
                      | None => ret tt
                      | Some localNonce =>
                          let '(ueBehindNAT, n3iwfBehindNAT) :=
                            handleNATDetect (im_InitiatorSPI m) (im_ResponderSPI m) (in_N p) ueAddr n3iwfAddr in
                          sa ← NewIKESecurityAssociation;
                          match sa with
                          | None => ret tt
                          | Some sa =>
                              call (defer_unless (drop_sa sa)
                                (init_rest m realMessage1 n3iwfAddr ueAddr chosen p0 (tr_ID dh) keData nonce
                                   localNonce ueBehindNAT n3iwfBehindNAT sa))
                          end
                      end
                  end
            end
        end
    end.

(** ** Lemmas *)

(** [init_rest] touches the heap object of the new SA and the effects only, and keeps
    the object's local SPI. *)
Definition only_sa (sa : ref) w w' : Prop :=
  ∃ hs t, w' = w <| h_sa := hs |> <| trace := t |> ∧
    (∀ r, r ≠ sa → hs !! r = h_sa w !! r) ∧
    LocalSPI <$> hs !! sa = LocalSPI <$> h_sa w !! sa.

#[global] Instance only_sa_preorder sa : PreOrder (only_sa sa).
Proof.
  split.
  - intros w. exists (h_sa w), (trace w). by destruct w.
  - intros w1 w2 w3 (h & t & -> & Ha & Hb) (h' & t' & -> & Ha' & Hb'). exists h', t'.
    split; [done|]. split; [intros r Hr; by rewrite Ha', Ha|]. cbn in Hb'. congruence.
Qed.

Lemma only_sa_upd {R} sa f : (∀ v, LocalSPI (f v) = LocalSPI v) → stable (only_sa sa) (upd_sa sa f : H R unit).
Proof.
  intros Hf w. exists (alter f sa (h_sa w)), (trace w). split; [by destruct w|]. split.
  - intros r Hr. by rewrite lookup_alter_ne.
  - rewrite lookup_alter_eq. destruct (h_sa w !! sa); cbn; by rewrite ?Hf.
Qed.

Lemma only_sa_io {R} sa x : stable (only_sa sa) (do_io x : H R bool).
Proof. intros w. exists (h_sa w), (x :: trace w). by destruct w. Qed.

Lemma init_rest_frame m real n3 ue ch p0 g ke no lo b1 b2 sa :
  stable (only_sa sa) (init_rest m real n3 ue ch p0 g ke no lo b1 b2 sa).
Proof.
  unfold init_rest, get_sa, SendIKEMessageToUE.
  repeat (stable_step || apply only_sa_io || (apply only_sa_upd; done)).
Qed.

(** What the SA holds when [init_rest] decides to keep it, and the response it sent. *)
Lemma init_rest_kept m real n3 ue ch p0 g ke no lo b1 b2 sa s w :
  h_sa w !! sa = Some s →
  result (init_rest m real n3 ue ch p0 g ke no lo b1 b2 sa) w = Some true →
  let w' := final (init_rest m real n3 ue ch p0 g ke no lo b1 b2 sa) w in
  ∃ s' key pub msg pkt, h_sa w' !! sa = Some s' ∧
    new_ike_sa_key p0 ke (no ++ lo) (im_InitiatorSPI m) (LocalSPI s) = Some (key, pub) ∧
    IKESAKey s' = Some key ∧ LocalSPI s' = LocalSPI s ∧ RemoteSPI s' = im_InitiatorSPI m ∧
    State s' = State s ∧ InitiatorMessageID s' = 1 ∧ ResponderMessageID s' = 0 ∧
    sa_IkeUE s' = sa_IkeUE s ∧ UeBehindNAT s' = b1 ∧ N3iwfBehindNAT s' = b2 ∧
    InitiatorSignedOctets s' = real ++ lo ∧
    trace w' = IoIke msg pkt ue :: trace w ∧
    im_ResponderSPI msg = LocalSPI s ∧ im_Payloads msg =
      [PSA ch; PNonce lo; PKE g pub] ++ buildNATDetectNotifPayload s' ue n3.
Proof.
  intros Hs. unfold result, final, init_rest.
  rewrite run_bind. cbn [upd_sa modify]. rewrite run_bind.
  match goal with |- context [get_sa (Some sa) ?v] => set (w1 := v) end.
  set (s1 := s <| RemoteSPI := im_InitiatorSPI m |> <| InitiatorMessageID := 1 |> <| ResponderMessageID := 0 |>).
  assert (h_sa w1 !! sa = Some s1) as Hs1 by (cbn; by rewrite lookup_alter_eq, Hs).
  rewrite (run_get_sa w1 sa s1 Hs1). change (RemoteSPI s1) with (im_InitiatorSPI m).
  change (LocalSPI s1) with (LocalSPI s).
  destruct (new_ike_sa_key _ _ _ _ _) as [[key pub]|] eqn:Hkey; [|done].
  rewrite run_bind. cbn [upd_sa modify]. rewrite run_bind.
  match goal with |- context [get_sa (Some sa) ?v] => set (w2 := v) end.
  set (s2 := s1 <| IKESAKey := Some key |> <| ConcatenatedNonce ::= λ n, n ++ (no ++ lo) |>
                <| UeBehindNAT := b1 |> <| N3iwfBehindNAT := b2 |>).
  assert (h_sa w2 !! sa = Some s2) as Hs2 by (cbn -[alter w1]; by rewrite lookup_alter_eq, Hs1).
  rewrite (run_get_sa w2 sa s2 Hs2). rewrite run_bind. cbn [upd_sa modify].
  match goal with |- context [ike_encode ?x] => set (response := x) end.
  destruct (ike_encode response) as [data|]; [|done].
  rewrite run_bind. cbn [upd_sa modify]. destruct (ike_encode_payloads _) as [idd|]; [|done].
  rewrite run_bind. destruct (slice_from idd 4) as [id| |]; [|done..]. cbn [lift mret prog_ret].
  rewrite run_bind. cbn [upd_sa modify]. rewrite run_bind. unfold SendIKEMessageToUE.
  destruct (ike_encode_encrypt response None) as [pkt|]; [|done]. rewrite run_do_io.
  destruct (io_ok _ _); [|done]. intros _. cbn -[alter].
  do 5 eexists. rewrite !lookup_alter_eq, Hs. split; [reflexivity|]. by repeat split.
Qed.

Lemma init_error_keeps {R} m n3 ue n d : stable (keeps IKESA) (init_error m n3 ue n d : H R unit).
Proof. unfold init_error, SendIKEMessageToUE. keeps_auto. Qed.

(** The outcome of the handler on the pool: unchanged, or one new usable SA. *)
Definition init_outcome (m : IKEMessage) (ueAddr : UDPAddr) w w' : Prop :=
  IKESA w' = IKESA w ∨
  ∃ spi sa s msg pkt, IKESA w !! spi = None ∧ IKESA w' = <[spi := sa]> (IKESA w) ∧
    h_sa w' !! sa = Some s ∧ LocalSPI s = spi ∧ RemoteSPI s = im_InitiatorSPI m ∧ State s = 0 ∧
    InitiatorMessageID s = 1 ∧ ResponderMessageID s = 0 ∧ is_Some (IKESAKey s) ∧ sa_IkeUE s = None ∧
    im_ResponderSPI msg = spi ∧ trace w' = IoIke msg pkt ueAddr :: trace w.

Lemma outcome_new {m ueAddr w} {rest : ref → H bool bool} :
  (∀ sa s w1, h_sa w1 !! sa = Some s → result (rest sa) w1 = Some true →
     let w' := final (rest sa) w1 in
     ∃ s' msg pkt, h_sa w' !! sa = Some s' ∧ LocalSPI s' = LocalSPI s ∧ RemoteSPI s' = im_InitiatorSPI m ∧
       State s' = State s ∧ InitiatorMessageID s' = 1 ∧ ResponderMessageID s' = 0 ∧ is_Some (IKESAKey s') ∧
       sa_IkeUE s' = sa_IkeUE s ∧ im_ResponderSPI msg = LocalSPI s ∧ trace w' = IoIke msg pkt ueAddr :: trace w1) →
  (∀ sa, stable (only_sa sa) (rest sa)) →
  init_outcome m ueAddr w (final
    (sa ← NewIKESecurityAssociation;
     match sa with
     | None => ret tt
     | Some sa => call (defer_unless (drop_sa sa) (rest sa))
     end : H unit unit) w).
Proof.
  intros Hkept Hframe. unfold final. rewrite run_bind.
  pose proof (NewIKESecurityAssociation_run (R := unit) w) as Hn.
  destruct (NewIKESecurityAssociation w) as [[[sa|]|?|?] w1]; [|by left|done|left; cbn; tauto].
  destruct Hn as (spi & n & Hf & -> & ->). set (sa := next_ref w) in *.
  match goal with |- context [call _ ?v] => set (w1 := v) end.
  assert (h_sa w1 !! sa = Some (zero_SA <| LocalSPI := spi |>)) as Hs1 by apply lookup_insert_eq.
  specialize (Hframe sa w1). specialize (Hkept sa _ w1 Hs1).
  rewrite run_call. unfold defer_unless, result, final in *.
  destruct (rest sa w1) as [c w2]. cbn in Hframe.
  assert (IKESA w2 = <[spi := sa]> (IKESA w)) as Hp by by destruct Hframe as (? & ? & -> & _).
  assert (IKESA (drop_sa sa w2) = IKESA w) as Hd.
  { destruct Hframe as (hs & t & -> & _ & Hl). unfold drop_sa. cbn -[lookup]. rewrite Hs1 in Hl. cbn in Hl.
    cbn. destruct (hs !! sa) as [s|]; [|done]. cbn in Hl. injection Hl as ->. cbn.
    by apply delete_insert_id. }
  assert ((c = Next true ∨ c = Return true) → init_outcome m ueAddr w w2) as Hk.
  { intros Hc. destruct Hkept as (s' & msg & pkt & ? & ? & ? & ? & ? & ? & ? & ? & ? & ?).
    { by destruct Hc as [->| ->]. }
    right. exists spi, sa, s', msg, pkt. by repeat split. }
  destruct c as [[]|[]|e]; cbn; [apply Hk; by left|by left|apply Hk; by right|by left|by left].
Qed.

(** C6. IKE_SA_INIT leaves no half-made SA: whatever the request and however the
    handler ends (also by a panic), the pool of IKE SAs is either unchanged, or it gained
    one SA under a fresh SPI that has keys, the UE's SPI, state 0, the message-ID window
    (1, 0) and no UE, and the last effect is the response that carries this SPI. *)
Theorem HandleIKESAINIT_outcome w n3iwfAddr ueAddr m realMessage1 :
  init_outcome m ueAddr w (final (HandleIKESAINIT n3iwfAddr ueAddr m realMessage1) w).
Proof.
  unfold HandleIKESAINIT. case_decide as Hid; [by left|].
  destruct (in_SA _) as [offered|]; [|by left].
  destruct (SelectProposal _ _ _ _ _) as [|p0 chosen] eqn:Hsel.
  { left. unfold final. assert (stable (keeps IKESA)
      (init_error m n3iwfAddr ueAddr NO_PROPOSAL_CHOSEN [];; ret tt : H unit unit)) as Hk; [|apply Hk].
    exact (stable_bind _ _ _ (init_error_keeps _ _ _ _ _) (λ _, stable_return _ _)). }
  destruct (in_KE _) as [[keGroup keData]|]; [|by left].
  unfold final. rewrite run_bind. destruct (at_ (pr_DH p0) 0) as [dh|e|e]; [|by left..].
  cbn [lift mret prog_ret]. case_decide as Hg.
  { left. assert (stable (keeps IKESA)
      (init_error m n3iwfAddr ueAddr INVALID_KE_PAYLOAD (be_put 2 (tr_ID dh));; ret tt : H unit unit)) as Hk; [|apply Hk].
    exact (stable_bind _ _ _ (init_error_keeps _ _ _ _ _) (λ _, stable_return _ _)). }
  destruct (in_Nonce _) as [nonce|]; [|by left].
  rewrite run_bind, run_draw. destruct (rnd_nonce _) as [localNonce|]; [|by left].
  destruct (handleNATDetect _ _ _ _ _) as [b1 b2]. set (w1 := w <| draws := _ |>).
  assert (∀ w', init_outcome m ueAddr w1 w' → init_outcome m ueAddr w w') as Hw by done. apply Hw.
  apply outcome_new; [|intros sa; apply init_rest_frame].
  intros sa s w2 Hs Hr. destruct (init_rest_kept _ _ _ _ _ _ _ _ _ _ _ _ _ _ _ Hs Hr)
    as (s' & key & pub & msg & pkt & ? & ? & ? & ? & ? & ? & ? & ? & ? & ? & ? & ? & ? & ? & ?).
  exists s', msg, pkt. by repeat split; eauto.
Qed.

End Init.
