(* ===== verification/SaSpec.v ===== *)
(** * The table of IKE SAs as an abstract machine

    What the IKE server promises about its SAs, without packets, payloads and pointers: a
    table from SPIs to the keys, the peer and the progress of an SA, and three ways in which
    it changes. [sa_table] reads this table off the state of the N3IWF; Invariant.v shows
    that every statement of both servers, and IKE_SA_INIT as a whole, is a sequence of steps
    of this machine. *)

From S2P Require Import Prelude Monad NgapTypes NgapMsg IkeMsg Env State Context IkeSaInit.

Section Spec.
Context `{E : Env}.
Implicit Types w : World.

(** An established SA: its keys, the SPI of its peer, and its state. *)
Record SaPhase := mkPhase { ph_key : sakey; ph_remote : Z; ph_state : Z }.

(** An SA appears with keys and a peer under an unused SPI, in the first state; its
    state moves to the next; it is removed. Nothing else happens: in particular keys and peer
    never change, and no SA appears without keys. *)
Inductive table_step : gmap Z SaPhase → gmap Z SaPhase → Prop :=
| step_establish t spi key remote :
    t !! spi = None → table_step t (<[spi := mkPhase key remote 0]> t)
| step_advance t spi key remote n :
    t !! spi = Some (mkPhase key remote n) → table_step t (<[spi := mkPhase key remote (u8 (n + 1))]> t)
| step_remove t spi : table_step t (delete spi t).

Definition phase_of (s : IKESecurityAssociation) : option SaPhase :=
  key ← IKESAKey s; Some (mkPhase key (RemoteSPI s) (State s)).

Definition sa_table_of (pool : gmap Z ref) (heap : gmap ref IKESecurityAssociation) : gmap Z SaPhase :=
  omap (λ r, s ← heap !! r; phase_of s) pool.

Definition sa_table w : gmap Z SaPhase := sa_table_of (IKESA w) (h_sa w).

(** The fields of an SA with a machine width hold values of their types. *)
Record sa_typed (s : IKESecurityAssociation) : Prop := {
  ty_initiator : is_u32 (InitiatorMessageID s);
  ty_responder : is_u32 (ResponderMessageID s);
  ty_state : is_byte (State s);
  ty_eap : is_byte (LastEAPIdentifier s);
}.

(** ** Reading the table *)

Lemma sa_table_lookup pool heap spi :
  sa_table_of pool heap !! spi = (r ← pool !! spi; s ← heap !! r; phase_of s).
Proof. unfold sa_table_of. by rewrite lookup_omap. Qed.

(** Objects outside the pool do not matter. *)
Lemma sa_table_ext pool heap heap' :
  (∀ spi r, pool !! spi = Some r → (s ← heap' !! r; phase_of s) = (s ← heap !! r; phase_of s)) →
  sa_table_of pool heap' = sa_table_of pool heap.
Proof.
  intros He. apply map_eq. intros spi. rewrite !sa_table_lookup.
  destruct (pool !! spi) as [r|] eqn:Hr; [|done]. by apply (He spi).
Qed.

Lemma sa_table_upd pool heap r f :
  (∀ v, phase_of (f v) = phase_of v) → sa_table_of pool (alter f r heap) = sa_table_of pool heap.
Proof.
  intros Hf. apply sa_table_ext. intros spi r' _. destruct (decide (r' = r)) as [->|].
  - rewrite lookup_alter_eq. destruct (heap !! r); cbn; [apply Hf|done].
  - by rewrite lookup_alter_ne.
Qed.

Lemma sa_table_delete pool heap spi : sa_table_of (delete spi pool) heap = delete spi (sa_table_of pool heap).
Proof. apply omap_delete. Qed.

Lemma sa_table_insert pool heap spi r s p :
  heap !! r = Some s → phase_of s = Some p →
  sa_table_of (<[spi := r]> pool) heap = <[spi := p]> (sa_table_of pool heap).
Proof. intros Hr Hs. unfold sa_table_of. apply omap_insert_Some. rewrite Hr. exact Hs. Qed.

(** Keys and peer of an SA that stays. *)
Lemma table_steps_keep t t' spi p :
  rtc table_step t t' → t !! spi = Some p →
  (∃ n, t' !! spi = Some (mkPhase (ph_key p) (ph_remote p) n)) ∨
  ∃ t1, rtc table_step t t1 ∧ rtc table_step t1 t' ∧ t1 !! spi = None.
Proof.
  intros Hs. revert p. induction Hs as [t|t t1 t' H1 Hs IH]; intros p Hp.
  { left. exists (ph_state p). by destruct p. }
  assert ((∃ n, t1 !! spi = Some (mkPhase (ph_key p) (ph_remote p) n)) ∨ t1 !! spi = None) as [[n Hn]|Hn].
  { destruct H1 as [t i key remote Hi|t i key remote n Hi|t i]; destruct (decide (i = spi)) as [->|Hne].
    - congruence.
    - left. exists (ph_state p). rewrite lookup_insert_ne by done. by destruct p.
    - left. exists (u8 (n + 1)). rewrite lookup_insert_eq. rewrite Hp in Hi. by injection Hi as ->.
    - left. exists (ph_state p). rewrite lookup_insert_ne by done. by destruct p.
    - right. apply lookup_delete_eq.
    - left. exists (ph_state p). rewrite lookup_delete_ne by done. by destruct p. }
  - destruct (IH _ Hn) as [?|(t2 & ? & ? & ?)]; [by left|]. right. exists t2. split; [by eapply rtc_l|done].
  - right. exists t1. split; [by eapply rtc_once|done].
Qed.

End Spec.
