(* ===== verification/IkeAuth.v ===== *)
(** * IKE_AUTH (internal/ike/handler.go, HandleIKEAUTH)

    The exchange runs through the states of the IKE SA: PreSignalling (identity, ESP
    proposal, EAP-5G start), EAPSignalling (NAS over EAP, handed to NGAP) and
    PostSignalling (AUTH of the UE, inner address, signalling child SA). *)

From S2P Require Import Prelude Monad NgapTypes NgapMsg IkeMsg Proposals Env State ToyEnv Context Xfrm IkeServer.

(** src/internal/ike/handler.go:252-261 (PreSignalling) *)
Definition PreSignalling : Z := 0.
(** src/internal/ike/handler.go:255-255 (EAPSignalling) *)
Definition EAPSignalling : Z := 1.
(** src/internal/ike/handler.go:256-256 (PostSignalling) *)
Definition PostSignalling : Z := 2.
(** src/internal/ike/handler.go:257-257 (EndSignalling) *)
Definition EndSignalling : Z := 3.
(** src/internal/ike/handler.go:260-260 (HandleCreateChildSA) *)
Definition HandleCreateChildSA : Z := 4.

Section Auth.
Context `{E : Env}.
Implicit Types w : World.

Record AuthPayloads := mkAuth {
  au_IDi : option Payload;
  au_CERT : option Payload;
  au_SA : option (list Proposal);
  au_TSi : option (list TrafficSelector);
  au_TSr : option (list TrafficSelector);
  au_EAP : option EAP;
  au_AUTH : option bytes;
  au_CP : option (list (Z * bytes));
}.

(** src/internal/ike/handler.go:293-318 (Server.HandleIKEAUTH)

    The certificate request is only logged about and not kept. *)
Definition auth_payloads (ps : list Payload) : AuthPayloads :=
  foldl (λ '(mkAuth i c s ti tr e a cp as r) p,
    match p with
    | PIDi t d => mkAuth (Some (PIDi t d)) c s ti tr e a cp
    | PCERT t d => mkAuth i (Some (PCERT t d)) s ti tr e a cp
    | PSA l => mkAuth i c (Some l) ti tr e a cp
    | PTSi l => mkAuth i c s (Some l) tr e a cp
    | PTSr l => mkAuth i c s ti (Some l) e a cp
    | PEAP x => mkAuth i c s ti tr (Some x) a cp
    | PAUTH _ d => mkAuth i c s ti tr e (Some d) cp
    | PCP _ l => mkAuth i c s ti tr e a (Some l)
    | _ => r
    end) (mkAuth None None None None None None None None) ps.

(** A response within the exchange, protected with the SA's key. *)
Definition auth_reply {R} (m : IKEMessage) (sa : ref) (n3iwfAddr ueAddr : UDPAddr) (ps : list Payload) : H R bool :=
  s ← get_sa (Some sa);
  SendIKEMessageToUE n3iwfAddr ueAddr
    (NewMessage (im_InitiatorSPI m) (im_ResponderSPI m) IKE_AUTH true false (im_MessageID m) ps) (IKESAKey s).

(** src/internal/ike/handler.go:535-547 (Server.HandleIKEAUTH)

    The loop that draws an EAP identifier different from the last one; [None] when the
    random source fails. *)
Fixpoint new_eap_identifier {R} (turns : nat) (sa : ref) : H R (option Z) :=
  match turns with
  | O => panic out_of_turns
  | S turns =>
      identifier ← draw rnd_u8;
      match identifier with
      | None => mret None
      | Some identifier =>
          s ← get_sa (Some sa);
          if decide (identifier ≠ LastEAPIdentifier s) then
            upd_sa sa (λ s, s <| LastEAPIdentifier := identifier |>);; mret (Some identifier)
          else new_eap_identifier turns sa
      end
  end.

(** src/internal/ike/handler.go:555-555 (Server.HandleIKEAUTH)

    [ikeSecurityAssociation.State++] on a uint8; also in the other places. *)
Definition shift_state {R} (sa : ref) : H R unit := upd_sa sa (λ s, s <| State ::= λ x, u8 (x + 1) |>).

(** src/internal/ike/handler.go:321-348 (Server.HandleIKEAUTH)

    The initiator's identity. *)
Definition auth_identity (p : AuthPayloads) (sa : ref) : H unit unit :=
  match au_IDi p with
  | None => ret tt
  | Some initiatorID =>
      upd_sa sa (λ s, s <| InitiatorID := Some initiatorID |>);;
      match ike_encode_payloads [initiatorID] with
      | None => ret tt
      | Some idPayloadData =>
          s ← get_sa (Some sa);
          key ← deref (IKESAKey s);
          id ← lift (slice_from idPayloadData 4);
          upd_sa sa (λ s, s <| InitiatorSignedOctets ::= λ o, o ++ prf_i key id |>)
      end
  end.

(** src/internal/ike/handler.go:369-504 (Server.HandleIKEAUTH)

    Certificate, ESP proposal and traffic selectors of the request. *)
Definition auth_offer (m : IKEMessage) (p : AuthPayloads) (sa : ref) (n3iwfAddr ueAddr : UDPAddr) : H unit unit :=
  (match au_CERT p with
   | Some c => upd_sa sa (λ s, s <| InitiatorCertificate := Some c |>)
   | None => mret tt
   end);;
  match au_SA p with
  | None => ret tt
  | Some proposals =>
      match select_esp proposals with
      | [] =>
          auth_reply m sa n3iwfAddr ueAddr [BuildNotification TypeNone NO_PROPOSAL_CHOSEN [] []];;
          ret tt
      | chosen => upd_sa sa (λ s, s <| IKEAuthResponseSA := Some chosen |>)
      end
  end;;
  match au_TSi p with
  | None => ret tt
  | Some tsi => upd_sa sa (λ s, s <| sa_TSi := Some tsi |>)
  end;;
  match au_TSr p with
  | None => ret tt
  | Some tsr => upd_sa sa (λ s, s <| sa_TSr := Some tsr |>)
  end.

(** src/internal/ike/handler.go:321-563 (Server.HandleIKEAUTH)

    PreSignalling. A failed signature is logged and an empty one is sent. *)
Definition auth_pre (m : IKEMessage) (p : AuthPayloads) (sa : ref) (n3iwfAddr ueAddr : UDPAddr) : H unit unit :=
  auth_identity p sa;;
  auth_offer m p sa n3iwfAddr ueAddr;;
  s ← get_sa (Some sa);
  let signedAuth := default [] (rsa_sign (sha1 (ResponderSignedOctets s))) in
  identifier ← new_eap_identifier retry_limit sa;
  match identifier with
  | None => ret tt
  | Some identifier =>
      shift_state sa;;
      auth_reply m sa n3iwfAddr ueAddr
        [PIDr ID_FQDN (str_bytes (cfg_FQDN cfg)); PCERT X509CertificateSignature n3iwf_certificate;
         PAUTH RSADigitalSignature signedAuth; BuildEAP5GStart identifier];;
      mret tt
  end.

(** src/internal/ike/handler.go:565-659 (Server.HandleIKEAUTH)

    EAPSignalling: checks of the EAP response, 5G-Stop, hand-over to NGAP. *)
Definition auth_eap (m : IKEMessage) (p : AuthPayloads) (sa : ref) (conn : Z) (n3iwfAddr ueAddr : UDPAddr) : H unit unit :=
  match au_EAP p with
  | None => mret tt
  | Some e =>
      if decide (eap_Code e ≠ EapCodeResponse) then ret tt
      else
        s ← get_sa (Some sa);
        if decide (eap_Identifier e ≠ LastEAPIdentifier s) then ret tt
        else
          match eap_TypeData e with
          | None | Some (EapOtherType _) => ret tt
          | Some (EapExpanded vendorID vendorType vendorData) =>
              if decide (len vendorData = 0) then ret tt
              else if decide (vendorID ≠ VendorId3GPP) then ret tt
              else if decide (vendorType ≠ VendorTypeEAP5G) then ret tt
              else
                eap5GMessageID ← lift (at_ vendorData 0);
                if decide (eap5GMessageID = EAP5GType5GStop) then
                  identifier ← draw rnd_u8;
                  match identifier with
                  | None => ret tt
                  | Some identifier =>
                      auth_reply m sa n3iwfAddr ueAddr [BuildEAPfailure identifier];; ret tt
                  end
                else
                  ranNgapId ← gets (λ w, default 0 (NgapIdLoad (LocalSPI s) w));
                  SendNgapEvt (UnmarshalEAP5GDataEvt (LocalSPI s) vendorData
                    (bool_decide (is_Some (sa_IkeUE s))) ranNgapId);;
                  upd_sa sa (λ s, s <| sa_IKEConnection := Some (mkSock conn n3iwfAddr ueAddr) |>)
          end
  end.

(** src/internal/ike/handler.go:665-731 (Server.HandleIKEAUTH)

    Verification of the UE's AUTH payload against the key from the AMF; on failure
    AUTHENTICATION_FAILED is sent and the handler returns. The result is the secret. *)
Definition auth_verify (m : IKEMessage) (p : AuthPayloads) (sa : ref) (n3iwfAddr ueAddr : UDPAddr) : H unit bytes :=
  s ← get_sa (Some sa);
  ue ← get_ike (sa_IkeUE s);
  key ← deref (IKESAKey s);
  let secret := prf key (default [] (Kn3iwf ue)) (str_bytes "Key Pad for IKEv2") in
  match au_AUTH p with
  | Some data =>
      if decide (data ≠ prf key secret (InitiatorSignedOctets s)) then
        auth_reply m sa n3iwfAddr ueAddr [BuildNotification TypeNone AUTHENTICATION_FAILED [] []];; ret tt
      else mret secret
  | None =>
      auth_reply m sa n3iwfAddr ueAddr [BuildNotification TypeNone AUTHENTICATION_FAILED [] []];; ret tt
  end.

(** src/internal/ike/handler.go:735-758 (Server.HandleIKEAUTH)

    Whether the UE asks for an inner address. *)
Definition addr_request (cp : option (list (Z * bytes))) : bool :=
  match cp with
  | Some attrs => existsb (λ '(t, _), bool_decide (t = INTERNAL_IP4_ADDRESS)) attrs
  | None => false
  end.

(** src/internal/ike/handler.go:774-806 (Server.HandleIKEAUTH)

    The inner address of the UE. *)
Definition auth_address (p : AuthPayloads) (ikeUE : ref) : H unit bytes :=
  if addr_request (au_CP p) then
    ip ← NewIPsecInnerUEIP ikeUE;
    match ip with
    | None => ret tt
    | Some ip =>
        let ueIPAddr := To4 ip in
        upd_ike ikeUE (λ u, u <| IPSecInnerIP := ueIPAddr |>);;
        ok ← do_io (IoResolve ueIPAddr);
        if (ok : bool) then
          upd_ike ikeUE (λ u, u <| IPSecInnerIPAddr := Some ueIPAddr |>);; mret ueIPAddr
        else ret tt
    end
  else ret tt.

(** src/internal/ike/handler.go:825-842 (Server.HandleIKEAUTH)

    An inbound SPI that is not a key of the ChildSA table. *)
Fixpoint new_inbound_spi {R} (turns : nat) : H R (option Z) :=
  match turns with
  | O => panic out_of_turns
  | S turns =>
      x ← draw rnd_u32;
      match x with
      | None => mret None
      | Some x =>
          pool ← gets ChildSA;
          match pool !! x with
          | None => mret (Some x)
          | Some _ => new_inbound_spi turns
          end
      end
  end.

(** src/internal/ike/handler.go:1995-2025 (Server.parseIPAddressInformationToChildSecurityAssociation) *)
Definition parseIPAddressInformation {R} (child : ref) (uePublicIPAddr : bytes) (tsLocal tsRemote : TrafficSelector)
  : H R unit :=
  upd_child child (λ c, c <| PeerPublicIPAddr := uePublicIPAddr |>
    <| LocalPublicIPAddr := ParseIP (cfg_IKEBindAddr cfg) |>
    <| TrafficSelectorLocal := mkIPNet (ts_StartAddress tsLocal) [255; 255; 255; 255] |>
    <| TrafficSelectorRemote := mkIPNet (ts_StartAddress tsRemote) [255; 255; 255; 255] |>).

(** src/internal/context/ikeue.go:147-197 (ChildSecurityAssociation.String)

    The text is only logged, but it is built unconditionally: the algorithm structures are
    dereferenced. *)
Definition childSA_String {R} (child : ref) : H R unit :=
  c ← get_child child;
  k ← deref (c_ChildSAKey c);
  deref (ck_IntegID k);;
  mret tt.

(** The first proposal of a list replaced by one with another SPI. *)
Definition set_first_spi (ps : list Proposal) (spi : bytes) : list Proposal :=
  match ps with
  | [] => []
  | p :: ps => mkProposal (pr_Number p) (pr_ProtocolID p) spi (pr_Encr p) (pr_Prf p) (pr_Integ p) (pr_DH p) (pr_ESN p) :: ps
  end.

(** src/internal/ike/handler.go:823-881 (Server.HandleIKEAUTH)

    The signalling child SA. The proposal list in the SA is shared with the response
    payload, so the response carries the inbound SPI written here. *)
Definition auth_child (sa ikeUE : ref) (n3iwfAddr ueAddr : UDPAddr) : H unit ref :=
  inbound ← new_inbound_spi retry_limit;
  match inbound with
  | None => ret tt
  | Some inboundSPI =>
      s ← get_sa (Some sa);
      ps ← deref (IKEAuthResponseSA s);
      p0 ← lift (at_ ps 0);
      spi ← lift (slice_to (pr_SPI p0) 4);
      let outboundSPI := be_get spi in
      upd_sa sa (λ s, s <| IKEAuthResponseSA := Some (set_first_spi ps (be_put 4 inboundSPI)) |>);;
      CreateHalfChildSA ikeUE 0x01 inboundSPI (-1);;
      child ← call (CompleteChildSA ikeUE 0x01 outboundSPI (Some (set_first_spi ps (be_put 4 inboundSPI))));
      match child with
      | None => ret tt
      | Some child =>
          s ← get_sa (Some sa);
          tsr ← deref (sa_TSr s); local ← lift (at_ tsr 0);
          tsi ← deref (sa_TSi s); remote ← lift (at_ tsi 0);
          parseIPAddressInformation child (ua_IP ueAddr) local remote;;
          upd_child child (λ c, c <| SelectedIPProtocol := IPPROTO_TCP |>);;
          c ← get_child child;
          ck ← deref (c_ChildSAKey c);
          key ← deref (IKESAKey s);
          match gen_child_sa_key key (ConcatenatedNonce s) ck with
          | None => ret tt
          | Some ck =>
              upd_child child (λ c, c <| c_ChildSAKey := Some ck |>);;
              when (UeBehindNAT s || N3iwfBehindNAT s)
                (upd_child child (λ c, c <| EnableEncapsulate := true |>
                   <| N3IWFPort := ua_Port n3iwfAddr |> <| NATPort := ua_Port ueAddr |>));;
              mret child
          end
      end
  end.

(** src/internal/ike/handler.go:661-926 (Server.HandleIKEAUTH)

    PostSignalling. *)
Definition auth_post (m : IKEMessage) (p : AuthPayloads) (sa : ref) (n3iwfAddr ueAddr : UDPAddr) : H unit unit :=
  secret ← auth_verify m p sa n3iwfAddr ueAddr;
  s ← get_sa (Some sa);
  ikeUE ← deref (sa_IkeUE s);
  key ← deref (IKESAKey s);
  let auth := prf key secret (ResponderSignedOctets s) in
  ueIPAddr ← auth_address p ikeUE;
  let gw := cfg_IPSecGatewayAddr cfg in
  let tsi := [BuildIndividualTrafficSelector ueIPAddr] in
  let tsr := [BuildIndividualTrafficSelector gw] in
  upd_sa sa (λ s, s <| sa_TSi := Some tsi |> <| sa_TSr := Some tsr |>);;
  child ← auth_child sa ikeUE n3iwfAddr ueAddr;
  s ← get_sa (Some sa);
  upd_child child (λ c, c <| LocalIsInitiator := false |>);;
  err ← call (ApplyXFRMRule false (cfg_XfrmIfaceId cfg) child);
  match err with
  | Some _ => ret tt
  | None =>
      childSA_String child;;
      ok ← auth_reply m sa n3iwfAddr ueAddr
        [PAUTH SharedKeyMesageIntegrityCode auth;
         PCP CFG_REPLY [(INTERNAL_IP4_ADDRESS, ueIPAddr); (INTERNAL_IP4_NETMASK, ip_mask)];
         PSA (default [] (IKEAuthResponseSA s)); PTSi tsi; PTSr tsr;
         notify_nas_ip4 gw; notify_nas_tcp_port (cfg_NasTcpPort cfg)];
      if negb ok then ret tt
      else
        ue ← get_ike (Some ikeUE);
        s' ← get_sa (N3IWFIKESecurityAssociation ue);
        ranNgapId ← gets (NgapIdLoad (LocalSPI s'));
        match ranNgapId with
        | None => ret tt
        | Some ranNgapId =>
            shift_state sa;;
            SendNgapEvt (StartTCPSignalNASMsgEvt ranNgapId);;
            SendNgapEvt (GetNGAPContextEvt ranNgapId [CxtTempPDUSessionSetupData])
        end
  end.

(** src/internal/ike/handler.go:263-928 (Server.HandleIKEAUTH) *)
Definition HandleIKEAUTH (conn : Z) (n3iwfAddr ueAddr : UDPAddr) (m : IKEMessage) (sa : ref) : H unit unit :=
  upd_sa sa (λ s, s <| InitiatorMessageID := u32 (im_MessageID m + 1) |>);;
  let p := auth_payloads (im_Payloads m) in
  s ← get_sa (Some sa);
  if decide (State s = PreSignalling) then auth_pre m p sa n3iwfAddr ueAddr
  else if decide (State s = EAPSignalling) then auth_eap m p sa conn n3iwfAddr ueAddr
  else if decide (State s = PostSignalling) then auth_post m p sa n3iwfAddr ueAddr
  else mret tt.

(** ** Frames of the loops *)
Lemma new_inbound_spi_keeps {R A} (f : World → A) `{!Outside f} turns :
  stable (keeps f) (new_inbound_spi turns : H R (option Z)).
Proof.
  induction turns as [|turns IH]; [exact (stable_panic _ _)|]. cbn [new_inbound_spi]. unfold draw.
  repeat (stable_step || apply IH). intros w. apply outside_draws.
Qed.

Lemma new_eap_identifier_keeps {R A} (f : World → A) `{!Outside f} turns sa :
  (∀ i, stable (keeps f) (upd_sa sa (λ s, s <| LastEAPIdentifier := i |>) : H R unit)) →
  stable (keeps f) (new_eap_identifier turns sa : H R (option Z)).
Proof.
  intros Hu. induction turns as [|turns IH]; [exact (stable_panic _ _)|]. cbn [new_eap_identifier]. unfold draw, get_sa.
  repeat (stable_step || apply IH || apply Hu). intros w. apply outside_draws.
Qed.

End Auth.

#[export] Hint Extern 1 (stable (keeps _) (new_inbound_spi _)) =>
  apply new_inbound_spi_keeps; typeclasses eauto : go_rules.
#[export] Hint Extern 1 (stable (keeps _) (new_eap_identifier _ _)) =>
  apply new_eap_identifier_keeps; [typeclasses eauto|intros ?; auto with go_rules nocore] : go_rules.

Section AuthTheorems.
Context `{E : Env}.
Implicit Types w : World.

Lemma auth_rest_keeps_window m p sa n3 ue conn :
  stable (keeps (sa_field InitiatorMessageID sa)) (auth_pre m p sa n3 ue) ∧
  stable (keeps (sa_field InitiatorMessageID sa)) (auth_eap m p sa conn n3 ue) ∧
  stable (keeps (sa_field InitiatorMessageID sa)) (auth_post m p sa n3 ue).
Proof.
  split; [|split].
  - unfold auth_pre, auth_identity, auth_offer, shift_state, auth_reply, SendIKEMessageToUE. keeps_auto.
  - unfold auth_eap, auth_reply, SendIKEMessageToUE. keeps_auto.
  - unfold auth_post, auth_verify, auth_address, NewIPsecInnerUEIP, auth_child, CreateHalfChildSA, CompleteChildSA,
      parseIPAddressInformation, ApplyXFRMRule, childSA_String, shift_state, auth_reply, SendIKEMessageToUE. keeps_auto.
Qed.

(** C9. The message-ID window moves with the first statement of IKE_AUTH: whatever
    the state of the SA, the content of the message and the outcome (early returns and
    panics included), the SA expects the message ID after the one received, so the same
    request delivered again is refused. *)
Theorem HandleIKEAUTH_window w conn n3 ue m sa s :
  h_sa w !! sa = Some s → is_u32 (im_MessageID m) → im_Response m = false →
  let w' := final (HandleIKEAUTH conn n3 ue m sa) w in
  ∃ s', h_sa w' !! sa = Some s' ∧ InitiatorMessageID s' = u32 (im_MessageID m + 1) ∧
    hasExpectedMessageID m s' = false.
Proof.
  intros Hs Hid Hr. cbn zeta. set (w' := final _ w).
  set (w1 := w <| h_sa ::= alter (λ s, s <| InitiatorMessageID := u32 (im_MessageID m + 1) |>) sa |>).
  assert (sa_field InitiatorMessageID sa w1 = Some (u32 (im_MessageID m + 1))) as H1.
  { unfold sa_field. cbn -[alter]. by rewrite lookup_alter_eq, Hs. }
  assert (keeps (sa_field InitiatorMessageID sa) w1 w') as Hk.
  { unfold w', final, HandleIKEAUTH. rewrite run_bind. cbn [upd_sa modify]. fold w1.
    match goal with |- keeps _ _ (?m0 w1).2 => enough (stable (keeps (sa_field InitiatorMessageID sa)) m0) as Hst by apply Hst end.
    destruct (auth_rest_keeps_window m (auth_payloads (im_Payloads m)) sa n3 ue conn) as (? & ? & ?).
    unfold get_sa. repeat stable_step; done. }
  unfold keeps in Hk. rewrite H1 in Hk. unfold sa_field in Hk.
  destruct (h_sa w' !! sa) as [s'|]; [|done]. injection Hk as Hk. exists s'. split; [done|]. split; [done|].
  unfold hasExpectedMessageID. rewrite Hr, Hk. apply bool_decide_eq_false. unfold u32, is_u32 in *.
  destruct (decide (im_MessageID m + 1 < 2 ^ 32)).
  - rewrite Z.mod_small; lia.
  - replace (im_MessageID m + 1) with (1 * 2 ^ 32) by lia. rewrite Z.mod_mul; lia.
Qed.

(** C7. No authentication, no effect: in PostSignalling, when the AUTH payload is
    missing or is not the value computed from the AMF's key for this UE, the handler
    changes nothing but the message-ID window, and sends at most one message, the
    notification AUTHENTICATION_FAILED: no address, child SA, kernel rule, event or state
    change. *)
Theorem auth_failure_no_effect w conn n3 ue m sa s u usr key :
  h_sa w !! sa = Some s → State s = PostSignalling → sa_IkeUE s = Some u → h_ike w !! u = Some usr →
  IKESAKey s = Some key →
  au_AUTH (auth_payloads (im_Payloads m)) ≠
    Some (prf key (prf key (default [] (Kn3iwf usr)) (str_bytes "Key Pad for IKEv2")) (InitiatorSignedOctets s)) →
  ∃ t, HandleIKEAUTH conn n3 ue m sa w =
      (Return tt, w <| h_sa ::= alter (λ s, s <| InitiatorMessageID := u32 (im_MessageID m + 1) |>) sa |>
                    <| trace := t |>) ∧
    (t = trace w ∨ ∃ msg pkt, t = IoIke msg pkt ue :: trace w ∧
       im_Payloads msg = [BuildNotification TypeNone AUTHENTICATION_FAILED [] []]).
Proof.
  intros Hs Hst Hu Husr Hkey Hauth. unfold HandleIKEAUTH. rewrite run_bind. cbn [upd_sa modify].
  set (w1 := w <| h_sa ::= _ |>). set (s1 := s <| InitiatorMessageID := u32 (im_MessageID m + 1) |>).
  assert (h_sa w1 !! sa = Some s1) as Hs1 by (cbn -[alter]; by rewrite lookup_alter_eq, Hs).
  rewrite run_bind, (run_get_sa w1 sa s1 Hs1). change (State s1) with (State s). rewrite Hst.
  rewrite decide_False, decide_False, decide_True by done.
  unfold auth_post, auth_verify. do 2 rewrite run_bind. rewrite (run_get_sa w1 sa s1 Hs1).
  change (sa_IkeUE s1) with (sa_IkeUE s). rewrite run_bind, Hu, (run_get_ike w1 u usr Husr).
  rewrite run_bind. change (IKESAKey s1) with (IKESAKey s). rewrite Hkey. cbn [deref mret prog_ret].
  change (InitiatorSignedOctets s1) with (InitiatorSignedOctets s).
  set (bad := (_ ;; ret tt : H unit bytes)).
  assert (∃ t, bad w1 = (Return tt, w1 <| trace := t |>) ∧ (t = trace w ∨ ∃ msg pkt, t = IoIke msg pkt ue :: trace w ∧
       im_Payloads msg = [BuildNotification TypeNone AUTHENTICATION_FAILED [] []])) as (t & Hbad & Ht).
  { unfold bad, auth_reply. do 2 rewrite run_bind. rewrite (run_get_sa w1 sa s1 Hs1).
    unfold SendIKEMessageToUE. destruct (ike_encode_encrypt _ _) as [pkt|].
    - eexists. split; [reflexivity|]. right. by do 2 eexists.
    - exists (trace w). split; [|by left]. cbn. f_equal. }
  exists t. split; [|done]. destruct (au_AUTH _) as [data|]; [|by rewrite Hbad].
  rewrite decide_True by congruence. by rewrite Hbad.
Qed.

End AuthTheorems.

(** ** Applications to concrete states *)
#[local] Existing Instance toy.

(** An IKE SA in PostSignalling whose UE has a key from the AMF. *)
Definition auth_sa : IKESecurityAssociation :=
  zero_SA <| IKESAKey := Some [5] |> <| LocalSPI := 100 |> <| State := PostSignalling |>
    <| sa_IkeUE := Some 2%nat |> <| InitiatorMessageID := 4 |>.
Definition auth_world : World :=
  world0 all_ok <| IKESA := {[ 100 := 1%nat ]} |> <| h_sa := {[ 1%nat := auth_sa ]} |>
    <| h_ike := {[ 2%nat := init_IkeUe <| Kn3iwf := Some [6] |> ]} |>.
Definition auth_msg : IKEMessage := mkMsg 7 100 IKE_AUTH false true 4 [PAUTH 2 [0]].

Lemma HandleIKEAUTH_window_witness :
  ∃ s', h_sa (final (HandleIKEAUTH 0 n3_addr ue_addr auth_msg 1%nat) auth_world) !! 1%nat = Some s' ∧
    InitiatorMessageID s' = 5 ∧ hasExpectedMessageID auth_msg s' = false.
Proof. by apply (HandleIKEAUTH_window auth_world 0 n3_addr ue_addr auth_msg 1%nat auth_sa). Defined.

Lemma auth_failure_no_effect_witness :
  ∃ t, HandleIKEAUTH 0 n3_addr ue_addr auth_msg 1%nat auth_world =
    (Return tt, auth_world <| h_sa ::= alter (λ s, s <| InitiatorMessageID := 5 |>) 1%nat |> <| trace := t |>).
Proof.
  destruct (auth_failure_no_effect auth_world 0 n3_addr ue_addr auth_msg 1%nat auth_sa 2%nat
    (init_IkeUe <| Kn3iwf := Some [6] |>) [5]) as (t & Ht & _); [reflexivity..|done|].
  exists t. exact Ht.
Defined.
