(* ===== verification/IkeEvents.v ===== *)
(** * Child SAs, INFORMATIONAL and the events of the IKE server (internal/ike/handler.go)

    CREATE_CHILD_SA and the set-up loop for PDU sessions, INFORMATIONAL with its Delete
    payload, dead-peer detection, the handlers of the events that NGAP sends, and the
    dispatchers. The loop over the unactivated sessions reads and writes the temporary
    set-up data that NGAP shares by pointer. *)

From stdpp Require Import pretty.
From S2P Require Import Prelude Monad NgapTypes NgapMsg IkeMsg Proposals Env State Context Xfrm IkeServer IkeSaInit IkeAuth.

Section Events.
Context `{E : Env}.
Implicit Types w : World.

(** ** Set-up of PDU sessions *)

(** src/internal/ike/handler.go:1559-1640 (Server.CreatePDUSessionChildSA)

    The request for one session, up to the traffic selectors: [None] when the loop is left
    ([break]) because the encryption transform cannot be expressed. *)
Definition child_sa_request (ikeUe sa : ref) (pdu : PDUSession) : H unit (option (list Payload)) :=
  x ← new_inbound_spi retry_limit;
  match x with
  | None => ret tt
  | Some spi =>
      s ← get_sa (Some sa);
      key ← deref (IKESAKey s);
      match encr_transform key with
      | None => mret None
      | Some encr =>
          let proposal := mkProposal 1 TypeESP (be_put 4 spi) [encr] []
            (if SecurityIntegrity pdu then [integ_transform key] else []) []
            [mkTransform TypeExtendedSequenceNumbers ESN_DISABLE false 0] in
          CreateHalfChildSA ikeUe (ResponderMessageID s) spi (pdu_Id pdu);;
          nonce ← draw rnd_nonce;
          match nonce with
          | None => ret tt
          | Some nonceData =>
              upd_sa sa (λ s, s <| ConcatenatedNonce := nonceData |>);;
              ue ← get_ike (Some ikeUe);
              mret (Some [PSA [proposal]; PNonce nonceData;
                          PTSi [BuildIndividualTrafficSelector (cfg_IPSecGatewayAddr cfg)];
                          PTSr [BuildIndividualTrafficSelector (To4 (IPSecInnerIP ue))]])
          end
      end
  end.

(** src/internal/ike/handler.go:1555-1680 (Server.CreatePDUSessionChildSA)

    One turn of the loop: whether it goes on. *)
Definition create_turn (ikeUe sa tmp : ref) (ranNgapId : Z) : H unit bool :=
  t ← get_temp (Some tmp);
  if decide (len (UnactivatedPDUSession t) > Index t) then
    p ← lift (at_ (UnactivatedPDUSession t) (Index t));
    pdu ← get_pdu (Some p);
    payload ← child_sa_request ikeUe sa pdu;
    match payload with
    | None => mret false
    | Some payload =>
        if decide (pdu_Id pdu < 0 ∨ pdu_Id pdu > MaxUint8) then mret false
        else
          match notify_5g_qos (pdu_Id pdu) (QFIList pdu) with
          | None => mret false
          | Some qos =>
              upd_temp tmp (λ t, t <| Index ::= λ i, i + 1 |>);;
              s ← get_sa (Some sa);
              conn ← deref (sa_IKEConnection s);
              ok ← SendIKEMessageToUE (us_N3IWFAddr conn) (us_UEAddr conn)
                (NewMessage (RemoteSPI s) (LocalSPI s) CREATE_CHILD_SA false false (ResponderMessageID s)
                   (payload ++ [qos; notify_up_ip4 (cfg_IPSecGatewayAddr cfg)])) (IKESAKey s);
              if (ok : bool) then
                upd_temp tmp (λ t, t <| FailedErrStr ::= λ l, l ++ [ErrNil] |>);; mret false
              else
                upd_temp tmp (λ t, t <| FailedErrStr ::= λ l, l ++ [ErrTransportResourceUnavailable] |>);; mret true
          end
    end
  else
    SendNgapEvt (SendPDUSessionResourceSetupResEvt ranNgapId);; mret false.

(** src/internal/ike/handler.go:1554-1681 (Server.CreatePDUSessionChildSA) *)
Fixpoint create_loop (fuel : nat) (ikeUe sa tmp : ref) (ranNgapId : Z) : H unit unit :=
  match fuel with
  | O => panic out_of_turns
  | S fuel =>
      go_on ← create_turn ikeUe sa tmp ranNgapId;
      if (go_on : bool) then create_loop fuel ikeUe sa tmp ranNgapId else mret tt
  end.

(** src/internal/ike/handler.go:1536-1682 (Server.CreatePDUSessionChildSA)

    A turn that goes on has advanced the index, so one turn more than there are sessions
    is enough. A nil session list is read only inside the loop. *)
Definition CreatePDUSessionChildSA (ikeUe : ref) (tmp : option ref) : H unit unit :=
  ue ← get_ike (Some ikeUe);
  sa ← deref (N3IWFIKESecurityAssociation ue);
  s ← get_sa (Some sa);
  ranNgapId ← gets (NgapIdLoad (LocalSPI s));
  match ranNgapId with
  | None => ret tt
  | Some ranNgapId =>
      r ← deref tmp;
      t ← get_temp (Some r);
      create_loop (S (length (UnactivatedPDUSession t))) ikeUe sa r ranNgapId
  end.

(** ** CREATE_CHILD_SA *)

(** src/internal/ike/handler.go:953-968 (Server.HandleCREATECHILDSA) *)
Definition child_payloads (ps : list Payload) :
  option (list Proposal) * option bytes * option (list TrafficSelector) * option (list TrafficSelector) :=
  foldl (λ '(s, n, ti, tr) p,
    match p with
    | PSA l => (Some l, n, ti, tr)
    | PNonce d => (s, Some d, ti, tr)
    | PTSi l => (s, n, Some l, tr)
    | PTSr l => (s, n, ti, Some l)
    | _ => (s, n, ti, tr)
    end) (None, None, None, None) ps.

(** src/internal/ike/handler.go:930-1011 (Server.HandleCREATECHILDSA) *)
Definition HandleCREATECHILDSA (n3iwfAddr ueAddr : UDPAddr) (m : IKEMessage) (sa : ref) : H unit unit :=
  s ← get_sa (Some sa);
  conn ← deref (sa_IKEConnection s);
  if negb (IP_Equal (ua_IP (us_UEAddr conn)) (ua_IP ueAddr)) ||
     negb (IP_Equal (ua_IP (us_N3IWFAddr conn)) (ua_IP n3iwfAddr)) then ret tt
  else
    match child_payloads (im_Payloads m) with
    | (Some ps, Some nonce, Some tsi, Some tsr) =>
        upd_sa sa (λ s, s <| ConcatenatedNonce ::= λ n, n ++ nonce |>
                          <| TemporaryIkeMsg := Some (mkTempMsg ps tsi tsr) |>);;
        ranNgapId ← gets (NgapIdLoad (LocalSPI s));
        match ranNgapId with
        | None => ret tt
        | Some ranNgapId => SendNgapEvt (GetNGAPContextEvt ranNgapId [CxtTempPDUSessionSetupData])
        end
    | _ => ret tt
    end.

(** src/internal/ike/handler.go:1107-1140 (Server.continueCreateChildSA)

    The XFRM interface of the session: the default one for the first session, a new
    one for every further session. The result is its identifier. *)
Definition child_interface (ue : N3IWFIkeUe) (child : ref) : H unit Z :=
  let id := cfg_XfrmIfaceId cfg in
  if decide (PduSessionListLen ue > 1) then
    offset ← gets XfrmIfaceIdOffsetForUP;
    parent ← gets XfrmParentIfaceName;
    let newXfrmiId := u32 (id + (u32 (id + offset))) in
    link ← call (SetupIPsecXfrmi (cfg_XfrmIfaceName cfg +:+ "-" +:+ pretty newXfrmiId) parent newXfrmiId
                   (mkIPNet (cfg_IPSecGatewayAddr cfg) ip_mask));
    match link with
    | None => ret tt
    | Some link =>
        modify (λ w, w <| XfrmIfaces ::= λ m, match m !! newXfrmiId with Some _ => m | None => <[newXfrmiId := link]> m end |>);;
        upd_child child (λ c, c <| XfrmIface := Some link |>);;
        modify (λ w, w <| XfrmIfaceIdOffsetForUP ::= λ o, u32 (o + 1) |>);;
        mret newXfrmiId
    end
  else
    ifaces ← gets XfrmIfaces;
    match ifaces !! id with
    | None => ret tt
    | Some link => upd_child child (λ c, c <| XfrmIface := Some link |>);; mret id
    end.

(** src/internal/ike/handler.go:1040-1105 (Server.continueCreateChildSA)

    The child SA of the answered request, with addresses, keys and NAT ports. An empty
    selector list in the stored message is filled in place. *)
Definition child_complete (sa ikeUe : ref) : H unit ref :=
  s ← get_sa (Some sa);
  t ← deref (TemporaryIkeMsg s);
  match it_SecurityAssociation t with
  | [] => ret tt
  | proposal :: _ =>
      if decide (length (pr_SPI proposal) ≠ 4%nat) then ret tt
      else
        child ← call (CompleteChildSA ikeUe (ResponderMessageID s) (be_get (pr_SPI proposal))
                        (Some (it_SecurityAssociation t)));
        match child with
        | None => ret tt
        | Some child =>
            ue ← get_ike (Some ikeUe);
            let tsi := match it_TSi t with [] => [BuildIndividualTrafficSelector (ParseIP (cfg_IPSecGatewayAddr cfg))] | l => l end in
            let tsr := match it_TSr t with [] => [BuildIndividualTrafficSelector (IPSecInnerIP ue)] | l => l end in
            upd_sa sa (λ s, s <| TemporaryIkeMsg := Some (mkTempMsg (it_SecurityAssociation t) tsi tsr) |>);;
            conn ← deref (sa_IKEConnection s);
            local ← lift (at_ tsi 0); remote ← lift (at_ tsr 0);
            parseIPAddressInformation child (ua_IP (us_UEAddr conn)) local remote;;
            upd_child child (λ c, c <| SelectedIPProtocol := IPPROTO_GRE |>);;
            c ← get_child child;
            ck ← deref (c_ChildSAKey c);
            key ← deref (IKESAKey s);
            match gen_child_sa_key key (ConcatenatedNonce s) ck with
            | None => ret tt
            | Some ck =>
                upd_child child (λ c, c <| c_ChildSAKey := Some ck |>);;
                when (UeBehindNAT s || N3iwfBehindNAT s)
                  (upd_child child (λ c, c <| EnableEncapsulate := true |>
                     <| N3IWFPort := ua_Port (us_N3IWFAddr conn) |> <| NATPort := ua_Port (us_UEAddr conn) |>));;
                mret child
            end
        end
  end.

(** src/internal/ike/handler.go:1013-1166 (Server.continueCreateChildSA) *)
Definition continueCreateChildSA (sa : ref) (tmp : option ref) : H unit unit :=
  s ← get_sa (Some sa);
  match sa_IkeUE s, tmp with
  | Some ikeUe, Some tmp =>
      t ← get_temp (Some tmp);
      if decide (UnactivatedPDUSession t = []) then ret tt
      else
        child ← child_complete sa ikeUe;
        ue ← get_ike (Some ikeUe);
        newXfrmiId ← child_interface ue child;
        upd_child child (λ c, c <| LocalIsInitiator := true |>);;
        err ← call (ApplyXFRMRule true newXfrmiId child);
        match err with
        | Some _ => ret tt
        | None =>
            childSA_String child;;
            ranNgapId ← gets (NgapIdLoad (LocalSPI s));
            match ranNgapId with
            | None => ret tt
            | Some ranNgapId =>
                SendNgapEvt (SendNASMsgEvt ranNgapId);;
                upd_temp tmp (λ t, t <| FailedErrStr ::= λ l, l ++ [ErrNil] |>);;
                upd_sa sa (λ s, s <| ResponderMessageID ::= λ x, u32 (x + 1) |>);;
                call (CreatePDUSessionChildSA ikeUe (Some tmp))
            end
        end
  | _, _ => ret tt
  end.

(** ** INFORMATIONAL *)

(** src/internal/ike/handler.go:2122-2140 (Server.deleteChildSAFromSPIList)

    The child SA with an outbound SPI: the first found in the order of the range.
    [Err]: the session list is empty. *)
Fixpoint find_child {R} (spi : Z) (l : list (Z * ref)) : H R (option (ref * ChildSecurityAssociation)) :=
  match l with
  | [] => mret None
  | (_, child) :: l =>
      c ← get_child child;
      if decide (OutboundSPI c = spi) then mret (Some (child, c)) else find_child spi l
  end.

(** src/internal/ike/handler.go:2114-2147 (Server.deleteChildSAFromSPIList)

    The inbound SPIs and the sessions of the deleted child SAs; [None] on an error. *)
Fixpoint deleteChildSAFromSPIList (ikeUe : ref) (spiList deleteSPIs deletePduIds : list Z)
  : H (option (list Z * list Z)) (option (list Z * list Z)) :=
  match spiList with
  | [] => mret (Some (deleteSPIs, deletePduIds))
  | spi :: spiList =>
      ue ← get_ike (Some ikeUe);
      l ← range_map (N3IWFChildSecurityAssociation ue);
      found ← find_child spi l;
      match found with
      | None => deleteChildSAFromSPIList ikeUe spiList deleteSPIs deletePduIds
      | Some (child, c) =>
          match PDUSessionIds c with
          | [] => ret None
          | session :: _ =>
              err ← call (DeleteChildSA ikeUe child);
              match err with
              | Some _ => ret None
              | None =>
                  deleteChildSAFromSPIList ikeUe spiList (deleteSPIs ++ [InboundSPI c]) (deletePduIds ++ [session])
              end
          end
      end
  end.

(** src/internal/ike/handler.go:1822-1866 (Server.handleDeletePayload)

    The payloads of the response; [None] on an error. *)
Definition handleDeletePayload (protocol : Z) (spis : list Z) (isResponse : bool) (sa : ref)
  : H (option (list Payload)) (option (list Payload)) :=
  s ← get_sa (Some sa);
  ikeUe ← deref (sa_IkeUE s);
  ue ← get_ike (Some ikeUe);
  s' ← get_sa (N3IWFIKESecurityAssociation ue);
  ranNgapId ← gets (NgapIdLoad (LocalSPI s'));
  match ranNgapId with
  | None => ret None
  | Some ranNgapId =>
      if decide (protocol = TypeIKE) then
        err ← (if isResponse then mret None else call (IkeUe_Remove ikeUe));
        match err with
        | Some _ => ret None
        | None => SendNgapEvt (SendUEContextReleaseEvt ranNgapId);; mret (Some [])
        end
      else if decide (protocol = TypeESP) then
        if isResponse then
          SendNgapEvt (SendPDUSessionResourceReleaseEvt ranNgapId []);; mret (Some [])
        else
          r ← call (deleteChildSAFromSPIList ikeUe spis [] []);
          match r with
          | None => ret None
          | Some (deletSPIs, deletPduIds) =>
              SendNgapEvt (SendPDUSessionResourceReleaseEvt ranNgapId deletPduIds);;
              mret (Some [PD TypeESP 4 (u16 (len deletSPIs)) deletSPIs])
          end
      else ret None
  end.

(** src/internal/ike/handler.go:1189-1198 (Server.HandleInformational) *)
Definition delete_payload (ps : list Payload) : option (Z * list Z) :=
  foldl (λ o p, match p with PD proto _ _ spis => Some (proto, spis) | _ => o end) None ps.

(** src/internal/ike/handler.go:1168-1217 (Server.HandleInformational) *)
Definition HandleInformational (n3iwfAddr ueAddr : UDPAddr) (m : IKEMessage) (sa : ref) : H unit unit :=
  s ← get_sa (Some sa);
  ue ← get_ike (sa_IkeUE s);
  r ← deref (N3IWFIKESecurityAssociation ue);
  s' ← get_sa (Some r);
  when (DPDReqRetransTimer s')
    (upd_sa r (λ s, s <| DPDReqRetransTimer := false |> <| CurrentRetryTimes := 0 |>));;
  response ←
    match delete_payload (im_Payloads m) with
    | None => mret []
    | Some (proto, spis) =>
        o ← call (handleDeletePayload proto spis (im_Response m) sa);
        match o with None => ret tt | Some ps => mret ps end
    end;
  if im_Response m then
    upd_sa sa (λ s, s <| ResponderMessageID ::= λ x, u32 (x + 1) |>)
  else
    s ← get_sa (Some sa);
    SendUEInformationExchange s (IKESAKey s) response false true (im_MessageID m) ueAddr n3iwfAddr;;
    upd_sa sa (λ s, s <| InitiatorMessageID ::= λ x, u32 (x + 1) |>).

(** ** Dead-peer detection *)

(** src/internal/ike/handler.go:1684-1737 (Server.StartDPD)

    The part before the ticker loop: whether the loop runs. *)
Definition StartDPD (ikeUe : ref) : H unit bool :=
  ue ← get_ike (Some ikeUe);
  r ← deref (N3IWFIKESecurityAssociation ue);
  if cfg_LivenessEnable cfg then upd_sa r (λ s, s <| IsUseDPD := true |>);; mret true
  else mret false.

(** src/internal/ike/handler.go:1709-1718 (Server.StartDPD)

    A tick of the liveness ticker. *)
Definition dpd_tick (ikeUe : ref) : H unit unit :=
  ue ← get_ike (Some ikeUe);
  r ← deref (N3IWFIKESecurityAssociation ue);
  s ← get_sa (Some r);
  conn ← deref (ue_IKEConnection ue);
  SendUEInformationExchange s (IKESAKey s) [] false false (ResponderMessageID s) (us_UEAddr conn) (us_N3IWFAddr conn);;
  upd_sa r (λ s, s <| DPDReqRetransTimer := true |>).

(** src/internal/context/timer.go:13-38 (NewDPDPeriodicTimer)

    A tick of the retransmission timer with the cancel function of StartDPD. The retry
    limit the timer is created with does not occur in the condition. *)
Definition dpd_timeout (sa : ref) (maxRetryTimes : Z) : H unit unit :=
  upd_sa sa (λ s, s <| CurrentRetryTimes ::= λ x, x + 1 |>);;
  s ← get_sa (Some sa);
  if decide (CurrentRetryTimes s > 0) then
    ranNgapId ← gets (NgapIdLoad (LocalSPI s));
    match ranNgapId with
    | None => ret tt
    | Some ranNgapId =>
        SendNgapEvt (SendUEContextReleaseRequestEvt ranNgapId ErrRadioConnWithUeLost);;
        upd_sa sa (λ s, s <| DPDReqRetransTimer := false |>)
    end
  else mret tt.

(** ** Events from NGAP *)

(** The SA of an event; a nil one panics at its first use. *)
Definition event_sa {R} (localSPI : Z) : H R ref := o ← gets (IKESALoad localSPI); deref o.

(** A message of the EAP exchange to the UE of an SA. *)
Definition eap_send {R} (sa : ref) (p : Payload) : H R bool :=
  s ← get_sa (Some sa);
  conn ← deref (sa_IKEConnection s);
  SendIKEMessageToUE (us_N3IWFAddr conn) (us_UEAddr conn)
    (NewMessage (RemoteSPI s) (LocalSPI s) IKE_AUTH true false (u32 (InitiatorMessageID s - 1)) [p]) (IKESAKey s).

(** src/internal/ike/handler.go:1248-1276 (Server.HandleUnmarshalEAP5GDataResponse) *)
Definition HandleUnmarshalEAP5GDataResponse (localSPI ranUeNgapId : Z) (nasPDU : bytes) : H unit unit :=
  o ← gets (IKESALoad localSPI);
  ikeUe ← NewN3iwfIkeUe localSPI;
  sa ← deref o;
  s ← get_sa (Some sa);
  upd_sa sa (λ s, s <| sa_IkeUE := Some ikeUe |>);;
  upd_ike ikeUe (λ u, u <| N3IWFIKESecurityAssociation := Some sa |> <| ue_IKEConnection := sa_IKEConnection s |>);;
  modify (IkeSpiNgapIdMapping (LocalSPI s) ranUeNgapId);;
  conn ← deref (sa_IKEConnection s);
  SendNgapEvt (SendInitialUEMessageEvt ranUeNgapId (To4 (ua_IP (us_UEAddr conn))) (ua_Port (us_UEAddr conn)) nasPDU).

(** src/internal/ike/handler.go:1278-1312 (Server.HandleSendEAP5GFailureMsg) *)
Definition HandleSendEAP5GFailureMsg (localSPI : Z) (errMsg : EvtError) : H unit unit :=
  identifier ← draw rnd_u8;
  match identifier with
  | None => ret tt
  | Some identifier =>
      sa ← event_sa localSPI;
      eap_send sa (BuildEAPfailure identifier);; mret tt
  end.

(** src/internal/ike/handler.go:1314-1368 (Server.HandleSendEAPSuccessMsg) *)
Definition HandleSendEAPSuccessMsg (localSPI : Z) (kn3iwf : option bytes) (pduSessionListLen : Z) : H unit unit :=
  sa ← event_sa localSPI;
  s ← get_sa (Some sa);
  u ← deref (sa_IkeUE s);
  when (bool_decide (is_Some kn3iwf)) (upd_ike u (λ u, u <| Kn3iwf := kn3iwf |>));;
  upd_ike u (λ u, u <| PduSessionListLen := pduSessionListLen |>);;
  identifier ← new_eap_identifier retry_limit sa;
  match identifier with
  | None => ret tt
  | Some identifier =>
      ok ← eap_send sa (BuildEAPSuccess identifier);
      if negb ok then ret tt else shift_state sa
  end.

(** src/internal/ike/handler.go:1370-1417 (Server.HandleSendEAPNASMsg) *)
Definition HandleSendEAPNASMsg (localSPI : Z) (nasPDU : bytes) : H unit unit :=
  sa ← event_sa localSPI;
  identifier ← new_eap_identifier retry_limit sa;
  match identifier with
  | None => ret tt
  | Some identifier =>
      match eap_5g_nas identifier nasPDU with
      | None => ret tt
      | Some e => eap_send sa (PEAP e);; mret tt
      end
  end.

(** src/internal/ike/handler.go:1419-1434 (Server.HandleCreatePDUSession) *)
Definition HandleCreatePDUSession (localSPI pduSessionListLen : Z) (tmp : option ref) : H unit unit :=
  sa ← event_sa localSPI;
  s ← get_sa (Some sa);
  u ← deref (sa_IkeUE s);
  upd_ike u (λ u, u <| PduSessionListLen := pduSessionListLen |>);;
  call (CreatePDUSessionChildSA u tmp).

(** src/internal/ike/handler.go:1455-1466 (Server.removeIkeUe) *)
Definition removeIkeUe (localSPI : Z) : H error error :=
  o ← gets (IkeUePoolLoad localSPI);
  match o with
  | None => ret (Some "Cannot get IkeUE from SPI"%string)
  | Some u =>
      err ← call (IkeUe_Remove u);
      match err with Some _ => ret (Some "Delete IkeUe error"%string) | None => mret None end
  end.

(** src/internal/ike/handler.go:1436-1453 (Server.HandleIKEDeleteEvt) *)
Definition HandleIKEDeleteEvt (localSPI : Z) : H unit unit :=
  call (SendIKEDeleteRequest localSPI);;
  call (removeIkeUe localSPI);;
  mret tt.

(** src/internal/ike/handler.go:1468-1482 (Server.HandleSendChildSADeleteRequest) *)
Definition HandleSendChildSADeleteRequest (localSPI : Z) (releaseIdList : list Z) : H unit unit :=
  o ← gets (IkeUePoolLoad localSPI);
  match o with
  | None => ret tt
  | Some u => call (SendChildSADeleteRequest u releaseIdList)
  end.

(** src/internal/ike/handler.go:1484-1501 (Server.HandleIKEContextUpdate) *)
Definition HandleIKEContextUpdate (localSPI : Z) (kn3iwf : option bytes) : H unit unit :=
  o ← gets (IkeUePoolLoad localSPI);
  match o with
  | None => ret tt
  | Some u => when (bool_decide (is_Some kn3iwf)) (upd_ike u (λ u, u <| Kn3iwf := kn3iwf |>))
  end.

(** src/internal/ike/handler.go:1515-1524 (Server.HandleGetNGAPContextResponse)

    The set-up data in the answer: the value at the position of the last request number
    that asks for it. *)
Fixpoint context_temp (nums : list Z) (i : Z) (values : list (option ref)) (tmp : option ref) : res (option ref) :=
  match nums with
  | [] => Ok tmp
  | num :: nums =>
      if decide (num = CxtTempPDUSessionSetupData) then
        tmp ← at_ values i; context_temp nums (i + 1) values tmp
      else context_temp nums (i + 1) values tmp
  end.

(** src/internal/ike/handler.go:1503-1534 (Server.HandleGetNGAPContextResponse)

    The goroutine of StartDPD runs its first part here. *)
Definition HandleGetNGAPContextResponse (localSPI : Z) (nums : list Z) (values : list (option ref)) : H unit unit :=
  o ← gets (IKESALoad localSPI);
  tmp ← lift (context_temp nums 0 values None);
  sa ← deref o;
  s ← get_sa (Some sa);
  if decide (State s = EndSignalling) then
    u ← deref (sa_IkeUE s);
    call (CreatePDUSessionChildSA u tmp);;
    shift_state sa;;
    recover (StartDPD u;; mret tt)
  else if decide (State s = HandleCreateChildSA) then call (continueCreateChildSA sa tmp)
  else mret tt.

(** ** Dispatch *)

(** src/internal/ike/dispatcher.go:12-43 (Server.Dispatch)

    A panic of a handler is recovered and logged; the state changes made stay. The nil SA
    of an unknown exchange is only reached through IKE_SA_INIT. *)
Definition Dispatch {R} (conn : Z) (localAddr remoteAddr : UDPAddr) (m : IKEMessage) (msg : bytes) (o : option ref) : H R unit :=
  recover
    (drop ← match o with
            | Some sa =>
                if decide (im_ExchangeType m ≠ IKE_SA_INIT) then
                  s ← get_sa (Some sa); mret (negb (hasExpectedMessageID m s))
                else mret false
            | None => mret false
            end;
     if (drop : bool) then ret tt
     else if decide (im_ExchangeType m = IKE_SA_INIT) then HandleIKESAINIT localAddr remoteAddr m msg
     else if decide (im_ExchangeType m = IKE_AUTH) then
       sa ← deref o; HandleIKEAUTH conn localAddr remoteAddr m sa
     else if decide (im_ExchangeType m = CREATE_CHILD_SA) then
       sa ← deref o; HandleCREATECHILDSA localAddr remoteAddr m sa
     else if decide (im_ExchangeType m = INFORMATIONAL) then
       sa ← deref o; HandleInformational localAddr remoteAddr m sa
     else mret tt).

(** src/internal/ike/handler.go:1219-1246 (Server.HandleEvent) *)
Definition HandleEvent (e : IkeEvt) : H unit unit :=
  match e with
  | UnmarshalEAP5GDataResponseEvt spi id pdu => HandleUnmarshalEAP5GDataResponse spi id pdu
  | SendEAP5GFailureMsgEvt spi err => HandleSendEAP5GFailureMsg spi err
  | SendEAPSuccessMsgEvt spi k n => HandleSendEAPSuccessMsg spi k n
  | SendEAPNASMsgEvt spi pdu => HandleSendEAPNASMsg spi pdu
  | CreatePDUSessionEvt spi n tmp => HandleCreatePDUSession spi n tmp
  | IKEDeleteRequestEvt spi => HandleIKEDeleteEvt spi
  | SendChildSADeleteRequestEvt spi ids => HandleSendChildSADeleteRequest spi ids
  | IKEContextUpdateEvt spi k => HandleIKEContextUpdate spi k
  | GetNGAPContextRepEvt spi nums values => HandleGetNGAPContextResponse spi nums values
  end.

(** What the server goroutine receives: a packet with its addresses, or an event. *)
Inductive ike_input :=
| IkePacket (conn : Z) (localAddr remoteAddr : UDPAddr) (msg : bytes)
| IkeEvent (e : IkeEvt).

(** src/internal/ike/server.go:124-140 (Server.server)

    One turn of the server loop. A panic in an event handler is not recovered inside the
    loop: it ends the goroutine. *)
Definition server_turn (i : ike_input) : H unit unit :=
  match i with
  | IkePacket conn localAddr remoteAddr msg =>
      o ← checkIKEMessage msg localAddr remoteAddr;
      match o with
      | None => mret tt
      | Some (m, sa) => Dispatch conn localAddr remoteAddr m msg sa
      end
  | IkeEvent e => call (HandleEvent e)
  end.

End Events.
