(* ===== verification/NgapSend.v ===== *)
(** * Messages to the AMF (internal/ngap/message)

    The builders of build.go as functions from the UE context to the message structure, the
    list helpers of forwardIE.go and the senders of send.go. The encoder of free5gc/ngap is
    the parameter [ngap_encode]; an encoding error is logged and nothing is sent. *)

From S2P Require Import Util.
From S2P Require Import Prelude Monad NgapTypes NgapMsg IkeMsg Env State Context.

Section Build.
Context `{E : Env}.
Implicit Types w : World.

(** ** Parts of messages *)
Definition ie (c : Criticality) (v : OutValue) : OutIE := mkOutIE c v.
Definition ue_ids (c : Criticality) (u : N3IWFRanUe) : list OutIE :=
  [ie c (oAMFUENGAPID (AmfUeNgapId u)); ie c (oRANUENGAPID (RanUeNgapId u))].
(** src/internal/context/n3iwf_ue.go:78-89 (N3IWFRanUe.GetUserLocationInformation) *)
Definition GetUserLocationInformation (u : N3IWFRanUe) : OutValue :=
  oUserLocationInformation (IPAddrv4 u) (IPAddrv6 u) (PortNumber u).
(** A list IE, left out when the list is nil or empty. *)
Definition opt_list {A} (c : Criticality) (f : list A → OutValue) (l : option (list A)) : list OutIE :=
  match l with Some (x :: l) => [ie c (f (x :: l))] | _ => [] end.
Definition opt_diag (d : option CritDiag) : list OutIE :=
  match d with Some d => [ie Ignore (oCriticalityDiagnostics (Some d))] | None => [] end.

(** src/internal/ngap/message/build.go:1841-1865 (BuildCause) *)
Definition BuildCause (present : CausePresent) (value : Z) : Cause := mkCause present value.

(** ** Messages *)

(** src/internal/ngap/message/build.go:90-102 (BuildNGSetupRequest)

    A string that is not hexadecimal contributes the octets before the first invalid
    character. *)
Definition build_slice (i : SliceSupportItem) : SNSSAI :=
  mkSNSSAI [u8 (ss_SST i)]
    (if decide (ss_SD i = ""%string) then None else Some (hexDecode (chars (ss_SD i))).1).
(** src/internal/ngap/message/build.go:85-107 (BuildNGSetupRequest) *)
Fixpoint build_broadcast (l : list BroadcastPLMNItem) : res (list (bytes * list SNSSAI)) :=
  match l with
  | [] => Ok []
  | b :: l =>
      plmn ← PlmnIdToNgap (bp_PLMNID b);
      rest ← build_broadcast l;
      Ok ((plmn, map build_slice (bp_TAISliceSupportList b)) :: rest)
  end.
(** src/internal/ngap/message/build.go:75-113 (BuildNGSetupRequest) *)
Fixpoint build_tas (l : list SupportedTAItem) : res (list (bytes * list (bytes * list SNSSAI))) :=
  match l with
  | [] => Ok []
  | t :: l =>
      bs ← build_broadcast (ta_BroadcastPLMNList t);
      rest ← build_tas l;
      Ok (((hexDecode (chars (ta_TAC t))).1, bs) :: rest)
  end.

(** src/internal/ngap/message/build.go:19-135 (BuildNGSetupRequest) *)
Definition BuildNGSetupRequest : res OutMsg :=
  plmn ← PlmnIdToNgap (cfg_PLMNID cfg);
  tas ← build_tas (cfg_SupportedTAList cfg);
  Ok (mkOut InitiatingMessage ProcNGSetup Reject
    [ie Reject (oGlobalN3IWFID plmn (N3iwfIdToNgap (cfg_N3IWFID cfg)));
     ie Ignore (oRANNodeName (cfg_RanNodeName cfg));
     ie Reject (oSupportedTAList tas)]).

(** src/internal/ngap/message/build.go:1617-1714 (BuildRANConfigurationUpdate) *)
Definition BuildRANConfigurationUpdate : res OutMsg :=
  tas ← build_tas (cfg_SupportedTAList cfg);
  Ok (mkOut InitiatingMessage ProcRANConfigurationUpdate Reject
    ((if decide (cfg_RanNodeName cfg = ""%string) then [] else [ie Ignore (oRANNodeName (cfg_RanNodeName cfg))]) ++
     (match cfg_SupportedTAList cfg with [] => [] | _ => [ie Reject (oSupportedTAList tas)] end))).

(** src/internal/ngap/message/build.go:137-190 (BuildNGReset)

    Without a list of connections the whole interface is reset. *)
Definition BuildNGReset (cause : Cause) (partOfNGInterface : option (list ConnectionItem)) : OutMsg :=
  mkOut InitiatingMessage ProcNGReset Reject
    [ie Ignore (oCause cause); ie Reject (oResetType partOfNGInterface)].

(** src/internal/ngap/message/build.go:192-237 (BuildNGResetAcknowledge) *)
Definition BuildNGResetAcknowledge (part : option (list ConnectionItem)) (d : option CritDiag) : OutMsg :=
  mkOut SuccessfulOutcome ProcNGReset Reject
    ((match part with Some l => [ie Ignore (oConnectionList l)] | None => [] end) ++ opt_diag d).

(** src/internal/ngap/message/build.go:239-315 (BuildInitialContextSetupResponse) *)
Definition BuildInitialContextSetupResponse (u : N3IWFRanUe) (responseList failedList : option (list SessionItem))
    (d : option CritDiag) : OutMsg :=
  mkOut SuccessfulOutcome ProcInitialContextSetup Reject
    (ue_ids Ignore u ++ opt_list Ignore oSetupList responseList ++ opt_list Ignore oFailedToSetupList failedList ++
     opt_diag d).

(** src/internal/ngap/message/build.go:317-391 (BuildInitialContextSetupFailure) *)
Definition BuildInitialContextSetupFailure (u : N3IWFRanUe) (cause : Cause) (failedList : option (list SessionItem))
    (d : option CritDiag) : OutMsg :=
  mkOut UnsuccessfulOutcome ProcInitialContextSetup Reject
    (ue_ids Ignore u ++ opt_list Ignore oFailedToSetupList failedList ++ [ie Ignore (oCause cause)] ++ opt_diag d).

(** src/internal/ngap/message/build.go:393-444 (BuildUEContextModificationResponse)

    The last element has no type, and is appended also when there are no diagnostics. *)
Definition BuildUEContextModificationResponse (u : N3IWFRanUe) (d : option CritDiag) : OutMsg :=
  mkOut SuccessfulOutcome ProcUEContextModification Reject
    (ue_ids Ignore u ++ [ie Ignore (oUnsetDiagnostics d)]).

(** src/internal/ngap/message/build.go:446-505 (BuildUEContextModificationFailure)

    The last element has no type, and is appended also when there are no diagnostics. *)
Definition BuildUEContextModificationFailure (u : N3IWFRanUe) (cause : Cause) (d : option CritDiag) : OutMsg :=
  mkOut UnsuccessfulOutcome ProcUEContextModification Reject
    (ue_ids Ignore u ++ [ie Ignore (oCause cause); ie Ignore (oUnsetDiagnostics d)]).

(** src/internal/ngap/message/build.go:507-590 (BuildUEContextReleaseComplete)

    [sessions]: the identifiers of the UE's sessions in the order of the iteration. *)
Definition BuildUEContextReleaseComplete (u : N3IWFRanUe) (sessions : list Z) (d : option CritDiag) : OutMsg :=
  mkOut SuccessfulOutcome ProcUEContextRelease Reject
    (ue_ids Ignore u ++ [ie Ignore (GetUserLocationInformation u)] ++
     opt_list Reject oPDUSessionResourceList (Some sessions) ++ opt_diag d).

(** src/internal/ngap/message/build.go:592-662 (BuildUEContextReleaseRequest) *)
Definition BuildUEContextReleaseRequest (u : N3IWFRanUe) (sessions : list Z) (cause : Cause) : OutMsg :=
  mkOut InitiatingMessage ProcUEContextReleaseRequest Ignore
    (ue_ids Reject u ++ opt_list Reject oPDUSessionResourceList (Some sessions) ++ [ie Ignore (oCause cause)]).

(** src/internal/ngap/message/build.go:664-813 (BuildInitialUEMessage)

    [None]: the establishment cause is negative. Guti is always empty, so neither FiveGSTMSI
    nor AMFSetID is built. *)
Definition BuildInitialUEMessage (u : N3IWFRanUe) (nasPdu : bytes) (allowedNSSAI : option opaque) : option OutMsg :=
  if decide (RRCEstablishmentCause u < 0) then None
  else Some (mkOut InitiatingMessage ProcInitialUEMessage Ignore
    ([ie Reject (oRANUENGAPID (RanUeNgapId u)); ie Reject (oNASPDU nasPdu);
      ie Reject (GetUserLocationInformation u); ie Ignore (oRRCEstablishmentCause (RRCEstablishmentCause u));
      ie Ignore oUEContextRequest] ++
     (match allowedNSSAI with Some v => [ie Ignore (oAllowedNSSAI v)] | None => [] end))).

(** src/internal/ngap/message/build.go:815-876 (BuildUplinkNASTransport) *)
Definition BuildUplinkNASTransport (u : N3IWFRanUe) (nasPdu : bytes) : OutMsg :=
  mkOut InitiatingMessage ProcUplinkNASTransport Ignore
    (ue_ids Reject u ++ [ie Reject (oNASPDU nasPdu); ie Ignore (GetUserLocationInformation u)]).

(** src/internal/ngap/message/build.go:878-949 (BuildNASNonDeliveryIndication) *)
Definition BuildNASNonDeliveryIndication (u : N3IWFRanUe) (nasPdu : bytes) (cause : Cause) : OutMsg :=
  mkOut InitiatingMessage ProcNASNonDeliveryIndication Ignore
    (ue_ids Reject u ++ [ie Ignore (oNASPDU nasPdu); ie Ignore (oCause cause)]).

(** src/internal/ngap/message/build.go:956-1032 (BuildPDUSessionResourceSetupResponse) *)
Definition BuildPDUSessionResourceSetupResponse (u : N3IWFRanUe) (responseList failedList : option (list SessionItem))
    (d : option CritDiag) : OutMsg :=
  mkOut SuccessfulOutcome ProcPDUSessionResourceSetup Reject
    (ue_ids Ignore u ++ opt_list Ignore oSetupList responseList ++ opt_list Ignore oFailedToSetupList failedList ++
     opt_diag d).

(** src/internal/ngap/message/build.go:1034-1115 (BuildPDUSessionResourceModifyResponse) *)
Definition BuildPDUSessionResourceModifyResponse (u : N3IWFRanUe) (responseList failedList : option (list SessionItem))
    (d : option CritDiag) : OutMsg :=
  mkOut SuccessfulOutcome ProcPDUSessionResourceModify Reject
    (ue_ids Ignore u ++ opt_list Ignore oModifyList responseList ++ opt_list Ignore oFailedToModifyList failedList ++
     [ie Ignore (GetUserLocationInformation u)] ++ opt_diag d).

(** src/internal/ngap/message/build.go:1117-1177 (BuildPDUSessionResourceModifyIndication) *)
Definition BuildPDUSessionResourceModifyIndication (u : N3IWFRanUe) (modifyList : list SessionItem) : OutMsg :=
  mkOut InitiatingMessage ProcPDUSessionResourceModifyIndication Reject
    (ue_ids Reject u ++ [ie Reject (oModifyListModInd modifyList)]).

(** The location, when there is an address with a port. *)
Definition opt_location (u : N3IWFRanUe) : list OutIE :=
  if decide ((IPAddrv4 u ≠ [] ∨ IPAddrv6 u ≠ []) ∧ PortNumber u ≠ 0) then [ie Ignore (GetUserLocationInformation u)] else [].

(** src/internal/ngap/message/build.go:1179-1263 (BuildPDUSessionResourceNotify) *)
Definition BuildPDUSessionResourceNotify (u : N3IWFRanUe) (notiList relList : option (list SessionItem)) : OutMsg :=
  mkOut InitiatingMessage ProcPDUSessionResourceNotify Ignore
    (ue_ids Reject u ++
     (match notiList with Some l => [ie Reject (oNotifyList l)] | None => [] end) ++
     (match relList with Some l => [ie Ignore (oReleasedListNot l)] | None => [] end) ++ opt_location u).

(** src/internal/ngap/message/build.go:1265-1349 (BuildPDUSessionResourceReleaseResponse) *)
Definition BuildPDUSessionResourceReleaseResponse (u : N3IWFRanUe) (relList : list SessionItem)
    (d : option CritDiag) : OutMsg :=
  mkOut SuccessfulOutcome ProcPDUSessionResourceRelease Reject
    (ue_ids Ignore u ++ [ie Ignore (oReleasedList relList)] ++ opt_location u ++ opt_diag d).

(** src/internal/ngap/message/build.go:1351-1410 (BuildErrorIndication) *)
Definition BuildErrorIndication (amfId ranId : option Z) (cause : option Cause) (d : option CritDiag) : OutMsg :=
  mkOut InitiatingMessage ProcErrorIndication Ignore
    ((match amfId, ranId with
      | Some a, Some r => [ie Ignore (oAMFUENGAPID a); ie Ignore (oRANUENGAPID r)]
      | _, _ => []
      end) ++
     (match cause with Some c => [ie Ignore (oCause c)] | None => [] end) ++ opt_diag d).

(** src/internal/context/ranue.go:72-72 (RanUeSharedCtx.IMSVoiceSupported)

    Nothing writes this field. *)
Definition IMSVoiceSupported (u : N3IWFRanUe) : Z := 0.

(** src/internal/ngap/message/build.go:1417-1493 (BuildUERadioCapabilityCheckResponse)

    [None]: the indicator is negative. *)
Definition BuildUERadioCapabilityCheckResponse (u : N3IWFRanUe) (d : option CritDiag) : option OutMsg :=
  if decide (IMSVoiceSupported u < 0) then None
  else Some (mkOut SuccessfulOutcome ProcUERadioCapabilityCheck Reject
    (ue_ids Ignore u ++ [ie Reject (oIMSVoiceSupportIndicator (IMSVoiceSupported u))] ++ opt_diag d)).

(** src/internal/ngap/message/build.go:1556-1615 (BuildAMFConfigurationUpdateFailure) *)
Definition BuildAMFConfigurationUpdateFailure (cause : Cause) (time : option Z) (d : option CritDiag) : OutMsg :=
  mkOut UnsuccessfulOutcome ProcAMFConfigurationUpdate Reject
    ([ie Ignore (oCause cause)] ++ (match time with Some t => [ie Ignore (oTimeToWait t)] | None => [] end) ++ opt_diag d).

(** src/internal/ngap/message/build.go:1495-1554 (BuildAMFConfigurationUpdateAcknowledge) *)
Definition BuildAMFConfigurationUpdateAcknowledge (setupList : option (list (option opaque))) (d : option CritDiag) : OutMsg :=
  mkOut SuccessfulOutcome ProcAMFConfigurationUpdate Reject
    ((match setupList with Some l => [ie Ignore (oTNLSetupList l)] | None => [] end) ++ opt_diag d).

(** ** Transfers *)

(** src/internal/ngap/message/build.go:1741-1773 (BuildPDUSessionResourceSetupResponseTransfer)

    A session without a GTP connection panics; [Ok None] is an encoding error. *)
Definition BuildPDUSessionResourceSetupResponseTransfer (s : PDUSession) (gtpBindIPv4 : string) : res (option bytes) :=
  match GTPConnInfo s with
  | None => Panic nil_deref
  | Some g => Ok (aper_setup_response (mkSetupRes (be_put 4 (IncomingTEID g)) gtpBindIPv4 (QFIList s)))
  end.
(** src/internal/ngap/message/build.go:1775-1789 (BuildPDUSessionResourceSetupUnsuccessfulTransfer) *)
Definition BuildPDUSessionResourceSetupUnsuccessfulTransfer (cause : Cause) (d : option CritDiag) : option bytes :=
  aper_setup_unsuccessful cause d.
(** src/internal/ngap/message/build.go:1791-1823 (BuildPDUSessionResourceModifyResponseTransfer) *)
Definition BuildPDUSessionResourceModifyResponseTransfer (ul dl : option opaque) (flows : list Z)
    (failed : list (Z * Cause)) : option bytes :=
  aper_modify_response (mkModifyRes ul dl flows failed).
(** src/internal/ngap/message/build.go:1825-1839 (BuildPDUSessionResourceModifyUnsuccessfulTransfer) *)
Definition BuildPDUSessionResourceModifyUnsuccessfulTransfer (cause : Cause) (d : option CritDiag) : option bytes :=
  aper_modify_unsuccessful cause d.

(** src/internal/ngap/handler.go:2919-2927 (getPDUSessionResourceReleaseResponseTransfer)

    The encoding of the empty transfer. *)
Definition getPDUSessionResourceReleaseResponseTransfer : bytes := aper_release_response.

(** src/internal/ngap/message/forwardIE.go:8-70 (AppendPDUSessionResourceSetupListCxtRes and the other Append functions)

    Through a nil list they panic. *)
Definition append_item (l : option (list SessionItem)) (id : Z) (transfer : bytes) : res (option (list SessionItem)) :=
  match l with
  | Some l => Ok (Some (l ++ [mkItem id transfer]))
  | None => Panic nil_deref
  end.

(** ** Sending *)
Section Send.
Context {R : Type}.

(** src/internal/ngap/message/send.go:15-29 (SendToAmf) *)
Definition SendToAmf (amf : option ref) (m : OutMsg) (pkt : bytes) : H R unit :=
  match amf with
  | None => mret tt
  | Some a =>
      v ← get_amf (Some a);
      conn ← deref (SCTPConn v);
      do_io (IoNgap conn m pkt);; mret tt
  end.

(** Encode, then send. *)
Definition encode_and_send (amf : option ref) (m : OutMsg) : H R unit :=
  match ngap_encode m with
  | None => mret tt
  | Some pkt => SendToAmf amf m pkt
  end.

(** The identifiers of the sessions of a UE, in the order of the iteration. *)
Fixpoint pdu_ids (l : list (Z * ref)) : H R (list Z) :=
  match l with
  | [] => mret []
  | (_, p) :: l => s ← get_pdu (Some p); ids ← pdu_ids l; mret (pdu_Id s :: ids)
  end.
Definition session_ids (u : N3IWFRanUe) : H R (list Z) :=
  if decide (PduSessionList u = ∅) then mret []
  else l ← range_map (PduSessionList u); pdu_ids l.

Definition list_ok (l : option (list SessionItem)) : bool :=
  match l with Some l => bool_decide (len l ≤ 256) | None => true end.

(** src/internal/ngap/message/send.go:31-77 (SendNGSetupRequest)

    [sctpAddr] is the remote address of the connection. *)
Definition SendNGSetupRequest (sctpAddr : string) (conn : Z) : H R unit :=
  available ← gets (λ w, (AMFReInitAvailableListLoad sctpAddr w).1);
  if negb available then mret tt
  else
    m ← lift BuildNGSetupRequest;
    match ngap_encode m with
    | None => mret tt
    | Some pkt => do_io (IoNgap conn m pkt);; mret tt
    end.

(** src/internal/ngap/message/send.go:80-99 (SendNGReset) *)
Definition SendNGReset (amf : option ref) (cause : Cause) (partOfNGInterface : option (list ConnectionItem)) : H R unit :=
  encode_and_send amf (BuildNGReset cause partOfNGInterface).

(** src/internal/ngap/message/send.go:101-128 (SendNGResetAcknowledge) *)
Definition SendNGResetAcknowledge (amf : option ref) (part : option (list ConnectionItem)) (d : option CritDiag) : H R unit :=
  match part with
  | Some [] => mret tt
  | _ => encode_and_send amf (BuildNGResetAcknowledge part d)
  end.

(** src/internal/ngap/message/send.go:130-164 (SendInitialContextSetupResponse) *)
Definition SendInitialContextSetupResponse (ranUe : option ref) (responseList failedList : option (list SessionItem))
    (d : option CritDiag) : H R unit :=
  if negb (list_ok responseList) then mret tt
  else if negb (list_ok failedList) then mret tt
  else
    u ← get_ran ranUe;
    encode_and_send (ru_AMF u) (BuildInitialContextSetupResponse u responseList failedList d).

(** src/internal/ngap/message/send.go:166-194 (SendInitialContextSetupFailure) *)
Definition SendInitialContextSetupFailure (ranUe : option ref) (cause : Cause) (failedList : option (list SessionItem))
    (d : option CritDiag) : H R unit :=
  if negb (list_ok failedList) then mret tt
  else
    u ← get_ran ranUe;
    encode_and_send (ru_AMF u) (BuildInitialContextSetupFailure u cause failedList d).

(** src/internal/ngap/message/send.go:196-216 (SendUEContextModificationResponse) *)
Definition SendUEContextModificationResponse (ranUe : option ref) (d : option CritDiag) : H R unit :=
  u ← get_ran ranUe;
  encode_and_send (ru_AMF u) (BuildUEContextModificationResponse u d).

(** src/internal/ngap/message/send.go:218-239 (SendUEContextModificationFailure) *)
Definition SendUEContextModificationFailure (ranUe : option ref) (cause : Cause) (d : option CritDiag) : H R unit :=
  u ← get_ran ranUe;
  encode_and_send (ru_AMF u) (BuildUEContextModificationFailure u cause d).

(** src/internal/ngap/message/send.go:241-261 (SendUEContextReleaseComplete) *)
Definition SendUEContextReleaseComplete (ranUe : option ref) (d : option CritDiag) : H R unit :=
  u ← get_ran ranUe;
  ids ← session_ids u;
  encode_and_send (ru_AMF u) (BuildUEContextReleaseComplete u ids d).

(** src/internal/ngap/message/send.go:263-282 (SendUEContextReleaseRequest) *)
Definition SendUEContextReleaseRequest (ranUe : option ref) (cause : Cause) : H R unit :=
  u ← get_ran ranUe;
  ids ← session_ids u;
  encode_and_send (ru_AMF u) (BuildUEContextReleaseRequest u ids cause).

(** src/internal/ngap/message/send.go:284-306 (SendInitialUEMessage) *)
Definition SendInitialUEMessage (ranUe : option ref) (nasPdu : bytes) : H R unit :=
  u ← get_ran ranUe;
  match BuildInitialUEMessage u nasPdu None with
  | None => mret tt
  | Some m => encode_and_send (ru_AMF u) m
  end.

(** src/internal/ngap/message/send.go:308-334 (SendUplinkNASTransport) *)
Definition SendUplinkNASTransport (ranUe : option ref) (nasPdu : bytes) : H R unit :=
  if decide (len nasPdu = 0) then mret tt
  else
    u ← get_ran ranUe;
    encode_and_send (ru_AMF u) (BuildUplinkNASTransport u nasPdu).

(** src/internal/ngap/message/send.go:336-363 (SendNASNonDeliveryIndication) *)
Definition SendNASNonDeliveryIndication (ranUe : option ref) (nasPdu : bytes) (cause : Cause) : H R unit :=
  if decide (len nasPdu = 0) then mret tt
  else
    u ← get_ran ranUe;
    encode_and_send (ru_AMF u) (BuildNASNonDeliveryIndication u nasPdu cause).

(** src/internal/ngap/message/send.go:370-398 (SendPDUSessionResourceSetupResponse) *)
Definition SendPDUSessionResourceSetupResponse (ranUe : option ref) (responseList failedList : option (list SessionItem))
    (d : option CritDiag) : H R unit :=
  match ranUe with
  | None => mret tt
  | Some _ =>
      u ← get_ran ranUe;
      encode_and_send (ru_AMF u) (BuildPDUSessionResourceSetupResponse u responseList failedList d)
  end.

(** src/internal/ngap/message/send.go:400-428 (SendPDUSessionResourceModifyResponse)

    With diagnostics but without a UE the builder dereferences the UE. *)
Definition SendPDUSessionResourceModifyResponse (ranUe : option ref) (responseList failedList : option (list SessionItem))
    (d : option CritDiag) : H R unit :=
  match ranUe, d with
  | None, None => mret tt
  | _, _ =>
      u ← get_ran ranUe;
      encode_and_send (ru_AMF u) (BuildPDUSessionResourceModifyResponse u responseList failedList d)
  end.

(** src/internal/ngap/message/send.go:430-462 (SendPDUSessionResourceModifyIndication)

    [None]: the list is nil. *)
Definition SendPDUSessionResourceModifyIndication (ranUe : option ref) (modifyList : option (list SessionItem)) : H R unit :=
  match ranUe, modifyList with
  | None, _ | _, None => mret tt
  | Some _, Some l =>
      u ← get_ran ranUe;
      encode_and_send (ru_AMF u) (BuildPDUSessionResourceModifyIndication u l)
  end.

(** src/internal/ngap/message/send.go:464-491 (SendPDUSessionResourceNotify) *)
Definition SendPDUSessionResourceNotify (ranUe : option ref) (notiList relList : option (list SessionItem)) : H R unit :=
  match ranUe with
  | None => mret tt
  | Some _ =>
      u ← get_ran ranUe;
      encode_and_send (ru_AMF u) (BuildPDUSessionResourceNotify u notiList relList)
  end.

(** src/internal/ngap/message/send.go:493-526 (SendPDUSessionResourceReleaseResponse) *)
Definition SendPDUSessionResourceReleaseResponse (ranUe : option ref) (relList : list SessionItem)
    (d : option CritDiag) : H R unit :=
  match ranUe with
  | None => mret tt
  | Some _ =>
      if decide (len relList < 1) then mret tt
      else
        u ← get_ran ranUe;
        encode_and_send (ru_AMF u) (BuildPDUSessionResourceReleaseResponse u relList d)
  end.

(** src/internal/ngap/message/send.go:528-562 (SendErrorIndication) *)
Definition SendErrorIndication (amf : option ref) (amfId ranId : option Z) (cause : option Cause)
    (d : option CritDiag) : H R unit :=
  match cause, d with
  | None, None => mret tt
  | _, _ => encode_and_send amf (BuildErrorIndication amfId ranId cause d)
  end.

(** src/internal/ngap/message/send.go:564-604 (SendErrorIndicationWithSctpConn) *)
Definition SendErrorIndicationWithSctpConn (conn : Z) (amfId ranId : option Z) (cause : option Cause)
    (d : option CritDiag) : H R unit :=
  match cause, d with
  | None, None => mret tt
  | _, _ =>
      let m := BuildErrorIndication amfId ranId cause d in
      match ngap_encode m with
      | None => mret tt
      | Some pkt => do_io (IoNgap conn m pkt);; mret tt
      end
  end.

(** src/internal/ngap/message/send.go:611-631 (SendUERadioCapabilityCheckResponse)

    The AMF of the call is ignored: the message goes to the one of the UE. *)
Definition SendUERadioCapabilityCheckResponse (amf : option ref) (ranUe : option ref) (d : option CritDiag) : H R unit :=
  u ← get_ran ranUe;
  match BuildUERadioCapabilityCheckResponse u d with
  | None => mret tt
  | Some m => encode_and_send (ru_AMF u) m
  end.

(** src/internal/ngap/message/send.go:657-679 (SendAMFConfigurationUpdateFailure) *)
Definition SendAMFConfigurationUpdateFailure (amf : option ref) (cause : Cause) (time : option Z) (d : option CritDiag) : H R unit :=
  encode_and_send amf (BuildAMFConfigurationUpdateFailure cause time d).

(** src/internal/ngap/message/send.go:633-655 (SendAMFConfigurationUpdateAcknowledge) *)
Definition SendAMFConfigurationUpdateAcknowledge (amf : option ref) (setupList : option (list (option opaque)))
    (d : option CritDiag) : H R unit :=
  encode_and_send amf (BuildAMFConfigurationUpdateAcknowledge setupList d).

(** src/internal/ngap/message/send.go:681-713 (SendRANConfigurationUpdate) *)
Definition SendRANConfigurationUpdate (amf : ref) : H R unit :=
  a ← get_amf (Some amf);
  available ← gets (λ w, (AMFReInitAvailableListLoad (SCTPAddr a) w).1);
  if negb available then mret tt
  else
    m ← lift BuildRANConfigurationUpdate;
    encode_and_send (Some amf) m.

End Send.
End Build.
