(* ===== verification/NgapEvents.v ===== *)
(** * Events of the NGAP server (internal/ngap/handler.go, HandleEvent)

    What the NGAP goroutine does with the events the IKE server and the NAS server send.
    A panic of a handler reaches the recover of runNgapEventHandler, which logs with Fatalf:
    the outcome [Panicked] stands for the end of the process. *)

From S2P Require Import Eap5g.
From S2P Require Import Prelude Monad NgapTypes NgapMsg IkeMsg Env State Context NgapSend.

Section Events.
Context `{E : Env}.
Implicit Types w : World.

(** src/internal/ngap/handler.go:2986-2994 (Server.HandleGetNGAPContext)

    The values asked for; an unknown number adds none. *)
Definition ngap_context (u : N3IWFRanUe) (nums : list Z) : list (option ref) :=
  omap (λ num, if decide (num = CxtTempPDUSessionSetupData) then Some (TemporaryPDUSessionSetupData u) else None) nums.

(** src/internal/ngap/handler.go:2968-3009 (Server.HandleGetNGAPContext) *)
Definition HandleGetNGAPContext (ranUeNgapId : Z) (nums : list Z) : H unit unit :=
  o ← gets (RanUePoolLoad ranUeNgapId);
  match o with
  | None => ret tt
  | Some r =>
      u ← get_ran (Some r);
      spi ← gets (IkeSpiLoad ranUeNgapId);
      match spi with
      | None => ret tt
      | Some spi => SendIkeEvt (GetNGAPContextRepEvt spi nums (ngap_context u nums))
      end
  end.

(** Fuel for the EAP-5G parser, which does not end on every input. *)
Definition eap5g_fuel (data : bytes) : nat := S (length data).
(** The outcome of a parser that does not return. *)
Definition hangs : string := "does not return".

(** src/internal/ngap/handler.go:3029-3086 (Server.HandleUnmarshalEAP5GData)

    The first message of a UE: AMF selection and a new RAN UE. The flag of the event is true
    when the UE is already known. *)
Definition eap5g_initial (spi : Z) (params : option ANParameters) (nasPDU : bytes) : H unit unit :=
  match params with
  | None => ret tt
  | Some an =>
      amf ← AMFSelection (an_GUAMI an) (an_SelectedPLMNID an);
      match amf with
      | None => SendIkeEvt (SendEAP5GFailureMsgEvt spi ErrAMFSelection)
      | Some amf =>
          o ← NewN3iwfRanUe;
          r ← deref o;
          upd_ran r (λ u, u <| ru_AMF := Some amf |>);;
          match an_EstablishmentCause an with
          | Some value =>
              if decide (value mod 2 ^ 64 > MaxInt16) then ret tt
              else upd_ran r (λ u, u <| RRCEstablishmentCause := value |>)
          | None => mret tt
          end;;
          u ← get_ran (Some r);
          SendIkeEvt (UnmarshalEAP5GDataResponseEvt spi (RanUeNgapId u) nasPDU)
      end
  end.

(** src/internal/ngap/handler.go:3011-3101 (Server.HandleUnmarshalEAP5GData) *)
Definition HandleUnmarshalEAP5GData (spi : Z) (eapVendorData : bytes) (isInitialUE : bool) (ranUeNgapId : Z) : H unit unit :=
  match UnmarshalEAP5GData aper_GUAMI aper_PLMN (eap5g_fuel eapVendorData) eapVendorData with
  | None => panic hangs
  | Some (Panic e) => panic e
  | Some (Err _) => ret tt
  | Some (Ok (params, nasPDU)) =>
      if negb isInitialUE then eap5g_initial spi params nasPDU
      else
        o ← gets (RanUePoolLoad ranUeNgapId);
        match o with
        | None => ret tt
        | Some r => SendUplinkNASTransport (Some r) nasPDU
        end
  end.

(** src/internal/ngap/handler.go:3103-3131 (Server.HandleSendInitialUEMessage) *)
Definition HandleSendInitialUEMessage (ranUeNgapId : Z) (ipv4Addr : bytes) (ipv4Port : Z) (nasPDU : bytes) : H unit unit :=
  o ← gets (RanUePoolLoad ranUeNgapId);
  match o with
  | None => ret tt
  | Some r =>
      upd_ran r (λ u, u <| IPAddrv4 := ipv4Addr |> <| PortNumber := ipv4Port |>);;
      SendInitialUEMessage (Some r) nasPDU
  end.

(** src/internal/ngap/handler.go:3159-3174 (Server.HandleSendPDUSessionResourceSetupResponse)

    The cause for a recorded error; an undefined one ends the handler. *)
Definition setup_cause (e : EvtError) : option Cause :=
  match e with
  | ErrTransportResourceUnavailable =>
      Some (mkCause CauseTransport CauseTransportPresentTransportResourceUnavailable)
  | _ => None
  end.

(** src/internal/ngap/handler.go:3156-3207 (Server.HandleSendPDUSessionResourceSetupResponse)

    One session: its entry in the list that its error string selects. *)
Definition report_session (tmp : ref) (index : Z) (session : ref) : H unit unit :=
  t ← get_temp (Some tmp);
  errStr ← lift (at_ (FailedErrStr t) index);
  let initial := bool_decide (NGAPProcedureCode t = ProcedureCodeInitialContextSetup) in
  match errStr with
  | ErrNil =>
      s ← get_pdu (Some session);
      transfer ← lift (BuildPDUSessionResourceSetupResponseTransfer s (cfg_N3iwfGtpBindAddress cfg));
      match transfer with
      | None => ret tt
      | Some transfer =>
          if initial then
            l ← lift (append_item (SetupListCxtRes t) (pdu_Id s) transfer);
            upd_temp tmp (λ t, t <| SetupListCxtRes := l |>)
          else
            l ← lift (append_item (SetupListSURes t) (pdu_Id s) transfer);
            upd_temp tmp (λ t, t <| SetupListSURes := l |>)
      end
  | e =>
      match setup_cause e with
      | None => ret tt
      | Some cause =>
          match BuildPDUSessionResourceSetupUnsuccessfulTransfer cause None with
          | None => mret tt
          | Some transfer =>
              s ← get_pdu (Some session);
              if initial then
                l ← lift (append_item (FailedListCxtRes t) (pdu_Id s) transfer);
                upd_temp tmp (λ t, t <| FailedListCxtRes := l |>)
              else
                l ← lift (append_item (FailedListSURes t) (pdu_Id s) transfer);
                upd_temp tmp (λ t, t <| FailedListSURes := l |>)
          end
      end
  end.

(** src/internal/ngap/handler.go:3156-3207 (Server.HandleSendPDUSessionResourceSetupResponse) *)
Fixpoint report_sessions (tmp : ref) (index : Z) (sessions : list ref) : H unit unit :=
  match sessions with
  | [] => mret tt
  | s :: sessions => report_session tmp index s;; report_sessions tmp (index + 1) sessions
  end.

(** src/internal/ngap/handler.go:3133-3224 (Server.HandleSendPDUSessionResourceSetupResponse) *)
Definition HandleSendPDUSessionResourceSetupResponse (ranUeNgapId : Z) : H unit unit :=
  o ← gets (RanUePoolLoad ranUeNgapId);
  match o with
  | None => ret tt
  | Some r =>
      u ← get_ran (Some r);
      tmp ← deref (TemporaryPDUSessionSetupData u);
      t ← get_temp (Some tmp);
      match UnactivatedPDUSession t with
      | [] => SendInitialContextSetupResponse (Some r) None None None
      | sessions =>
          report_sessions tmp 0 sessions;;
          t ← get_temp (Some tmp);
          if decide (NGAPProcedureCode t = ProcedureCodeInitialContextSetup) then
            SendInitialContextSetupResponse (Some r) (SetupListCxtRes t) (FailedListCxtRes t) None
          else
            SendPDUSessionResourceSetupResponse (Some r) (SetupListSURes t) (FailedListSURes t) None
      end
  end.

(** Write on the NAS connection of a UE: whether it succeeded. *)
Definition tcp_write {R} (u : N3IWFRanUe) (data : bytes) : H R bool :=
  conn ← deref (TCPConnection u); do_io (IoTcpWrite conn data).

(** src/internal/ngap/handler.go:3226-3260 (Server.HandleSendNASMsg)

    A nil message is written as an empty one. *)
Definition HandleSendNASMsg (ranUeNgapId : Z) : H unit unit :=
  o ← gets (RanUePoolLoad ranUeNgapId);
  match o with
  | None => ret tt
  | Some r =>
      u ← get_ran (Some r);
      ok ← tcp_write u (default [] (TemporaryCachedNASMessage u));
      when ok (upd_ran r (λ u, u <| TemporaryCachedNASMessage := None |>))
  end.

(** src/internal/ngap/handler.go:3262-3291 (Server.HandleStartTCPSignalNASMsg) *)
Definition HandleStartTCPSignalNASMsg (ranUeNgapId : Z) : H unit unit :=
  o ← gets (RanUePoolLoad ranUeNgapId);
  match o with
  | None => ret tt
  | Some r => upd_ran r (λ u, u <| IsNASTCPConnEstablished := true |>)
  end.

(** src/internal/ngap/handler.go:3293-3331 (Server.HandleNASTCPConnEstablishedComplete) *)
Definition HandleNASTCPConnEstablishedComplete (ranUeNgapId : Z) : H unit unit :=
  o ← gets (RanUePoolLoad ranUeNgapId);
  match o with
  | None => ret tt
  | Some r =>
      upd_ran r (λ u, u <| IsNASTCPConnEstablishedComplete := true |>);;
      u ← get_ran (Some r);
      match TemporaryCachedNASMessage u with
      | None => mret tt
      | Some data =>
          tcp_write u data;;
          upd_ran r (λ u, u <| TemporaryCachedNASMessage := None |>)
      end
  end.

(** src/internal/ngap/handler.go:3333-3367 (Server.HandleSendUEContextReleaseRequest)

    Without an error ([ErrNil]) the cause stays nil and is dereferenced. *)
Definition HandleSendUEContextReleaseRequest (ranUeNgapId : Z) (errMsg : EvtError) : H unit unit :=
  cause ← match errMsg with
          | ErrRadioConnWithUeLost =>
              mret (Some (BuildCause CauseRadioNetwork CauseRadioNetworkPresentRadioConnectionWithUeLost))
          | ErrNil => mret None
          | _ => ret tt
          end;
  o ← gets (RanUePoolLoad ranUeNgapId);
  match o with
  | None => ret tt
  | Some r => c ← deref cause; SendUEContextReleaseRequest (Some r) c
  end.

(** src/internal/ngap/handler.go:3369-3395 (Server.HandleSendUEContextReleaseComplete) *)
Definition HandleSendUEContextReleaseComplete (ranUeNgapId : Z) : H unit unit :=
  o ← gets (RanUePoolLoad ranUeNgapId);
  match o with
  | None => ret tt
  | Some r => call (RanUe_Remove r);; SendUEContextReleaseComplete (Some r) None
  end.

(** src/internal/ngap/handler.go:3397-3420 (Server.HandleSendPDUSessionResourceReleaseRes) *)
Definition HandleSendPDUSessionResourceReleaseRes (ranUeNgapId : Z) : H unit unit :=
  o ← gets (RanUePoolLoad ranUeNgapId);
  match o with
  | None => ret tt
  | Some r => u ← get_ran (Some r); SendPDUSessionResourceReleaseResponse (Some r) (PduSessionReleaseList u) None
  end.

(** src/internal/ngap/handler.go:3422-3444 (Server.HandleSendUplinkNASTransport) *)
Definition HandleSendUplinkNASTransport (ranUeNgapId : Z) (pdu : bytes) : H unit unit :=
  o ← gets (RanUePoolLoad ranUeNgapId);
  match o with
  | None => ret tt
  | Some r => SendUplinkNASTransport (Some r) pdu
  end.

(** src/internal/ngap/handler.go:3446-3468 (Server.HandleSendInitialContextSetupResponse)

    The event carries no diagnostics in any use. *)
Definition HandleSendInitialContextSetupResponse (ranUeNgapId : Z) (responseList failedList : option (list SessionItem)) : H unit unit :=
  o ← gets (RanUePoolLoad ranUeNgapId);
  match o with
  | None => ret tt
  | Some r => SendInitialContextSetupResponse (Some r) responseList failedList None
  end.

(** src/internal/ngap/handler.go:3470-3503 (Server.HandleSendSendUEContextRelease) *)
Definition HandleSendSendUEContextRelease (ranUeNgapId : Z) : H unit unit :=
  o ← gets (RanUePoolLoad ranUeNgapId);
  match o with
  | None => ret tt
  | Some r =>
      u ← get_ran (Some r);
      if UeCtxRelState u then
        call (RanUe_Remove r);;
        SendUEContextReleaseComplete (Some r) None;;
        upd_ran r (λ u, u <| UeCtxRelState := false |>)
      else
        SendUEContextReleaseRequest (Some r)
          (BuildCause CauseRadioNetwork CauseRadioNetworkPresentRadioConnectionWithUeLost);;
        upd_ran r (λ u, u <| UeCtxRelState := true |>)
  end.

(** src/internal/ngap/handler.go:3505-3536 (Server.HandleSendSendPDUSessionResourceRelease) *)
Definition HandleSendSendPDUSessionResourceRelease (ranUeNgapId : Z) (deletPduIds : list Z) : H unit unit :=
  o ← gets (RanUePoolLoad ranUeNgapId);
  match o with
  | None => ret tt
  | Some r =>
      u ← get_ran (Some r);
      if PduSessResRelState u then
        SendPDUSessionResourceReleaseResponse (Some r) (PduSessionReleaseList u) None;;
        upd_ran r (λ u, u <| PduSessResRelState := false |>)
      else
        for_each deletPduIds (λ id, DeletePDUSession r id);;
        upd_ran r (λ u, u <| PduSessResRelState := true |>)
  end.

(** src/internal/ngap/handler.go:2929-2966 (Server.HandleEvent) *)
Definition HandleNgapEvent (e : NgapEvt) : H unit unit :=
  match e with
  | UnmarshalEAP5GDataEvt spi data initial id => HandleUnmarshalEAP5GData spi data initial id
  | SendInitialUEMessageEvt id ip port pdu => HandleSendInitialUEMessage id ip port pdu
  | SendPDUSessionResourceSetupResEvt id => HandleSendPDUSessionResourceSetupResponse id
  | SendNASMsgEvt id => HandleSendNASMsg id
  | StartTCPSignalNASMsgEvt id => HandleStartTCPSignalNASMsg id
  | NASTCPConnEstablishedCompleteEvt id => HandleNASTCPConnEstablishedComplete id
  | SendUEContextReleaseEvt id => HandleSendSendUEContextRelease id
  | SendUEContextReleaseRequestEvt id e => HandleSendUEContextReleaseRequest id e
  | SendUEContextReleaseCompleteEvt id => HandleSendUEContextReleaseComplete id
  | SendPDUSessionResourceReleaseEvt id ids => HandleSendSendPDUSessionResourceRelease id ids
  | SendPDUSessionResourceReleaseResEvt id => HandleSendPDUSessionResourceReleaseRes id
  | GetNGAPContextEvt id nums => HandleGetNGAPContext id nums
  | SendUplinkNASTransportEvt id pdu => HandleSendUplinkNASTransport id pdu
  | SendInitialContextSetupRespEvt id l f => HandleSendInitialContextSetupResponse id l f
  end.

End Events.
