(* ===== verification/NgapUe.v ===== *)
(** * UE-associated messages from the AMF (internal/ngap/handler.go)

    Initial context set-up, UE context modification and release, downlink NAS transport,
    and the set-up, modification and release of PDU sessions. Each handler reads its
    information elements with the loop of NgapMsg.v. [Panicked] is a nil dereference or an
    index out of range; NGAPDispatch turns it into the end of the process. *)

From S2P Require Import Nas.
From S2P Require Import Prelude Monad NgapTypes NgapMsg IkeMsg Env State ToyEnv Context NgapSend NgapEvents.

Section Messages.
Context `{E : Env}.
Implicit Types w : World.

(** A write through the context of a UE that may be nil. *)
Definition upd_ue {R} (o : option ref) (f : N3IWFRanUe → N3IWFRanUe) : H R unit := r ← deref o; upd_ran r f.
(** [if x != nil { field = x }] *)
Definition keep_some {A} (x old : option A) : option A := match x with Some v => Some v | None => old end.

(** src/internal/ngap/handler.go:2802-2830 (buildCriticalityDiagnostics) *)
Definition buildCriticalityDiagnostics (proc : option Procedure) (trigger : option Outcome)
    (crit : option Criticality) (ies : list CritItem) : CritDiag :=
  mkCritDiag proc trigger crit (Some ies).

(** ** Set-up of a PDU session *)

(** The locals of the loop over the elements of a set-up transfer. *)
Record SetupIEs := mkSetupIEs {
  tr_AMBR : option opaque;
  tr_UL : option (option GTPTunnel);
  tr_SessionType : option Z;
  tr_Security : option SecurityIndication;
  tr_NetworkInstance : option opaque;
  tr_Qos : option (list QosItem);
}.
(** src/internal/ngap/handler.go:792-828 (Server.handlePDUSessionResourceSetupRequestTransfer) *)
Definition setup_ies (ies : list TransferIE) : SetupIEs * list CritItem :=
  (foldl (λ '(mkSetupIEs a u t s n q as l) e,
     match e with
     | tiAMBR v => mkSetupIEs v u t s n q
     | tiULNGUUPTNLInformation v => mkSetupIEs a v t s n q
     | tiPDUSessionType v => mkSetupIEs a u v s n q
     | tiSecurityIndication v => mkSetupIEs a u t v n q
     | tiNetworkInstance v => mkSetupIEs a u t s v q
     | tiQosFlowSetupRequestList v => mkSetupIEs a u t s n v
     | tiOther => l
     end) (mkSetupIEs None None None None None None) ies,
   omap (λ e, match e with
              | tiULNGUUPTNLInformation None => Some (missing_item idULNGUUPTNLInformation)
              | tiPDUSessionType None => Some (missing_item idPDUSessionType)
              | tiQosFlowSetupRequestList None => Some (missing_item idQosFlowSetupRequestList)
              | _ => None
              end) ies).

(** An unsuccessful transfer; an encoding error leaves a nil one. *)
Definition unsuccessful (present : CausePresent) (value : Z) (d : option CritDiag) : bytes :=
  default [] (BuildPDUSessionResourceSetupUnsuccessfulTransfer (BuildCause present value) d).

Definition protected (p : Protection) : bool :=
  match p with ProtNotNeeded => false | _ => true end.

(** src/internal/ngap/handler.go:850-891 (Server.handlePDUSessionResourceSetupRequestTransfer)

    The security indication; the handler returns on a value that is not assigned. *)
Definition setup_security (p : ref) (s : option SecurityIndication) : H (bool * bytes) unit :=
  let bad : H (bool * bytes) unit := ret (false, unsuccessful CauseProtocol CauseProtocolPresentSemanticError None) in
  match s with
  | None => upd_pdu p (λ s, s <| SecurityIntegrity := true |> <| SecurityCipher := true |>)
  | Some s =>
      match sei_Integrity s with
      | Some x => upd_pdu p (λ s, s <| SecurityIntegrity := protected x |>)
      | None => bad
      end;;
      match sei_Confidentiality s with
      | Some x => upd_pdu p (λ s, s <| SecurityCipher := protected x |>)
      | None => bad
      end
  end.

(** src/internal/ngap/handler.go:893-910 (Server.handlePDUSessionResourceSetupRequestTransfer) *)
Definition setup_qos (p : ref) (items : list QosItem) : H (bool * bytes) unit :=
  for_each items (λ i,
    upd_pdu p (λ s, s <| QosFlows ::= <[qi_Identifier i := mkQosFlow (qi_Identifier i) (qi_Parameters i)]> |>);;
    if decide (qi_Identifier i < 0 ∨ qi_Identifier i > MaxUint8) then ret (false, [])
    else upd_pdu p (λ s, s <| QFIList ::= λ l, l ++ [u8 (qi_Identifier i)] |>)).

(** src/internal/ngap/handler.go:912-958 (Server.handlePDUSessionResourceSetupRequestTransfer)

    The GTP tunnel. *)
Definition setup_tunnel (ranUe p : ref) (ul : option (option GTPTunnel)) : H (bool * bytes) (bool * bytes) :=
  info ← deref ul;
  tunnel ← deref info;
  let upfIPv4 := (tla_to_string (gt_Address tunnel)).1 in
  if decide (upfIPv4 = ""%string) then
    ret (false, unsuccessful CauseProtocol CauseProtocolPresentAbstractSyntaxErrorReject None)
  else
    teid ← lift (slice_to (gt_TEID tunnel) 4);
    let upfAddr := (upfIPv4 +:+ ":2152")%string in
    if negb (udp_resolves upfAddr) then
      ret (false, unsuccessful CauseTransport CauseTransportPresentTransportResourceUnavailable None)
    else
      ueTEID ← NewTEID ranUe;
      if decide (ueTEID = 0) then ret (false, unsuccessful CauseProtocol CauseProtocolPresentUnspecified None)
      else
        upd_pdu p (λ s, s <| GTPConnInfo := Some (mkGTP upfIPv4 upfAddr ueTEID (be_get teid)) |>);;
        mret (true, []).

(** src/internal/ngap/handler.go:777-959 (Server.handlePDUSessionResourceSetupRequestTransfer)

    Whether the set-up can go on, otherwise the unsuccessful transfer. *)
Definition handlePDUSessionResourceSetupRequestTransfer (ranUe p : ref) (ies : list TransferIE)
  : H (bool * bytes) (bool * bytes) :=
  let '(l, diags) := setup_ies ies in
  match diags with
  | _ :: _ =>
      ret (false, unsuccessful CauseProtocol CauseProtocolPresentAbstractSyntaxErrorFalselyConstructedMessage
                    (Some (buildCriticalityDiagnostics None None None diags)))
  | [] =>
      upd_pdu p (λ s, s <| pdu_Ambr := tr_AMBR l |> <| pdu_Type := tr_SessionType l |>
                        <| pdu_NetworkInstance := tr_NetworkInstance l |>);;
      setup_security p (tr_Security l);;
      items ← deref (tr_Qos l);
      setup_qos p items;;
      setup_tunnel ranUe p (tr_UL l)
  end.

(** The failed list of a procedure: of the context set-up, or of the session set-up. *)
Definition append_failed {R} (cxt : bool) (tmp : ref) (id : Z) (transfer : bytes) : H R unit :=
  t ← get_temp (Some tmp);
  if cxt then
    l ← lift (append_item (FailedListCxtRes t) id transfer); upd_temp tmp (λ t, t <| FailedListCxtRes := l |>)
  else
    l ← lift (append_item (FailedListSURes t) id transfer); upd_temp tmp (λ t, t <| FailedListSURes := l |>).

(** src/internal/ngap/handler.go:673-715 (Server.HandleInitialContextSetupRequest)

    One session of the list, in both procedures. *)
Definition setup_session {R} (cxt : bool) (r tmp : ref) (item : SetupItem) : H R unit :=
  let id := sr_PDUSessionID item in
  let transfer := aper_setup_request (sr_Transfer item) in
  o ← CreatePDUSession r id (sr_SNSSAI item);
  match o with
  | None =>
      append_failed cxt tmp id
        (unsuccessful CauseRadioNetwork CauseRadioNetworkPresentMultiplePDUSessionIDInstances None)
  | Some p =>
      '(success, resTransfer) ← call (handlePDUSessionResourceSetupRequestTransfer r p transfer);
      if (success : bool) then upd_temp tmp (λ t, t <| UnactivatedPDUSession ::= λ l, l ++ [p] |>)
      else
        DeletePDUSession r id;;
        append_failed cxt tmp id resTransfer
  end.

(** src/internal/ngap/handler.go:612-623 (Server.HandleInitialContextSetupRequest)

    The sessions of a rejected request with their transfers; a nil list panics. *)
Definition all_failed (cause : Cause) (l : list SetupItem) : list SessionItem :=
  map (λ i, mkItem (sr_PDUSessionID i)
         (default [] (BuildPDUSessionResourceSetupUnsuccessfulTransfer cause None))) l.

(** ** The UE of a message *)

(** src/internal/ngap/handler.go:627-644 (Server.HandleInitialContextSetupRequest)

    With both identifiers the UE must be known and agree on the AMF's; the same lines open
    the modification and set-up handlers. Without one of them there is no UE. *)
Definition find_ran_ue (l : IEs) : H unit (option ref) :=
  match AMFUENGAPID l, RANUENGAPID l with
  | Some amfId, Some ranId =>
      o ← gets (RanUePoolLoad ranId);
      match o with
      | None => ret tt
      | Some r =>
          u ← get_ran (Some r);
          if decide (AmfUeNgapId u ≠ amfId) then ret tt else mret (Some r)
      end
  | _, _ => mret None
  end.

(** ** Initial context set-up *)

(** src/internal/ngap/handler.go:653-716 (Server.HandleInitialContextSetupRequest)

    The sessions of the request. *)
Definition initial_sessions (r : ref) (l : IEs) : H unit unit :=
  match SetupList l with
  | None => mret tt
  | Some items =>
      match UEAggregateMaximumBitRate l with
      | Some ambr => upd_ran r (λ u, u <| ru_Ambr := Some ambr |>)
      | None =>
          let cause := BuildCause CauseProtocol CauseProtocolPresentAbstractSyntaxErrorFalselyConstructedMessage in
          SendInitialContextSetupFailure (Some r) cause (Some (all_failed cause items))
            (Some (buildCriticalityDiagnostics None None None [missing_item idUEAggregateMaximumBitRate]));;
          ret tt
      end;;
      u ← get_ran (Some r);
      tmp ← deref (TemporaryPDUSessionSetupData u);
      upd_temp tmp (λ t, t <| SetupListCxtRes := Some [] |> <| FailedListCxtRes := Some [] |> <| Index := 0 |>
                          <| UnactivatedPDUSession := [] |> <| NGAPProcedureCode := ProcedureCodeInitialContextSetup |>);;
      for_each items (setup_session true r tmp)
  end.

(** src/internal/ngap/handler.go:718-752 (Server.HandleInitialContextSetupRequest)

    The other elements that are present. *)
Definition store_context (l : IEs) (u : N3IWFRanUe) : N3IWFRanUe :=
  u <| ru_Guami ::= keep_some (GUAMI_ l) |> <| AllowedNssai ::= keep_some (AllowedNSSAI l) |>
    <| MaskedIMEISV ::= keep_some (MaskedIMEISV_ l) |> <| RadioCapability ::= keep_some (UERadioCapability l) |>
    <| CoreNetworkAssistanceInformation ::= keep_some (CoreNetworkAssistanceInformation_ l) |>
    <| IndexToRfsp ::= λ x, default x (IndexToRFSP l) |>
    <| SecurityCapabilities ::= keep_some (UESecurityCapabilities l) |>.

(** src/internal/ngap/handler.go:441-767 (Server.HandleInitialContextSetupRequest) *)
Definition HandleInitialContextSetupRequest (ies : option (list IE)) : H unit unit :=
  match ies with
  | None => ret tt
  | Some ies =>
      let '(l, diags) := collect [idAMFUENGAPID; idRANUENGAPID; idGUAMI; idAllowedNSSAI; idUESecurityCapabilities;
                                  idSecurityKey] ies in
      match diags with
      | _ :: _ =>
          let cause := BuildCause CauseProtocol CauseProtocolPresentAbstractSyntaxErrorFalselyConstructedMessage in
          items ← deref (SetupList l);
          SendInitialContextSetupFailure None cause (Some (all_failed cause items))
            (Some (buildCriticalityDiagnostics None None None diags));;
          ret tt
      | [] =>
          o ← find_ran_ue l;
          match o with
          | None => ret tt
          | Some r =>
              amfId ← deref (AMFUENGAPID l);
              ranId ← deref (RANUENGAPID l);
              upd_ran r (λ u, u <| AmfUeNgapId := amfId |> <| RanUeNgapId := ranId |>);;
              initial_sessions r l;;
              upd_ran r (store_context l);;
              u ← get_ran (Some r);
              spi ← gets (IkeSpiLoad (RanUeNgapId u));
              match spi with
              | None => ret tt
              | Some spi =>
                  key ← deref (SecurityKey l);
                  SendIkeEvt (SendEAPSuccessMsgEvt spi (Some key) (Z.of_nat (size (PduSessionList u))))
              end
          end
      end
  end.

(** ** UE context modification and release *)

(** src/internal/ngap/handler.go:961-1106 (Server.HandleUEContextModificationRequest) *)
Definition HandleUEContextModificationRequest (amf : option ref) (ies : option (list IE)) : H unit unit :=
  match amf, ies with
  | Some _, Some ies =>
      let '(l, diags) := collect [idAMFUENGAPID; idRANUENGAPID] ies in
      match diags with
      | _ :: _ => ret tt
      | [] =>
          o ← find_ran_ue l;
          match NewAMFUENGAPID l with Some x => upd_ue o (λ u, u <| AmfUeNgapId := x |>) | None => mret tt end;;
          match UEAggregateMaximumBitRate l with Some x => upd_ue o (λ u, u <| ru_Ambr := Some x |>) | None => mret tt end;;
          match UESecurityCapabilities l with
          | Some x => upd_ue o (λ u, u <| SecurityCapabilities := Some x |>)
          | None => mret tt
          end;;
          match IndexToRFSP l with Some x => upd_ue o (λ u, u <| IndexToRfsp := x |>) | None => mret tt end;;
          SendUEContextModificationResponse o None;;
          u ← get_ran o;
          spi ← gets (IkeSpiLoad (RanUeNgapId u));
          match spi with
          | None => ret tt
          | Some spi => key ← deref (SecurityKey l); SendIkeEvt (IKEContextUpdateEvt spi (Some key))
          end
      end
  | _, _ => ret tt
  end.

(** src/internal/ngap/handler.go:1205-1218 (Server.releaseIkeUeAndRanUe) *)
Definition releaseIkeUeAndRanUe {R} (r : ref) : H R error :=
  u ← get_ran (Some r);
  spi ← gets (IkeSpiLoad (RanUeNgapId u));
  match spi with Some spi => SendIkeEvt (IKEDeleteRequestEvt spi) | None => mret tt end;;
  call (RanUe_Remove r).

(** src/internal/ngap/handler.go:1167-1181 (Server.HandleUEContextReleaseCommand) *)
Definition released_ue (amf : ref) (ids : UENGAPIDs) : H unit (option ref) :=
  match ids with
  | UENGAPIDPair amfId ranId =>
      o ← gets (RanUePoolLoad ranId);
      match o with Some r => mret (Some r) | None => FindUeByAmfUeNgapID amf amfId end
  | UENGAPIDsAMF amfId => FindUeByAmfUeNgapID amf amfId
  | UENGAPIDsOther => mret None
  end.

(** src/internal/ngap/handler.go:1108-1203 (Server.HandleUEContextReleaseCommand) *)
Definition HandleUEContextReleaseCommand (amf : option ref) (ies : option (list IE)) : H unit unit :=
  match amf, ies with
  | Some amf, Some ies =>
      let '(l, diags) := collect [idUENGAPIDs] ies in
      match diags with
      | _ :: _ => ret tt
      | [] =>
          ids ← deref (UENGAPIDs_ l);
          o ← released_ue amf ids;
          match o with
          | None => ret tt
          | Some r =>
              upd_ran r (λ u, u <| UeCtxRelState := true |>);;
              SendUEContextReleaseComplete (Some r) None;;
              releaseIkeUeAndRanUe r;;
              mret tt
          end
      end
  | _, _ => ret tt
  end.

(** ** Downlink NAS transport *)

(** src/internal/ngap/handler.go:1344-1379 (Server.HandleDownlinkNASTransport)

    The way to the UE: in EAP before the NAS connection is announced, cached until the UE
    has connected, on the connection afterwards. *)
Definition downlink_nas (r : ref) (nasPDU : bytes) : H unit unit :=
  u ← get_ran (Some r);
  spi ← gets (IkeSpiLoad (RanUeNgapId u));
  match spi with
  | None => ret tt
  | Some spi =>
      if negb (IsNASTCPConnEstablished u) then SendIkeEvt (SendEAPNASMsgEvt spi nasPDU)
      else
        let nasEnv := EncapNasMsgToEnvelope nasPDU in
        if IsNASTCPConnEstablishedComplete u then tcp_write u nasEnv;; mret tt
        else upd_ran r (λ u, u <| TemporaryCachedNASMessage := Some nasEnv |>)
  end.

(** src/internal/ngap/handler.go:1220-1386 (Server.HandleDownlinkNASTransport)

    Missing elements are noted but not acted on; without a RAN identifier the nil UE is
    dereferenced. *)
Definition HandleDownlinkNASTransport (amf : option ref) (ies : option (list IE)) : H unit unit :=
  match amf, ies with
  | Some _, Some ies =>
      let l := (collect [] ies).1 in
      o ← match RANUENGAPID l with
          | None => mret None
          | Some ranId =>
              o ← gets (RanUePoolLoad ranId);
              match o with None => ret tt | Some r => mret (Some r) end
          end;
      r ← deref o;
      match AMFUENGAPID l with
      | None => mret tt
      | Some amfId =>
          u ← get_ran (Some r);
          if decide (AmfUeNgapId u = AmfUeNgapIdUnspecified) then upd_ran r (λ u, u <| AmfUeNgapId := amfId |>)
          else if decide (AmfUeNgapId u ≠ amfId) then ret tt else mret tt
      end;;
      upd_ran r (λ u, u <| IndexToRfsp ::= λ x, default x (IndexToRFSP l) |>
                        <| ru_Ambr ::= keep_some (UEAggregateMaximumBitRate l) |>
                        <| AllowedNssai ::= keep_some (AllowedNSSAI l) |>);;
      match NASPDU l with
      | None => mret tt
      | Some nasPDU => downlink_nas r nasPDU
      end
  | _, _ => ret tt
  end.

(** ** PDU session set-up *)

(** src/internal/ngap/handler.go:1480-1504 (Server.HandlePDUSessionResourceSetupRequest)

    A NAS PDU beside the sessions goes to the UE at once. *)
Definition setup_nas (o : option ref) (l : IEs) : H unit unit :=
  match NASPDU l with
  | None => mret tt
  | Some nasPDU =>
      match o with
      | None => ret tt
      | Some r =>
          u ← get_ran (Some r);
          match TCPConnection u with
          | None => ret tt
          | Some conn =>
              ok ← do_io (IoTcpWrite conn (EncapNasMsgToEnvelope nasPDU));
              if (ok : bool) then mret tt else ret tt
          end
      end
  end.

(** src/internal/ngap/handler.go:1388-1596 (Server.HandlePDUSessionResourceSetupRequest)

    Of the NAS PDUs of the sessions the last one is kept. *)
Definition HandlePDUSessionResourceSetupRequest (amf : option ref) (ies : option (list IE)) : H unit unit :=
  match amf, ies with
  | Some _, Some ies =>
      let '(l, diags) := collect [idAMFUENGAPID; idRANUENGAPID; idPDUSessionResourceSetupList] ies in
      match diags with
      | _ :: _ => ret tt
      | [] =>
          o ← find_ran_ue l;
          setup_nas o l;;
          r ← deref o;
          u ← get_ran (Some r);
          tmp ← deref (TemporaryPDUSessionSetupData u);
          upd_temp tmp (λ t, t <| NGAPProcedureCode := ProcedureCodeInitialContextSetup |>);;
          match SetupList l with
          | None => mret tt
          | Some items =>
              upd_temp tmp (λ t, t <| SetupListSURes := Some [] |> <| FailedListSURes := Some [] |> <| Index := 0 |>
                                  <| UnactivatedPDUSession := [] |>
                                  <| NGAPProcedureCode := ProcedureCodePDUSessionResourceSetup |>);;
              for_each items (setup_session false r tmp)
          end;;
          t ← get_temp (Some tmp);
          if decide (UnactivatedPDUSession t = []) then mret tt
          else
            u ← get_ran (Some r);
            spi ← gets (IkeSpiLoad (RanUeNgapId u));
            match spi with
            | None => ret tt
            | Some spi =>
                SendIkeEvt (CreatePDUSessionEvt spi (Z.of_nat (size (PduSessionList u))) (TemporaryPDUSessionSetupData u));;
                accept ← deref (i ← SetupList l ≫= last; sr_NASPDU i);
                upd_ran r (λ u, u <| TemporaryCachedNASMessage := Some (EncapNasMsgToEnvelope accept) |>)
            end
      end
  | _, _ => ret tt
  end.

(** ** Downlink NAS: the route of a message *)

Lemma run_upd_ran {R} w r f u :
  h_ran w !! r = Some u → (upd_ran r f : H R unit) w = (Next tt, w <| h_ran := <[r := f u]> (h_ran w) |>).
Proof.
  intros Hu. unfold upd_ran, modify, update. cbn -[alter]. do 2 f_equal.
  apply map_eq. intros k. destruct (decide (k = r)) as [->|]; [by rewrite lookup_alter_eq, Hu, lookup_insert_eq|].
  by rewrite lookup_alter_ne, lookup_insert_ne.
Qed.

(** The other elements of the message that the UE keeps. *)
Definition store_downlink (l : IEs) (u : N3IWFRanUe) : N3IWFRanUe :=
  u <| IndexToRfsp ::= λ x, default x (IndexToRFSP l) |> <| ru_Ambr ::= keep_some (UEAggregateMaximumBitRate l) |>
    <| AllowedNssai ::= keep_some (AllowedNSSAI l) |>.

(** What becomes of the NAS message of a UE that is bound to the AMF's identifier. *)
Definition routed (out : ctl unit unit * World) w (r : ref) (u : N3IWFRanUe) (spi : Z) (nasPDU : bytes) : Prop :=
  let w1 := w <| h_ran := <[r := u]> (h_ran w) |> in
  if negb (IsNASTCPConnEstablished u) then
    out = (Next tt, w1 <| ike_queue := ike_queue w ++ [SendEAPNASMsgEvt spi nasPDU] |>)
  else if negb (IsNASTCPConnEstablishedComplete u) then
    out = (Next tt, w <| h_ran := <[r := u <| TemporaryCachedNASMessage := Some (EncapNasMsgToEnvelope nasPDU) |>]> (h_ran w) |>)
  else
    match TCPConnection u with
    | Some conn => out = (Next tt, w1 <| trace := IoTcpWrite conn (EncapNasMsgToEnvelope nasPDU) :: trace w |>)
    | None => out = (Panicked nil_deref, w1)
    end.

Lemma downlink_nas_routed w r u spi nasPDU :
  NGAPIdToIKESPI w !! RanUeNgapId u = Some spi →
  routed (downlink_nas r nasPDU (w <| h_ran := <[r := u]> (h_ran w) |>)) w r u spi nasPDU.
Proof.
  intros Hspi. set (w1 := w <| h_ran := _ |>).
  assert (h_ran w1 !! r = Some u) as Hu by apply lookup_insert_eq.
  unfold downlink_nas, routed. rewrite run_bind, (run_get_ran w1 r u Hu). fold w1.
  rewrite run_bind. cbn [gets]. unfold IkeSpiLoad. change (NGAPIdToIKESPI w1) with (NGAPIdToIKESPI w). rewrite Hspi.
  destruct (IsNASTCPConnEstablished u); [|done]. cbn [negb].
  destruct (IsNASTCPConnEstablishedComplete u); cbn [negb].
  - unfold tcp_write. destruct (TCPConnection u); done.
  - rewrite (run_upd_ran w1 r _ u Hu). unfold w1. cbn. unfold update. cbn. do 2 f_equal.
    apply insert_insert_eq.
Qed.

Lemma HandleDownlinkNASTransport_run w amf ies amfId ranId nasPDU r u spi :
  let l := (collect [] ies).1 in
  AMFUENGAPID l = Some amfId → RANUENGAPID l = Some ranId → NASPDU l = Some nasPDU →
  RanUePoolLoad ranId w = Some r → h_ran w !! r = Some u → IkeSpiLoad (RanUeNgapId u) w = Some spi →
  let out := HandleDownlinkNASTransport (Some amf) (Some ies) w in
  if decide (AmfUeNgapId u ≠ AmfUeNgapIdUnspecified ∧ AmfUeNgapId u ≠ amfId) then out = (Return tt, w)
  else routed out w r (store_downlink l (u <| AmfUeNgapId := amfId |>)) spi nasPDU.
Proof.
  intros l Ha Hi Hn Hr Hu Hspi out. unfold out, HandleDownlinkNASTransport. fold l. rewrite Ha, Hi, Hn.
  rewrite !run_bind. cbn [gets]. rewrite Hr. cbn [mret prog_ret].
  rewrite run_bind. cbn [deref mret prog_ret]. rewrite !run_bind, (run_get_ran w r u Hu).
  set (u' := store_downlink l (u <| AmfUeNgapId := amfId |>)).
  assert (∀ w1 u1, h_ran w1 !! r = Some u1 → w <| h_ran := <[r := u']> (h_ran w) |> =
      w1 <| h_ran := <[r := store_downlink l u1]> (h_ran w1) |> →
    routed ((upd_ran r (store_downlink l);; downlink_nas r nasPDU) w1) w r u' spi nasPDU) as Hrest.
  { intros w1 u1 Hu1 Ew. rewrite run_bind, (run_upd_ran w1 r _ u1 Hu1). rewrite <- Ew.
    by apply downlink_nas_routed. }
  destruct (decide (AmfUeNgapId u = AmfUeNgapIdUnspecified)) as [Hs|Hs].
  - rewrite decide_False by tauto. rewrite (run_upd_ran w r _ u Hu).
    apply (Hrest _ (u <| AmfUeNgapId := amfId |>)); [apply lookup_insert_eq|].
    unfold update; cbn. by rewrite insert_insert_eq.
  - destruct (decide (AmfUeNgapId u ≠ amfId)) as [Hne|Hne]; [by rewrite decide_True|].
    rewrite decide_False by tauto. apply dec_stable in Hne. apply (Hrest w u Hu).
    unfold u'. rewrite <- Hne. by destruct u.
Qed.

(** C11. A NAS message from the AMF reaches its UE: a message whose AMF identifier
    is not the one the UE is bound to changes nothing; otherwise the UE is bound to the AMF's
    identifier, and the message is handed over in exactly one way, to the IKE server as EAP
    payload before the NAS connection is announced, into the cache until the UE has
    connected, in an envelope on the UE's TCP connection afterwards. In the last case without
    a connection the handler dereferences nil. *)
Theorem HandleDownlinkNASTransport_spec w amf ies amfId ranId nasPDU r u spi :
  let l := (collect [] ies).1 in
  AMFUENGAPID l = Some amfId → RANUENGAPID l = Some ranId → NASPDU l = Some nasPDU →
  RanUePoolLoad ranId w = Some r → h_ran w !! r = Some u → IkeSpiLoad (RanUeNgapId u) w = Some spi →
  let out := HandleDownlinkNASTransport (Some amf) (Some ies) w in
  if decide (AmfUeNgapId u ≠ AmfUeNgapIdUnspecified ∧ AmfUeNgapId u ≠ amfId) then out = (Return tt, w)
  else routed out w r (store_downlink l (u <| AmfUeNgapId := amfId |>)) spi nasPDU.
Proof. apply HandleDownlinkNASTransport_run. Qed.

End Messages.

(** ** Applications to concrete states *)
#[local] Existing Instance toy.

(** The UE 1, connected, in an N3IWF with one AMF. *)
Definition ue_connected : N3IWFRanUe :=
  init_RanUe 1 9%nat <| ru_AMF := Some 6%nat |> <| IsNASTCPConnEstablished := true |>
    <| IsNASTCPConnEstablishedComplete := true |> <| TCPConnection := Some 77 |>.
Definition ue_world : World :=
  world0 all_ok <| RANUePool := {[ 1 := 5%nat ]} |> <| h_ran := {[ 5%nat := ue_connected ]} |>
    <| NGAPIdToIKESPI := {[ 1 := 100 ]} |> <| AMFPool := {[ "amf"%string := 6%nat ]} |>
    <| h_amf := {[ 6%nat := init_AMF "amf" (Some 3) ]} |> <| h_temp := {[ 9%nat := zero_Temp ]} |> <| next_ref := 20%nat |>.
Definition downlink_ies (nasPDU : bytes) : list IE :=
  [ieAMFUENGAPID (Some 1); ieRANUENGAPID (Some 1); ieNASPDU (Some nasPDU)].

Lemma HandleDownlinkNASTransport_spec_witness :
  HandleDownlinkNASTransport (Some 6%nat) (Some (downlink_ies [8; 9])) ue_world =
    (Next tt, ue_world <| h_ran := {[ 5%nat := ue_connected <| AmfUeNgapId := 1 |> ]} |>
                       <| trace := [IoTcpWrite 77 [0; 2; 8; 9]] |>).
Proof.
  exact (HandleDownlinkNASTransport_spec ue_world 6%nat (downlink_ies [8; 9]) 1 1 [8; 9] 5%nat ue_connected 100
           eq_refl eq_refl eq_refl eq_refl eq_refl eq_refl).
Defined.
