(* ===== verification/NgapPdu.v ===== *)
(** * PDU session modification and release, error indication (internal/ngap/handler.go) *)

From S2P Require Import Prelude Monad NgapTypes NgapMsg IkeMsg Env State Context NgapSend NgapEvents NgapUe.

Section Messages.
Context `{E : Env}.
Implicit Types w : World.

(** ** Modification *)

(** The locals of the loop over the elements of a modification transfer. *)
Record ModifyIEs := mkModifyIEs {
  md_AMBR : option opaque;
  md_UL : option (list ULNGUUPTNLModifyItem);
  md_NetworkInstance : option opaque;
  md_AddOrModify : option (list QosModifyItem);
  md_Release : option (list Z);
}.
(** src/internal/ngap/handler.go:1766-1806 (Server.handlePDUSessionResourceModifyRequestTransfer)

    A list that is present must not be empty. *)
Definition modify_ies (ies : list ModifyIE) : ModifyIEs * list CritItem :=
  (foldl (λ '(mkModifyIEs a u n q r as l) e,
     match e with
     | miAMBR v => mkModifyIEs v u n q r
     | miULNGUUPTNLModifyList v => mkModifyIEs a v n q r
     | miNetworkInstance v => mkModifyIEs a u v q r
     | miQosFlowAddOrModifyRequestList v => mkModifyIEs a u n v r
     | miQosFlowToReleaseList v => mkModifyIEs a u n q v
     | miOther => l
     end) (mkModifyIEs None None None None None) ies,
   omap (λ e, match e with
              | miULNGUUPTNLModifyList (Some []) => Some (missing_item idULNGUUPTNLModifyList)
              | miQosFlowAddOrModifyRequestList (Some []) => Some (missing_item idQosFlowAddOrModifyRequestList)
              | miQosFlowToReleaseList (Some []) => Some (missing_item idQosFlowToReleaseList)
              | _ => None
              end) ies).

(** src/internal/ngap/handler.go:1835-1862 (Server.handlePDUSessionResourceModifyRequestTransfer)

    One flow: the modified flows and the failed ones so far. *)
Definition modify_flow (p : ref) (acc : list Z * list (Z * Cause)) (i : QosModifyItem)
  : H (bool * bytes) (list Z * list (Z * Cause)) :=
  let '(done, failed) := acc in
  s ← get_pdu (Some p);
  match QosFlows s !! qm_Identifier i with
  | Some f =>
      parameters ← deref (qm_Parameters i);
      upd_pdu p (λ s, s <| QosFlows ::= <[qm_Identifier i := mkQosFlow (qf_Identifier f) parameters]> |>);;
      mret (done ++ [qm_Identifier i], failed)
  | None =>
      mret (done, failed ++ [(qm_Identifier i, BuildCause CauseRadioNetwork CauseRadioNetworkPresentUnkownQosFlowID)])
  end.
(** src/internal/ngap/handler.go:1834-1863 (Server.handlePDUSessionResourceModifyRequestTransfer) *)
Fixpoint modify_flows (p : ref) (acc : list Z * list (Z * Cause)) (l : list QosModifyItem)
  : H (bool * bytes) (list Z * list (Z * Cause)) :=
  match l with
  | [] => mret acc
  | i :: l => acc ← modify_flow p acc i; modify_flows p acc l
  end.

(** src/internal/ngap/handler.go:1742-1898 (Server.handlePDUSessionResourceModifyRequestTransfer) *)
Definition handlePDUSessionResourceModifyRequestTransfer (p : ref) (ies : list ModifyIE)
  : H (bool * bytes) (bool * bytes) :=
  let '(l, diags) := modify_ies ies in
  match diags with
  | _ :: _ =>
      ret (false, default [] (BuildPDUSessionResourceModifyUnsuccessfulTransfer
             (BuildCause CauseProtocol CauseProtocolPresentAbstractSyntaxErrorReject)
             (Some (buildCriticalityDiagnostics None None None diags))))
  | [] =>
      tunnel ← match md_UL l with None => mret None | Some tl => t ← lift (at_ tl 0); mret (Some t) end;
      '(flows, failed) ← modify_flows p ([], []) (default [] (md_AddOrModify l));
      upd_pdu p (λ s, s <| pdu_Ambr ::= keep_some (md_AMBR l) |>
                        <| pdu_NetworkInstance ::= keep_some (md_NetworkInstance l) |>
                        <| QosFlows ::= λ m, foldl (λ m q, delete q m) m (default [] (md_Release l)) |>);;
      mret (true, default [] (BuildPDUSessionResourceModifyResponseTransfer (tm_UL <$> tunnel) (tm_DL <$> tunnel)
                                flows failed))
  end.

(** src/internal/ngap/handler.go:1693-1734 (Server.HandlePDUSessionResourceModifyRequest)

    One session; the response and failed lists so far. The transfer is passed to the
    decoder as a structure, so the local one stays empty whatever the message holds. *)
Definition modify_session (o : option ref) (acc : list SessionItem * list SessionItem) (item : SessionItem)
  : H unit (list SessionItem * list SessionItem) :=
  let '(done, failed) := acc in
  match aper_by_value (si_Transfer item) with Panic e => panic e | _ => mret tt end;;
  u ← get_ran o;
  match FindPDUSession u (si_Id item) with
  | None =>
      mret (done, failed ++ [mkItem (si_Id item)
        (default [] (BuildPDUSessionResourceModifyUnsuccessfulTransfer
           (BuildCause CauseRadioNetwork CauseRadioNetworkPresentUnknownPDUSessionID) None))])
  | Some p =>
      '(success, resTransfer) ← call (handlePDUSessionResourceModifyRequestTransfer p []);
      if (success : bool) then mret (done ++ [mkItem (si_Id item) resTransfer], failed)
      else mret (done, failed ++ [mkItem (si_Id item) resTransfer])
  end.
(** src/internal/ngap/handler.go:1693-1734 (Server.HandlePDUSessionResourceModifyRequest) *)
Fixpoint modify_sessions (o : option ref) (acc : list SessionItem * list SessionItem) (l : list SessionItem)
  : H unit (list SessionItem * list SessionItem) :=
  match l with
  | [] => mret acc
  | i :: l => acc ← modify_session o acc i; modify_sessions o acc l
  end.

(** src/internal/ngap/handler.go:1598-1740 (Server.HandlePDUSessionResourceModifyRequest) *)
Definition HandlePDUSessionResourceModifyRequest (amf : option ref) (ies : option (list IE)) : H unit unit :=
  match amf, ies with
  | Some _, Some ies =>
      let '(l, diags) := collect [idAMFUENGAPID; idRANUENGAPID; idPDUSessionResourceModifyListModReq] ies in
      match diags with
      | _ :: _ =>
          SendPDUSessionResourceModifyResponse None None None
            (Some (buildCriticalityDiagnostics None None None diags));;
          ret tt
      | [] =>
          o ← find_ran_ue l;
          '(done, failed) ← modify_sessions o ([], []) (default [] (ModifyListModReq l));
          SendPDUSessionResourceModifyResponse o (Some done) (Some failed) None
      end
  | _, _ => ret tt
  end.

(** src/internal/ngap/handler.go:1956-1990 (Server.HandlePDUSessionResourceModifyConfirm)

    The UE, and its context: a UE found only by its AMF identifier has a nil context. *)
Definition confirm_ue (amf : ref) (l : IEs) : H unit (option ref) :=
  o ← match RANUENGAPID l with
      | None => mret None
      | Some ranId =>
          o ← gets (RanUePoolLoad ranId);
          match o with None => ret tt | Some r => mret (Some r) end
      end;
  match AMFUENGAPID l, o with
  | Some amfId, Some r =>
      u ← get_ran (Some r);
      if decide (AmfUeNgapId u ≠ amfId) then ret tt else mret (Some r)
  | Some amfId, None =>
      o ← FindUeByAmfUeNgapID amf amfId;
      match o with None => ret tt | Some _ => mret None end
  | None, Some r => mret (Some r)
  | None, None => ret tt
  end.

(** src/internal/ngap/handler.go:1997-2022 (Server.HandlePDUSessionResourceModifyConfirm) *)
Definition confirm_session (ctx : option ref) (item : SessionItem) : H unit unit :=
  u ← get_ran ctx;
  match PduSessionList u !! si_Id item with
  | None => mret tt
  | Some p =>
      match aper_modify_confirm (si_Transfer item) with
      | Some (Some flows) => upd_pdu p (λ s, s <| QosFlows ::= λ m, foldl (λ m q, delete q m) m flows |>)
      | _ => mret tt
      end
  end.

(** src/internal/ngap/handler.go:1900-2046 (Server.HandlePDUSessionResourceModifyConfirm) *)
Definition HandlePDUSessionResourceModifyConfirm (amf : option ref) (ies : option (list IE)) : H unit unit :=
  match amf, ies with
  | Some amf, Some ies =>
      let l := (collect [] ies).1 in
      ctx ← confirm_ue amf l;
      for_each (default [] (ModifyListModCfm l)) (confirm_session ctx);;
      for_each (default [] (FailedToModifyListModCfm l)) (λ item, r ← deref ctx; DeletePDUSession r (si_Id item))
  | _, _ => ret tt
  end.

(** ** Release *)

(** src/internal/ngap/handler.go:2048-2202 (Server.HandlePDUSessionResourceReleaseCommand) *)
Definition HandlePDUSessionResourceReleaseCommand (amf : option ref) (ies : option (list IE)) : H unit unit :=
  match amf, ies with
  | Some amf, Some ies =>
      let '(l, diags) := collect [idAMFUENGAPID; idRANUENGAPID; idPDUSessionResourceToReleaseListRelCmd] ies in
      match diags with
      | _ :: _ =>
          SendErrorIndication (Some amf) None None None
            (Some (buildCriticalityDiagnostics (Some ProcPDUSessionResourceRelease) (Some InitiatingMessage)
                     (Some Reject) diags));;
          ret tt
      | [] =>
          ranId ← deref (RANUENGAPID l);
          o ← gets (RanUePoolLoad ranId);
          match o with
          | None =>
              SendErrorIndication (Some amf) None None
                (Some (BuildCause CauseRadioNetwork CauseRadioNetworkPresentUnknownLocalUENGAPID)) None;;
              ret tt
          | Some r =>
              u ← get_ran (Some r);
              amfId ← deref (AMFUENGAPID l);
              if decide (AmfUeNgapId u ≠ amfId) then
                SendErrorIndication (Some amf) None (Some ranId)
                  (Some (BuildCause CauseRadioNetwork CauseRadioNetworkPresentInconsistentRemoteUENGAPID)) None;;
                ret tt
              else
                items ← deref (ToReleaseListRelCmd l);
                for_each items (λ item, DeletePDUSession r (si_Id item));;
                spi ← gets (IkeSpiLoad ranId);
                match spi with
                | None => ret tt
                | Some spi =>
                    upd_ran r (λ u, u <| PduSessResRelState := true |>);;
                    SendIkeEvt (SendChildSADeleteRequestEvt spi (map si_Id items));;
                    upd_ran r (λ u, u <| PduSessionReleaseList :=
                                           map (λ i, mkItem (si_Id i) getPDUSessionResourceReleaseResponseTransfer) items |>)
                end
          end
      end
  | _, _ => ret tt
  end.

(** ** Error indication *)

(** src/internal/ngap/handler.go:2204-2299 (Server.HandleErrorIndication)

    With neither identifier the nil RAN identifier is dereferenced. *)
Definition HandleErrorIndication (amf : option ref) (ies : option (list IE)) : H unit unit :=
  match amf, ies with
  | Some amf, Some ies =>
      let l := (collect [] ies).1 in
      match Cause_ l, CriticalityDiagnostics_ l with
      | None, None => ret tt
      | _, _ =>
          match AMFUENGAPID l, RANUENGAPID l with
          | Some _, None | None, Some _ => ret tt
          | amfId, ranId =>
              ranId ← deref ranId;
              o ← gets (RanUePoolLoad ranId);
              match o with Some r => releaseIkeUeAndRanUe r;; mret tt | None => mret tt end;;
              amfId ← deref amfId;
              o ← FindUeByAmfUeNgapID amf amfId;
              match o with Some r => releaseIkeUeAndRanUe r;; mret tt | None => mret tt end
          end
      end
  | _, _ => ret tt
  end.

(** src/internal/ngap/handler.go:2301-2388 (Server.HandleUERadioCapabilityCheckRequest) *)
Definition HandleUERadioCapabilityCheckRequest (amf : option ref) (ies : option (list IE)) : H unit unit :=
  match amf, ies with
  | Some amf, Some ies =>
      let '(l, diags) := collect [idAMFUENGAPID; idRANUENGAPID] ies in
      match diags with
      | _ :: _ =>
          SendErrorIndication (Some amf) None None None
            (Some (buildCriticalityDiagnostics (Some ProcUERadioCapabilityCheck) (Some InitiatingMessage)
                     (Some Reject) diags));;
          ret tt
      | [] =>
          ranId ← deref (RANUENGAPID l);
          o ← gets (RanUePoolLoad ranId);
          match o with
          | None =>
              SendErrorIndication (Some amf) None None
                (Some (BuildCause CauseRadioNetwork CauseRadioNetworkPresentUnknownLocalUENGAPID)) None;;
              ret tt
          | Some r => upd_ran r (λ u, u <| RadioCapability := UERadioCapability l |>)
          end
      end
  | _, _ => ret tt
  end.

End Messages.
