(* ===== verification/NgapAmf.v ===== *)
(** * Messages about the AMF itself, and the NGAP dispatcher (internal/ngap)

    Set-up and its failure with the timer, reset, configuration updates and overload of
    handler.go; the dispatcher of dispatcher.go and one turn of the server loop of
    server.go. A panic of a handler is turned into Fatalf by the dispatcher and by the
    loop: [Panicked] as the outcome of a turn is the end of the process. *)

From S2P Require Import Prelude Monad NgapTypes NgapMsg IkeMsg Env State ToyEnv Context NgapSend NgapEvents NgapUe NgapPdu.

(** TimeToWait (TS 38.413 9.3.1.56) *)
Definition TimeToWaitPresentV1s : Z := 0.
Definition TimeToWaitPresentV2s : Z := 1.
Definition TimeToWaitPresentV5s : Z := 2.
Definition TimeToWaitPresentV10s : Z := 3.
Definition TimeToWaitPresentV20s : Z := 4.
Definition TimeToWaitPresentV60s : Z := 5.

(** src/internal/ngap/handler.go:226-242 (Server.HandleNGSetupFailure)

    Seconds to wait, 0 for none; the same switch is in the configuration update failure. *)
Definition waiting_time (timeToWait : option Z) : Z :=
  match timeToWait with
  | None => 0
  | Some t =>
      if decide (t = TimeToWaitPresentV1s) then 1
      else if decide (t = TimeToWaitPresentV2s) then 2
      else if decide (t = TimeToWaitPresentV5s) then 5
      else if decide (t = TimeToWaitPresentV10s) then 10
      else if decide (t = TimeToWaitPresentV20s) then 20
      else if decide (t = TimeToWaitPresentV60s) then 60
      else 0
  end.

Section Messages.
Context `{E : Env}.
Implicit Types w : World.

(** ** AMF context (internal/context/amf.go) *)

(** The key of an address in the association list. *)
Definition tnl_key {R} (address : option opaque) : H R (string * string) :=
  a ← deref address; mret (tla_to_string a).

(** src/internal/context/amf.go:71-76 (N3IWFAMF.AddAMFTNLAssociationItem)

    With the weight and usage that the caller stores into the new item. *)
Definition AddAMFTNLAssociationItem {R} (amf : ref) (item : TNLItem) : H R unit :=
  '(v4, v6) ← tnl_key (ti_Address item);
  upd_amf amf (λ a, a <| AMFTNLAssociationList ::= <[v4 +:+ v6 := mkTNL v4 v6 (ti_Usage item) (ti_Weight item)]> |>).

(** src/internal/context/amf.go:83-86 (N3IWFAMF.DeleteAMFTNLAssociationItem) *)
Definition DeleteAMFTNLAssociationItem {R} (amf : ref) (item : TNLItem) : H R unit :=
  '(v4, v6) ← tnl_key (ti_Address item);
  upd_amf amf (λ a, a <| AMFTNLAssociationList ::= delete (v4 +:+ v6) |>).

(** src/internal/context/amf.go:78-81 (N3IWFAMF.FindAMFTNLAssociationItem)

    With the change the caller makes to the item it finds. *)
Definition UpdateAMFTNLAssociationItem {R} (amf : ref) (item : TNLItem) : H R unit :=
  '(v4, v6) ← tnl_key (ti_Address item);
  upd_amf amf (λ a, a <| AMFTNLAssociationList ::=
    alter (λ t, mkTNL (tnl_Ipv4 t) (tnl_Ipv6 t) (keep_some (ti_Usage item) (tnl_Usage t))
                  (keep_some (ti_Weight item) (tnl_WeightFactor t))) (v4 +:+ v6) |>).

(** src/internal/context/amf.go:88-119 (N3IWFAMF.StartOverload) *)
Definition StartOverload (resp : option (option Z)) (trafloadInd : option Z) (nssai : option (list OverloadItem))
    (a : N3IWFAMF) : N3IWFAMF :=
  match resp, trafloadInd, nssai with
  | None, None, None => a
  | _, _, _ =>
      a <| amf_Overload := Some (mkOverload (default None resp) trafloadInd
             (map (λ i, mkSliceOverload (oi_Slices i) (default None (oi_Response i)) (oi_Traffic i))
                (default [] nssai))) |>
  end.

(** src/internal/context/amf.go:121-123 (N3IWFAMF.StopOverload) *)
Definition StopOverload (a : N3IWFAMF) : N3IWFAMF := a <| amf_Overload := None |>.

(** ** NG set-up *)

(** src/internal/ngap/handler.go:122-136 (Server.HandleNGSetupResponse)

    The elements that are present replace the stored ones; also in a configuration update. *)
Definition store_amf (l : IEs) (a : N3IWFAMF) : N3IWFAMF :=
  a <| AMFName ::= keep_some (AMFName_ l) |> <| ServedGUAMIList ::= keep_some (ServedGUAMIList_ l) |>
    <| RelativeAMFCapacity ::= keep_some (RelativeAMFCapacity_ l) |>
    <| PLMNSupportList ::= keep_some (PLMNSupportList_ l) |>.

(** The error indication for mandatory elements that are nil. *)
Definition reject_setup (conn : Z) (outcome : Outcome) (diags : list CritItem) : H unit unit :=
  SendErrorIndicationWithSctpConn conn None None
    (Some (BuildCause CauseProtocol CauseProtocolPresentAbstractSyntaxErrorReject))
    (Some (buildCriticalityDiagnostics (Some ProcNGSetup) (Some outcome) (Some Reject) diags)).

(** src/internal/ngap/handler.go:23-142 (Server.HandleNGSetupResponse) *)
Definition HandleNGSetupResponse (sctpAddr : string) (conn : Z) (ies : option (list IE)) : H unit unit :=
  match ies with
  | None => ret tt
  | Some ies =>
      let '(l, diags) := collect [idAMFName; idServedGUAMIList; idPLMNSupportList] ies in
      match diags with
      | _ :: _ => reject_setup conn SuccessfulOutcome diags;; ret tt
      | [] =>
          amf ← NewN3iwfAmf sctpAddr (Some conn);
          upd_amf amf (store_amf l)
      end
  end.

(** src/internal/ngap/handler.go:144-254 (Server.HandleNGSetupFailure) *)
Definition HandleNGSetupFailure (sctpAddr : string) (conn : Z) (ies : option (list IE)) : H unit unit :=
  match ies with
  | None => ret tt
  | Some ies =>
      let '(l, diags) := collect [idCause] ies in
      match diags with
      | _ :: _ => reject_setup conn UnsuccessfulOutcome diags;; ret tt
      | [] =>
          let waitingTime := waiting_time (TimeToWait l) in
          if decide (waitingTime ≠ 0) then
            modify (AMFReInitAvailableListStore sctpAddr false);;
            do_io (IoTimer waitingTime (ResendNGSetupRequest sctpAddr conn));;
            ret tt
          else mret tt
      end
  end.

(** ** Reset *)

(** src/internal/ngap/handler.go:341-363 (Server.HandleNGReset)

    The loop over the named connections. The UE variable is declared outside the loop: an
    item without identifiers concerns the UE of the item before. *)
Fixpoint reset_connections (amf : ref) (ranUe : option ref) (l : list ConnectionItem) : H unit unit :=
  match l with
  | [] => mret tt
  | item :: l =>
      ranUe ← match ci_RANUENGAPID item, ci_AMFUENGAPID item with
              | Some ranId, _ => gets (RanUePoolLoad ranId)
              | None, Some amfId => FindUeByAmfUeNgapID amf amfId
              | None, None => mret ranUe
              end;
      match ranUe with
      | None => mret tt
      | Some r => call (RanUe_Remove r);; mret tt
      end;;
      reset_connections amf ranUe l
  end.

(** src/internal/ngap/handler.go:256-372 (Server.HandleNGReset)

    The cause is printed through its pointer, the reset type read through its own. *)
Definition HandleNGReset (amf : option ref) (ies : option (list IE)) : H unit unit :=
  match amf, ies with
  | Some amf, Some ies =>
      let '(l, diags) := collect [idResetType] ies in
      match diags with
      | _ :: _ =>
          SendErrorIndication (Some amf) None None None
            (Some (buildCriticalityDiagnostics (Some ProcNGReset) (Some InitiatingMessage) (Some Reject) diags));;
          ret tt
      | [] =>
          deref (Cause_ l);;
          reset ← deref (ResetType_ l);
          match reset with
          | ResetNGInterface => call (RemoveAllRelatedUe amf);; SendNGResetAcknowledge (Some amf) None None
          | ResetPartOfNGInterface None => ret tt
          | ResetPartOfNGInterface (Some items) =>
              reset_connections amf None items;;
              SendNGResetAcknowledge (Some amf) (Some items) None
          | ResetInvalid _ => mret tt
          end
      end
  | _, _ => ret tt
  end.

(** src/internal/ngap/handler.go:374-439 (Server.HandleNGResetAcknowledge)

    The contents are only printed. *)
Definition HandleNGResetAcknowledge (amf : option ref) (ies : option (list IE)) : H unit unit := ret tt.

(** ** Configuration updates *)

(** src/internal/ngap/handler.go:2390-2518 (Server.HandleAMFConfigurationUpdate) *)
Definition HandleAMFConfigurationUpdate (amf : option ref) (ies : option (list IE)) : H unit unit :=
  match amf, ies with
  | Some amf, Some ies =>
      let l := (collect [] ies).1 in
      upd_amf amf (store_amf l);;
      for_each (default [] (TNLToAdd l)) (AddAMFTNLAssociationItem amf);;
      for_each (default [] (TNLToRemove l)) (DeleteAMFTNLAssociationItem amf);;
      for_each (default [] (TNLToUpdate l)) (UpdateAMFTNLAssociationItem amf);;
      SendAMFConfigurationUpdateAcknowledge (Some amf)
        (match default [] (TNLToAdd l) with [] => None | items => Some (map ti_Address items) end) None
  | _, _ => ret tt
  end.

(** src/internal/ngap/handler.go:2520-2568 (Server.HandleRANConfigurationUpdateAcknowledge)

    The diagnostics are only printed. *)
Definition HandleRANConfigurationUpdateAcknowledge (amf : option ref) (ies : option (list IE)) : H unit unit := ret tt.

(** src/internal/ngap/handler.go:2570-2660 (Server.HandleRANConfigurationUpdateFailure) *)
Definition HandleRANConfigurationUpdateFailure (amf : option ref) (ies : option (list IE)) : H unit unit :=
  match amf, ies with
  | Some amf, Some ies =>
      let waitingTime := waiting_time (TimeToWait (collect [] ies).1) in
      if decide (waitingTime ≠ 0) then
        a ← get_amf (Some amf);
        modify (AMFReInitAvailableListStore (SCTPAddr a) false);;
        do_io (IoTimer waitingTime (ResendRANConfigurationUpdate amf));;
        ret tt
      else SendRANConfigurationUpdate amf
  | _, _ => ret tt
  end.

(** src/internal/ngap/handler.go:247-250 (Server.HandleNGSetupFailure)

    A timer that fires, in a goroutine of its own; also handler.go:2651-2655. *)
Definition timer_fires (c : TimerCall) : H unit unit :=
  match c with
  | ResendNGSetupRequest sctpAddr conn =>
      modify (AMFReInitAvailableListStore sctpAddr true);;
      SendNGSetupRequest sctpAddr conn
  | ResendRANConfigurationUpdate amf =>
      a ← get_amf (Some amf);
      modify (AMFReInitAvailableListStore (SCTPAddr a) true);;
      SendRANConfigurationUpdate amf
  end.

(** ** Overload *)

(** src/internal/ngap/handler.go:2727-2780 (Server.HandleOverloadStart) *)
Definition HandleOverloadStart (amf : option ref) (ies : option (list IE)) : H unit unit :=
  match amf, ies with
  | Some amf, Some ies =>
      let l := (collect [] ies).1 in
      upd_amf amf (StartOverload (OverloadResponse l) (TrafficLoadReductionIndication l) (OverloadStartNSSAIList l))
  | _, _ => ret tt
  end.

(** src/internal/ngap/handler.go:2782-2800 (Server.HandleOverloadStop) *)
Definition HandleOverloadStop (amf : option ref) : H unit unit :=
  match amf with
  | Some amf => upd_amf amf StopOverload
  | None => ret tt
  end.

(** ** Dispatch *)

(** Handlers that only log. *)

(** src/internal/ngap/handler.go:2662-2673 (Server.HandleDownlinkRANConfigurationTransfer) *)
Definition HandleDownlinkRANConfigurationTransfer : H unit unit := mret tt.
(** src/internal/ngap/handler.go:2675-2686 (Server.HandleDownlinkRANStatusTransfer) *)
Definition HandleDownlinkRANStatusTransfer : H unit unit := mret tt.
(** src/internal/ngap/handler.go:2688-2699 (Server.HandleAMFStatusIndication) *)
Definition HandleAMFStatusIndication : H unit unit := mret tt.
(** src/internal/ngap/handler.go:2701-2712 (Server.HandleLocationReportingControl) *)
Definition HandleLocationReportingControl : H unit unit := mret tt.
(** src/internal/ngap/handler.go:2714-2725 (Server.HandleUETNLAReleaseRequest) *)
Definition HandleUETNLAReleaseRequest : H unit unit := mret tt.

(** src/internal/ngap/dispatcher.go:42-83 (Server.NGAPDispatch) *)
Definition dispatch_initiating (amf : option ref) (proc : Procedure) (ies : option (list IE)) : H unit unit :=
  match proc with
  | ProcNGReset => HandleNGReset amf ies
  | ProcInitialContextSetup => HandleInitialContextSetupRequest ies
  | ProcUEContextModification => HandleUEContextModificationRequest amf ies
  | ProcUEContextRelease => HandleUEContextReleaseCommand amf ies
  | ProcDownlinkNASTransport => HandleDownlinkNASTransport amf ies
  | ProcPDUSessionResourceSetup => HandlePDUSessionResourceSetupRequest amf ies
  | ProcPDUSessionResourceModify => HandlePDUSessionResourceModifyRequest amf ies
  | ProcPDUSessionResourceRelease => HandlePDUSessionResourceReleaseCommand amf ies
  | ProcErrorIndication => HandleErrorIndication amf ies
  | ProcUERadioCapabilityCheck => HandleUERadioCapabilityCheckRequest amf ies
  | ProcAMFConfigurationUpdate => HandleAMFConfigurationUpdate amf ies
  | ProcOverloadStart => HandleOverloadStart amf ies
  | ProcOverloadStop => HandleOverloadStop amf
  | ProcDownlinkRANConfigurationTransfer => HandleDownlinkRANConfigurationTransfer
  | ProcDownlinkRANStatusTransfer => HandleDownlinkRANStatusTransfer
  | ProcAMFStatusIndication => HandleAMFStatusIndication
  | ProcLocationReportingControl => HandleLocationReportingControl
  | ProcUETNLABindingRelease => HandleUETNLAReleaseRequest
  (* the messages without a handler *)
  | _ => mret tt
  end.

(** src/internal/ngap/dispatcher.go:90-102 (Server.NGAPDispatch) *)
Definition dispatch_successful (sctpAddr : string) (conn : Z) (amf : option ref) (proc : Procedure)
    (ies : option (list IE)) : H unit unit :=
  match proc with
  | ProcNGSetup => HandleNGSetupResponse sctpAddr conn ies
  | ProcNGReset => HandleNGResetAcknowledge amf ies
  | ProcPDUSessionResourceModifyIndication => HandlePDUSessionResourceModifyConfirm amf ies
  | ProcRANConfigurationUpdate => HandleRANConfigurationUpdateAcknowledge amf ies
  | _ => mret tt
  end.

(** src/internal/ngap/dispatcher.go:110-118 (Server.NGAPDispatch) *)
Definition dispatch_unsuccessful (sctpAddr : string) (conn : Z) (amf : option ref) (proc : Procedure)
    (ies : option (list IE)) : H unit unit :=
  match proc with
  | ProcNGSetup => HandleNGSetupFailure sctpAddr conn ies
  | ProcRANConfigurationUpdate => HandleRANConfigurationUpdateFailure amf ies
  | _ => mret tt
  end.

(** src/internal/ngap/dispatcher.go:12-120 (Server.NGAPDispatch)

    [sctpAddr]: the remote address of the connection. *)
Definition NGAPDispatch (sctpAddr : string) (conn : Z) (msg : bytes) : H unit unit :=
  amf ← gets (AMFPoolLoad sctpAddr);
  match ngap_decode msg with
  | None => ret tt
  | Some pdu =>
      match pm_Present pdu, pm_Message pdu with
      | _, None => ret tt
      | InitiatingMessage, Some (proc, ies) => dispatch_initiating amf proc ies
      | SuccessfulOutcome, Some (proc, ies) => dispatch_successful sctpAddr conn amf proc ies
      | UnsuccessfulOutcome, Some (proc, ies) => dispatch_unsuccessful sctpAddr conn amf proc ies
      end
  end.

(** What the server goroutine receives. *)
Inductive ngap_input :=
| NgapPacket (sctpAddr : string) (conn : Z) (msg : bytes)
| NgapEvent (e : NgapEvt).

(** src/internal/ngap/server.go:78-105 (Server.runNgapEventHandler)

    One turn of the loop: whether it goes on. An empty packet is the receiver's message
    that the connection is closed. *)
Definition ngap_turn (i : ngap_input) : H bool bool :=
  match i with
  | NgapPacket sctpAddr conn msg =>
      match msg with
      | [] => ret false
      | _ => call (NGAPDispatch sctpAddr conn msg);; mret true
      end
  | NgapEvent e => call (HandleNgapEvent e);; mret true
  end.

End Messages.
