(* ===== verification/Nwuup.v ===== *)
(** * User plane forwarding (internal/nwuup/server.go)

    The two directions between the NWu interface (GRE inside the IPsec tunnels) and N3
    (GTP-U). Every packet is handled by a goroutine that turns a panic into Fatalf:
    [Panicked] is the end of the process. *)

From S2P Require GtpMsg Gre.
From S2P Require Import Prelude Monad NgapTypes NgapMsg IkeMsg Env State ToyEnv Context.

Section Forward.
Context `{E : Env}.
Implicit Types w : World.

(** src/internal/nwuup/server.go:182-191 (Server.forwardUL)

    The loop over the child SAs, in the order of the iteration: the session of the first one
    whose interface has the index the packet came through. *)
Fixpoint ul_session (u : N3IWFRanUe) (ifIndex : Z) (l : list (Z * ref)) : H unit (option ref) :=
  match l with
  | [] => mret None
  | (_, child) :: l =>
      c ← get_child child;
      if bool_decide (ln_Index <$> XfrmIface c = Some ifIndex) then
        session ← lift (at_ (PDUSessionIds c) 0);
        mret (PduSessionList u !! session)
      else ul_session u ifIndex l
  end.

(** src/internal/nwuup/server.go:158-243 (Server.forwardUL)

    An address string is represented by the address. *)
Definition forwardUL (ueInnerIP : bytes) (ifIndex : Z) (rawData : bytes) : H unit unit :=
  o ← gets (AllocatedUEIPAddressLoad ueInnerIP);
  match o with
  | None => ret tt
  | Some ikeUe =>
      ue ← get_ike (Some ikeUe);
      s ← get_sa (N3IWFIKESecurityAssociation ue);
      x ← gets (RanUeLoadFromIkeSPI (LocalSPI s));
      match x with
      | Ok r =>
          u ← get_ran (Some r);
          l ← range_map (N3IWFChildSecurityAssociation ue);
          session ← ul_session u ifIndex l;
          match session with
          | None => ret tt
          | Some p =>
              pdu ← get_pdu (Some p);
              match Gre.Unmarshal Gre.empty_packet rawData with
              | Err _ => ret tt
              | Panic e => panic e
              | Ok grePacket =>
                  let payload := (Gre.GetPayload grePacket).1 in
                  if Gre.GetKeyFlag grePacket then
                    match Gre.GetQFI grePacket with
                    | Ok qfi =>
                        g ← deref (GTPConnInfo pdu);
                        match GtpMsg.BuildQoSGTPPacket gtp_marshal (OutgoingTEID g) qfi payload with
                        | Ok gtpPacket => do_io (IoGtp gtpPacket (UPFUDPAddr g));; mret tt
                        | _ => ret tt
                        end
                    | _ => ret tt
                    end
                  else
                    g ← deref (GTPConnInfo pdu);
                    do_io (IoGtpPlain (OutgoingTEID g) payload (UPFUDPAddr g));; mret tt
              end
          end
      | _ => ret tt
      end
  end.

(** src/internal/nwuup/server.go:302-312 (Server.forwardDL)

    The interface index of the first child SA whose session has the tunnel identifier. *)
Fixpoint dl_interface (u : N3IWFRanUe) (teid : Z) (l : list (Z * ref)) : H unit (option Z) :=
  match l with
  | [] => mret None
  | (_, child) :: l =>
      c ← get_child child;
      session ← lift (at_ (PDUSessionIds c) 0);
      match FindPDUSession u session with
      | None => dl_interface u teid l
      | Some p =>
          pdu ← get_pdu (Some p);
          g ← deref (GTPConnInfo pdu);
          if decide (IncomingTEID g = teid) then
            iface ← deref (XfrmIface c);
            mret (Some (ln_Index iface))
          else dl_interface u teid l
      end
  end.

(** src/internal/nwuup/server.go:318-335 (Server.forwardDL)

    The GRE packet of a T-PDU. *)
Definition dl_packet (packet : GtpMsg.QoSTPDUPacket) (payload : bytes) : bytes :=
  let '(qfi, rqi) := if GtpMsg.HasQoS packet then GtpMsg.GetQoSParameters packet else (0, false) in
  Gre.Marshal (Gre.SetQoS (Gre.SetPayload Gre.empty_packet payload Gre.IPv4) qfi rqi).

(** src/internal/nwuup/server.go:271-345 (Server.forwardDL) *)
Definition forwardDL (packet : GtpMsg.QoSTPDUPacket) : H unit unit :=
  pktTEID ← lift (GtpMsg.GetTEID packet);
  o ← gets (AllocatedUETEIDLoad pktTEID);
  match o with
  | None => ret tt
  | Some r =>
      u ← get_ran (Some r);
      x ← gets (IkeUeLoadFromNgapId (RanUeNgapId u));
      match x with
      | Ok ikeUe =>
          ue ← get_ike (Some ikeUe);
          l ← range_map (N3IWFChildSecurityAssociation ue);
          cm ← dl_interface u pktTEID l;
          match cm with
          | None => ret tt
          | Some ifIndex =>
              payload ← lift (GtpMsg.GetPayload packet);
              do_io (IoGre (dl_packet packet payload) ifIndex (IPSecInnerIPAddr ue));; mret tt
          end
      | _ => ret tt
      end
  end.

(** src/internal/nwuup/server.go:259-268 (Server.handleQoSTPDU)

    Called by the GTP-U connection; an error goes back to it. *)
Definition handleQoSTPDU (pdu : GtpMsg.TPDU) : H unit unit :=
  match GtpMsg.Unmarshal GtpMsg.empty_qos pdu with
  | Ok packet => call (forwardDL packet)
  | Err _ => ret tt
  | Panic e => panic e
  end.

End Forward.

(** ** What is delivered *)

Section Delivery.
Context `{EL : EnvLaws}.
Implicit Types w : World.

(** The session a child SA carries. *)
Definition child_session w (u : N3IWFRanUe) (c : ChildSecurityAssociation) : option PDUSession :=
  id ← PDUSessionIds c !! 0%nat; p ← PduSessionList u !! id; h_pdu w !! p.
(** The tunnel of that session. *)
Definition child_tunnel w u c : option GTPConnectionInfo := s ← child_session w u c; GTPConnInfo s.

(** A complete child SA: it has an interface and a session identifier (-1 for signalling),
    and a session it carries has its tunnel. *)
Definition complete_child w (u : N3IWFRanUe) (c : ChildSecurityAssociation) : Prop :=
  is_Some (XfrmIface c) ∧ ∃ id, PDUSessionIds c !! 0%nat = Some id ∧
    ∀ p, PduSessionList u !! id = Some p → ∃ s g, h_pdu w !! p = Some s ∧ GTPConnInfo s = Some g.

(** The complete child SAs that the list points to. *)
Definition children w u (l : list (Z * ref)) (cs : list ChildSecurityAssociation) : Prop :=
  Forall2 (λ x c, h_child w !! x.2 = Some c ∧ complete_child w u c) l cs.

Lemma at_head {A} (l : list A) x : l !! 0%nat = Some x → at_ l 0 = Ok x.
Proof. destruct l; intros [= ->]; reflexivity. Qed.

Lemma child_tunnel_eq w u c id :
  PDUSessionIds c !! 0%nat = Some id →
  child_tunnel w u c = (p ← PduSessionList u !! id; s ← h_pdu w !! p; GTPConnInfo s).
Proof. intros Hid. unfold child_tunnel, child_session. rewrite Hid. cbn. by destruct (_ !! id). Qed.

(** The searches choose the first child SA with the property. *)
Lemma dl_interface_run w u teid l cs :
  children w u l cs →
  dl_interface u teid l w =
    (Next (c ← list_find (λ c, IncomingTEID <$> child_tunnel w u c = Some teid) cs; ln_Index <$> XfrmIface c.2), w).
Proof.
  intros H. induction H as [|[i r] c l cs [Hc ([iface Hi] & id & Hid & Hp)] H IH]; [reflexivity|].
  cbn [dl_interface list_find]. cbn in Hc.
  rewrite run_bind, (run_get_child _ _ _ Hc), run_bind, (at_head _ _ Hid). cbn [lift mret prog_ret].
  pose proof (child_tunnel_eq w u c id Hid) as Et.
  unfold FindPDUSession. destruct (PduSessionList u !! id) as [p|]; cbn in Et.
  - destruct (Hp p eq_refl) as (s & g & Hs & Hg). rewrite Hs in Et. cbn in Et. rewrite Hg in Et.
    rewrite run_bind, (run_get_pdu _ _ _ Hs), run_bind, Hg. cbn [deref mret prog_ret].
    destruct (decide (IncomingTEID g = teid)) as [E1|E1], (decide (_ <$> _ = _)) as [E2|E2];
      try (rewrite Et in E2; cbn in E2; congruence).
    + rewrite run_bind, Hi. cbn. by rewrite Hi.
    + rewrite IH. by destruct (list_find _ cs) as [[]|].
  - destruct (decide (_ <$> _ = _)) as [E2|_]; [by rewrite Et in E2|].
    rewrite IH. by destruct (list_find _ cs) as [[]|].
Qed.

Lemma ul_session_run w u ifIndex l cs :
  children w u l cs →
  ul_session u ifIndex l w =
    (Next (c ← list_find (λ c, ln_Index <$> XfrmIface c = Some ifIndex) cs;
           id ← PDUSessionIds c.2 !! 0%nat; PduSessionList u !! id), w).
Proof.
  intros H. induction H as [|[i r] c l cs [Hc ([iface Hi] & id & Hid & Hp)] H IH]; [reflexivity|].
  cbn [ul_session list_find]. cbn in Hc. rewrite run_bind, (run_get_child _ _ _ Hc).
  destruct (decide (ln_Index <$> XfrmIface c = Some ifIndex)) as [Ei|Ei].
  - rewrite bool_decide_true by done. rewrite run_bind, (at_head _ _ Hid). cbn. by rewrite Hid.
  - rewrite bool_decide_false, IH by done. by destruct (list_find _ cs) as [[]|].
Qed.

Lemma children_of w u (m : gmap Z ref) l :
  l ≡ₚ map_to_list m →
  (∀ i child, m !! i = Some child → ∃ c, h_child w !! child = Some c ∧ complete_child w u c) →
  ∃ cs, children w u l cs ∧
    ∀ c, c ∈ cs ↔ ∃ i child, m !! i = Some child ∧ h_child w !! child = Some c.
Proof.
  intros Hl Hm. assert (∃ cs, children w u l cs) as [cs Hcs].
  { assert (Forall (λ x, ∃ c, h_child w !! x.2 = Some c ∧ complete_child w u c) l) as Hf.
    { rewrite Hl. apply Forall_forall. intros [i child] Hx%elem_of_map_to_list. exact (Hm i child Hx). }
    clear Hl. induction Hf as [|x l [c Hc] _ [cs IH]]; [exists []; constructor|]. exists (c :: cs). by constructor. }
  exists cs. split; [done|]. intros c. split.
  - intros [k Hk]%list_elem_of_lookup. destruct (Forall2_lookup_r _ _ _ _ _ Hcs Hk) as ([i child] & Hx & Hc & _).
    exists i, child. split; [|done]. apply elem_of_map_to_list. rewrite <- Hl. by apply list_elem_of_lookup_2 in Hx.
  - intros (i & child & Hi & Hc). apply elem_of_map_to_list in Hi. rewrite <- Hl in Hi.
    apply list_elem_of_lookup in Hi as [k Hk]. destruct (Forall2_lookup_l _ _ _ _ _ Hcs Hk) as (c' & Hk' & Hc' & _).
    cbn in Hc'. simplify_eq. by apply list_elem_of_lookup_2 in Hk'.
Qed.

Lemma forwardDL_run w packet t r u ike ue cs :
  GtpMsg.tPDU packet = Some t → AllocatedUETEID w !! GtpMsg.tpdu_TEID t = Some r → h_ran w !! r = Some u →
  IkeUeLoadFromNgapId (RanUeNgapId u) w = Ok ike → h_ike w !! ike = Some ue →
  children w u (range_order _ (draws w) (map_to_list (N3IWFChildSecurityAssociation ue))) cs →
  forwardDL packet w =
    let w1 := w <| draws := S (draws w) |> in
    match c ← list_find (λ c, IncomingTEID <$> child_tunnel w u c = Some (GtpMsg.tpdu_TEID t)) cs;
          ln_Index <$> XfrmIface c.2 with
    | None => (Return tt, w1)
    | Some ifIndex =>
        (Next tt, w1 <| trace ::= cons (IoGre (dl_packet packet (GtpMsg.tpdu_Payload t)) ifIndex (IPSecInnerIPAddr ue)) |>)
    end.
Proof.
  intros Ht Hr Hu Hike Hue Hcs. set (w1 := w <| draws := S (draws w) |>). unfold forwardDL.
  unfold GtpMsg.GetTEID, GtpMsg.GetPayload. rewrite Ht. cbn [GtpMsg.deref mbind res_bind].
  run_step. run_step. unfold AllocatedUETEIDLoad. rewrite Hr.
  rewrite run_bind, (run_get_ran _ _ _ Hu), run_bind. cbn [gets]. rewrite Hike.
  rewrite run_bind, (run_get_ike _ _ _ Hue), run_bind, run_range_map, run_bind.
  fold w1. rewrite (dl_interface_run w1 u _ _ cs Hcs).
  change (child_tunnel w1) with (child_tunnel w).
  by destruct (x ← list_find _ cs; _).
Qed.

(** C12. Downlink user plane: a T-PDU whose tunnel is allocated to a UE, with an IKE
    UE whose child SAs are complete, is sent on exactly once, as a GRE packet to the inner
    address of the UE through the interface of a child SA whose session has that tunnel
    identifier, when there is one, and is dropped without any effect outside otherwise. The
    receiver of the GRE packet reads the unchanged payload, the QoS flow identifier and the
    reflective QoS indication of the T-PDU; both are 0 for a T-PDU without QoS. The
    handler, whose panic would end the process, does not panic. *)
Theorem forwardDL_delivers w packet t r u ike ue :
  GtpMsg.tPDU packet = Some t → AllocatedUETEID w !! GtpMsg.tpdu_TEID t = Some r → h_ran w !! r = Some u →
  IkeUeLoadFromNgapId (RanUeNgapId u) w = Ok ike → h_ike w !! ike = Some ue →
  (∀ i child, N3IWFChildSecurityAssociation ue !! i = Some child →
     ∃ c, h_child w !! child = Some c ∧ complete_child w u c) →
  let w' := final (forwardDL packet) w in
  let carries i child c := N3IWFChildSecurityAssociation ue !! i = Some child ∧ h_child w !! child = Some c ∧
    IncomingTEID <$> child_tunnel w u c = Some (GtpMsg.tpdu_TEID t) in
  panicked (forwardDL packet) w = false ∧
  ((trace w' = trace w ∧ ∀ i child c, ¬ carries i child c) ∨
   ∃ i child c iface b g, carries i child c ∧ XfrmIface c = Some iface ∧
     trace w' = IoGre b (ln_Index iface) (IPSecInnerIPAddr ue) :: trace w ∧
     Gre.Unmarshal Gre.empty_packet b = Ok g ∧ Gre.GetPayload g = (GtpMsg.tpdu_Payload t, Gre.IPv4) ∧
     Gre.GetQFI g = Ok (if GtpMsg.HasQoS packet then Z.land (GtpMsg.qfi packet) 0x3F else 0) ∧
     Gre.GetRQI g = GtpMsg.HasQoS packet && GtpMsg.rqi packet).
Proof.
  intros Ht Hr Hu Hike Hue Hm w' carries. subst w'. unfold final, panicked.
  destruct (children_of w u _ _ (range_order_perm _ (draws w) (map_to_list (N3IWFChildSecurityAssociation ue))) Hm)
    as (cs & Hcs & Hin).
  rewrite (forwardDL_run w packet t r u ike ue cs) by done.
  destruct (list_find _ cs) as [[k c]|] eqn:Ef; cbn [mbind option_bind].
  - apply list_find_Some in Ef as (Hk & Hc & _). apply list_elem_of_lookup_2 in Hk as Hk'.
    apply Hin in Hk' as (i & child & Hi & Hch).
    destruct (Hm i child Hi) as (c' & Hc' & [iface Hif] & _). simplify_eq. cbn [snd]. rewrite Hif. cbn.
    split; [done|right]. unfold dl_packet, GtpMsg.GetQoSParameters.
    destruct (GtpMsg.HasQoS packet); exists i, child, c, iface; eexists _, _;
      (split; [done|]); (split; [done|]); (split; [done|]); (split; [by apply Gre.SetQoS_read_back|]).
    + apply Gre.SetQoS_fields.
    + apply (Gre.SetQoS_fields _ _ 0 false).
  - split; [done|left]. split; [done|]. intros i child c (Hi & Hc & Ht').
    apply list_find_None in Ef. rewrite Forall_forall in Ef. apply (Ef c); [|done]. apply Hin. eauto.
Qed.

(** The header of an uplink T-PDU on N3: the tunnel, and a PDU session container with the flow. *)
Definition ul_header (teid qfi : Z) (pl : bytes) : GtpMsg.GtpHeader :=
  GtpMsg.mkGtpHeader 0x34 GtpMsg.MsgTypeTPDU teid 0 pl
    [GtpMsg.mkEH GtpMsg.ExtHeaderTypePDUSessionContainer [GtpMsg.UL_PDU_SESSION_INFORMATION_TYPE; qfi]
       GtpMsg.ExtHeaderTypeNoMoreExtensionHeaders].

(** C13. Uplink user plane: a GRE packet with QoS marking that the UE sends through the
    interface of one of its child SAs, and of no other, leaves on N3 towards the UPF of the
    session that this child SA carries, with the tunnel identifier of that session, the
    unchanged payload and the QoS flow identifier of the packet in the PDU session
    container; a child SA without session forwards nothing. *)
Theorem forwardUL_delivers w ip ifIndex pl pt qfi rqi ike ue sa s r u i child c :
  AllocatedUEIPAddress w !! ip = Some ike → h_ike w !! ike = Some ue →
  N3IWFIKESecurityAssociation ue = Some sa → h_sa w !! sa = Some s →
  RanUeLoadFromIkeSPI (LocalSPI s) w = Ok r → h_ran w !! r = Some u →
  (∀ i child, N3IWFChildSecurityAssociation ue !! i = Some child →
     ∃ c, h_child w !! child = Some c ∧ complete_child w u c) →
  N3IWFChildSecurityAssociation ue !! i = Some child → h_child w !! child = Some c →
  ln_Index <$> XfrmIface c = Some ifIndex →
  (∀ j child' c', N3IWFChildSecurityAssociation ue !! j = Some child' → h_child w !! child' = Some c' →
     ln_Index <$> XfrmIface c' = Some ifIndex → c' = c) →
  is_u16 pt →
  let m := forwardUL ip ifIndex (Gre.Marshal (Gre.SetQoS (Gre.SetPayload Gre.empty_packet pl pt) qfi rqi)) in
  panicked m w = false ∧
  trace (final m w) =
    match g ← child_tunnel w u c;
          b ← gtp_marshal (ul_header (OutgoingTEID g) (Z.land qfi 0x3F) pl); Some (IoGtp b (UPFUDPAddr g)) with
    | Some x => x :: trace w
    | None => trace w
    end.
Proof.
  intros Hip Hue Hsa Hs Hr Hu Hm Hi Hc Hif Huniq Hpt. unfold panicked, final, forwardUL.
  destruct (children_of w u _ _ (range_order_perm _ (draws w) (map_to_list (N3IWFChildSecurityAssociation ue))) Hm)
    as (cs & Hcs & Hin).
  assert (∃ k, list_find (λ c, ln_Index <$> XfrmIface c = Some ifIndex) cs = Some (k, c)) as [k Hk].
  { destruct (list_find_elem_of (λ c, ln_Index <$> XfrmIface c = Some ifIndex) cs c) as [[k c'] Hf]; [|done|].
    - apply Hin. eauto.
    - exists k. rewrite Hf. apply list_find_Some in Hf as (Hl & Hc' & _).
      apply list_elem_of_lookup_2, Hin in Hl as (j & child' & Hj & Hch). by rewrite (Huniq _ _ _ Hj Hch Hc'). }
  destruct (Hm i child Hi) as (c' & Hc' & _ & id & Hid & Hp). simplify_eq.
  run_step. unfold AllocatedUEIPAddressLoad. rewrite Hip.
  rewrite run_bind, (run_get_ike _ _ _ Hue), run_bind, Hsa, (run_get_sa _ _ _ Hs).
  run_step. rewrite Hr, run_bind, (run_get_ran _ _ _ Hu), run_bind, run_range_map, run_bind.
  set (w1 := w <| draws := _ |>).
  rewrite (ul_session_run w1 u ifIndex _ cs Hcs), Hk. cbn [mbind option_bind snd]. rewrite Hid.
  rewrite (child_tunnel_eq w u c id Hid).
  cbn [option_bind mbind]. destruct (PduSessionList u !! id) as [p|]; [|done].
  destruct (Hp p eq_refl) as (ss & g & Hss & Hg).
  rewrite run_bind, (run_get_pdu w1 p ss Hss), Gre.SetQoS_read_back by done.
  destruct (Gre.SetQoS_fields pl pt qfi rqi) as (-> & -> & _). rewrite Gre.SetQoS_flag.
  cbn [option_bind mbind]. rewrite Hss. cbn [option_bind mbind]. rewrite Hg, run_bind. cbn [deref mret prog_ret option_bind mbind fst].
  unfold GtpMsg.BuildQoSGTPPacket. fold (ul_header (OutgoingTEID g) (Z.land qfi 0x3F) pl).
  by destruct (gtp_marshal _).
Qed.

End Delivery.

(** ** Applications to concrete states *)
#[local] Existing Instance toy.
#[local] Existing Instance toy_laws.

Definition up_ran : N3IWFRanUe := init_RanUe 1 9%nat <| PduSessionList := {[ 5 := 11%nat ]} |>.
Definition up_ike : N3IWFIkeUe :=
  init_IkeUe <| IPSecInnerIPAddr := Some [10; 0; 0; 2] |> <| N3IWFIKESecurityAssociation := Some 1%nat |>
    <| N3IWFChildSecurityAssociation := <[7 := 3%nat]> {[ 8 := 4%nat ]} |>.
Definition up_sa : IKESecurityAssociation := zero_SA <| LocalSPI := 100 |>.
(** The child SA of the signalling and the one of the session 5. *)
Definition up_signalling : ChildSecurityAssociation :=
  zero_Child <| PDUSessionIds := [-1] |> <| XfrmIface := Some (mkLink "xfrmi-default" 20) |>.
Definition up_child : ChildSecurityAssociation :=
  zero_Child <| PDUSessionIds := [5] |> <| XfrmIface := Some (mkLink "xfrmi-1" 21) |>.
Definition up_session : PDUSession :=
  mkPDU 5 (Some 0) None (mkSNSSAI [1] None) None false false None None
    (Some (mkGTP "10.0.0.9" "10.0.0.9:2152" 33 44)) [9] ∅.
Definition up_world : World :=
  world0 all_ok <| AllocatedUETEID := {[ 33 := 5%nat ]} |> <| AllocatedUEIPAddress := {[ [10; 0; 0; 2] := 2%nat ]} |>
    <| NGAPIdToIKESPI := {[ 1 := 100 ]} |> <| IKESPIToNGAPId := {[ 100 := 1 ]} |>
    <| IKEUePool := {[ 100 := 2%nat ]} |> <| RANUePool := {[ 1 := 5%nat ]} |>
    <| h_ran := {[ 5%nat := up_ran ]} |> <| h_ike := {[ 2%nat := up_ike ]} |> <| h_sa := {[ 1%nat := up_sa ]} |>
    <| h_child := <[3%nat := up_signalling]> {[ 4%nat := up_child ]} |> <| h_pdu := {[ 11%nat := up_session ]} |>.
(** A downlink packet in the tunnel of the session. *)
Definition up_packet : GtpMsg.QoSTPDUPacket :=
  GtpMsg.mkQoS (Some (GtpMsg.mkTPDU 33 [69; 0] true [GtpMsg.mkEH 0x85 [0; 0x49] 0])) true true 9.

Lemma up_complete i child :
  N3IWFChildSecurityAssociation up_ike !! i = Some child →
  ∃ c, h_child up_world !! child = Some c ∧ complete_child up_world up_ran c.
Proof.
  change (N3IWFChildSecurityAssociation up_ike) with (<[7 := 3%nat]> {[ 8 := 4%nat ]} : gmap Z ref).
  intros [[<- <-]|[_ [<- <-]%lookup_singleton_Some]]%lookup_insert_Some.
  - exists up_signalling. split; [reflexivity|]. split; [by eexists|]. exists (-1). split; [reflexivity|]. intros p Hp. discriminate Hp.
  - exists up_child. split; [reflexivity|]. split; [by eexists|]. exists 5. split; [reflexivity|].
    intros p Hp. replace p with 11%nat by (vm_compute in Hp; congruence). by eexists _, _.
Qed.

Lemma forwardDL_delivers_witness :
  ∃ b iface g, trace (final (forwardDL up_packet) up_world) = [IoGre b iface (Some [10; 0; 0; 2])] ∧
    Gre.Unmarshal Gre.empty_packet b = Ok g ∧ Gre.GetPayload g = ([69; 0], Gre.IPv4) ∧
    Gre.GetQFI g = Ok 9 ∧ Gre.GetRQI g = true.
Proof.
  destruct (forwardDL_delivers up_world up_packet (GtpMsg.mkTPDU 33 [69; 0] true [GtpMsg.mkEH 0x85 [0; 0x49] 0])
    5%nat up_ran 2%nat up_ike eq_refl eq_refl eq_refl eq_refl eq_refl up_complete)
    as [_ [[_ Hn]|(i & child & c & iface & b & g & _ & _ & Ht & Hg)]].
  - destruct (Hn 8 4%nat up_child). by split.
  - exists b, (ln_Index iface), g. split; [exact Ht|exact Hg].
Defined.

Lemma forwardUL_delivers_witness :
  trace (final (forwardUL [10; 0; 0; 2] 21
    (Gre.Marshal (Gre.SetQoS (Gre.SetPayload Gre.empty_packet [1; 2] Gre.IPv4) 9 false))) up_world) = [IoGtp [1; 2] "10.0.0.9:2152"].
Proof.
  refine (proj2 (forwardUL_delivers up_world [10; 0; 0; 2] 21 [1; 2] Gre.IPv4 9 false 2%nat up_ike 1%nat up_sa 5%nat up_ran 8 4%nat up_child
    eq_refl eq_refl eq_refl eq_refl eq_refl eq_refl up_complete eq_refl eq_refl eq_refl _ _)).
  - intros j child' c' Hj Hc Hif. revert Hj.
    change (N3IWFChildSecurityAssociation up_ike) with (<[7 := 3%nat]> {[ 8 := 4%nat ]} : gmap Z ref).
    intros [[<- <-]|[_ [<- <-]%lookup_singleton_Some]]%lookup_insert_Some; vm_compute in Hc;
      injection Hc as <-; [discriminate Hif|reflexivity].
  - vm_compute. by split.
Defined.
