(* ===== verification/Nwucp.v ===== *)
(** * NAS over TCP (internal/nwucp/server.go)

    The listener that attaches a TCP connection to its UE, the goroutine that reads
    envelopes from it (the framing is in Nas.v) and forwards each message to the AMF. *)

From S2P Require Nas.
From S2P Require Import Prelude Monad NgapTypes NgapMsg IkeMsg Env State Context NgapSend.

Section Server.
Context `{E : Env}.
Implicit Types w : World.

(** src/internal/nwucp/server.go:61-116 (Server.listenAndServe)

    One accepted connection, from a peer with the address [ueIP]: the UE whose reader
    is started. The connection of an unknown peer stays open. *)
Definition accept (connection : Z) (ueIP : bytes) : H (option ref) (option ref) :=
  o ← gets (AllocatedUEIPAddressLoad ueIP);
  match o with
  | None => ret None
  | Some ikeUe =>
      ue ← get_ike (Some ikeUe);
      s ← get_sa (N3IWFIKESecurityAssociation ue);
      x ← gets (RanUeLoadFromIkeSPI (LocalSPI s));
      match x with
      | Ok r =>
          u ← get_ran (Some r);
          upd_ran r (λ u, u <| TCPConnection := Some connection |>);;
          SendNgapEvt (NASTCPConnEstablishedCompleteEvt (RanUeNgapId u));;
          mret (Some r)
      | _ => ret None
      end
  end.

(** src/internal/nwucp/server.go:190-202 (forward)

    Each message in a goroutine of its own. *)
Definition forward (ranUe : ref) (packet : bytes) : H unit unit := SendUplinkNASTransport (Some ranUe) packet.

(** src/internal/nwucp/server.go:146-179 (serveConn)

    The end of the reader after a read error: the connection is taken from the UE, then
    closed. The flags of the UE stay. *)
Definition reader_end (ranUe : ref) (connection : Z) : H unit unit :=
  upd_ran ranUe (λ u, u <| TCPConnection := None |>);;
  do_io (IoTcpClose connection);; mret tt.

(** src/internal/nwucp/server.go:118-138 (Server.Stop)

    The connections of the UEs in the pool. *)
Definition Stop : H unit unit :=
  pool ← gets RANUePool;
  l ← range_map pool;
  for_each l (λ '(_, r),
    u ← get_ran (Some r);
    match TCPConnection u with
    | None => mret tt
    | Some connection => do_io (IoTcpClose connection);; mret tt
    end).

End Server.
