(* ===== verification/Invariant.v ===== *)
(** * The invariant of the shared state

    [Inv]: the pools point to objects that exist and that carry the identifier they are
    stored under; identifiers handed out are marked in their generators. [evolves]: objects
    are never lost, their identities never change, effects are only appended. [pres]
    combines both into one preorder on states, for which every handler of both servers is
    shown to be [stable]: first the primitives, then one lemma for each definition in the
    order of the calls. *)

From S2P Require Import Prelude Monad NgapTypes NgapMsg IkeMsg Proposals Env State ToyEnv Context Xfrm IkeServer IkeSaInit SaSpec IkeAuth IkeEvents NgapSend NgapEvents NgapUe NgapPdu NgapAmf Nwuup Nwucp.

(** ** Pools over heaps *)
Section Pools.
Context `{Countable K} {V : Type} (key : V → K).
Implicit Types (pool : gmap K ref) (heap : gmap ref V).

(** Every entry is an object of the heap whose key is the entry's. *)
Definition pooled pool heap : Prop := ∀ k r, pool !! k = Some r → ∃ v, heap !! r = Some v ∧ key v = k.
(** Objects stay, with their keys. *)
Definition same_keys heap heap' : Prop := ∀ r v, heap !! r = Some v → ∃ v', heap' !! r = Some v' ∧ key v' = key v.

#[export] Instance same_keys_preorder : PreOrder same_keys.
Proof.
  split; [intros h r v Hr; by exists v|]. intros h1 h2 h3 H1 H2 r v (v' & H3 & E)%H1.
  destruct (H2 _ _ H3) as (v'' & ? & ?). exists v''. split; [done|congruence].
Qed.

Lemma same_keys_alter f r heap : (∀ v, key (f v) = key v) → same_keys heap (alter f r heap).
Proof.
  intros Hf r' v Hr. destruct (decide (r' = r)) as [->|].
  - exists (f v). by rewrite lookup_alter_eq, Hr.
  - exists v. by rewrite lookup_alter_ne.
Qed.
Lemma same_keys_insert r v heap : heap !! r = None → same_keys heap (<[r := v]> heap).
Proof.
  intros Hn r' v' Hr. exists v'. split; [|done]. destruct (decide (r' = r)) as [->|]; [congruence|].
  by rewrite lookup_insert_ne.
Qed.

Lemma pooled_keys pool heap heap' : same_keys heap heap' → pooled pool heap → pooled pool heap'.
Proof. intros Hk Hp k r (v & Hr & <-)%Hp. destruct (Hk _ _ Hr) as (v' & ? & ?). by exists v'. Qed.
Lemma pooled_delete k pool heap : pooled pool heap → pooled (delete k pool) heap.
Proof. intros Hp k' r [_ Hr]%lookup_delete_Some. by apply Hp. Qed.
Lemma pooled_insert k r v pool heap :
  heap !! r = Some v → key v = k → pooled pool heap → pooled (<[k := r]> pool) heap.
Proof. intros Hr Hk Hp k' r' [[<- <-]|[_ ?]]%lookup_insert_Some; [by exists v|by apply Hp]. Qed.
End Pools.

(** The references of a heap were handed out. *)
Definition below {V} (heap : gmap ref V) (n : ref) : Prop := ∀ r, is_Some (heap !! r) → (r < n)%nat.

Lemma below_fresh {V} (heap : gmap ref V) n : below heap n → heap !! n = None.
Proof. intros Hb. apply eq_None_not_Some. intros ?%Hb. lia. Qed.
Lemma below_alter {V} f r (heap : gmap ref V) n : below heap n → below (alter f r heap) n.
Proof. intros Hb r' Hr%lookup_alter_is_Some. by apply Hb. Qed.
Lemma below_insert {V} v (heap : gmap ref V) n : below heap n → below (<[n := v]> heap) (S n).
Proof. intros Hb r [<-|[_ ?%Hb]]%lookup_insert_is_Some; lia. Qed.
Lemma below_S {V} (heap : gmap ref V) n : below heap n → below heap (S n).
Proof. intros Hb r ?%Hb. lia. Qed.

Create HintDb go_inv discriminated.
#[export] Hint Constants Opaque : go_inv.
#[export] Hint Resolve pooled_delete below_alter below_insert below_S : go_inv.

(** ** The invariant *)
Section Inv.
Context `{L : EnvLaws}.
Implicit Types w : World.

Record Inv w : Prop := {
  b_sa : below (h_sa w) (next_ref w);
  b_child : below (h_child w) (next_ref w);
  b_ike : below (h_ike w) (next_ref w);
  b_ran : below (h_ran w) (next_ref w);
  b_amf : below (h_amf w) (next_ref w);
  p_sa : pooled LocalSPI (IKESA w) (h_sa w);
  p_child : pooled InboundSPI (ChildSA w) (h_child w);
  p_ran : pooled RanUeNgapId (RANUePool w) (h_ran w);
  p_amf : pooled SCTPAddr (AMFPool w) (h_amf w);
  p_ike : ∀ spi r, IKEUePool w !! spi = Some r → is_Some (h_ike w !! r);
  u_ran : dom (RANUePool w) ⊆ id_used (RANUENGAPIDGenerator w);
  u_teid : dom (AllocatedUETEID w) ⊆ id_used (TEIDGenerator w);
  u_ip : dom (AllocatedUEIPAddress w) ⊆ ip_used (IPSecInnerIPPool w);
  (* an SA in the pool has its keys; between the statements of IKE_SA_INIT it has not *)
  k_sa : ∀ spi r v, IKESA w !! spi = Some r → h_sa w !! r = Some v → is_Some (IKESAKey v);
  t_sa : ∀ r v, h_sa w !! r = Some v → sa_typed v;
  t_child : ∀ r v, h_child w !! r = Some v → is_u32 (InboundSPI v);
  t_teid : ∀ t r, AllocatedUETEID w !! t = Some r → is_u32 t;
  (* the inner address is kept in its short form, under which it was taken from the pool *)
  c_ip : ∀ r u, h_ike w !! r = Some u → To4 (IPSecInnerIP u) = IPSecInnerIP u;
}.

(** What no step undoes. *)
Record evolves w w' : Prop := {
  e_sa : same_keys LocalSPI (h_sa w) (h_sa w');
  e_child : same_keys InboundSPI (h_child w) (h_child w');
  e_ran : same_keys RanUeNgapId (h_ran w) (h_ran w');
  e_amf : same_keys SCTPAddr (h_amf w) (h_amf w');
  e_trace : trace w `suffix_of` trace w';
  e_table : rtc table_step (sa_table w) (sa_table w');
}.

#[export] Instance evolves_preorder : PreOrder evolves.
Proof.
  split.
  - intros w. by split.
  - intros w1 w2 w3 [] []. split; by etrans.
Qed.

Definition pres w w' : Prop := Inv w → Inv w' ∧ evolves w w'.
#[export] Instance pres_preorder : PreOrder pres.
Proof.
  split; [by intros w|]. intros w1 w2 w3 H1 H2 [Hi He]%H1. destruct (H2 Hi). split; [done|]. by etrans.
Qed.

(** ** Primitives *)

(** Changes outside the components of the invariant: reflexivity after evaluation. *)
Ltac pres_frame :=
  intros w []; unfold new_child, new_ike, new_pdu, new_temp, new_ran, new_amf, fresh_ref, mbind, prog_bind;
  split; [split; cbn; eauto with go_inv nocore
         |split; cbn; try done; try (by apply suffix_cons_r); try exact (rtc_refl _ _)].

Lemma To4_idem ip : To4 (To4 ip) = To4 ip.
Proof.
  assert (length (To4 ip) = 4%nat ∨ To4 ip = []) as [H4|Hn]; [|unfold To4 at 1; by rewrite decide_True|by rewrite Hn].
  unfold To4. case_decide; [by left|]. case_decide; [left; rewrite length_drop; lia|by right].
Qed.

Section Primitives.
Context {R : Type}.

(** A change of an SA that leaves its identity, its keys and its progress alone. *)
Definition sa_minor (f : IKESecurityAssociation → IKESecurityAssociation) : Prop :=
  ∀ v, LocalSPI (f v) = LocalSPI v ∧ phase_of (f v) = phase_of v ∧ (is_Some (IKESAKey v) → is_Some (IKESAKey (f v))) ∧
    (sa_typed v → sa_typed (f v)).

(** What any update of an SA has to respect; the table is a separate matter. *)
Lemma pres_alter_sa (f : IKESecurityAssociation → IKESecurityAssociation) r w :
  (∀ v, LocalSPI (f v) = LocalSPI v) → (∀ v, is_Some (IKESAKey v) → is_Some (IKESAKey (f v))) →
  (∀ v, sa_typed v → sa_typed (f v)) →
  (Inv w → rtc table_step (sa_table w) (sa_table (w <| h_sa ::= alter f r |>))) →
  pres w (w <| h_sa ::= alter f r |>).
Proof.
  intros Hl Hk Ht Hs Hi. specialize (Hs Hi). pose proof (same_keys_alter LocalSPI f r (h_sa w) Hl) as Hsk. destruct Hi.
  split; [split; cbn; eauto with go_inv nocore|split; cbn; done].
  - by eapply pooled_keys.
  - intros spi x v Hp. rewrite lookup_alter_Some. intros [(-> & v' & Hv & ->)|[_ Hv]]; eauto.
  - intros x v. rewrite lookup_alter_Some. intros [(-> & v' & Hv & ->)|[_ Hv]]; eauto.
Qed.

Lemma pres_upd_sa r f : sa_minor f → stable pres (upd_sa r f : H R unit).
Proof.
  intros Hf w. apply pres_alter_sa; [intros v; apply (Hf v)..|]. intros _.
  change (sa_table (w <| h_sa ::= alter f r |>)) with (sa_table_of (IKESA w) (alter f r (h_sa w))).
  rewrite sa_table_upd by (intros v; apply (Hf v)). apply rtc_refl.
Qed.

(** The next state of an SA, in the pool or not. *)
Lemma pres_shift_state r : stable pres (shift_state r : H R unit).
Proof.
  intros w. apply pres_alter_sa; [done..| |].
  - intros v []. split; try done. cbn. apply u8_byte.
  - intros Hi. set (f := λ s : IKESecurityAssociation, s <| State ::= λ x, u8 (x + 1) |>).
    change (rtc table_step (sa_table w) (sa_table_of (IKESA w) (alter f r (h_sa w)))).
    destruct (h_sa w !! r) as [v|] eqn:Hv; [|rewrite alter_id by congruence; apply rtc_refl].
    assert (∀ spi r', IKESA w !! spi = Some r' → spi ≠ LocalSPI v → alter f r (h_sa w) !! r' = h_sa w !! r') as Hne.
    { intros spi r' Hr' Hs. apply lookup_alter_ne. intros ->. destruct (p_sa _ Hi _ _ Hr') as (v' & ? & ?). congruence. }
    destruct (decide (IKESA w !! LocalSPI v = Some r)) as [Hp|Hp].
    + destruct (k_sa _ Hi _ _ _ Hp Hv) as [key Hk].
      enough (sa_table_of (IKESA w) (alter f r (h_sa w)) =
        <[LocalSPI v := mkPhase key (RemoteSPI v) (u8 (State v + 1))]> (sa_table w)) as ->.
      { apply rtc_once, step_advance. unfold sa_table. rewrite sa_table_lookup, Hp. cbn. rewrite Hv. cbn.
        unfold phase_of. by rewrite Hk. }
      apply map_eq. intros spi. rewrite sa_table_lookup. destruct (decide (spi = LocalSPI v)) as [->|Hs].
      * rewrite lookup_insert_eq, Hp. cbn. rewrite lookup_alter_eq, Hv. cbn. unfold phase_of. cbn. by rewrite Hk.
      * rewrite lookup_insert_ne by done. unfold sa_table. rewrite sa_table_lookup.
        destruct (IKESA w !! spi) as [r'|] eqn:Hr'; [|done]. cbn. by rewrite (Hne spi).
    + rewrite (sa_table_ext _ (h_sa w)); [apply rtc_refl|]. intros spi r' Hr'.
      destruct (p_sa _ Hi _ _ Hr') as (v' & Hv' & Hl). rewrite lookup_alter_ne; [done|]. intros <-. congruence.
Qed.
Lemma pres_upd_child r f : (∀ v, InboundSPI (f v) = InboundSPI v) → stable pres (upd_child r f : H R unit).
Proof.
  intros Hf. pose proof (same_keys_alter InboundSPI f r) as Hk.
  pres_frame; [eapply pooled_keys; eauto| |by apply Hk].
  intros x v. rewrite lookup_alter_Some. intros [(-> & v' & Hv & ->)|[_ Hv]]; [rewrite Hf|]; eauto.
Qed.
Lemma pres_upd_ran r f : (∀ v, RanUeNgapId (f v) = RanUeNgapId v) → stable pres (upd_ran r f : H R unit).
Proof.
  intros Hf. pose proof (same_keys_alter RanUeNgapId f r) as Hk.
  pres_frame; [eapply pooled_keys; eauto|by apply Hk].
Qed.
Lemma pres_upd_amf r f : (∀ v, SCTPAddr (f v) = SCTPAddr v) → stable pres (upd_amf r f : H R unit).
Proof.
  intros Hf. pose proof (same_keys_alter SCTPAddr f r) as Hk.
  pres_frame; [eapply pooled_keys; eauto|by apply Hk].
Qed.
Lemma pres_upd_ike r f :
  (∀ v, To4 (IPSecInnerIP v) = IPSecInnerIP v → To4 (IPSecInnerIP (f v)) = IPSecInnerIP (f v)) →
  stable pres (upd_ike r f : H R unit).
Proof.
  intros Hf. pres_frame; [intros spi x Hx; apply lookup_alter_is_Some; eauto|].
  intros x u. rewrite lookup_alter_Some. intros [(-> & u' & Hu & ->)|[_ Hu]]; eauto.
Qed.
Lemma pres_upd_pdu r f : stable pres (upd_pdu r f : H R unit).
Proof. pres_frame. Qed.
Lemma pres_upd_temp r f : stable pres (upd_temp r f : H R unit).
Proof. pres_frame. Qed.

Lemma pres_do_io x : stable pres (do_io x : H R bool).
Proof. pres_frame. Qed.
Lemma pres_draw {A} (f : nat → A) : stable pres (draw f : H R A).
Proof. pres_frame. Qed.
Lemma pres_range_map `{Countable K} {A} (m : gmap K A) : stable pres (range_map m : H R (list (K * A))).
Proof. pres_frame. Qed.
Lemma pres_SendNgapEvt e : stable pres (SendNgapEvt e : H R unit).
Proof. pres_frame. Qed.
Lemma pres_SendIkeEvt e : stable pres (SendIkeEvt e : H R unit).
Proof. pres_frame. Qed.

(** Updates of the tables the invariant does not speak about. *)
Lemma pres_new_child v : is_u32 (InboundSPI v) → stable pres (new_child v : H R ref).
Proof.
  intros Hv. pose proof (same_keys_insert InboundSPI) as Hk.
  pres_frame; [eapply pooled_keys; eauto using below_fresh| |by apply Hk, below_fresh].
  intros x v' [[<- <-]|[_ ?]]%lookup_insert_Some; eauto.
Qed.
Lemma pres_new_ike v : To4 (IPSecInnerIP v) = IPSecInnerIP v → stable pres (new_ike v : H R ref).
Proof.
  intros Hv. pres_frame; [intros spi x Hx; apply lookup_insert_is_Some'; eauto|].
  intros x u [[<- <-]|[_ ?]]%lookup_insert_Some; eauto.
Qed.
Lemma pres_new_pdu v : stable pres (new_pdu v : H R ref).
Proof. pres_frame. Qed.
Lemma pres_new_temp v : stable pres (new_temp v : H R ref).
Proof. pres_frame. Qed.
Lemma pres_new_ran v : stable pres (new_ran v : H R ref).
Proof.
  pose proof (same_keys_insert RanUeNgapId) as Hk.
  pres_frame; [eapply pooled_keys; eauto using below_fresh|by apply Hk, below_fresh].
Qed.
Lemma pres_new_amf v : stable pres (new_amf v : H R ref).
Proof.
  pose proof (same_keys_insert SCTPAddr) as Hk.
  pres_frame; [eapply pooled_keys; eauto using below_fresh|by apply Hk, below_fresh].
Qed.

Lemma pres_DeleteIKESecurityAssociation spi : stable pres (modify (DeleteIKESecurityAssociation spi) : H R unit).
Proof.
  pres_frame; [intros k r v [_ ?]%lookup_delete_Some; eauto|].
  change (rtc table_step (sa_table w) (sa_table_of (delete spi (IKESA w)) (h_sa w))).
  rewrite sa_table_delete. apply rtc_once, step_remove.
Qed.
Lemma pres_DeleteInternalUEIPAddr ip : stable pres (modify (DeleteInternalUEIPAddr ip) : H R unit).
Proof. pres_frame. set_solver. Qed.
Lemma pres_DeleteIKEUe spi : stable pres (modify (DeleteIKEUe spi) : H R unit).
Proof. pres_frame. intros k r [_ ?]%lookup_delete_Some. eauto. Qed.
Lemma pres_DeleteRanUe id : stable pres (modify (DeleteRanUe id) : H R unit).
Proof. pres_frame. set_solver. Qed.
Lemma pres_DeleteTEID t : stable pres (modify (DeleteTEID t) : H R unit).
Proof.
  pres_frame; [rewrite id_free_used, dom_delete_L; set_solver|]. intros k r [_ ?]%lookup_delete_Some. eauto.
Qed.
Lemma pres_IkeSpiNgapIdMapping spi id : stable pres (modify (IkeSpiNgapIdMapping spi id) : H R unit).
Proof. pres_frame. Qed.
Lemma pres_AMFReInit a b : stable pres (modify (AMFReInitAvailableListStore a b) : H R unit).
Proof. pres_frame. Qed.
Lemma pres_ifaces f : stable pres (modify (λ w, w <| XfrmIfaces ::= f |>) : H R unit).
Proof. pres_frame. Qed.
Lemma pres_iface_offset f : stable pres (modify (λ w, w <| XfrmIfaceIdOffsetForUP ::= f |>) : H R unit).
Proof. pres_frame. Qed.
End Primitives.

(** ** Compound operations of the context *)
Section Operations.
Context {R : Type}.

(** A range of statements that break the invariant only in between: by the state after it. *)
Lemma pres_run {A} (m : H R A) : (∀ w, pres w (m w).2) → stable pres m.
Proof. done. Qed.

Lemma pres_NewTEID r : stable pres (NewTEID r : H R Z).
Proof.
  intros w. unfold NewTEID. rewrite run_bind. cbn [gets]. destruct (id_alloc _) as [[t g]|] eqn:Ha; [|cbn; reflexivity].
  apply id_alloc_fresh in Ha as [_ Hu]. rewrite run_bind. cbn [modify]. case_decide as Hr; revert w Hu;
    unfold mbind, prog_bind, mret, prog_ret, ret; cbn.
  - intros w Hu []. split; [split; cbn; eauto; set_solver|split; cbn; try done; exact (rtc_refl _ _)].
  - intros w Hu []. split; [split; cbn; eauto|split; cbn; try done; exact (rtc_refl _ _)].
    + cbn. rewrite dom_insert_L. set_solver.
    + intros t' r' [[<- <-]|[_ ?]]%lookup_insert_Some; [|eauto]. unfold is_u32. unfold MaxUint32 in Hr. lia.
Qed.

Lemma pres_NewN3iwfRanUe : stable pres (NewN3iwfRanUe : H R (option ref)).
Proof.
  intros w. unfold NewN3iwfRanUe, new_temp, new_ran, fresh_ref, mbind, prog_bind. cbn.
  destruct (id_alloc _) as [[i g]|] eqn:Ha; [|cbn; reflexivity].
  apply id_alloc_fresh in Ha as [_ Hu]. cbn. intros []. pose proof (below_fresh _ _ (below_S _ _ b_ran0)) as Hn.
  split; [split; cbn; eauto with go_inv nocore|split; cbn; try done].
  - eapply pooled_insert; [apply lookup_insert_eq|done|].
    eapply pooled_keys; [|done]. by apply same_keys_insert.
  - rewrite dom_insert_L. set_solver.
  - by apply same_keys_insert.
Qed.

Lemma pres_NewN3iwfIkeUe spi : stable pres (NewN3iwfIkeUe spi : H R ref).
Proof.
  intros w. unfold NewN3iwfIkeUe, new_ike, fresh_ref, mbind, prog_bind. cbn. intros [].
  split; [split; cbn; eauto with go_inv nocore|split; cbn; try done].
  - intros k r [[<- <-]|[_ ?]]%lookup_insert_Some; apply lookup_insert_is_Some'; eauto.
  - intros r u [[<- <-]|[_ ?]]%lookup_insert_Some; eauto.
Qed.

Lemma pres_NewN3iwfAmf a c : stable pres (NewN3iwfAmf a c : H R ref).
Proof.
  intros w. unfold NewN3iwfAmf, new_amf, fresh_ref, mbind, prog_bind. cbn.
  assert (Inv w → pooled SCTPAddr (AMFPool w) (<[next_ref w := init_AMF a c]> (h_amf w)) ∧
    same_keys SCTPAddr (h_amf w) (<[next_ref w := init_AMF a c]> (h_amf w))) as Hk.
  { intros []. assert (same_keys SCTPAddr (h_amf w) (<[next_ref w := init_AMF a c]> (h_amf w)))
      by (by apply same_keys_insert, below_fresh). split; [by eapply pooled_keys|done]. }
  destruct (AMFPool w !! a); cbn; intros Hi; destruct (Hk Hi), Hi;
    (split; [split; cbn; eauto with go_inv nocore|by split; cbn]).
  eapply pooled_insert; [apply lookup_insert_eq|done..].
Qed.

(** A new SA that is not in the pool. *)
Lemma pres_fresh_sa v n w :
  sa_typed v → pres w (w <| next_ref := S (next_ref w) |> <| draws := n |> <| h_sa ::= <[next_ref w := v]> |>).
Proof.
  intros Hv Hi. pose proof (below_fresh _ _ (b_sa _ Hi)) as Hn.
  assert (∀ spi r, IKESA w !! spi = Some r → <[next_ref w := v]> (h_sa w) !! r = h_sa w !! r) as He.
  { intros spi r Hr. apply lookup_insert_ne. intros <-. destruct (p_sa _ Hi _ _ Hr) as (? & ? & _). congruence. }
  pose proof (same_keys_insert LocalSPI _ v _ Hn) as Hk. destruct Hi.
  split; [split; cbn; eauto with go_inv nocore|split; cbn; try done].
  - by eapply pooled_keys.
  - intros spi r v' Hr. rewrite (He _ _ Hr). eauto.
  - intros r v' [[<- <-]|[_ ?]]%lookup_insert_Some; eauto.
  - change (rtc table_step (sa_table w) (sa_table_of (IKESA w) (<[next_ref w := v]> (h_sa w)))).
    rewrite (sa_table_ext _ (h_sa w)); [apply rtc_refl|]. intros spi r Hr. by rewrite (He _ _ Hr).
Qed.

Lemma NewIKESecurityAssociation_state w :
  match (NewIKESecurityAssociation : H R _) w with
  | (Next (Some sa), w') =>
      ∃ spi n, IKESA w !! spi = None ∧ sa = next_ref w ∧
        w' = w <| next_ref := S (next_ref w) |> <| draws := n |> <| IKESA ::= <[spi := sa]> |>
               <| h_sa ::= <[sa := zero_SA <| LocalSPI := spi |>]> |>
  | (Return _, _) => False
  | (_, w') => ∃ n, w' = w <| next_ref := S (next_ref w) |> <| draws := n |> <| h_sa ::= <[next_ref w := zero_SA]> |>
  end.
Proof.
  pose proof (NewIKESecurityAssociation_run (R := R) w) as Hr. revert Hr.
  unfold NewIKESecurityAssociation, new_sa, fresh_ref, gets, modify, upd_sa, mbind, prog_bind. cbn -[new_spi].
  match goal with |- context [new_spi _ _ ?x] => set (w1 := x) end.
  pose proof (new_spi_spec (R := R) retry_limit (next_ref w) w1) as Hs.
  destruct (new_spi _ _ w1) as [[[spi|]|?|?] w']; cbn.
  - done.
  - intros _. destruct Hs as (n & ->). by exists n.
  - done.
  - intros _. destruct Hs as (_ & n & ->). by exists n.
Qed.

Lemma pres_new_ue_ip turns u : stable pres (new_ue_ip turns u : H R (option bytes)).
Proof.
  induction turns as [|turns IH]; [exact (stable_panic _ _)|]. rewrite new_ue_ip_S. intros w.
  rewrite run_bind. cbn [gets]. destruct (ip_alloc _) as [[ip p]|] eqn:Ha; [|cbn; reflexivity].
  apply ip_alloc_fresh in Ha as [_ Hu]. rewrite run_bind. cbn [modify].
  match goal with |- pres w (_ ?x).2 => set (w1 := x) end.
  assert (pres w w1) as H1.
  { intros []. split; [split; cbn; eauto; set_solver|split; cbn; done]. }
  assert (ip ∈ ip_used (IPSecInnerIPPool w1)) as Hin by (cbn; rewrite Hu; set_solver).
  clearbody w1. etrans; [exact H1|]. case_decide; [apply IH|]. rewrite run_bind. cbn [gets].
  destruct (AllocatedUEIPAddress w1 !! ip); [apply IH|]. cbn. intros [].
  split; [split; cbn; eauto; rewrite ?dom_insert_L; set_solver|split; cbn; done].
Qed.
End Operations.

(** The rules from a given state, for the statements that need what an earlier one found. *)
Lemma pres_bind_at {R A B} (m : H R A) (f : A → H R B) w :
  pres w (m w).2 → (∀ a w', m w = (Next a, w') → pres w' (f a w').2) → pres w ((m ≫= f) w).2.
Proof.
  intros Hm Hf. rewrite run_bind. destruct (m w) as [[a|r|e] w'] eqn:Em; [|done..].
  etrans; [exact Hm|by apply Hf].
Qed.
Lemma pres_assume w w' : (Inv w → pres w w') → pres w w'.
Proof. intros Hp Hi. by apply Hp. Qed.
Lemma get_at {R V} (h : World → gmap ref V) (o : option ref) a w w' :
  ((r ← deref o; w ← get; deref (h w !! r)) : H R V) w = (Next a, w') →
  w' = w ∧ ∃ r, o = Some r ∧ h w !! r = Some a.
Proof.
  destruct o as [r|]; [|done]. unfold mbind, prog_bind. cbn. destruct (h w !! r) eqn:Er; cbn; [|done].
  intros [= <- <-]. split; [done|]. by exists r.
Qed.

End Inv.

#[export] Hint Resolve pres_shift_state pres_upd_pdu pres_upd_temp pres_do_io pres_draw pres_range_map pres_SendNgapEvt pres_SendIkeEvt
  pres_new_pdu pres_new_temp pres_new_ran pres_new_amf
  pres_DeleteIKESecurityAssociation pres_DeleteInternalUEIPAddr pres_DeleteIKEUe pres_DeleteRanUe pres_DeleteTEID
  pres_IkeSpiNgapIdMapping pres_AMFReInit pres_ifaces pres_iface_offset
  pres_NewTEID pres_NewN3iwfRanUe pres_NewN3iwfIkeUe pres_NewN3iwfAmf
  pres_new_ue_ip : go_inv.
#[export] Hint Extern 1 (stable pres (upd_sa _ _)) =>
  apply pres_upd_sa; intros ?; split; [reflexivity|]; split; [reflexivity|]; split; [done|];
  intros []; split; first [assumption | apply u32_range] : go_inv.
#[export] Hint Extern 1 (stable pres (upd_child _ _)) => apply pres_upd_child; reflexivity : go_inv.
#[export] Hint Extern 1 (stable pres (upd_ran _ _)) => apply pres_upd_ran; reflexivity : go_inv.
#[export] Hint Extern 1 (stable pres (upd_amf _ _)) => apply pres_upd_amf; reflexivity : go_inv.
#[export] Hint Extern 1 (stable pres (upd_ike _ _)) =>
  apply pres_upd_ike; intros ? ?; first [assumption | apply To4_idem] : go_inv.

(** Decomposition of a handler whose calls have lemmas in the database. *)
Ltac pres_step :=
  first [ stable_step
        | solve [auto with go_inv nocore]
        | progress unfold get_sa, get_child, get_ike, get_ran, get_pdu, get_temp, get_amf, try_io, upd_ue ].
Ltac pres_auto := repeat pres_step.
(** Back to a statement about every state. *)
Ltac pres_any := match goal with |- pres ?w (?m ?w).2 => refine ((_ : stable pres m) w) end.
Ltac pres_next := refine (stable_bind pres _ _ _ (λ x, _)); [solve [pres_auto]|].
Ltac pres_at := apply pres_bind_at; [pres_any; pres_auto|].


(** ** The context *)
Section ContextOps.
Context `{L : EnvLaws}.

Lemma pres_CreatePDUSession {R} r id s : stable pres (CreatePDUSession r id s : H R (option ref)).
Proof. unfold CreatePDUSession. pres_auto. Qed.
Lemma pres_DeletePDUSession {R} r id : stable pres (DeletePDUSession r id : H R unit).
Proof. unfold DeletePDUSession. pres_auto. Qed.
Lemma pres_find_ue {R} l id : stable pres (find_ue l id : H R (option ref)).
Proof. induction l as [|[k r] l IH]; cbn [find_ue]; pres_auto. Qed.
Lemma pres_amf_scan {R} l g p d : stable pres (amf_scan l g p d : H R _).
Proof. revert d. induction l as [|[k r] l IH]; intros d; cbn [amf_scan]; pres_auto. Qed.
Lemma pres_AMFSelection {R} g p : stable pres (AMFSelection g p : H R (option ref)).
Proof. unfold AMFSelection. repeat (pres_step || apply pres_amf_scan). Qed.
Lemma pres_FindUeByAmfUeNgapID {R} a id : stable pres (FindUeByAmfUeNgapID a id : H R (option ref)).
Proof. unfold FindUeByAmfUeNgapID. repeat (pres_step || apply pres_find_ue). Qed.
Lemma pres_RanUe_Remove r : stable pres (RanUe_Remove r).
Proof. unfold RanUe_Remove, DetachAMF. pres_auto. Qed.
Lemma pres_DeleteChildSAXfrm c : stable pres (DeleteChildSAXfrm c).
Proof. unfold DeleteChildSAXfrm, delete_iface. pres_auto. Qed.

(** The address of a removed UE leaves the table before it returns to the pool. *)
Lemma pres_release_ip {R} (u : N3IWFIkeUe) p :
  To4 (IPSecInnerIP u) = IPSecInnerIP u →
  ∀ w, ip_release (To4 (IPSecInnerIP u)) (IPSecInnerIPPool w) = Some p →
  AllocatedUEIPAddress w !! IPSecInnerIP u = None →
  pres w ((modify (λ w, w <| IPSecInnerIPPool := p |>) : H R unit) w).2.
Proof.
  intros Hu w Hr%ip_release_used Hn []. rewrite Hu in Hr.
  split; [split; cbn; eauto|by split]. rewrite Hr. apply not_elem_of_dom in Hn. set_solver.
Qed.

Lemma pres_DeleteChildSA u c : stable pres (DeleteChildSA u c).
Proof. unfold DeleteChildSA. repeat (pres_step || apply pres_DeleteChildSAXfrm). Qed.
Lemma pres_delete_children u l : stable pres (delete_children u l).
Proof. induction l as [|[k c] l IH]; cbn [delete_children]; repeat (pres_step || apply pres_DeleteChildSA). Qed.

Lemma pres_IkeUe_Remove u : stable pres (IkeUe_Remove u).
Proof.
  intros w. unfold IkeUe_Remove. pres_at. intros ue w1 Hu. apply get_at in Hu as (-> & ? & [= <-] & Hu).
  apply pres_assume. intros Hi. pose proof (c_ip _ Hi _ _ Hu) as Hc. clear Hi Hu. pres_any. do 3 pres_next. clear w.
  intros w. pres_at. intros [] w1 Hw1. injection Hw1 as <-.
  apply pres_bind_at; [reflexivity|]. intros p w1 [= <- <-].
  destruct (ip_release _ _) as [p'|] eqn:Hp; [|reflexivity].
  apply pres_bind_at; [|intros _ w1 _; pres_any; repeat (pres_step || apply pres_delete_children)].
  apply (pres_release_ip ue); [done..|]. apply lookup_delete_eq.
Qed.

Lemma pres_CreateHalfChildSA {R} u i spi s : is_u32 spi → stable pres (CreateHalfChildSA u i spi s : H R unit).
Proof. intros Hs. unfold CreateHalfChildSA. repeat (pres_step || by apply pres_new_child). Qed.

Lemma pres_child_entry {R} c v w :
  h_child w !! c = Some v → pres w ((modify (λ w, w <| ChildSA ::= <[InboundSPI v := c]> |>) : H R unit) w).2.
Proof.
  intros Hc []. split; [split; cbn; eauto|by split]. eapply pooled_insert; done.
Qed.

Lemma pres_CompleteChildSA u i spi ps : stable pres (CompleteChildSA u i spi ps).
Proof.
  unfold CompleteChildSA. pres_next. destruct (_ !! i) as [child|]; [|pres_auto]. pres_next.
  destruct ps as [[|p ps]|]; [pres_auto| |pres_auto]. do 2 pres_next.
  destruct (new_child_sa_key p); [|pres_auto].
  intros w. pres_at. intros v w1 Hc. apply (get_at h_child (Some child)) in Hc as (-> & ? & [= <-] & Hc).
  pres_at. intros [] w1 Hw1. injection Hw1 as <-.
  apply pres_bind_at; [by apply pres_child_entry|]. intros [] w1 _. pres_any. pres_auto.
Qed.
End ContextOps.

#[export] Hint Resolve pres_CreatePDUSession pres_DeletePDUSession pres_AMFSelection pres_FindUeByAmfUeNgapID
  pres_RanUe_Remove pres_DeleteChildSAXfrm pres_DeleteChildSA pres_IkeUe_Remove pres_CreateHalfChildSA
  pres_CompleteChildSA : go_inv.

(** ** The IKE server *)
Section Ike.
Context `{L : EnvLaws}.

Lemma pres_SendIKEMessageToUE {R} a b m k : stable pres (SendIKEMessageToUE a b m k : H R bool).
Proof. unfold SendIKEMessageToUE. pres_auto. Qed.
#[local] Hint Resolve pres_SendIKEMessageToUE : go_inv.
Lemma pres_SendUEInformationExchange {R} s k p a b i ue n3 :
  stable pres (SendUEInformationExchange s k p a b i ue n3 : H R unit).
Proof. unfold SendUEInformationExchange. pres_auto. Qed.
#[local] Hint Resolve pres_SendUEInformationExchange : go_inv.
Lemma pres_SendIKEDeleteRequest spi : stable pres (SendIKEDeleteRequest spi).
Proof. unfold SendIKEDeleteRequest. pres_auto. Qed.
Lemma pres_release_children u i l spis : stable pres (release_children u i l spis).
Proof. revert spis. induction l as [|[k c] l IH]; intros spis; cbn [release_children]; pres_auto. Qed.
#[local] Hint Resolve pres_release_children : go_inv.
Lemma pres_release_sessions u l spis : stable pres (release_sessions u l spis).
Proof. revert spis. induction l as [|i l IH]; intros spis; cbn [release_sessions]; pres_auto. Qed.
#[local] Hint Resolve pres_release_sessions : go_inv.
Lemma pres_SendChildSADeleteRequest u l : stable pres (SendChildSADeleteRequest u l).
Proof. unfold SendChildSADeleteRequest. pres_auto. Qed.
Lemma pres_checkIKEMessage {R} msg a b : stable pres (checkIKEMessage msg a b : H R _).
Proof. unfold checkIKEMessage. pres_auto. Qed.

(** IKE_SA_INIT from the creation of the SA on: with the deferred clean-up the pool gains an
    SA with keys or none. *)
Definition typed_sas w w' : Prop :=
  trace w `suffix_of` trace w' ∧
  ((∀ r v, h_sa w !! r = Some v → sa_typed v) → ∀ r v, h_sa w' !! r = Some v → sa_typed v).
#[local] Instance typed_sas_preorder : PreOrder typed_sas.
Proof.
  split; [by intros w; split|]. intros w1 w2 w3 [T1 H1] [T2 H2]. split; [by etrans|]. intros H. by apply H2, H1.
Qed.
Lemma typed_upd_sa {R} r f : (∀ v, sa_typed v → sa_typed (f v)) → stable typed_sas (upd_sa r f : H R unit).
Proof.
  intros Hf w. split; [done|]. intros Hw r' v. cbn.
  rewrite lookup_alter_Some. intros [(_ & v' & Hv & ->)|[_ Hv]]; eauto.
Qed.

Lemma init_rest_typed m real n3 ue ch p0 g ke no lo b1 b2 sa :
  stable typed_sas (init_rest m real n3 ue ch p0 g ke no lo b1 b2 sa).
Proof.
  unfold init_rest, get_sa, SendIKEMessageToUE, do_io.
  repeat (stable_step || (apply typed_upd_sa; intros ? []; split; cbn; done)
          || (apply stable_modify; intros w; split; [by apply suffix_cons_r|done])).
Qed.

(** The states a new SA can be left in: out of the pool, or in it with keys. *)
Lemma pres_new_sa w n pool hs t s :
  let sa := next_ref w in
  (∀ r, r ≠ sa → hs !! r = h_sa w !! r) → hs !! sa = Some s → trace w `suffix_of` t →
  (∀ r v, hs !! r = Some v → sa_typed v) →
  (pool = IKESA w ∨ ∃ key, pool = <[LocalSPI s := sa]> (IKESA w) ∧ IKESA w !! LocalSPI s = None ∧
     phase_of s = Some (mkPhase key (RemoteSPI s) 0)) →
  pres w (w <| next_ref := S sa |> <| draws := n |> <| IKESA := pool |> <| h_sa := hs |> <| trace := t |>).
Proof.
  intros sa Hne Hs Ht Hty Hpool Hi. pose proof (below_fresh _ _ (b_sa _ Hi)) as Hn. fold sa in Hn.
  assert (∀ spi r, IKESA w !! spi = Some r → hs !! r = h_sa w !! r) as He.
  { intros spi r Hr. apply Hne. intros ->. destruct (p_sa _ Hi _ _ Hr) as (? & ? & _). congruence. }
  assert (same_keys LocalSPI (h_sa w) hs) as Hk.
  { intros r v Hv. exists v. split; [|done]. rewrite Hne; [done|]. intros ->. congruence. }
  assert (sa_table_of (IKESA w) hs = sa_table w) as Hold.
  { apply sa_table_ext. intros spi r Hr. by rewrite (He _ _ Hr). }
  assert (pooled LocalSPI pool hs ∧ (∀ spi r v, pool !! spi = Some r → hs !! r = Some v → is_Some (IKESAKey v)) ∧
    rtc table_step (sa_table w) (sa_table_of pool hs)) as (Hp & Hks & Htab).
  { pose proof (pooled_keys LocalSPI _ _ _ Hk (p_sa _ Hi)) as Hpo.
    assert (∀ spi r v, IKESA w !! spi = Some r → hs !! r = Some v → is_Some (IKESAKey v)) as Hko.
    { intros spi r v Hr. rewrite (He _ _ Hr). eauto using k_sa. }
    destruct Hpool as [->|(key & -> & Hnone & Hph)]; [rewrite Hold; by repeat split|].
    split; [by eapply pooled_insert|]. split.
    - intros spi r v [[<- <-]|[_ Hr]]%lookup_insert_Some; [|eauto]. rewrite Hs. intros [= <-].
      unfold phase_of in Hph. by destruct (IKESAKey s).
    - erewrite sa_table_insert, Hold by done. apply rtc_once, step_establish.
      unfold sa_table. by rewrite sa_table_lookup, Hnone. }
  destruct Hi. split; [split; cbn; eauto with go_inv nocore|by split; cbn].
  intros r [v Hv]. destruct (decide (r = sa)) as [->|Hr]; [lia|]. rewrite Hne in Hv by done.
  assert (r < next_ref w)%nat by eauto. lia.
Qed.

Lemma pres_init_block (rest : ref → H bool bool) :
  (∀ sa s w, h_sa w !! sa = Some s → result (rest sa) w = Some true →
     ∃ s', h_sa (final (rest sa) w) !! sa = Some s' ∧ is_Some (IKESAKey s') ∧ LocalSPI s' = LocalSPI s ∧ State s' = State s) →
  (∀ sa, stable (only_sa sa) (rest sa)) → (∀ sa, stable typed_sas (rest sa)) →
  stable pres
    (sa ← NewIKESecurityAssociation;
     match sa with
     | None => ret tt
     | Some sa => call (defer_unless (drop_sa sa) (rest sa))
     end : H unit unit).
Proof.
  intros Hkept Hframe Htyped w. rewrite run_bind.
  assert (sa_typed zero_SA) as Hz by (split; cbn; vm_compute; by split).
  pose proof (NewIKESecurityAssociation_state (R := unit) w) as Hn.
  destruct (NewIKESecurityAssociation w) as [[[sa|]|?|?] w1].
  2: { destruct Hn as [n ->]. by apply pres_fresh_sa. } 2: done. 2: { destruct Hn as [n ->]. by apply pres_fresh_sa. }
  destruct Hn as (spi & n & Hf & -> & ->). set (sa := next_ref w) in *.
  match goal with |- context [call _ ?v] => set (w1 := v) end.
  assert (h_sa w1 !! sa = Some (zero_SA <| LocalSPI := spi |>)) as Hs1 by apply lookup_insert_eq.
  specialize (Hframe sa w1). specialize (Hkept sa _ w1 Hs1). specialize (Htyped sa w1).
  rewrite run_call. unfold defer_unless, result, final in *.
  destruct (rest sa w1) as [c w2]. cbn in Hframe, Htyped.
  destruct Hframe as (hs & t & -> & Hne & Hl). destruct Htyped as [Ht Hty].
  rewrite Hs1 in Hl. destruct (hs !! sa) as [s|] eqn:Hs; [|done]. cbn in Hl. injection Hl as Hspi.
  apply pres_assume. intros Hi.
  assert (∀ r v, hs !! r = Some v → sa_typed v) as Hty'.
  { apply Hty. cbn. intros r v [[<- <-]|[_ Hr]]%lookup_insert_Some; [destruct Hz; by split|]. by eapply t_sa. }
  assert (∀ r, r ≠ sa → hs !! r = h_sa w !! r) as Hne'.
  { intros r Hr. rewrite Hne by done. cbn. by apply lookup_insert_ne. }
  assert (pres w (drop_sa sa (w1 <| h_sa := hs |> <| trace := t |>))) as Hd.
  { unfold drop_sa. cbn. rewrite Hs, Hspi.
    change (pres w (w <| next_ref := S sa |> <| draws := n |> <| IKESA := delete spi (<[spi := sa]> (IKESA w)) |>
                      <| h_sa := hs |> <| trace := t |>)).
    rewrite delete_insert_id by done.
    refine (pres_new_sa w n (IKESA w) hs t s Hne' Hs Ht Hty' _). by left. }
  assert (c = Next true ∨ c = Return true → pres w (w1 <| h_sa := hs |> <| trace := t |>)) as Hkeep.
  { intros Hc. destruct Hkept as (s' & Hs' & [key Hkey] & _ & Hst); [by destruct Hc as [->| ->]|].
    cbn in Hs'. rewrite Hs in Hs'. injection Hs' as <-.
    change (pres w (w <| next_ref := S sa |> <| draws := n |> <| IKESA := <[spi := sa]> (IKESA w) |>
                      <| h_sa := hs |> <| trace := t |>)).
    apply (pres_new_sa w n (<[spi := sa]> (IKESA w)) hs t s Hne' Hs Ht Hty'). right. exists key. rewrite Hspi. split; [done|]. split; [done|].
    unfold phase_of. by rewrite Hkey, Hst. }
  destruct c as [[]|[]|e]; cbn; [apply Hkeep; by left|exact Hd|apply Hkeep; by right|exact Hd|exact Hd].
Qed.

Lemma pres_HandleIKESAINIT a b m msg : stable pres (HandleIKESAINIT a b m msg).
Proof.
  unfold HandleIKESAINIT, init_error.
  repeat (first [ apply pres_init_block | pres_step ]).
  - intros sa s w Hs Hr. destruct (init_rest_kept _ _ _ _ _ _ _ _ _ _ _ _ _ _ _ Hs Hr)
      as (s' & key & pub & msg' & pkt & ? & ? & Hk & ? & ? & ? & _). exists s'. rewrite Hk. by repeat split.
  - intros sa. apply init_rest_frame.
  - intros sa. apply init_rest_typed.
Qed.

Lemma pres_auth_reply {R} m sa a b ps : stable pres (auth_reply m sa a b ps : H R bool).
Proof. unfold auth_reply. pres_auto. Qed.
#[local] Hint Resolve pres_auth_reply : go_inv.
Lemma pres_new_eap_identifier {R} n sa : stable pres (new_eap_identifier n sa : H R (option Z)).
Proof.
  induction n as [|n IH]; cbn [new_eap_identifier]; [pres_auto|]. intros w. pres_at. intros o w1 Ho.
  rewrite run_draw in Ho. injection Ho as <- _. destruct (rnd_u8 (draws w)) as [x|] eqn:Hx; [|reflexivity].
  apply rnd_u8_range in Hx. pres_any. repeat (pres_step || apply IH).
Qed.
Lemma pres_new_inbound_spi {R} n : stable pres (new_inbound_spi n : H R (option Z)).
Proof. induction n as [|n IH]; cbn [new_inbound_spi]; pres_auto. Qed.
Lemma new_inbound_spi_u32 {R} n w :
  match (new_inbound_spi n : H R (option Z)) w with (Next (Some spi), _) => is_u32 spi | _ => True end.
Proof.
  revert w. induction n as [|n IH]; intros w; [done|]. cbn [new_inbound_spi]. rewrite run_bind, run_draw.
  destruct (rnd_u32 (draws w)) as [x|] eqn:Hx; [|done]. rewrite run_bind. cbn [gets].
  destruct (_ !! x); [apply IH|]. by apply rnd_u32_range in Hx.
Qed.
(** The rest of a handler for the SPI that was drawn. *)
Lemma pres_bind_spi {R A} n (f : option Z → H R A) :
  stable pres (f None) → (∀ spi, is_u32 spi → stable pres (f (Some spi))) → stable pres (new_inbound_spi n ≫= f).
Proof.
  intros Hn Hs w. apply pres_bind_at; [apply pres_new_inbound_spi|]. intros o w1 Ho.
  pose proof (new_inbound_spi_u32 (R := R) n w) as Hu. rewrite Ho in Hu. destruct o; [by apply Hs|apply Hn].
Qed.
#[local] Hint Resolve pres_new_eap_identifier pres_new_inbound_spi : go_inv.
Lemma pres_parseIPAddressInformation {R} c a l r : stable pres (parseIPAddressInformation c a l r : H R unit).
Proof. unfold parseIPAddressInformation. pres_auto. Qed.
Lemma pres_childSA_String {R} c : stable pres (childSA_String c : H R unit).
Proof. unfold childSA_String. pres_auto. Qed.
Lemma pres_ApplyXFRMRule b i c : stable pres (ApplyXFRMRule b i c).
Proof. unfold ApplyXFRMRule. pres_auto. Qed.
Lemma pres_SetupIPsecXfrmi n p i a : stable pres (SetupIPsecXfrmi n p i a).
Proof. unfold SetupIPsecXfrmi. pres_auto. Qed.
#[local] Hint Resolve pres_parseIPAddressInformation pres_childSA_String pres_ApplyXFRMRule pres_SetupIPsecXfrmi : go_inv.

Lemma pres_auth_pre m p sa a b : stable pres (auth_pre m p sa a b).
Proof. unfold auth_pre, auth_identity, auth_offer. pres_auto. Qed.
Lemma pres_auth_eap m p sa c a b : stable pres (auth_eap m p sa c a b).
Proof. unfold auth_eap. pres_auto. Qed.
Lemma pres_auth_child sa u a b : stable pres (auth_child sa u a b).
Proof. unfold auth_child. apply pres_bind_spi; [pres_auto|]. intros spi Hspi. pres_auto. Qed.
#[local] Hint Resolve pres_auth_pre pres_auth_eap pres_auth_child : go_inv.
Lemma pres_auth_post m p sa a b : stable pres (auth_post m p sa a b).
Proof. unfold auth_post, auth_verify, auth_address, NewIPsecInnerUEIP. pres_auto. Qed.
#[local] Hint Resolve pres_auth_post : go_inv.
Lemma pres_HandleIKEAUTH c a b m sa : stable pres (HandleIKEAUTH c a b m sa).
Proof. unfold HandleIKEAUTH. pres_auto. Qed.
#[local] Hint Resolve pres_SendIKEDeleteRequest pres_SendChildSADeleteRequest pres_checkIKEMessage
  pres_HandleIKESAINIT pres_HandleIKEAUTH : go_inv.

Lemma pres_child_sa_request u sa p : stable pres (child_sa_request u sa p).
Proof. unfold child_sa_request. apply pres_bind_spi; [pres_auto|]. intros spi Hspi. pres_auto. Qed.
#[local] Hint Resolve pres_child_sa_request : go_inv.
Lemma pres_create_turn u sa t i : stable pres (create_turn u sa t i).
Proof. unfold create_turn. pres_auto. Qed.
#[local] Hint Resolve pres_create_turn : go_inv.
Lemma pres_create_loop n u sa t i : stable pres (create_loop n u sa t i).
Proof. induction n as [|n IH]; cbn [create_loop]; pres_auto. Qed.
#[local] Hint Resolve pres_create_loop : go_inv.
Lemma pres_CreatePDUSessionChildSA u t : stable pres (CreatePDUSessionChildSA u t).
Proof. unfold CreatePDUSessionChildSA. pres_auto. Qed.
#[local] Hint Resolve pres_CreatePDUSessionChildSA : go_inv.
Lemma pres_HandleCREATECHILDSA a b m sa : stable pres (HandleCREATECHILDSA a b m sa).
Proof. unfold HandleCREATECHILDSA. pres_auto. Qed.
Lemma pres_child_complete sa u : stable pres (child_complete sa u).
Proof. unfold child_complete. pres_auto. Qed.
Lemma pres_child_interface ue c : stable pres (child_interface ue c).
Proof. unfold child_interface. pres_auto. Qed.
#[local] Hint Resolve pres_child_complete pres_child_interface : go_inv.
Lemma pres_continueCreateChildSA sa t : stable pres (continueCreateChildSA sa t).
Proof. unfold continueCreateChildSA. pres_auto. Qed.

Lemma pres_find_child {R} spi l : stable pres (find_child spi l : H R _).
Proof. induction l as [|[k c] l IH]; cbn [find_child]; pres_auto. Qed.
#[local] Hint Resolve pres_find_child : go_inv.
Lemma pres_deleteChildSAFromSPIList u l s d : stable pres (deleteChildSAFromSPIList u l s d).
Proof. revert s d. induction l as [|x l IH]; intros s d; cbn [deleteChildSAFromSPIList]; pres_auto. Qed.
#[local] Hint Resolve pres_deleteChildSAFromSPIList : go_inv.
Lemma pres_handleDeletePayload p l b sa : stable pres (handleDeletePayload p l b sa).
Proof. unfold handleDeletePayload. pres_auto. Qed.
#[local] Hint Resolve pres_handleDeletePayload : go_inv.
Lemma pres_HandleInformational a b m sa : stable pres (HandleInformational a b m sa).
Proof. unfold HandleInformational. pres_auto. Qed.
#[local] Hint Resolve pres_HandleCREATECHILDSA pres_continueCreateChildSA pres_HandleInformational : go_inv.

Lemma pres_StartDPD u : stable pres (StartDPD u).
Proof. unfold StartDPD. pres_auto. Qed.
#[local] Hint Resolve pres_StartDPD : go_inv.
Lemma pres_dpd_tick u : stable pres (dpd_tick u).
Proof. unfold dpd_tick. pres_auto. Qed.
Lemma pres_dpd_timeout sa n : stable pres (dpd_timeout sa n).
Proof. unfold dpd_timeout. pres_auto. Qed.

Lemma pres_Dispatch {R} c a b m msg o : stable pres (Dispatch c a b m msg o : H R unit).
Proof. unfold Dispatch. pres_auto. Qed.
#[local] Hint Resolve pres_Dispatch : go_inv.
Lemma pres_removeIkeUe spi : stable pres (removeIkeUe spi).
Proof. unfold removeIkeUe. pres_auto. Qed.
#[local] Hint Resolve pres_removeIkeUe : go_inv.
Lemma pres_HandleEvent e : stable pres (HandleEvent e).
Proof.
  destruct e; cbn [HandleEvent];
    unfold HandleUnmarshalEAP5GDataResponse, HandleSendEAP5GFailureMsg, HandleSendEAPSuccessMsg, HandleSendEAPNASMsg,
      HandleCreatePDUSession, HandleIKEDeleteEvt, HandleSendChildSADeleteRequest, HandleIKEContextUpdate,
      HandleGetNGAPContextResponse, event_sa, eap_send; pres_auto.
Qed.
#[local] Hint Resolve pres_HandleEvent : go_inv.

Lemma pres_server_turn i : stable pres (server_turn i).
Proof. destruct i; cbn [server_turn]; pres_auto. Qed.
End Ike.

(** ** The NGAP server *)
Section Ngap.
Context `{L : EnvLaws}.

Lemma pres_SendToAmf {R} a m p : stable pres (SendToAmf a m p : H R unit).
Proof. unfold SendToAmf. pres_auto. Qed.
#[local] Hint Resolve pres_SendToAmf : go_inv.
Lemma pres_encode_and_send {R} a m : stable pres (encode_and_send a m : H R unit).
Proof. unfold encode_and_send. pres_auto. Qed.
Lemma pres_pdu_ids {R} l : stable pres (pdu_ids l : H R (list Z)).
Proof. induction l as [|[k p] l IH]; cbn [pdu_ids]; pres_auto. Qed.
#[local] Hint Resolve pres_encode_and_send pres_pdu_ids : go_inv.
Lemma pres_session_ids {R} u : stable pres (session_ids u : H R (list Z)).
Proof. unfold session_ids. pres_auto. Qed.
#[local] Hint Resolve pres_session_ids : go_inv.

(** The senders reach the context through the accessors and [encode_and_send] only. *)
Ltac pres_send :=
  unfold SendNGSetupRequest, SendNGResetAcknowledge, SendInitialContextSetupResponse, SendInitialContextSetupFailure,
    SendUEContextModificationResponse, SendUEContextReleaseComplete, SendUEContextReleaseRequest,
    SendInitialUEMessage, SendUplinkNASTransport, SendPDUSessionResourceSetupResponse,
    SendPDUSessionResourceModifyResponse, SendPDUSessionResourceReleaseResponse, SendErrorIndication,
    SendErrorIndicationWithSctpConn, SendAMFConfigurationUpdateAcknowledge, SendRANConfigurationUpdate,
    tcp_write; pres_auto.

Lemma pres_SendNGSetupRequest {R} a c : stable pres (SendNGSetupRequest a c : H R unit).
Proof. pres_send. Qed.
Lemma pres_eap5g_initial spi p n : stable pres (eap5g_initial spi p n).
Proof. unfold eap5g_initial. pres_auto. Qed.
Lemma pres_report_session t i s : stable pres (report_session t i s).
Proof. unfold report_session. pres_auto. Qed.
#[local] Hint Resolve pres_eap5g_initial pres_report_session : go_inv.
Lemma pres_report_sessions t i l : stable pres (report_sessions t i l).
Proof. revert i. induction l as [|s l IH]; intros i; cbn [report_sessions]; pres_auto. Qed.
#[local] Hint Resolve pres_report_sessions : go_inv.

Lemma pres_HandleNgapEvent e : stable pres (HandleNgapEvent e).
Proof.
  destruct e; cbn [HandleNgapEvent];
    unfold HandleUnmarshalEAP5GData, HandleSendInitialUEMessage, HandleSendPDUSessionResourceSetupResponse,
      HandleSendNASMsg, HandleStartTCPSignalNASMsg, HandleNASTCPConnEstablishedComplete,
      HandleSendUEContextReleaseRequest, HandleSendUEContextReleaseComplete, HandleSendPDUSessionResourceReleaseRes,
      HandleGetNGAPContext, HandleSendUplinkNASTransport, HandleSendInitialContextSetupResponse,
      HandleSendSendUEContextRelease, HandleSendSendPDUSessionResourceRelease; pres_send.
Qed.

(** *** Messages from the AMF *)
Lemma pres_setup_transfer r p ies : stable pres (handlePDUSessionResourceSetupRequestTransfer r p ies).
Proof. unfold handlePDUSessionResourceSetupRequestTransfer, setup_security, setup_qos, setup_tunnel. pres_auto. Qed.
#[local] Hint Resolve pres_setup_transfer : go_inv.
Lemma pres_setup_session {R} c r t i : stable pres (setup_session c r t i : H R unit).
Proof. unfold setup_session, append_failed. pres_auto. Qed.
Lemma pres_find_ran_ue l : stable pres (find_ran_ue l).
Proof. unfold find_ran_ue. pres_auto. Qed.
#[local] Hint Resolve pres_setup_session pres_find_ran_ue : go_inv.
Lemma pres_initial_sessions r l : stable pres (initial_sessions r l).
Proof. unfold initial_sessions. pres_send. Qed.
#[local] Hint Resolve pres_initial_sessions : go_inv.

(** The UE found for a message is stored under the message's RAN identifier. *)
Lemma find_ran_ue_at l r w w' :
  find_ran_ue l w = (Next (Some r), w') → ∃ id, RANUENGAPID l = Some id ∧ w' = w ∧ RANUePool w !! id = Some r.
Proof.
  unfold find_ran_ue. destruct (AMFUENGAPID l), (RANUENGAPID l) as [id|]; [|done..].
  rewrite run_bind. cbn [gets]. unfold RanUePoolLoad. destruct (RANUePool w !! id) as [r'|] eqn:Hr; [|done].
  rewrite run_bind. destruct (get_ran (Some r') w) as [[u|?|?] w1] eqn:Hu; [|done..].
  apply (get_at h_ran) in Hu as (-> & _). case_decide; [done|]. intros [= <- <-]. by exists id.
Qed.

(** Writing an identifier a UE already has is no change of identity. *)
Lemma pres_same_id {R} r id f w :
  (∀ v, RanUeNgapId (f v) = id) → RANUePool w !! id = Some r → pres w ((upd_ran r f : H R unit) w).2.
Proof.
  intros Hf Hr Hi. destruct (p_ran _ Hi _ _ Hr) as (v & Hv & Hid).
  assert (alter f r (h_ran w) = alter (λ _, f v) r (h_ran w)) as Ea.
  { apply map_eq. intros x. destruct (decide (x = r)) as [->|]; [by rewrite !lookup_alter_eq, Hv|].
    by rewrite !lookup_alter_ne. }
  assert (same_keys RanUeNgapId (h_ran w) (alter f r (h_ran w))) as Hk.
  { intros x u Hx. destruct (decide (x = r)) as [->|]; [|exists u; by rewrite lookup_alter_ne].
    exists (f u). rewrite lookup_alter_eq, Hx. split; [done|]. rewrite Hf. congruence. }
  destruct Hi. split; [split; cbn; eauto with go_inv nocore|by split]. by eapply pooled_keys.
Qed.

Lemma pres_HandleInitialContextSetupRequest ies : stable pres (HandleInitialContextSetupRequest ies).
Proof.
  unfold HandleInitialContextSetupRequest. destruct ies as [ies|]; [|pres_auto].
  destruct (collect _ ies) as [l [|d diags]]; [|pres_send].
  intros w. pres_at. intros [r|] w1 Hf; [|reflexivity]. apply find_ran_ue_at in Hf as (id & Hid & -> & Hr).
  rewrite Hid. apply pres_bind_at; [pres_any; pres_auto|]. intros a w1 Ha.
  assert (w1 = w) as -> by (destruct (AMFUENGAPID l); by inversion Ha).
  apply pres_bind_at; [reflexivity|]. intros x w1 [= <- <-].
  apply pres_bind_at; [by apply (pres_same_id r id)|]. intros _ w1 _. pres_any. pres_auto.
Qed.

Lemma pres_HandleUEContextModificationRequest a ies : stable pres (HandleUEContextModificationRequest a ies).
Proof. unfold HandleUEContextModificationRequest. pres_send. Qed.
Lemma pres_releaseIkeUeAndRanUe {R} r : stable pres (releaseIkeUeAndRanUe r : H R error).
Proof. unfold releaseIkeUeAndRanUe. pres_auto. Qed.
#[local] Hint Resolve pres_releaseIkeUeAndRanUe : go_inv.
Lemma pres_HandleUEContextReleaseCommand a ies : stable pres (HandleUEContextReleaseCommand a ies).
Proof. unfold HandleUEContextReleaseCommand, released_ue. pres_send. Qed.
Lemma pres_downlink_nas r p : stable pres (downlink_nas r p).
Proof. unfold downlink_nas. pres_send. Qed.
#[local] Hint Resolve pres_downlink_nas : go_inv.
Lemma pres_HandleDownlinkNASTransport a ies : stable pres (HandleDownlinkNASTransport a ies).
Proof. unfold HandleDownlinkNASTransport. pres_send. Qed.
Lemma pres_setup_nas o l : stable pres (setup_nas o l).
Proof. unfold setup_nas. pres_send. Qed.
#[local] Hint Resolve pres_setup_nas : go_inv.
Lemma pres_HandlePDUSessionResourceSetupRequest a ies : stable pres (HandlePDUSessionResourceSetupRequest a ies).
Proof. unfold HandlePDUSessionResourceSetupRequest. pres_send. Qed.

Lemma pres_modify_flow p acc i : stable pres (modify_flow p acc i).
Proof. unfold modify_flow. pres_auto. Qed.
#[local] Hint Resolve pres_modify_flow : go_inv.
Lemma pres_modify_flows p acc l : stable pres (modify_flows p acc l).
Proof. revert acc. induction l as [|i l IH]; intros acc; cbn [modify_flows]; pres_auto. Qed.
#[local] Hint Resolve pres_modify_flows : go_inv.
Lemma pres_modify_transfer p ies : stable pres (handlePDUSessionResourceModifyRequestTransfer p ies).
Proof. unfold handlePDUSessionResourceModifyRequestTransfer. pres_auto. Qed.
#[local] Hint Resolve pres_modify_transfer : go_inv.
Lemma pres_modify_session o acc i : stable pres (modify_session o acc i).
Proof. unfold modify_session. pres_auto. Qed.
#[local] Hint Resolve pres_modify_session : go_inv.
Lemma pres_modify_sessions o acc l : stable pres (modify_sessions o acc l).
Proof. revert acc. induction l as [|i l IH]; intros acc; cbn [modify_sessions]; pres_auto. Qed.
#[local] Hint Resolve pres_modify_sessions : go_inv.
Lemma pres_HandlePDUSessionResourceModifyRequest a ies : stable pres (HandlePDUSessionResourceModifyRequest a ies).
Proof. unfold HandlePDUSessionResourceModifyRequest. pres_send. Qed.
Lemma pres_HandlePDUSessionResourceModifyConfirm a ies : stable pres (HandlePDUSessionResourceModifyConfirm a ies).
Proof. unfold HandlePDUSessionResourceModifyConfirm, confirm_ue, confirm_session. pres_auto. Qed.
Lemma pres_HandlePDUSessionResourceReleaseCommand a ies : stable pres (HandlePDUSessionResourceReleaseCommand a ies).
Proof. unfold HandlePDUSessionResourceReleaseCommand. pres_send. Qed.
Lemma pres_HandleErrorIndication a ies : stable pres (HandleErrorIndication a ies).
Proof. unfold HandleErrorIndication. pres_send. Qed.
Lemma pres_HandleUERadioCapabilityCheckRequest a ies : stable pres (HandleUERadioCapabilityCheckRequest a ies).
Proof. unfold HandleUERadioCapabilityCheckRequest. pres_send. Qed.
#[local] Hint Resolve pres_HandleInitialContextSetupRequest pres_HandleUEContextModificationRequest
  pres_HandleUEContextReleaseCommand pres_HandleDownlinkNASTransport pres_HandlePDUSessionResourceSetupRequest
  pres_HandlePDUSessionResourceModifyRequest pres_HandlePDUSessionResourceModifyConfirm
  pres_HandlePDUSessionResourceReleaseCommand pres_HandleErrorIndication pres_HandleUERadioCapabilityCheckRequest : go_inv.

(** *** The AMF *)
Lemma pres_HandleNGSetupResponse s c ies : stable pres (HandleNGSetupResponse s c ies).
Proof. unfold HandleNGSetupResponse, reject_setup. pres_send. Qed.
Lemma pres_HandleNGSetupFailure s c ies : stable pres (HandleNGSetupFailure s c ies).
Proof. unfold HandleNGSetupFailure, reject_setup. pres_send. Qed.
Lemma pres_remove_ues l : stable pres (remove_ues l).
Proof. induction l as [|[k r] l IH]; cbn [remove_ues]; pres_auto. Qed.
Lemma pres_reset_connections a o l : stable pres (reset_connections a o l).
Proof. revert o. induction l as [|i l IH]; intros o; cbn [reset_connections]; pres_auto. Qed.
#[local] Hint Resolve pres_remove_ues pres_reset_connections : go_inv.
Lemma pres_HandleNGReset a ies : stable pres (HandleNGReset a ies).
Proof. unfold HandleNGReset, RemoveAllRelatedUe. pres_send. Qed.
Lemma pres_StartOverload a x y z : SCTPAddr (StartOverload x y z a) = SCTPAddr a.
Proof. by destruct x, y, z. Qed.
Lemma pres_HandleAMFConfigurationUpdate a ies : stable pres (HandleAMFConfigurationUpdate a ies).
Proof.
  unfold HandleAMFConfigurationUpdate, AddAMFTNLAssociationItem, DeleteAMFTNLAssociationItem,
    UpdateAMFTNLAssociationItem, tnl_key. pres_send.
Qed.
Lemma pres_HandleRANConfigurationUpdateFailure a ies : stable pres (HandleRANConfigurationUpdateFailure a ies).
Proof. unfold HandleRANConfigurationUpdateFailure. pres_send. Qed.
Lemma pres_HandleOverloadStart a ies : stable pres (HandleOverloadStart a ies).
Proof. unfold HandleOverloadStart. pres_auto. apply pres_upd_amf. intros v. apply pres_StartOverload. Qed.
Lemma pres_HandleOverloadStop a : stable pres (HandleOverloadStop a).
Proof. unfold HandleOverloadStop. pres_auto. Qed.
#[local] Hint Resolve pres_HandleNGSetupResponse pres_HandleNGSetupFailure pres_HandleNGReset
  pres_HandleAMFConfigurationUpdate pres_HandleRANConfigurationUpdateFailure pres_HandleOverloadStart
  pres_HandleOverloadStop : go_inv.
Lemma pres_timer_fires c : stable pres (timer_fires c).
Proof. unfold timer_fires. pres_send. Qed.

Lemma pres_NGAPDispatch s c msg : stable pres (NGAPDispatch s c msg).
Proof.
  unfold NGAPDispatch, dispatch_initiating, dispatch_successful, dispatch_unsuccessful, HandleNGResetAcknowledge,
    HandleRANConfigurationUpdateAcknowledge, HandleDownlinkRANConfigurationTransfer, HandleDownlinkRANStatusTransfer,
    HandleAMFStatusIndication, HandleLocationReportingControl, HandleUETNLAReleaseRequest. pres_auto.
Qed.
#[local] Hint Resolve pres_NGAPDispatch pres_HandleNgapEvent : go_inv.
Lemma pres_ngap_turn i : stable pres (ngap_turn i).
Proof. destruct i; cbn [ngap_turn]; pres_auto. Qed.

(** *** NAS connections and the user plane *)
Lemma pres_accept c ip : stable pres (accept c ip).
Proof. unfold accept. pres_auto. Qed.
Lemma pres_forward r p : stable pres (forward r p).
Proof. unfold forward. pres_send. Qed.
Lemma pres_reader_end r c : stable pres (reader_end r c).
Proof. unfold reader_end. pres_auto. Qed.
Lemma pres_Stop : stable pres Stop.
Proof. unfold Stop. pres_auto. Qed.
Lemma pres_handleESPPacket a b p : stable pres (handleESPPacket a b p).
Proof. unfold handleESPPacket. pres_auto. Qed.
Lemma pres_ul_session u i l : stable pres (ul_session u i l).
Proof. induction l as [|[k c] l IH]; cbn [ul_session]; pres_auto. Qed.
Lemma pres_dl_interface u i l : stable pres (dl_interface u i l).
Proof. induction l as [|[k c] l IH]; cbn [dl_interface]; pres_auto. Qed.
#[local] Hint Resolve pres_ul_session pres_dl_interface : go_inv.
Lemma pres_forwardUL ip i b : stable pres (forwardUL ip i b).
Proof. unfold forwardUL. pres_auto. Qed.
Lemma pres_forwardDL p : stable pres (forwardDL p).
Proof. unfold forwardDL. pres_auto. Qed.
#[local] Hint Resolve pres_forwardDL : go_inv.
Lemma pres_handleQoSTPDU p : stable pres (handleQoSTPDU p).
Proof. unfold handleQoSTPDU. pres_auto. Qed.
End Ngap.
