(* ===== verification/System.v ===== *)
(** * The whole N3IWF (pkg/service/init.go, and the servers together)

    Start-up, and the interleaving of the goroutines: every input - a packet, an event taken
    from a queue, a timer - runs its handler to the end. A panic of the NGAP server, of a NAS
    connection, of a timer or of the user plane ends the process (Fatalf); a panic that
    leaves the IKE server's loop ends that loop only, one of the dead-peer ticker nothing. *)

From S2P Require GtpMsg.
From S2P Require Import Prelude Monad NgapTypes NgapMsg IkeMsg Env State ToyEnv Context Xfrm IkeServer IkeSaInit SaSpec IkeAuth IkeEvents NgapSend NgapEvents NgapUe NgapPdu NgapAmf Nwuup Nwucp Invariant.

#[global] Instance TimerCall_eq_dec : EqDecision TimerCall.
Proof. solve_decision. Defined.

Section System.
Context `{E : Env}.
Implicit Types w : World.

(** ** Start-up *)

(** src/internal/context/context.go:70-75 (NewContext)

    The state of a new context: the generators and the address pool are those of their
    constructors. The function itself, with the files it reads, is in Start.v. *)
Definition initial_world (ranIds teids : idgen) (pool : ippool) (parent : string) : World :=
  mkWorld ranIds teids ∅ ∅ ∅ ∅ ∅ ∅ ∅ ∅ ∅ ∅ ∅ pool ∅ parent 0 ∅ ∅ ∅ ∅ ∅ ∅ ∅ 0 [] [] 0 [].

(** src/pkg/service/init.go:239-271 (N3iwfApp.initDefaultXfrmInterface)

    Whether the error result is nil. *)
Definition initDefaultXfrmInterface : H bool bool :=
  parent ← gets XfrmParentIfaceName;
  let id := cfg_XfrmIfaceId cfg in
  link ← call (SetupIPsecXfrmi (cfg_XfrmIfaceName cfg +:+ "-default") parent id
                 (mkIPNet (cfg_IPSecGatewayAddr cfg) ip_mask));
  match link with
  | None => ret false
  | Some link =>
      do_io (IoRouteAdd link);;
      modify (λ w, w <| XfrmIfaces ::= λ m, match m !! id with Some _ => m | None => <[id := link]> m end |>);;
      modify (λ w, w <| XfrmIfaceIdOffsetForUP ::= λ _, 1 |>);;
      mret true
  end.

(** src/pkg/service/init.go:273-286 (N3iwfApp.removeIPsecInterfaces) *)
Definition removeIPsecInterfaces : H unit unit :=
  ifaces ← gets XfrmIfaces;
  l ← range_map ifaces;
  for_each l (λ '(_, iface), do_io (IoLinkDel iface);; mret tt).

(** ** The servers together *)

(** The state of the process: the shared state, and which loops run. *)
Record Sys := mkSys {
  sys_world : World;
  ike_running : bool;
  ngap_running : bool;
  process_running : bool;
}.

(** What happens next. *)
Inductive input :=
| InIkePacket (conn : Z) (localAddr remoteAddr : UDPAddr) (msg : bytes)
| InIkeEvent
| InNgapPacket (sctpAddr : string) (conn : Z) (msg : bytes)
| InNgapEvent
| InConnected (sctpAddr : string) (conn : Z)
| InTimer (c : TimerCall)
| InAccept (conn : Z) (ueIP : bytes)
| InForward (ranUe : ref) (packet : bytes)
| InReaderEnd (ranUe : ref) (conn : Z)
| InUplink (ueInnerIP : bytes) (ifIndex : Z) (rawData : bytes)
| InDownlink (pdu : GtpMsg.TPDU)
| InDpdTick (ikeUe : ref)
| InDpdTimeout (sa : ref) (maxRetryTimes : Z)
| InEsp (remoteAddr localAddr : UDPAddr) (packet : bytes)
| InNwucpStop
| InIkeStop
| InRemoveInterfaces.

(** A handler under [recover] with Fatalf. *)
Definition fatal {A R} (s : Sys) (o : ctl R A * World) : Sys :=
  mkSys o.2 (ike_running s) (ngap_running s) (match o.1 with Panicked _ => false | _ => process_running s end).
(** A handler under [recover] with a log entry. *)
Definition logged {A R} (s : Sys) (o : ctl R A * World) : Sys :=
  mkSys o.2 (ike_running s) (ngap_running s) (process_running s).
(** src/internal/ike/server.go:107-141 (Server.server)

    A turn of the IKE server: a panic is logged and ends the loop. *)
Definition ike_loop (s : Sys) (o : ctl unit unit * World) : Sys :=
  mkSys o.2 (match o.1 with Panicked _ => false | _ => ike_running s end) (ngap_running s) (process_running s).
(** A turn of the NGAP server. *)
Definition ngap_loop (s : Sys) (o : ctl bool bool * World) : Sys :=
  mkSys o.2 (ike_running s)
    (match o.1 with Next b | Return b => b | Panicked _ => ngap_running s end)
    (match o.1 with Panicked _ => false | _ => process_running s end).

Definition timer_set (c : TimerCall) (t : list IO) : bool :=
  existsb (λ x, match x with IoTimer _ c' => bool_decide (c' = c) | _ => false end) t.

(** The state after an input; [None]: the input cannot happen, because the process has
    ended, the loop has stopped, the queue is empty or the timer was not set. The stop signal
    for the IKE server is a send on a channel that the server closes when its loop ends: the
    send then panics, which ends the process. *)
Definition exec (i : input) (s : Sys) : option Sys :=
  let w := sys_world s in
  if negb (process_running s) then None
  else
    match i with
    | InIkePacket conn localAddr remoteAddr msg =>
        if ike_running s then Some (ike_loop s (server_turn (IkePacket conn localAddr remoteAddr msg) w)) else None
    | InIkeEvent =>
        match ike_running s, ike_queue w with
        | true, e :: q => Some (ike_loop s (server_turn (IkeEvent e) (w <| ike_queue := q |>)))
        | _, _ => None
        end
    | InNgapPacket sctpAddr conn msg =>
        if ngap_running s then Some (ngap_loop s (ngap_turn (NgapPacket sctpAddr conn msg) w)) else None
    | InNgapEvent =>
        match ngap_running s, ngap_queue w with
        | true, e :: q => Some (ngap_loop s (ngap_turn (NgapEvent e) (w <| ngap_queue := q |>)))
        | _, _ => None
        end
    | InConnected sctpAddr conn => Some (fatal s ((SendNGSetupRequest sctpAddr conn : H unit unit) w))
    | InTimer c => if timer_set c (trace w) then Some (fatal s (timer_fires c w)) else None
    | InAccept conn ueIP => Some (fatal s (accept conn ueIP w))
    | InForward ranUe packet => Some (fatal s (forward ranUe packet w))
    | InReaderEnd ranUe conn => Some (fatal s (reader_end ranUe conn w))
    | InUplink ip ifIndex rawData => Some (fatal s (forwardUL ip ifIndex rawData w))
    | InDownlink pdu => Some (fatal s (handleQoSTPDU pdu w))
    | InDpdTick ikeUe => Some (logged s (dpd_tick ikeUe w))
    | InDpdTimeout sa n => Some (fatal s (dpd_timeout sa n w))
    | InEsp remoteAddr localAddr packet => Some (logged s (handleESPPacket remoteAddr localAddr packet w))
    | InNwucpStop => Some (fatal s (Nwucp.Stop w))
    | InIkeStop => Some (mkSys w false (ngap_running s) (ike_running s))
    | InRemoveInterfaces => Some (logged s (removeIPsecInterfaces w))
    end.

(** The state when all servers have been started: the default interface is set up or the
    process would have returned an error. *)
Definition start (w : World) : option Sys :=
  match initDefaultXfrmInterface w with
  | (Next true, w) | (Return true, w) => Some (mkSys w true true true)
  | _ => None
  end.

Inductive reachable : Sys → Prop :=
| reach_start ranIds teids pool parent s :
    start (initial_world ranIds teids pool parent) = Some s → reachable s
| reach_exec i s s' : reachable s → exec i s = Some s' → reachable s'.

(** A sequence of inputs. *)
Inductive run : Sys → list input → Sys → Prop :=
| run_nil s : run s [] s
| run_cons s i s' l s'' : exec i s = Some s' → run s' l s'' → run s (i :: l) s''.
End System.

(** ** Invariance *)
Section Invariance.
Context `{L : EnvLaws}.
Implicit Types w : World.

Lemma Inv_initial_world g1 g2 p parent : Inv (initial_world g1 g2 p parent).
Proof. split; cbn; try done; try (by intros ? [? ?]); set_solver. Qed.

Lemma pres_initDefaultXfrmInterface : stable pres initDefaultXfrmInterface.
Proof. unfold initDefaultXfrmInterface. repeat (pres_step || apply pres_SetupIPsecXfrmi). Qed.
Lemma pres_removeIPsecInterfaces : stable pres removeIPsecInterfaces.
Proof. unfold removeIPsecInterfaces. pres_auto. Qed.

(** Taking an event from a queue. *)
Lemma pres_queues w q q' : pres w (w <| ike_queue := q |> <| ngap_queue := q' |>).
Proof. intros []. by split; split. Qed.

Lemma exec_pres i s s' : exec i s = Some s' → pres (sys_world s) (sys_world s').
Proof.
  unfold exec. destruct (process_running s); [|done]. set (w := sys_world s).
  change (negb true) with false. cbv iota. destruct i.
  - destruct (ike_running s); [|done]. intros <-%(inj Some). exact (pres_server_turn _ _).
  - destruct (ike_running s); [|done]. destruct (ike_queue w) as [|e q]; [done|]. intros <-%(inj Some).
    etrans; [apply (pres_queues w q (ngap_queue w))|]. exact (pres_server_turn _ _).
  - destruct (ngap_running s); [|done]. intros <-%(inj Some). exact (pres_ngap_turn _ _).
  - destruct (ngap_running s); [|done]. destruct (ngap_queue w) as [|e q]; [done|]. intros <-%(inj Some).
    etrans; [apply (pres_queues w (ike_queue w) q)|]. exact (pres_ngap_turn _ _).
  - intros <-%(inj Some). exact (pres_SendNGSetupRequest _ _ _).
  - destruct (timer_set _ _); [|done]. intros <-%(inj Some). exact (pres_timer_fires _ _).
  - intros <-%(inj Some). exact (pres_accept _ _ _).
  - intros <-%(inj Some). exact (pres_forward _ _ _).
  - intros <-%(inj Some). exact (pres_reader_end _ _ _).
  - intros <-%(inj Some). exact (pres_forwardUL _ _ _ _).
  - intros <-%(inj Some). exact (pres_handleQoSTPDU _ _).
  - intros <-%(inj Some). exact (pres_dpd_tick _ _).
  - intros <-%(inj Some). exact (pres_dpd_timeout _ _ _).
  - intros <-%(inj Some). exact (pres_handleESPPacket _ _ _ _).
  - intros <-%(inj Some). exact (pres_Stop _).
  - intros <-%(inj Some). reflexivity.
  - intros <-%(inj Some). exact (pres_removeIPsecInterfaces _).
Qed.

(** What holds after a start holds with the invariant in every reachable state. *)
Lemma reachable_from_start s :
  reachable s → Inv (sys_world s) ∧ rtc table_step ∅ (sa_table (sys_world s)).
Proof.
  induction 1 as [g1 g2 p parent s Hs|i s s' _ [Hi Ht] He].
  - destruct (pres_initDefaultXfrmInterface _ (Inv_initial_world g1 g2 p parent)) as [Hi He]. apply e_table in He.
    change (sa_table (initial_world g1 g2 p parent)) with (∅ : gmap Z SaPhase) in He.
    unfold start in Hs. destruct (initDefaultXfrmInterface _) as [[[]|[]|] w]; by inversion Hs.
  - destruct (exec_pres i s s' He Hi) as [Hi' He']. split; [done|]. etrans; [exact Ht|apply (e_table _ _ He')].
Qed.
Lemma reachable_Inv s : reachable s → Inv (sys_world s).
Proof. apply reachable_from_start. Qed.

Lemma run_pres s l s' : run s l s' → pres (sys_world s) (sys_world s').
Proof. induction 1 as [s|s i s1 l s2 He _ IH]; [done|]. etrans; [exact (exec_pres _ _ _ He)|exact IH]. Qed.

(** The pool entry that the check of a received packet looks up is never dangling. *)
Lemma checkIKEMessage_returns {R} w msg a b : Inv w →
  match ((checkIKEMessage msg a b : H R _) w).1 with Next _ => True | _ => False end.
Proof.
  intros Hi. unfold checkIKEMessage, SendIKEMessageToUE. destruct (ike_parse_header msg) as [h|]; [|done].
  case_decide; [by destruct (ike_encode_encrypt _ _)|]. case_decide; [done|].
  rewrite run_bind. cbn [gets]. unfold IKESALoad. destruct (IKESA w !! ih_ResponderSPI h) as [r|] eqn:Hr.
  - destruct (p_sa _ Hi _ _ Hr) as (s & Hs & _). by rewrite run_bind, (run_get_sa w r s Hs).
  - by destruct (ike_encode_encrypt _ _).
Qed.

Lemma ike_packet_returns w c a b msg : Inv w →
  match (server_turn (IkePacket c a b msg) w).1 with Next _ => True | _ => False end.
Proof.
  intros Hi. unfold server_turn. rewrite run_bind. pose proof (checkIKEMessage_returns (R := unit) w msg a b Hi) as Hc.
  destruct (checkIKEMessage msg a b w) as [[[[m sa]|]|?|?] w1]; done.
Qed.

Lemma Dispatch_drops {R} w c a b m msg r sa :
  h_sa w !! r = Some sa → im_ExchangeType m ≠ IKE_SA_INIT → hasExpectedMessageID m sa = false →
  (Dispatch c a b m msg (Some r) : H R unit) w = (Next tt, w).
Proof.
  intros Hsa Hx Hid. unfold Dispatch, recover. rewrite (decide_True (P := im_ExchangeType m ≠ IKE_SA_INIT)) by done.
  rewrite !run_bind, (run_get_sa w r sa Hsa). cbn [mret prog_ret]. by rewrite Hid.
Qed.

(** ** Properties *)

(** C1. The state of the shared tables in every reachable state of the process:
    whatever packets, events and timers arrived and however the handlers ended, an IKE SA
    found under an SPI exists and has that SPI, a child SA found under an inbound SPI has that
    SPI, a RAN UE found under an identifier has that identifier, an AMF found under an address
    has that address, an IKE UE found in its pool exists, and identifiers, tunnel endpoint
    identifiers and inner addresses in use are marked in their generators. *)
Theorem reachable_pools s :
  reachable s →
  let w := sys_world s in
  (∀ spi r, IKESALoad spi w = Some r → ∃ sa, h_sa w !! r = Some sa ∧ LocalSPI sa = spi) ∧
  (∀ spi r, ChildSA w !! spi = Some r → ∃ c, h_child w !! r = Some c ∧ InboundSPI c = spi) ∧
  (∀ id r, RanUePoolLoad id w = Some r → ∃ u, h_ran w !! r = Some u ∧ RanUeNgapId u = id) ∧
  (∀ a r, AMFPoolLoad a w = Some r → ∃ v, h_amf w !! r = Some v ∧ SCTPAddr v = a) ∧
  (∀ spi r, IkeUePoolLoad spi w = Some r → is_Some (h_ike w !! r)) ∧
  dom (RANUePool w) ⊆ id_used (RANUENGAPIDGenerator w) ∧
  dom (AllocatedUETEID w) ⊆ id_used (TEIDGenerator w) ∧
  dom (AllocatedUEIPAddress w) ⊆ ip_used (IPSecInnerIPPool w).
Proof. intros []%reachable_Inv. by repeat split. Qed.

(** Identity over time: along every run from a reachable state no IKE SA,
    child SA, RAN UE or AMF object disappears or changes its SPI, identifier or address, and
    the effects performed are only added to. *)
Theorem run_evolves s l s' :
  reachable s → run s l s' →
  let w := sys_world s in let w' := sys_world s' in
  (∀ r v, h_sa w !! r = Some v → ∃ v', h_sa w' !! r = Some v' ∧ LocalSPI v' = LocalSPI v) ∧
  (∀ r v, h_child w !! r = Some v → ∃ v', h_child w' !! r = Some v' ∧ InboundSPI v' = InboundSPI v) ∧
  (∀ r v, h_ran w !! r = Some v → ∃ v', h_ran w' !! r = Some v' ∧ RanUeNgapId v' = RanUeNgapId v) ∧
  (∀ r v, h_amf w !! r = Some v → ∃ v', h_amf w' !! r = Some v' ∧ SCTPAddr v' = SCTPAddr v) ∧
  trace w `suffix_of` trace w'.
Proof.
  intros Hr Hrun. by destruct (run_pres _ _ _ Hrun (reachable_Inv _ Hr)) as [_ []].
Qed.



(** C16. Identifiers handed out in a reachable state are new: a tunnel endpoint
    identifier for a session is not allocated to any UE, and the identifier of a new RAN UE
    is not that of another UE in the pool; so no session takes over the downlink tunnel of
    another and no UE replaces another. *)
Theorem reachable_fresh_ids (R : Type) s ranUe :
  reachable s →
  let w := sys_world s in
  match (NewTEID ranUe : H R Z) w with
  | (Next t, w') => t = 0 ∨
      AllocatedUETEIDLoad t w = None ∧ AllocatedUETEID w' = <[t := ranUe]> (AllocatedUETEID w) ∧ 0 ≤ t ≤ MaxUint32
  | _ => False
  end ∧
  match (NewN3iwfRanUe : H R (option ref)) w with
  | (Next (Some r), w') => ∃ id, RanUePoolLoad id w = None ∧ RANUePool w' = <[id := r]> (RANUePool w) ∧
      h_ran w !! r = None ∧ (RanUeNgapId <$> h_ran w' !! r) = Some id
  | (Next None, w') => w' = w
  | _ => False
  end.
Proof.
  intros Hi%reachable_Inv w. fold w in Hi. split.
  - unfold NewTEID. rewrite run_bind. cbn [gets]. destruct (id_alloc _) as [[t g]|] eqn:Ha; [|by left].
    apply id_alloc_fresh in Ha as [Hn _]. rewrite run_bind. cbn [modify].
    case_decide as Ht; [by left|]. cbn. right. unfold AllocatedUETEIDLoad.
    split; [|split; [done|lia]]. apply not_elem_of_dom. intros Hd. apply Hn, (u_teid _ Hi), Hd.
  - unfold NewN3iwfRanUe, new_temp, new_ran, fresh_ref, mbind, prog_bind. cbn.
    destruct (id_alloc _) as [[i g]|] eqn:Ha; [|done]. apply id_alloc_fresh in Ha as [Hn _]. cbn.
    exists i. split; [apply not_elem_of_dom; intros Hd; apply Hn, (u_ran _ Hi), Hd|]. split; [done|].
    split; [apply below_fresh, below_S, (b_ran _ Hi)|]. by rewrite lookup_insert_eq.
Qed.


(** A received packet the IKE server acts on: it starts an exchange, or it belongs to an SA of
    the pool, can be decrypted with its keys and carries the message ID the SA expects. *)
Definition acceptable (msg : bytes) w : Prop :=
  ∃ h, ike_parse_header msg = Some h ∧ ih_MajorVersion h ≤ 2 ∧
    (ih_ExchangeType h = IKE_SA_INIT ∨
     ∃ r sa m, IKESALoad (ih_ResponderSPI h) w = Some r ∧ h_sa w !! r = Some sa ∧
       ike_decode_decrypt msg h (IKESAKey sa) = Some m ∧
       (im_ExchangeType m = IKE_SA_INIT ∨ hasExpectedMessageID m sa = true)).

(** C8. Replayed, forged and stray packets have no effect: in a reachable state
    a packet that starts no exchange and is not a decryptable message of a pooled SA with
    the message ID this SA expects changes nothing but possibly the effects (an error
    notification is sent). *)
Theorem unacceptable_packet_no_effect s s' conn localAddr remoteAddr msg :
  reachable s → ¬ acceptable msg (sys_world s) →
  exec (InIkePacket conn localAddr remoteAddr msg) s = Some s' →
  ∃ t, s' = mkSys (sys_world s <| trace := t |>) (ike_running s) (ngap_running s) (process_running s).
Proof.
  intros Hr%reachable_Inv Hn. destruct s as [w ike ng pr]. unfold exec. cbn [process_running ike_running sys_world] in *.
  destruct pr; [|done]. destruct ike; [|done]. change (negb true) with false. cbv iota. intros <-%(inj Some).
  enough (∃ t, server_turn (IkePacket conn localAddr remoteAddr msg) w = (Next tt, w <| trace := t |>)) as (t & ->)
    by by exists t.
  assert (w = w <| trace := trace w |>) as Ew by by destruct w.
  unfold server_turn, checkIKEMessage, SendIKEMessageToUE.
  destruct (ike_parse_header msg) as [h|] eqn:Hh; [|exists (trace w); by rewrite <- Ew].
  case_decide as Hv; [destruct (ike_encode_encrypt _ None); [by eexists|exists (trace w); by rewrite <- Ew]|].
  case_decide as He; [destruct Hn; exists h; split; [done|]; split; [lia|by left]|].
  rewrite !run_bind. cbn [gets]. destruct (IKESALoad _ w) as [r|] eqn:Hl.
  2: { destruct (ike_encode_encrypt _ None); [by eexists|exists (trace w); by rewrite <- Ew]. }
  destruct (p_sa _ Hr _ _ Hl) as (sa & Hsa & _). rewrite run_bind, (run_get_sa w r sa Hsa). cbn [mret prog_ret].
  destruct (ike_decode_decrypt msg h (IKESAKey sa)) as [m|] eqn:Hm; [|exists (trace w); by rewrite <- Ew].
  exists (trace w). rewrite <- Ew. cbn [omap mbind option_bind]. destruct (decide (im_ExchangeType m = IKE_SA_INIT)) as [Hx|Hx].
  { destruct Hn. exists h. split; [done|]. split; [lia|]. right. exists r, sa, m. do 3 (split; [done|]). by left. }
  apply (Dispatch_drops _ _ _ _ _ _ _ sa); [done..|].
  apply not_true_is_false. intros Hid. destruct Hn. exists h. split; [done|]. split; [lia|]. right. exists r, sa, m.
  do 3 (split; [done|]). by right.
Qed.
End Invariance.

(** ** The end of the process *)
Section Exit.
Context `{E : Env}.

(** C29. One NGAP message is enough to end the process after a UE has lost its NAS
    connection: the reader clears the connection of the UE but leaves its flags, so the next
    downlink NAS transport for this UE dereferences the nil connection and the panic is turned
    into Fatalf. *)
Theorem downlink_after_disconnect_ends_process s ranUe connection sctpAddr conn msg ies amf amfId ranId nasPDU u spi :
  let w := sys_world s in let l := (collect [] ies).1 in
  process_running s = true → ngap_running s = true →
  RanUePoolLoad ranId w = Some ranUe → h_ran w !! ranUe = Some u → IkeSpiLoad (RanUeNgapId u) w = Some spi →
  IsNASTCPConnEstablished u = true → IsNASTCPConnEstablishedComplete u = true →
  AmfUeNgapId u = amfId → AMFPoolLoad sctpAddr w = Some amf → msg ≠ [] →
  ngap_decode msg = Some (mkPDUMsg InitiatingMessage (Some (ProcDownlinkNASTransport, Some ies))) →
  AMFUENGAPID l = Some amfId → RANUENGAPID l = Some ranId → NASPDU l = Some nasPDU →
  ∃ s1 s2, exec (InReaderEnd ranUe connection) s = Some s1 ∧ process_running s1 = true ∧
    exec (InNgapPacket sctpAddr conn msg) s1 = Some s2 ∧ process_running s2 = false.
Proof.
  intros w l Hp Hn Hr Hu Hspi He Hc Hid Ha Hm Hd Hia Hir Hin.
  set (u1 := u <| TCPConnection := None |>).
  set (w1 := w <| h_ran := <[ranUe := u1]> (h_ran w) |> <| trace := IoTcpClose connection :: trace w |>).
  assert (exec (InReaderEnd ranUe connection) s = Some (mkSys w1 (ike_running s) (ngap_running s) (process_running s))) as E1.
  { unfold exec. rewrite Hp. cbn [negb]. unfold fatal, reader_end. fold w. rewrite run_bind, (run_upd_ran w ranUe _ u Hu). cbn -[w1]. by rewrite Hp. }
  do 2 eexists. split; [exact E1|]. split; [done|].
  unfold exec. cbn [process_running ngap_running sys_world]. rewrite Hp, Hn. cbn [negb]. split; [done|].
  assert (∃ w2, ngap_turn (NgapPacket sctpAddr conn msg) w1 = (Panicked nil_deref, w2)) as (w2 & ->); [|done].
  unfold ngap_turn. destruct msg as [|b msg]; [done|]. rewrite run_bind, run_call. unfold NGAPDispatch.
  rewrite run_bind. cbn [gets]. unfold AMFPoolLoad in *. change (AMFPool w1) with (AMFPool w). rewrite Ha, Hd.
  cbn [pm_Present pm_Message dispatch_initiating].
  assert (h_ran w1 !! ranUe = Some u1) as Hu1 by apply lookup_insert_eq.
  pose proof (HandleDownlinkNASTransport_run w1 amf ies amfId ranId nasPDU ranUe u1 spi Hia Hir Hin Hr Hu1 Hspi) as Hrun.
  cbv zeta in Hrun. rewrite decide_False in Hrun by (cbn; tauto).
  unfold routed in Hrun. cbn -[HandleDownlinkNASTransport w1] in Hrun. rewrite He, Hc in Hrun. cbn [negb] in Hrun.
  rewrite Hrun. by eexists.
Qed.
End Exit.

(** ** Applications to concrete states *)
#[local] Existing Instance toy.
#[local] Instance toy_laws_all : EnvLaws := toy_laws all_ok.

(** All inputs that can happen, in order. *)
Fixpoint exec_all `{E : Env} (l : list input) (s : Sys) : Sys :=
  match l with
  | [] => s
  | i :: l => exec_all l (default s (exec i s))
  end.
Lemma exec_all_reachable `{E : Env} l s : reachable s → reachable (exec_all l s).
Proof.
  revert s. induction l as [|i l IH]; intros s Hs; [done|]. apply IH.
  destruct (exec i s) eqn:He; [by eapply reach_exec|done].
Qed.

(** An N3IWF connected to one AMF, after one IKE_SA_INIT. *)
Definition context0 : World := @initial_world toy ([] : list Z) ([] : list Z) ([] : list bytes) "eth0".
Definition sys0 : Sys := default (mkSys context0 true true true) (start context0).
Definition sys1 : Sys :=
  exec_all [InConnected "10.0.0.5:38412" 3; InNgapPacket "10.0.0.5:38412" 3 [1]; InIkePacket 1 n3_addr ue_addr [2; 34; 0; 0]] sys0.
Lemma sys1_reachable : reachable sys1.
Proof. apply exec_all_reachable. by apply (@reach_start toy ([] : list Z) ([] : list Z) ([] : list bytes) "eth0"). Qed.

(** The SA 101 expects the message ID 1. *)
Definition window1 (w : World) : Prop :=
  match IKESA w !! 101 ≫= λ r, h_sa w !! r with Some sa => InitiatorMessageID sa = 1 | None => False end.
Lemma sys1_window : window1 (sys_world sys1).
Proof. vm_compute. reflexivity. Qed.

Lemma reachable_pools_witness :
  ∃ r, IKESALoad 101 (sys_world sys1) = Some r ∧ ∃ sa, h_sa (sys_world sys1) !! r = Some sa ∧ LocalSPI sa = 101.
Proof.
  eexists. split; [vm_compute; reflexivity|].
  apply (proj1 (reachable_pools sys1 sys1_reachable)). vm_compute. reflexivity.
Defined.

Lemma run_evolves_witness :
  ∃ s', exec (InIkePacket 1 n3_addr ue_addr [2; 34; 0; 0]) sys1 = Some s' ∧
    trace (sys_world sys1) `suffix_of` trace (sys_world s').
Proof.
  eexists. split; [reflexivity|].
  refine (proj2 (proj2 (proj2 (proj2 (run_evolves sys1 [InIkePacket 1 n3_addr ue_addr [2; 34; 0; 0]] _ sys1_reachable _))))).
  eapply run_cons; [reflexivity|apply run_nil].
Defined.


Lemma window1_sa w : window1 w →
  ∃ r sa, IKESA w !! 101 = Some r ∧ h_sa w !! r = Some sa ∧ InitiatorMessageID sa = 1.
Proof.
  unfold window1. destruct (IKESA w !! 101) as [r|] eqn:Hr; [|done]. cbn [mbind option_bind].
  destruct (h_sa w !! r) as [sa|] eqn:Hsa; [|done]. intros Hi. by exists r, sa.
Qed.
#[local] Opaque sys1.

Lemma reachable_fresh_ids_witness :
  match (NewTEID 7%nat : H unit Z) (sys_world sys1) with
  | (Next t, w') => t = 0 ∨ AllocatedUETEIDLoad t (sys_world sys1) = None ∧
      AllocatedUETEID w' = <[t := 7%nat]> (AllocatedUETEID (sys_world sys1)) ∧ 0 ≤ t ≤ MaxUint32
  | _ => False
  end.
Proof. apply (reachable_fresh_ids unit sys1 7%nat sys1_reachable). Defined.

#[local] Transparent sys1.

(** A message with the ID 9 for an SA that expects 1. *)
Lemma sys1_runs i a l r m : i = InIkePacket a l r m → is_Some (exec i sys1).
Proof.
  intros ->. unfold exec. assert (process_running sys1 = true) as -> by (vm_compute; reflexivity).
  assert (ike_running sys1 = true) as -> by (vm_compute; reflexivity). by eexists.
Qed.
Lemma window1_unacceptable w : window1 w → ¬ acceptable [2; 35; 9; 101] w.
Proof.
  intros Hw (h & Hh & _ & H). injection Hh as <-. destruct H as [H|(r & sa & m & Hr & Hsa & Hm & H)]; [discriminate H|].
  unfold window1, IKESALoad in *. cbn [ih_ResponderSPI] in Hr. rewrite Hr in Hw.
  cbn [mbind option_bind] in Hw. rewrite Hsa in Hw. injection Hm as <-.
  destruct H as [H|H]; [discriminate H|]. unfold hasExpectedMessageID in H. cbn [im_Response] in H.
  rewrite Hw in H. discriminate H.
Qed.
Lemma unacceptable_packet_no_effect_witness :
  ∃ s', exec (InIkePacket 1 n3_addr ue_addr [2; 35; 9; 101]) sys1 = Some s' ∧
    ∃ t, s' = mkSys (sys_world sys1 <| trace := t |>) (ike_running sys1) (ngap_running sys1) (process_running sys1).
Proof.
  destruct (sys1_runs _ 1 n3_addr ue_addr [2; 35; 9; 101] eq_refl) as [s' Hs]. exists s'. split; [exact Hs|].
  exact (unacceptable_packet_no_effect sys1 s' 1 n3_addr ue_addr _ sys1_reachable (window1_unacceptable _ sys1_window) Hs).
Defined.

Lemma downlink_after_disconnect_ends_process_witness :
  ∃ s1 s2, exec (InReaderEnd 5%nat 77) (mkSys (ue_world <| h_ran := {[ 5%nat := ue_connected <| AmfUeNgapId := 1 |> ]} |>)
      true true true) = Some s1 ∧ process_running s1 = true ∧
    exec (InNgapPacket "amf" 3 [8; 9]) s1 = Some s2 ∧ process_running s2 = false.
Proof.
  eapply (downlink_after_disconnect_ends_process (mkSys (ue_world <| h_ran := {[ 5%nat := ue_connected <| AmfUeNgapId := 1 |> ]} |>)
      true true true) 5%nat 77 "amf" 3 [8; 9] (downlink_ies [8; 9]) 6%nat 1 1 [8; 9]); by vm_compute.
Defined.
