(* ===== verification/Service.v ===== *)
(** * The process and its goroutines (pkg/service/init.go, the Run and Stop methods)

    System.v runs each handler on its own. Here are the goroutines that call them: the
    receivers with their queues, the servers' loops, the goroutine that waits for the shutdown
    and the main goroutine that waits for all of them in the wait group, and start-up in the
    order of the code. A label of [step] names a goroutine by its position and says what the
    operating system answers to it, so that a list of labels is a schedule. What the sockets
    answer is the class [NetEnv]. The metrics server is a package of its own and left out. *)

From S2P Require Factory.
From S2P Require Import Prelude Monad IkeMsg Env State ToyEnv Context IkeServer IkeEvents NgapSend NgapEvents NgapAmf Nwuup Nwucp Invariant System.

(** ** Goroutines, sockets, answers *)

(** src/pkg/service/init.go:219-230 (N3iwfApp.listenShutdownEvent)

    Where the goroutine is: before ctx.Done, or before one of the calls of terminateProcedure;
    the stop of the IKE server is the closing of its sockets and then the signal. *)
Inductive stage := SWait | SNgap | SNwucp | SNwuup | SIke | SIkeSignal.

(** The goroutines that the wait group counts. *)
Inductive routine :=
| RShutdown (s : stage)
| RNgap
| RAmf (sctpAddr : string) (conn : Z)
| RAccept
| RServe (ranUe : ref) (connection : Z)
| RForward (ranUe : ref) (packet : bytes)
| RGre
| RUplink (ueInnerIP : bytes) (ifIndex : Z) (rawData : bytes)
| RGtpu
| RIke
| RReceiver (localAddr : UDPAddr).

Inductive sock := SkSctp (conn : Z) | SkNas | SkGre | SkGtpu | SkIke (port : Z).
#[global] Instance sock_eq_dec : EqDecision sock.
Proof. solve_decision. Defined.
#[global] Instance stage_eq_dec : EqDecision stage.
Proof. solve_decision. Defined.
#[global] Instance routine_eq_dec : EqDecision routine.
Proof. solve_decision. Defined.

(** src/internal/ngap/server.go:42-45 (ReceiveNGAPPacket)

    The connection with the address of its peer. *)
Record ReceiveNGAPPacket := mkNgapPkt { np_addr : string; np_Conn : Z; np_Buf : bytes }.
(** src/internal/ike/server.go:52-57 (IkeReceivePacket) *)
Record IkeReceivePacket := mkIkePkt { ip_Listener : Z; ip_LocalAddr : UDPAddr; ip_RemoteAddr : UDPAddr; ip_Msg : bytes }.

(** What a blocking operation returns: [AGo], it goes on; a choice of a [select]; what was
    read from a socket; [AEof] for io.EOF and [AFail] for another error. *)
Inductive answer :=
| AGo
| APacket
| AEvent
| ASctp (ppid_ok : bool) (msg : bytes)
| AConn (connection : Z) (ueIP : bytes)
| ANas (msg : bytes)
| AGre (ueInnerIP : bytes) (ifIndex : Z) (rawData : bytes)
| AGtpu (pdu : GtpMsg.TPDU)
| AUdp (remoteAddr : UDPAddr) (msg : bytes)
| AEof
| AFail.

Inductive label :=
| LGo (k : nat) (a : answer)
| LCancel
| LTimer (c : TimerCall)
| LDpdTick (ikeUe : ref)
| LDpdTimeout (sa : ref) (maxRetryTimes : Z)
| LMain.

(** ** The operating system *)
Class NetEnv := {
  (** the connection that the dial attempt number n gets; the calls on it; its peer *)
  dial_sctp : Factory.SCTPAddr → Factory.SCTPAddr → nat → option Z;
  get_sent_param : Z → bool;
  set_sent_param : Z → bool;
  subscribe_events : Z → bool;
  remote_addr : Z → string;
  nas_listens : string → bool;
  gre_listens : string → bool;
  gtpu_resolves : string → bool;
  ike_resolves : string → Z → option UDPAddr;
  ike_listens : UDPAddr → bool;
  (** whether a read from an SCTP connection closed by this process reports io.EOF *)
  closed_is_eof : bool;
}.

(** src/internal/ike/server.go:29-29 (DEFAULT_IKE_PORT) *)
Definition DEFAULT_IKE_PORT : Z := 500.
(** src/internal/ike/server.go:30-30 (DEFAULT_NATT_PORT) *)
Definition DEFAULT_NATT_PORT : Z := 4500.

Section Service.
Context `{E : Env} `{NE : NetEnv} `{FE : Factory.FactoryEnv}.

(** src/pkg/service/init.go:34-45 (N3iwfApp)

    The servers' state: the shared state and the loops, the goroutines with the counter of the
    wait group, the open sockets, the queues of packets. *)
Record Proc := mkProc {
  p_sys : Sys;
  p_routines : list routine;
  p_wg : Z;
  p_open : list sock;
  p_pkts : list ReceiveNGAPPacket;
  p_ike_pkts : list IkeReceivePacket;
  p_cancelled : bool;
  p_done : bool;
}.
#[global] Instance eta_Proc : Eta Proc := λ r,
  mkProc (p_sys r) (p_routines r) (p_wg r) (p_open r) (p_pkts r) (p_ike_pkts r) (p_cancelled r) (p_done r).

Definition world (p : Proc) : World := sys_world (p_sys p).

(** [wg.Add(1); go r] and [wg.Done()] at the end of the goroutine number k. *)
Definition spawn (r : routine) (p : Proc) : Proc := p <| p_routines ::= λ l, l ++ [r] |> <| p_wg ::= λ n, n + 1 |>.
Definition finish (k : nat) (p : Proc) : Proc := p <| p_routines ::= delete k |> <| p_wg ::= λ n, n - 1 |>.
Definition become (k : nat) (r : routine) (p : Proc) : Proc := p <| p_routines ::= <[k := r]> |>.

Definition opens (s : sock) (p : Proc) : Proc := p <| p_open ::= cons s |>.
Definition closes (P : sock → bool) (p : Proc) : Proc := p <| p_open ::= filter (λ s, P s = false) |>.
Definition is_open (s : sock) (p : Proc) : bool := bool_decide (s ∈ p_open p).

(** A handler of System.v. *)
Definition handles (i : input) (p : Proc) : option Proc := s ← exec i (p_sys p); Some (p <| p_sys := s |>).
(** Fatalf, and the return of the main function. *)
Definition exits (p : Proc) : Proc :=
  p <| p_sys ::= λ s, mkSys (sys_world s) (ike_running s) (ngap_running s) false |>.

Definition is_sctp (s : sock) : bool := match s with SkSctp _ => true | _ => false end.
Definition is_ike (s : sock) : bool := match s with SkIke _ => true | _ => false end.
Definition is_up (s : sock) : bool := match s with SkGre | SkGtpu => true | _ => false end.

(** A NAS connection is closed by a handler, which records it. *)
Definition tcp_closed (connection : Z) (w : World) : bool :=
  existsb (λ x, match x with IoTcpClose c => bool_decide (c = connection) | _ => false end) (trace w).

(** ** A step of each goroutine *)

(** src/pkg/service/init.go:292-303 (N3iwfApp.terminateProcedure)

    One call after the other: the Stop methods of the servers close their sockets. The last
    stage is the rendezvous with the IKE server, whose number is looked for. *)
Definition shutdown_step (k : nat) (s : stage) (p : Proc) : option Proc :=
  match s with
  | SWait => if p_cancelled p then Some (become k (RShutdown SNgap) p) else None
  | SNgap => Some (become k (RShutdown SNwucp) (closes is_sctp p))
  | SNwucp =>
      p ← handles InNwucpStop p;
      Some (become k (RShutdown SNwuup) (closes (λ s, bool_decide (s = SkNas)) p))
  | SNwuup => Some (become k (RShutdown SIke) (closes is_up p))
  | SIke => Some (become k (RShutdown SIkeSignal) (closes is_ike p))
  | SIkeSignal =>
      p' ← handles InIkeStop p;
      match list_find (λ r, r = RIke) (p_routines p) with
      | Some (j, _) => Some (if decide (j < k)%nat then finish j (finish k p') else finish k (finish j p'))
      | None => Some (finish k p')
      end
  end.

(** src/internal/ngap/server.go:78-105 (Server.runNgapEventHandler) *)
Definition ngap_step (k : nat) (a : answer) (p : Proc) : option Proc :=
  let next p := Some (if ngap_running (p_sys p) then p else finish k p) in
  match a with
  | APacket =>
      match p_pkts p with
      | mkNgapPkt sctpAddr conn msg :: q => p ← handles (InNgapPacket sctpAddr conn msg) (p <| p_pkts := q |>); next p
      | [] => None
      end
  | AEvent => p ← handles InNgapEvent p; next p
  | _ => None
  end.

(** src/internal/ngap/server.go:185-219 (Server.listenAndServe)

    One turn of the receiver of an AMF. *)
Definition amf_step (k : nat) (sctpAddr : string) (conn : Z) (a : answer) (p : Proc) : option Proc :=
  let here := is_open (SkSctp conn) p in
  match a with
  | ASctp ppid_ok msg =>
      if here then Some (if ppid_ok then p <| p_pkts ::= λ q, q ++ [mkNgapPkt sctpAddr conn msg] |> else p) else None
  | AEof =>
      if here || closed_is_eof
      then Some (finish k (closes (λ s, bool_decide (s = SkSctp conn)) (p <| p_pkts ::= λ q, q ++ [mkNgapPkt sctpAddr conn []] |>)))
      else None
  | AFail => if here || negb closed_is_eof then Some (finish k p) else None
  | _ => None
  end.

(** src/internal/nwucp/server.go:61-116 (Server.listenAndServe)

    The listener takes a connection or ends. *)
Definition accept_step (k : nat) (a : answer) (p : Proc) : option Proc :=
  match a with
  | AConn connection ueIP =>
      if is_open SkNas p
      then
        p' ← handles (InAccept connection ueIP) p;
        Some (match (accept connection ueIP (world p)).1 with
              | Next (Some r) | Return (Some r) => spawn (RServe r connection) p'
              | _ => p'
              end)
      else None
  | AFail => Some (finish k (closes (λ s, bool_decide (s = SkNas)) p))
  | _ => None
  end.

(** src/internal/nwucp/server.go:143-186 (serveConn)

    A NAS message, or a read error: the framing is in Nas.v. *)
Definition serve_step (k : nat) (ranUe : ref) (connection : Z) (a : answer) (p : Proc) : option Proc :=
  match a with
  | ANas msg => if tcp_closed connection (world p) then None else Some (spawn (RForward ranUe msg) p)
  | AFail => p ← handles (InReaderEnd ranUe connection) p; Some (finish k p)
  | _ => None
  end.

(** src/internal/nwuup/server.go:101-138 (Server.greListenAndServe) *)
Definition gre_step (k : nat) (a : answer) (p : Proc) : option Proc :=
  match a with
  | AGre ueInnerIP ifIndex rawData =>
      if is_open SkGre p then Some (spawn (RUplink ueInnerIP ifIndex rawData) p) else None
  | AFail => Some (finish k (closes (λ s, bool_decide (s = SkGre)) p))
  | _ => None
  end.

(** src/internal/nwuup/server.go:140-154 (Server.gtpuListenAndServe) *)
Definition gtpu_step (k : nat) (a : answer) (p : Proc) : option Proc :=
  match a with
  | AGtpu pdu => if is_open SkGtpu p then handles (InDownlink pdu) p else None
  | AFail => Some (finish k p)
  | _ => None
  end.

(** src/internal/ike/server.go:107-141 (Server.server) *)
Definition ike_step (k : nat) (a : answer) (p : Proc) : option Proc :=
  let next p := Some (if ike_running (p_sys p) then p else finish k p) in
  match a with
  | APacket =>
      match p_ike_pkts p with
      | mkIkePkt conn localAddr remoteAddr msg :: q =>
          p ← handles (InIkePacket conn localAddr remoteAddr msg) (p <| p_ike_pkts := q |>); next p
      | [] => None
      end
  | AEvent => p ← handles InIkeEvent p; next p
  | _ => None
  end.

(** free5gc/ike: the length of the header. *)
Definition IKE_HEADER_LEN : Z := 28.

(** src/internal/ike/server.go:194-206 (Server.receiver)

    A datagram goes into the queue unless it is shorter than a header. *)
Definition receive_ike (localAddr remoteAddr : UDPAddr) (msgBuf : bytes) (p : Proc) : Proc :=
  if decide (len msgBuf < IKE_HEADER_LEN) then p
  else p <| p_ike_pkts ::= λ q, q ++ [mkIkePkt (ua_Port localAddr) localAddr remoteAddr msgBuf] |>.

(** src/internal/ike/server.go:143-208 (Server.receiver)

    One turn of a receiver; on port 4500 an ESP packet goes back to the kernel. *)
Definition receiver_step (k : nat) (localAddr : UDPAddr) (a : answer) (p : Proc) : option Proc :=
  match a with
  | AUdp remoteAddr msg =>
      if negb (is_open (SkIke (ua_Port localAddr)) p) then None
      else if decide (ua_Port localAddr = DEFAULT_NATT_PORT) then
        match handleNattMsg msg with
        | NattKeepalive | NattTooShort => Some p
        | NattIKE m => Some (receive_ike localAddr remoteAddr m p)
        | NattESP packet =>
            p' ← handles (InEsp remoteAddr localAddr packet) p;
            Some (match (handleESPPacket remoteAddr localAddr packet (world p)).1 with Panicked _ => finish k p' | _ => p' end)
        end
      else Some (receive_ike localAddr remoteAddr msg p)
  | AFail => Some (finish k p)
  | _ => None
  end.

(** A goroutine that runs one handler and ends. *)
Definition once (k : nat) (i : input) (a : answer) (p : Proc) : option Proc :=
  match a with AGo => p ← handles i p; Some (finish k p) | _ => None end.

Definition routine_step (k : nat) (r : routine) (a : answer) (p : Proc) : option Proc :=
  match r with
  | RShutdown s => match a with AGo => shutdown_step k s p | _ => None end
  | RNgap => ngap_step k a p
  | RAmf sctpAddr conn => amf_step k sctpAddr conn a p
  | RAccept => accept_step k a p
  | RServe ranUe connection => serve_step k ranUe connection a p
  | RForward ranUe packet => once k (InForward ranUe packet) a p
  | RGre => gre_step k a p
  | RUplink ip ifIndex rawData => once k (InUplink ip ifIndex rawData) a p
  | RGtpu => gtpu_step k a p
  | RIke => ike_step k a p
  | RReceiver localAddr => receiver_step k localAddr a p
  end.

(** src/pkg/service/init.go:232-237 (N3iwfApp.WaitRoutineStopped)

    The main goroutine goes on when the counter is zero. *)
Definition WaitRoutineStopped (p : Proc) : option Proc :=
  if decide (p_wg p = 0) then p ← handles InRemoveInterfaces p; Some (p <| p_done := true |>) else None.

(** src/pkg/service/init.go:288-290 (N3iwfApp.Terminate)

    Also what a signal does. *)
Definition Terminate (p : Proc) : Proc := p <| p_cancelled := true |>.

Definition alive (p : Proc) : bool := process_running (p_sys p) && negb (p_done p).

(** The state after a label; [None]: it cannot happen. *)
Definition step (l : label) (p : Proc) : option Proc :=
  if negb (alive p) then None
  else
    match l with
    | LGo k a => r ← p_routines p !! k; routine_step k r a p
    | LCancel => Some (Terminate p)
    | LTimer c => handles (InTimer c) p
    | LDpdTick ikeUe => handles (InDpdTick ikeUe) p
    | LDpdTimeout sa n => handles (InDpdTimeout sa n) p
    | LMain => WaitRoutineStopped p
    end.

(** ** Start-up

    A part of the start-up ends with an error or goes on. The packets that arrive meanwhile
    are read after it. *)
Definition startup : Type := Proc → option string * Proc.
Definition also (a b : startup) : startup := λ p, match a p with (None, p) => b p | r => r end.
(** A getter of the configuration: its panic ends the process. *)
Definition with_cfg {A} (r : res A) (f : A → startup) : startup := λ p,
  match r with Ok a => f a p | Err e => (Some e, p) | Panic e => (Some e, exits p) end.
Definition fail_unless (b : bool) (why : string) : startup := λ p, (if b then None else Some why, p).

(** src/internal/ngap/server.go:122-142 (Server.listenAndServe)

    Three attempts, the first of which has the number [i]. *)
Fixpoint dial_loop (n : nat) (i : nat) (localAddr remoteAddr : Factory.SCTPAddr) : option Z :=
  match n with
  | O => None
  | S n =>
      match dial_sctp localAddr remoteAddr i with
      | Some conn => Some conn
      | None => dial_loop n (S i) localAddr remoteAddr
      end
  end.

(** src/internal/ngap/server.go:122-180 (Server.listenAndServe)

    The connection with its parameters set, or what goes into the error channel. *)
Definition connect_amf (localAddr remoteAddr : Factory.SCTPAddr) : string + Z :=
  match dial_loop 3 0 localAddr remoteAddr with
  | None => inl "failed to connect to AMF"
  | Some conn =>
      if negb (get_sent_param conn) then inl "get socket information failed"
      else if negb (set_sent_param conn) then inl "set socket parameter failed"
      else if negb (subscribe_events conn) then inl "subscribe SCTP event failed"
      else inr conn
  end%string.

(** src/internal/ngap/server.go:61-71 (Server.Run)

    An AMF that does not answer ends the start. *)
Fixpoint start_amfs (localAddr : Factory.SCTPAddr) (l : list Factory.SCTPAddr) : startup :=
  match l with
  | [] => λ p, (None, p)
  | remoteAddr :: l => λ p,
      match connect_amf localAddr remoteAddr with
      | inl e => (Some e, p)
      | inr conn =>
          start_amfs localAddr l
            (spawn (RAmf (remote_addr conn) conn) (opens (SkSctp conn) (default p (handles (InConnected (remote_addr conn) conn) p))))
      end
  end.

(** src/internal/ngap/server.go:57-76 (Server.Run) *)
Definition ngap_Run (c : Factory.Config) : startup :=
  with_cfg (Factory.GetLocalSctpAddr c) (λ localAddr,
    with_cfg (Factory.GetAmfSctpAddrs c) (λ amfs,
      also (start_amfs localAddr amfs) (λ p, (None, spawn RNgap p)))).

(** src/internal/nwucp/server.go:42-55 (Server.Run) *)
Definition nwucp_Run (c : Factory.Config) : startup :=
  with_cfg (Factory.GetNasTcpAddr c) (λ addr,
    also (fail_unless (nas_listens addr) "listen tcp") (λ p, (None, spawn RAccept (opens SkNas p)))).

(** src/internal/nwuup/server.go:67-82 (Server.newGreConn) *)
Definition newGreConn (c : Factory.Config) : startup :=
  with_cfg (Factory.GetIPSecGatewayAddr c) (λ addr,
    also (fail_unless (gre_listens addr) "Error setting GRE listen socket") (λ p, (None, opens SkGre p))).

(** src/internal/nwuup/server.go:84-97 (Server.newGtpuConn)

    The port of GTP-U is appended to the address. *)
Definition newGtpuConn (c : Factory.Config) : startup :=
  with_cfg (Factory.GetN3iwfGtpBindAddress c) (λ addr,
    also (fail_unless (gtpu_resolves (addr +:+ ":2152")) "Resolve GTP-U address Failed") (λ p, (None, opens SkGtpu p))).

(** src/internal/nwuup/server.go:47-65 (Server.Run) *)
Definition nwuup_Run (c : Factory.Config) : startup :=
  also (newGreConn c) (also (newGtpuConn c) (λ p, (None, spawn RGtpu (spawn RGre p)))).

(** src/internal/ike/server.go:88-99 (Server.Run)

    A receiver with its socket. *)
Definition start_receiver (localAddr : UDPAddr) : startup :=
  also (fail_unless (ike_listens localAddr) "listenAndServe failed")
    (λ p, (None, spawn (RReceiver localAddr) (opens (SkIke (ua_Port localAddr)) p))).

(** src/internal/ike/server.go:70-105 (Server.Run) *)
Definition ike_Run (c : Factory.Config) : startup :=
  with_cfg (Factory.GetIKEBindAddr c) (λ ip,
    match ike_resolves ip DEFAULT_IKE_PORT, ike_resolves ip DEFAULT_NATT_PORT with
    | Some ikeAddrPort, Some nattAddrPort =>
        also (start_receiver ikeAddrPort) (also (start_receiver nattAddrPort) (λ p, (None, spawn RIke p)))
    | _, _ => λ p, (Some "resolve UDP address", p)
    end).

(** src/pkg/service/init.go:166-211 (N3iwfApp.Run)

    The error, or nothing when the main goroutine waits for the others. *)
Definition Run (c : Factory.Config) (w : World) : option string * Proc :=
  match start w with
  | None => (Some "Setup XFRM interface", mkProc (mkSys (initDefaultXfrmInterface w).2 false false true) [] 0 [] [] [] false false)
  | Some s =>
      also (ngap_Run c) (also (nwucp_Run c) (also (nwuup_Run c) (ike_Run c)))
        (spawn (RShutdown SWait) (mkProc s [] 0 [] [] [] false false))
  end%string.

(** src/pkg/service/init.go:213-217 (N3iwfApp.Start)

    After an error the main function returns, which ends the process. *)
Definition Start (c : Factory.Config) (w : World) : Proc :=
  match Run c w with (None, p) => p | (Some _, p) => exits p end.

(** A run of the process: it has been started and takes steps. *)
Inductive reaches (p : Proc) : Proc → Prop :=
| reaches_refl : reaches p p
| reaches_step l p1 p2 : reaches p p1 → step l p1 = Some p2 → reaches p p2.
Definition runs (p : Proc) : Prop :=
  ∃ c ranIds teids pool parent p0, Run c (initial_world ranIds teids pool parent) = (None, p0) ∧ reaches p0 p.
End Service.

(** ** Counting goroutines *)
Definition cnt (f : routine → nat) (l : list routine) : nat := sum_list_with f l.
#[global] Instance cnt_proper f : Proper ((≡ₚ) ==> (=)) (cnt f).
Proof. intros l l' H. unfold cnt. induction H; cbn; lia. Qed.
Lemma cnt_cons f r l : cnt f (r :: l) = (f r + cnt f l)%nat.
Proof. done. Qed.
Lemma cnt_app f l l' : cnt f (l ++ l') = (cnt f l + cnt f l')%nat.
Proof. unfold cnt. induction l as [|r l IH]; cbn; [done|]. lia. Qed.
Lemma cnt_elem f l r : r ∈ l → (f r ≤ cnt f l)%nat.
Proof. unfold cnt. induction 1; cbn; lia. Qed.
Lemma cnt_pos f l : (0 < cnt f l)%nat → ∃ r, r ∈ l ∧ (0 < f r)%nat.
Proof.
  unfold cnt. induction l as [|r l IH]; cbn; [lia|]. intros H. destruct (decide (0 < f r)%nat).
  - exists r. split; [apply list_elem_of_here|done].
  - destruct IH as (r' & ? & ?); [lia|]. exists r'. split; [by apply list_elem_of_further|done].
Qed.

Definition b2n (b : bool) : nat := if b then 1 else 0.
Definition one_of (r r' : routine) : nat := b2n (bool_decide (r = r')).
Definition shut (r : routine) : nat := match r with RShutdown _ => 1 | _ => 0 end.

Lemma one_of_ne r r' : r ≠ r' → one_of r r' = 0%nat.
Proof. intros. unfold one_of. by rewrite bool_decide_eq_false_2. Qed.

Lemma insert_perm {A} (l : list A) k x y : l !! k = Some x → <[k := y]> l ≡ₚ y :: delete k l.
Proof.
  revert k. induction l as [|z l IH]; intros [|k]; cbn; [done|done|by intros [= ->]|]. intros Hk.
  rewrite (IH _ Hk). apply Permutation_swap.
Qed.
Lemma delete2_perm {A} (l : list A) j k x y : l !! j = Some x → l !! k = Some y → j ≠ k →
  l ≡ₚ x :: y :: (if decide (j < k)%nat then delete j (delete k l) else delete k (delete j l)).
Proof.
  intros Hj Hk Hn. case_decide.
  - rewrite (delete_Permutation l k y Hk) at 1. rewrite (delete_Permutation (delete k l) j x) at 1; [apply Permutation_swap|].
    by rewrite list_lookup_delete_lt.
  - rewrite (delete_Permutation l j x Hj) at 1. rewrite (delete_Permutation (delete j l) k y) at 1; [done|].
    rewrite list_lookup_delete_lt by lia. done.
Qed.

(** ** The invariant of the process

    The wait group counts the goroutines; a loop runs when its goroutine does; a socket is open
    only until the shutdown goroutine has reached the call that closes it; the IKE loop runs
    until that goroutine has sent its signal. *)
Definition rank (s : stage) : nat :=
  match s with SWait => 0 | SNgap => 1 | SNwucp => 2 | SNwuup => 3 | SIke => 4 | SIkeSignal => 5 end.
Definition closed_at (s : sock) : nat :=
  match s with SkSctp _ => 1 | SkNas => 2 | SkGre | SkGtpu => 3 | SkIke _ => 4 end.

Section Invariant.
Context `{L : EnvLaws} `{NE : NetEnv} `{FE : Factory.FactoryEnv}.

Record Good (p : Proc) : Prop := {
  g_reach : reachable (p_sys p);
  g_wg : p_wg p = Z.of_nat (length (p_routines p));
  g_ike : cnt (one_of RIke) (p_routines p) = b2n (ike_running (p_sys p));
  g_ngap : cnt (one_of RNgap) (p_routines p) = b2n (ngap_running (p_sys p));
  g_open sk : sk ∈ p_open p → ∃ s, RShutdown s ∈ p_routines p ∧ (rank s ≤ closed_at sk)%nat;
  g_stage : ike_running (p_sys p) = true → ∃ s, RShutdown s ∈ p_routines p;
  g_one : (cnt shut (p_routines p) ≤ 1)%nat;
}.

(** The goroutines [old] become [new]. *)
Lemma Good_update p p' old new rest :
  Good p → p_routines p ≡ₚ old ++ rest → p_routines p' ≡ₚ new ++ rest →
  p_wg p' + Z.of_nat (length old) = p_wg p + Z.of_nat (length new) →
  reachable (p_sys p') → p_open p' ⊆ p_open p →
  (b2n (ike_running (p_sys p')) + cnt (one_of RIke) old = b2n (ike_running (p_sys p)) + cnt (one_of RIke) new)%nat →
  (b2n (ngap_running (p_sys p')) + cnt (one_of RNgap) old = b2n (ngap_running (p_sys p)) + cnt (one_of RNgap) new)%nat →
  (∀ s sk, RShutdown s ∈ old → sk ∈ p_open p' → (rank s ≤ closed_at sk)%nat →
    ∃ s', RShutdown s' ∈ new ∧ (rank s' ≤ closed_at sk)%nat) →
  (ike_running (p_sys p') = true → ike_running (p_sys p) = true ∧
    ∀ s, RShutdown s ∈ old → ∃ s', RShutdown s' ∈ new) →
  (cnt shut new ≤ cnt shut old)%nat →
  Good p'.
Proof.
  intros [Hr Hw Hi Hn Ho Hs H1] E1 E2 Hwg Hr' Hop Hi' Hn' Hst Hrun Hone.
  rewrite E1, cnt_app in Hi, Hn, H1.
  split; [done|..].
  - rewrite E2, length_app. rewrite E1, length_app in Hw. lia.
  - rewrite E2, cnt_app. lia.
  - rewrite E2, cnt_app. lia.
  - intros sk Hsk. destruct (Ho sk (Hop _ Hsk)) as (s & Hin & Hle). rewrite E1 in Hin.
    apply elem_of_app in Hin as [Hin|Hin].
    + destruct (Hst s sk Hin Hsk Hle) as (s' & Hin' & Hle'). exists s'. rewrite E2. split; [|done]. apply elem_of_app. by left.
    + exists s. rewrite E2. split; [|done]. apply elem_of_app. by right.
  - intros Hr1. destruct (Hrun Hr1) as [Hr0 Hold]. destruct (Hs Hr0) as [s Hin]. rewrite E1 in Hin.
    apply elem_of_app in Hin as [Hin|Hin].
    + destruct (Hold s Hin) as [s' Hin']. exists s'. rewrite E2. apply elem_of_app. by left.
    + exists s. rewrite E2. apply elem_of_app. by right.
  - rewrite E2, cnt_app. lia.
Qed.
(** Which inputs change which loops. *)
Lemma exec_running i s s' : exec i s = Some s' →
  process_running s = true ∧
  match i with
  | InIkePacket _ _ _ _ | InIkeEvent => ike_running s = true
  | InIkeStop => ike_running s' = false
  | _ => ike_running s' = ike_running s
  end ∧
  match i with InNgapPacket _ _ _ | InNgapEvent => ngap_running s = true | _ => ngap_running s' = ngap_running s end.
Proof.
  unfold exec. destruct (process_running s); [|done]. change (negb true) with false. cbv iota. intros Hx. split; [done|].
  destruct i; repeat (case_match; try discriminate Hx); injection Hx as <-; done.
Qed.

Lemma handles_Some i p p' : handles i p = Some p' → ∃ s, exec i (p_sys p) = Some s ∧ p' = p <| p_sys := s |>.
Proof. unfold handles. destruct (exec i (p_sys p)) as [s|]; [|done]. intros [= <-]. by exists s. Qed.

Lemma Good_same p p' :
  Good p → p_routines p' = p_routines p → p_wg p' = p_wg p → reachable (p_sys p') → p_open p' ⊆ p_open p →
  ike_running (p_sys p') = ike_running (p_sys p) → ngap_running (p_sys p') = ngap_running (p_sys p) → Good p'.
Proof.
  intros HG Er Ew Hr Ho Ei En. apply (Good_update p p' [] [] (p_routines p)); try done; try (cbn; congruence || lia).
  - by rewrite Er.
  - by intros ? ? ?%not_elem_of_nil.
  - rewrite Ei. intros ?. split; [done|]. by intros ? ?%not_elem_of_nil.
Qed.

Lemma Good_spawn p p' r :
  Good p → (∀ s, r ≠ RShutdown s) → r ≠ RIke → r ≠ RNgap → p_routines p' = p_routines p ++ [r] → p_wg p' = p_wg p + 1 →
  reachable (p_sys p') → p_open p' ⊆ p_open p →
  ike_running (p_sys p') = ike_running (p_sys p) → ngap_running (p_sys p') = ngap_running (p_sys p) → Good p'.
Proof.
  intros HG Hs H1 H2 Er Ew Hr Ho Ei En. apply (Good_update p p' [] [r] (p_routines p)); try done.
  - by rewrite Er, Permutation_app_comm.
  - cbn. lia.
  - cbn. rewrite Ei. unfold one_of. rewrite bool_decide_eq_false_2 by congruence. cbn. lia.
  - cbn. rewrite En. unfold one_of. rewrite bool_decide_eq_false_2 by congruence. cbn. lia.
  - by intros ? ? ?%not_elem_of_nil.
  - rewrite Ei. intros ?. split; [done|]. by intros ? ?%not_elem_of_nil.
  - destruct r; try done. by destruct (Hs s).
Qed.

Lemma Good_finish p p' k r :
  Good p → p_routines p !! k = Some r → (∀ s, r ≠ RShutdown s) →
  p_routines p' = delete k (p_routines p) → p_wg p' = p_wg p - 1 → reachable (p_sys p') → p_open p' ⊆ p_open p →
  (b2n (ike_running (p_sys p')) + one_of RIke r = b2n (ike_running (p_sys p)))%nat →
  (b2n (ngap_running (p_sys p')) + one_of RNgap r = b2n (ngap_running (p_sys p)))%nat → Good p'.
Proof.
  intros HG Hk Hs Er Ew Hr Ho Ei En. apply (Good_update p p' [r] [] (delete k (p_routines p))); try done.
  - by apply delete_Permutation.
  - by rewrite Er.
  - cbn. lia.
  - cbn. lia.
  - cbn. lia.
  - intros s ? Hin%list_elem_of_singleton. by destruct (Hs s (eq_sym Hin)).
  - intros Hi. rewrite Hi in Ei. split; [destruct (ike_running (p_sys p)); [done|]; cbn in Ei; lia|].
    intros s Hin%list_elem_of_singleton. by destruct (Hs s (eq_sym Hin)).
  - cbn. lia.
Qed.


Lemma closes_subset P p : p_open (closes P p) ⊆ p_open p.
Proof. intros sk [_ H]%list_elem_of_filter. exact H. Qed.
#[local] Hint Resolve closes_subset : core.

(** A handler that belongs to no server's loop. *)
Definition loopless (i : input) : bool :=
  match i with InIkePacket _ _ _ _ | InIkeEvent | InIkeStop | InNgapPacket _ _ _ | InNgapEvent => false | _ => true end.

Lemma handles_spec i p p' : Good p → handles i p = Some p' →
  ∃ s, p' = p <| p_sys := s |> ∧ exec i (p_sys p) = Some s ∧ reachable s ∧
    (loopless i = true → ike_running s = ike_running (p_sys p) ∧ ngap_running s = ngap_running (p_sys p)).
Proof.
  intros HG (s & He & ->)%handles_Some. exists s. split; [done|]. split; [done|].
  split; [by eapply reach_exec; [apply (g_reach p HG)|]|].
  intros Hl. destruct (exec_running _ _ _ He) as (_ & Hi & Hn). by destruct i.
Qed.

Lemma Good_once k r i a p p' : Good p → p_routines p !! k = Some r → (∀ s, r ≠ RShutdown s) → r ≠ RIke → r ≠ RNgap →
  loopless i = true → once k i a p = Some p' → Good p'.
Proof.
  intros HG Hk Hs H1 H2 Hl Ho. destruct a; try discriminate Ho. cbn [once] in Ho.
  apply bind_Some in Ho as (q & (s & -> & _ & Hr & Hf)%handles_spec & [= <-]); [|done]. destruct (Hf Hl) as [Ei En].
  apply (Good_finish p _ k r); try done; cbn -[b2n one_of]; try reflexivity; [by rewrite Ei, one_of_ne by done|by rewrite En, one_of_ne by done].
Qed.

Lemma Good_shutdown k s p p' : Good p → p_routines p !! k = Some (RShutdown s) → shutdown_step k s p = Some p' → Good p'.
Proof.
  intros HG Hk Hs.
  assert (∀ s' q, p_routines q = <[k := RShutdown s']> (p_routines p) → p_wg q = p_wg p → reachable (p_sys q) →
    p_open q ⊆ p_open p → ike_running (p_sys q) = ike_running (p_sys p) → ngap_running (p_sys q) = ngap_running (p_sys p) →
    (∀ sk, sk ∈ p_open q → (rank s ≤ closed_at sk)%nat → (rank s' ≤ closed_at sk)%nat) → Good q) as Hb.
  { intros s' q E1 E2 H3 H4 E5 E6 H7. apply (Good_update p q [RShutdown s] [RShutdown s'] (delete k (p_routines p))); try done.
    - by apply delete_Permutation.
    - rewrite E1. by eapply insert_perm.
    - cbn. lia.
    - cbn. by rewrite E5.
    - cbn. by rewrite E6.
    - intros s0 sk [= ->]%list_elem_of_singleton Hsk Hle. exists s'. split; [apply list_elem_of_here|]. by apply H7.
    - rewrite E5. intros ?. split; [done|]. intros ? _. exists s'. apply list_elem_of_here. }
  assert (∀ P sk q, sk ∈ p_open (closes P q) → P sk = false) as Hc by (intros P sk q [H _]%list_elem_of_filter; exact H).
  destruct s; cbn [shutdown_step] in Hs.
  - destruct (p_cancelled p); [|done]. injection Hs as <-. apply (Hb SNgap); try done; try exact (g_reach p HG); try exact (closes_subset _ _).
    intros [] _; cbn; lia.
  - injection Hs as <-. apply (Hb SNwucp); try done; try exact (g_reach p HG); try exact (closes_subset _ _). intros sk Hsk%Hc. destruct sk; [done|cbn; lia..].
  - apply bind_Some in Hs as (q & (s & -> & _ & Hr & Hf)%handles_spec & [= <-]); [|done]. destruct (Hf eq_refl) as [Ei En].
    apply (Hb SNwuup); try done; try exact (closes_subset _ _). intros sk Hsk%Hc%bool_decide_eq_false. destruct sk; cbn; [lia|done|lia..].
  - injection Hs as <-. apply (Hb SIke); try done; try exact (g_reach p HG); try exact (closes_subset _ _). intros sk Hsk%Hc. destruct sk; try done; cbn; lia.
  - injection Hs as <-. apply (Hb SIkeSignal); try done; try exact (g_reach p HG); try exact (closes_subset _ _). intros sk Hsk Hle.
    pose proof (Hc _ _ _ Hsk). destruct sk; cbn in *; lia || done.
  - apply bind_Some in Hs as (q & (s & -> & He & Hr & _)%handles_spec & Hs); [|done].
    destruct (exec_running _ _ _ He) as (_ & Ei & En).
    assert (∀ old q, p_routines p ≡ₚ RShutdown SIkeSignal :: old ++ p_routines q → Forall (eq RIke) old →
      cnt (one_of RIke) (p_routines q) = 0%nat → p_wg q = p_wg p - 1 - Z.of_nat (length old) →
      p_sys q = s → p_open q = p_open p → Good q) as Hq.
    { intros old q E1 Ho E2 E3 E4 E5. apply (Good_update p q (RShutdown SIkeSignal :: old) [] (p_routines q)); rewrite ?E4, ?E5; try done.
      - rewrite E3. simpl length. lia.
      - pose proof (g_ike p HG) as Hi. rewrite E1, cnt_cons, cnt_app, E2 in Hi. rewrite Ei, cnt_cons. unfold cnt at 2. cbn [b2n sum_list_with]. lia.
      - rewrite En, cnt_cons, !one_of_ne by done.
        enough (cnt (one_of RNgap) old = 0%nat) as -> by (cbn; lia). clear -Ho. induction Ho as [|? ? <- _ IH]; [done|]. apply IH.
      - intros s0 sk Hin Hsk Hle. apply elem_of_cons in Hin as [[= ->]|Hin]; [destruct sk; cbn in Hle; lia|].
        rewrite Forall_forall in Ho. by specialize (Ho _ Hin).
      - by rewrite Ei.
      - cbn. lia. }
    destruct (list_find _ _) as [[j r]|] eqn:Hf; injection Hs as <-.
    + apply list_find_Some in Hf as (Hj & -> & _).
      assert (j ≠ k) as Hjk by (intros ->; rewrite Hk in Hj; discriminate Hj).
      assert (p_routines p ≡ₚ RShutdown SIkeSignal :: [RIke] ++
        (if decide (j < k)%nat then delete j (delete k (p_routines p)) else delete k (delete j (p_routines p)))) as E1.
      { rewrite (delete2_perm _ j k RIke (RShutdown SIkeSignal) Hj Hk Hjk) at 1. apply Permutation_swap. }
      pose proof (g_ike p HG) as Hi. rewrite E1, cnt_cons, cnt_app, one_of_ne in Hi by done.
      assert (cnt (one_of RIke) [RIke] = 1%nat) as Hone by (unfold cnt, one_of; cbn; by rewrite bool_decide_eq_true_2).
      rewrite Hone in Hi. assert (Hz : ∀ n b, b2n b = (0 + (1 + n))%nat → n = 0%nat) by (intros n [] ?; cbn in *; lia).
      destruct (decide (j < k)%nat); (apply (Hq [RIke]); [exact E1|by repeat constructor|by eapply Hz|cbn; lia|done|done]).
    + apply list_find_None in Hf. apply (Hq []); try done; [by apply delete_Permutation| |cbn; lia].
      assert (cnt (one_of RIke) (p_routines p) = 0%nat) as Hz.
      { clear -Hf. induction Hf as [|r l Hr _ IH]; [done|]. rewrite cnt_cons, IH, one_of_ne; [done|congruence]. }
      rewrite (delete_Permutation _ _ _ Hk), cnt_cons in Hz. exact (proj2 (proj1 (Nat.eq_add_0 _ _) Hz)).
Qed.

(** A turn of a loop, after which the goroutine goes on or ends. *)
Lemma Good_ngap k a p p' : Good p → p_routines p !! k = Some RNgap → ngap_step k a p = Some p' → Good p'.
Proof.
  intros HG Hk Hs. pose proof (cnt_elem (one_of RNgap) _ _ (list_elem_of_lookup_2 _ _ _ Hk)) as Hc.
  rewrite (g_ngap p HG) in Hc. change (one_of RNgap RNgap) with 1%nat in Hc.
  assert (ngap_running (p_sys p) = true) as Hrun by (destruct (ngap_running _); [done|cbn in Hc; lia]).
  assert (∀ p1 q i, p_sys p1 = p_sys p → p_routines p1 = p_routines p → p_wg p1 = p_wg p → p_open p1 = p_open p →
    handles i p1 = Some q → match i with InNgapPacket _ _ _ | InNgapEvent => True | _ => False end →
    Good (if ngap_running (p_sys q) then q else finish k q)) as Hq.
  { intros p1 q i E1 E2 E3 E4 (s & He & ->)%handles_Some Hi. rewrite E1 in He.
    destruct (exec_running _ _ _ He) as (_ & Ei & _).
    assert (ike_running s = ike_running (p_sys p)) as Ei' by by destruct i.
    assert (reachable s) by (eapply reach_exec; [apply (g_reach p HG)|done]).
    destruct (ngap_running s) eqn:En; cbn; rewrite En.
    - apply (Good_same p); cbn; rewrite ?E2, ?E3, ?E4, ?En; done.
    - apply (Good_finish p _ k RNgap); cbn -[b2n one_of]; rewrite ?E2, ?E3, ?E4, ?En, ?Ei', ?Hrun; try done. }
  destruct a; try discriminate Hs; cbn [ngap_step] in Hs.
  - destruct (p_pkts p) as [|[sctpAddr conn msg] l]; [done|]. apply bind_Some in Hs as (q & Hh & [= <-]).
    by eapply Hq; [..|exact Hh|exact I].
  - apply bind_Some in Hs as (q & Hh & [= <-]). by eapply Hq; [..|exact Hh|exact I].
Qed.

Lemma Good_ike k a p p' : Good p → p_routines p !! k = Some RIke → ike_step k a p = Some p' → Good p'.
Proof.
  intros HG Hk Hs. pose proof (cnt_elem (one_of RIke) _ _ (list_elem_of_lookup_2 _ _ _ Hk)) as Hc.
  rewrite (g_ike p HG) in Hc. change (one_of RIke RIke) with 1%nat in Hc.
  assert (ike_running (p_sys p) = true) as Hrun by (destruct (ike_running _); [done|cbn in Hc; lia]).
  assert (∀ p1 q i, p_sys p1 = p_sys p → p_routines p1 = p_routines p → p_wg p1 = p_wg p → p_open p1 = p_open p →
    handles i p1 = Some q → match i with InIkePacket _ _ _ _ | InIkeEvent => True | _ => False end →
    Good (if ike_running (p_sys q) then q else finish k q)) as Hq.
  { intros p1 q i E1 E2 E3 E4 (s & He & ->)%handles_Some Hi. rewrite E1 in He.
    destruct (exec_running _ _ _ He) as (_ & _ & Ei).
    assert (ngap_running s = ngap_running (p_sys p)) as Ei' by by destruct i.
    assert (reachable s) by (eapply reach_exec; [apply (g_reach p HG)|done]).
    destruct (ike_running s) eqn:En; cbn; rewrite En.
    - apply (Good_same p); cbn; rewrite ?E2, ?E3, ?E4, ?En; done.
    - apply (Good_finish p _ k RIke); cbn -[b2n one_of]; rewrite ?E2, ?E3, ?E4, ?En, ?Ei', ?Hrun; try done. }
  destruct a; try discriminate Hs; cbn [ike_step] in Hs.
  - destruct (p_ike_pkts p) as [|[conn la ra msg] l]; [done|]. apply bind_Some in Hs as (q & Hh & [= <-]).
    by eapply Hq; [..|exact Hh|exact I].
  - apply bind_Some in Hs as (q & Hh & [= <-]). by eapply Hq; [..|exact Hh|exact I].
Qed.

(** Handlers that leave the goroutines, and goroutines that end without a handler. *)
Lemma Good_handles i p p' : Good p → loopless i = true → handles i p = Some p' → Good p'.
Proof.
  intros HG Hl (s & -> & _ & Hr & Hf)%handles_spec; [|done]. destruct (Hf Hl). by apply (Good_same p).
Qed.
Lemma Good_ends k r p p' : Good p → p_routines p !! k = Some r → (∀ s, r ≠ RShutdown s) → r ≠ RIke → r ≠ RNgap →
  p_routines p' = delete k (p_routines p) → p_wg p' = p_wg p - 1 → p_sys p' = p_sys p → p_open p' ⊆ p_open p → Good p'.
Proof.
  intros HG Hk Hs H1 H2 E1 E2 E3 E4. apply (Good_finish p _ k r); rewrite ?E3, ?one_of_ne by done; try done; [apply (g_reach p HG)|lia..].
Qed.

Lemma Good_routine k r a p p' : Good p → p_routines p !! k = Some r → routine_step k r a p = Some p' → Good p'.
Proof.
  intros HG Hk Hs. destruct r as [s| |sa c| |u c|u b| |ip x b| | |la]; cbn [routine_step] in Hs.
  - destruct a; try discriminate Hs. by eapply Good_shutdown.
  - by eapply Good_ngap.
  - destruct a; try discriminate Hs; cbn [amf_step] in Hs; repeat (case_match; try discriminate Hs); injection Hs as <-.
    1-2: by apply (Good_same p); [..|apply (g_reach p HG)| | |].
    all: eapply Good_ends; try done; exact (closes_subset _ p).
  - destruct a; try discriminate Hs; cbn [accept_step] in Hs.
    + destruct (is_open SkNas p); [|done]. apply bind_Some in Hs as (q & Hh & [= <-]).
      assert (Good q) as Hq by (eapply Good_handles; [exact HG| |exact Hh]; done).
      assert (∀ u, Good (spawn (RServe u connection) q)) as Hsp.
      { intros u. apply (Good_spawn q _ (RServe u connection)); try done. apply (g_reach q Hq). }
      repeat case_match; by subst.
    + injection Hs as <-. eapply Good_ends; try done. apply closes_subset.
  - destruct a; try discriminate Hs; cbn [serve_step] in Hs.
    + destruct (tcp_closed _ _); [done|]. injection Hs as <-. apply (Good_spawn p _ (RForward u msg)); try done. apply (g_reach p HG).
    + apply bind_Some in Hs as (q & (s & -> & _ & Hr & Hf)%handles_spec & [= <-]); [|done]. destruct (Hf eq_refl) as [Ei En].
      eapply Good_finish; try done; cbn -[b2n one_of]; rewrite ?Ei, ?En, one_of_ne by done; lia.
  - eapply Good_once; [exact HG|exact Hk|..|exact Hs]; done.
  - destruct a; try discriminate Hs; cbn [gre_step] in Hs.
    + destruct (is_open _ _); [|done]. injection Hs as <-. apply (Good_spawn p _ (RUplink ueInnerIP ifIndex rawData)); try done. apply (g_reach p HG).
    + injection Hs as <-. eapply Good_ends; try done. apply closes_subset.
  - eapply Good_once; [exact HG|exact Hk|..|exact Hs]; done.
  - destruct a; try discriminate Hs; cbn [gtpu_step] in Hs.
    + destruct (is_open _ _); [|done]. eapply Good_handles; [exact HG| |exact Hs]; done.
    + injection Hs as <-. by eapply Good_ends.
  - by eapply Good_ike.
  - assert (∀ ra m, Good (receive_ike la ra m p)) as Hrcv.
    { intros ra m. unfold receive_ike. case_decide; [done|]. apply (Good_same p); try done. apply (g_reach p HG). }
    destruct a; try discriminate Hs; cbn [receiver_step] in Hs.
    + destruct (is_open _ _); [|done]. cbn [negb] in Hs. case_decide; [|injection Hs as <-; apply Hrcv].
      destruct (handleNattMsg msg); [by injection Hs as <-..| |injection Hs as <-; apply Hrcv].
      apply bind_Some in Hs as (q & (s & -> & _ & Hr & Hf)%handles_spec & [= <-]); [|done]. destruct (Hf eq_refl) as [Ei En].
      case_match; [by apply (Good_same p)..|].
      eapply Good_finish; try done; cbn -[b2n one_of]; rewrite ?Ei, ?En, one_of_ne by done; lia.
    + injection Hs as <-. by eapply Good_ends.
Qed.

Lemma Good_step l p p' : Good p → step l p = Some p' → Good p'.
Proof.
  intros HG Hs. unfold step in Hs. destruct (alive p); [|done]. cbn [negb] in Hs. destruct l.
  - apply bind_Some in Hs as (r & Hk & Hs). by eapply Good_routine.
  - injection Hs as <-. apply (Good_same p); try done. apply (g_reach p HG).
  - eapply Good_handles; [exact HG| |exact Hs]; done.
  - eapply Good_handles; [exact HG| |exact Hs]; done.
  - eapply Good_handles; [exact HG| |exact Hs]; done.
  - unfold WaitRoutineStopped in Hs. case_decide; [|done]. apply bind_Some in Hs as (q & Hh & [= <-]).
    assert (Good q) as Hq by (eapply Good_handles; [exact HG| |exact Hh]; done). apply (Good_same q); try done. apply (g_reach q Hq).
Qed.

(** *** Start-up

    [starting i n p]: the state between the calls of Run, with [i] IKE loops and [n] NGAP loops
    started. *)
Record starting (i n : nat) (p : Proc) : Prop := {
  st_reach : reachable (p_sys p);
  st_wg : p_wg p = Z.of_nat (length (p_routines p));
  st_ike : cnt (one_of RIke) (p_routines p) = i ∧ ike_running (p_sys p) = true;
  st_ngap : cnt (one_of RNgap) (p_routines p) = n ∧ ngap_running (p_sys p) = true;
  st_shutdown : RShutdown SWait ∈ p_routines p;
  st_one : (cnt shut (p_routines p) ≤ 1)%nat;
  st_cancelled : p_cancelled p = false ∧ p_done p = false;
}.
Definition part (P Q : Proc → Prop) (a : startup) : Prop := ∀ p p', P p → a p = (None, p') → Q p'.

Lemma part_also P Q R a b : part P Q a → part Q R b → part P R (also a b).
Proof. intros Ha Hb p p' Hp. unfold also. destruct (a p) as [[e|] q] eqn:Eq; [done|]. eauto. Qed.
Lemma part_with_cfg {A} P Q (r : res A) f : (∀ a, part P Q (f a)) → part P Q (with_cfg r f).
Proof. intros H p p' Hp. unfold with_cfg. destruct r; [by apply H|done..]. Qed.
Lemma part_fail_unless P b why : part P P (fail_unless b why).
Proof. intros p p' Hp. unfold fail_unless. destruct b; [|done]. by intros [= <-]. Qed.
Lemma part_update P Q (f : Proc → Proc) : (∀ p, P p → Q (f p)) → part P Q (λ p, (None, f p)).
Proof. intros H p p' Hp [= <-]. auto. Qed.

Lemma starting_opens i n sk p : starting i n p → starting i n (opens sk p).
Proof. by intros []. Qed.
Lemma starting_spawn i n r p : (∀ s, r ≠ RShutdown s) → starting i n p → starting (i + one_of RIke r) (n + one_of RNgap r) (spawn r p).
Proof.
  intros Hns [Hr Hw [Hi Hi'] [Hn Hn'] Hs H1 Hc]. split; cbn -[one_of]; try done.
  - rewrite length_app, Hw. cbn. lia.
  - rewrite cnt_app, Hi. split; [|done]. unfold cnt. cbn -[one_of]. lia.
  - rewrite cnt_app, Hn. split; [|done]. unfold cnt. cbn -[one_of]. lia.
  - apply elem_of_app. by left.
  - rewrite cnt_app. destruct r; cbn; try lia. by destruct (Hns s).
Qed.
Lemma starting_connected i n a c p : starting i n p → starting i n (default p (handles (InConnected a c) p)).
Proof.
  intros HS. destruct (handles _ p) as [q|] eqn:Hh; [|done]. apply handles_Some in Hh as (s & He & ->).
  destruct HS as [Hr Hw [Hi Hi'] [Hn Hn'] Hs H1 Hc], (exec_running _ _ _ He) as (_ & Ei & En). cbn in Ei, En.
  split; cbn; rewrite ?Ei, ?En; try done. by eapply reach_exec.
Qed.
#[local] Hint Resolve starting_opens starting_connected part_fail_unless : core.
Lemma starting_spawn_0 i n r p : r ≠ RIke → r ≠ RNgap → (∀ s, r ≠ RShutdown s) → starting i n p → starting i n (spawn r p).
Proof.
  intros H1 H2 H3 H. apply (starting_spawn _ _ r) in H; [|done]. by rewrite !one_of_ne, !Nat.add_0_r in H by congruence.
Qed.

Lemma part_start_amfs local l : part (starting 0 0) (starting 0 0) (start_amfs local l).
Proof.
  induction l as [|remote l IH]; intros p p' Hp; cbn [start_amfs]; [by intros [= <-]|].
  destruct (connect_amf local remote) as [e|conn]; [done|]. apply IH. apply starting_spawn_0; [done|done|done|auto].
Qed.

Lemma part_Run c : part (starting 0 0) (starting 1 1) (also (ngap_Run c) (also (nwucp_Run c) (also (nwuup_Run c) (ike_Run c)))).
Proof.
  assert (∀ la, part (starting 0 1) (starting 0 1) (start_receiver la)) as Hrcv.
  { intros la. eapply part_also; [auto|]. apply part_update. intros p Hp. apply starting_spawn_0; [done|done|done|auto]. }
  apply (part_also _ (starting 0 1)); [|apply (part_also _ (starting 0 1)); [|apply (part_also _ (starting 0 1))]].
  - apply part_with_cfg. intros la. apply part_with_cfg. intros l. eapply part_also; [apply part_start_amfs|].
    apply part_update. intros p Hp. by apply (starting_spawn 0 0 RNgap).
  - apply part_with_cfg. intros a. eapply part_also; [apply part_fail_unless|]. apply part_update. intros p Hp. apply starting_spawn_0; [done|done|done|auto].
  - apply (part_also _ (starting 0 1)); [|apply (part_also _ (starting 0 1)); [|apply part_update; intros p Hp; apply starting_spawn_0; [done..|]; apply starting_spawn_0; [done..|exact Hp]]].
    + apply part_with_cfg. intros a. eapply part_also; [apply part_fail_unless|]. apply part_update. auto.
    + apply part_with_cfg. intros a. eapply part_also; [apply part_fail_unless|]. apply part_update. auto.
  - apply part_with_cfg. intros ip. repeat (case_match; [|by intros ? ? ? [=]]).
    apply (part_also _ (starting 0 1)); [apply Hrcv|]. apply (part_also _ (starting 0 1)); [apply Hrcv|]. apply part_update. intros p Hp.
    by apply (starting_spawn 0 1 RIke).
Qed.

Lemma Run_starting c g1 g2 pool parent p : Run c (initial_world g1 g2 pool parent) = (None, p) → starting 1 1 p.
Proof.
  unfold Run. destruct (start _) as [s|] eqn:Hs; [|done]. apply part_Run.
  assert (reachable s) by by eapply reach_start.
  assert (ike_running s = true ∧ ngap_running s = true) as [].
  { unfold start in Hs. destruct (initDefaultXfrmInterface _) as [[[]|[]|] w]; by inversion Hs. }
  split; cbn; try done. apply list_elem_of_here.
Qed.
Lemma Good_Run c g1 g2 pool parent p : Run c (initial_world g1 g2 pool parent) = (None, p) → Good p.
Proof.
  intros [Hr Hw [Hi Hi'] [Hn Hn'] Hs H1 _]%Run_starting. split; rewrite ?Hi', ?Hn'; try done.
  - intros sk _. exists SWait. split; [done|cbn; lia].
  - intros _. by exists SWait.
Qed.
Lemma runs_Good p : runs p → Good p.
Proof.
  intros (c & g1 & g2 & pool & parent & p0 & HG%Good_Run & Hr). induction Hr; [done|]. by eapply Good_step.
Qed.
End Invariant.
