(* ===== verification/Shutdown.v ===== *)
(** * Shutdown

    From the cancellation of the context to the end of the process: every order of the
    remaining steps comes to an end with the kernel interfaces removed, under the conditions
    the theorems name; what happens when one of them fails. The proofs count the work left. *)

From S2P Require Factory.
From S2P Require Import Prelude Monad IkeMsg Env State ToyEnv Context IkeServer IkeEvents NgapSend NgapEvents NgapAmf Nwuup Nwucp Invariant System Service.

(** ** Runs to the end

    [eventually step P p]: no way of taking steps from [p] gets around [P]. *)
Inductive eventually {A} (stepR : A → A → Prop) (P : A → Prop) (p : A) : Prop :=
| ev_now : P p → eventually stepR P p
| ev_step : (∃ p', stepR p p') → (∀ p', stepR p p' → eventually stepR P p') → eventually stepR P p.

(** A measure that every step lowers, an invariant that keeps a step possible until the goal. *)
Lemma eventually_measure {A} (stepR : A → A → Prop) (P I : A → Prop) (m : A → nat) :
  (∀ p p', I p → stepR p p' → (m p' < m p)%nat ∧ (I p' ∨ P p')) →
  (∀ p, I p → ∃ p', stepR p p') →
  ∀ p, I p → eventually stepR P p.
Proof.
  intros Hstep Hprog p. remember (m p) as n eqn:Hn. revert p Hn. induction (lt_wf n) as [n _ IH]. intros p -> Hp.
  apply ev_step; [by apply Hprog|]. intros p' Hs. destruct (Hstep p p' Hp Hs) as [Hlt [Hi|HP]]; [by eapply IH|by apply ev_now].
Qed.

Section Shutdown.
Context `{L : EnvLaws} `{NE : NetEnv} `{FE : Factory.FactoryEnv}.

(** The steps that end goroutines: those of the shutdown goroutine and of the main one, the
    errors of reads from closed sockets, the ends of handlers that have been started and of NAS
    connections, and the turns of the NGAP loop that empty its queue. *)
Definition winds_down (l : label) (p : Proc) : bool :=
  match l with
  | LMain => true
  | LGo k a =>
      match p_routines p !! k, a with
      | Some RIke, _ => false
      | Some RNgap, APacket => true
      | Some RNgap, _ => false
      | Some (RAmf _ c), (AEof | AFail) => negb (is_open (SkSctp c) p)
      | Some RAccept, AFail => negb (is_open SkNas p)
      | Some RGre, AFail => negb (is_open SkGre p)
      | Some RGtpu, AFail => negb (is_open SkGtpu p)
      | Some (RReceiver la), AFail => negb (is_open (SkIke (ua_Port la)) p)
      | Some (RServe _ _), AFail => true
      | Some (RShutdown _ | RForward _ _ | RUplink _ _ _), AGo => true
      | _, _ => false
      end
  | _ => false
  end.
Definition stop_step (p p' : Proc) : Prop := ∃ l, winds_down l p = true ∧ step l p = Some p'.

(** The work left. *)
Definition weight (r : routine) : nat :=
  match r with RShutdown s => 6 - rank s | RAmf _ _ => 2 | _ => 1 end.
Definition work (p : Proc) : nat := cnt weight (p_routines p) + length (p_pkts p) + b2n (negb (p_done p)).


(** The NGAP loop will see that a receiver has ended. *)
Definition ngap_ends (p : Proc) : Prop :=
  RNgap ∈ p_routines p →
  (∃ a c, RAmf a c ∈ p_routines p) ∨ (∃ x, x ∈ p_pkts p ∧ np_Buf x = []).

(** No handler is left to run. *)
Definition noisy (r : routine) : bool :=
  match r with RServe _ _ | RForward _ _ | RUplink _ _ _ => true | _ => false end.
Definition calm (p : Proc) : Prop :=
  (∀ r, r ∈ p_routines p → noisy r = false) ∧ Forall (λ x, np_Buf x = []) (p_pkts p) ∧
  (∀ s, RShutdown s ∈ p_routines p → ike_running (p_sys p) = true).

(** The kernel has been told to delete every interface of the table. *)
Definition interfaces_removed (w : World) : Prop :=
  ∀ id l, XfrmIfaces w !! id = Some l → IoLinkDel l ∈ trace w.

(** What a step of the shutdown does. *)
Record winds (p p' : Proc) : Prop := {
  w_cancelled : p_cancelled p' = p_cancelled p;
  w_work : (work p' < work p)%nat;
  w_ngap : ngap_ends p → ngap_ends p';
  w_calm : calm p → calm p' ∧ process_running (p_sys p') = true;
  w_done : p_done p' = true → interfaces_removed (world p');
}.

Lemma elem_of_delete_sub {A} (l : list A) k x : x ∈ delete k l → x ∈ l.
Proof.
  revert k. induction l as [|y l IH]; intros [|k]; cbn; [done|done|by apply list_elem_of_further|].
  rewrite !elem_of_cons. intros [->|H]; [by left|]. right. by eapply IH.
Qed.
Lemma elem_of_delete_ne {A} (l : list A) k x y : l !! k = Some y → x ∈ l → x ≠ y → x ∈ delete k l.
Proof. intros Hk Hx Hn. rewrite (delete_Permutation _ _ _ Hk) in Hx. by apply elem_of_cons in Hx as [->|]. Qed.

Lemma cnt_delete f l k r : l !! k = Some r → cnt f l = (f r + cnt f (delete k l))%nat.
Proof. intros Hk. by rewrite (delete_Permutation l k r Hk) at 1. Qed.

Lemma winds_finish p p' k r :
  alive p = true → p_routines p !! k = Some r → r ≠ RNgap → (∀ a c, r ≠ RAmf a c) → (∀ s, r ≠ RShutdown s) →
  p_routines p' = delete k (p_routines p) → p_pkts p' = p_pkts p → p_cancelled p' = p_cancelled p → p_done p' = p_done p →
  (noisy r = false → p_sys p' = p_sys p) → winds p p'.
Proof.
  intros [Hrun Hnd]%andb_true_iff Hk H1 H2 H3 Er Ep Ec Ed Hs. apply negb_true_iff in Hnd. split; [done|..].
  - unfold work. rewrite Er, Ep, Ed, (cnt_delete weight _ _ _ Hk).
    destruct r; cbn [weight]; try lia. by destruct (H3 s).
  - intros He Hin. rewrite Er in Hin. destruct (He (elem_of_delete_sub _ _ _ Hin)) as [(a & c & Ha)|Hx]; [|right; by rewrite Ep].
    left. exists a, c. rewrite Er. eapply elem_of_delete_ne; [done..|]. intros E1. by destruct (H2 a c).
  - intros (Hn & Hp & Hi). assert (p_sys p' = p_sys p) as Es by (apply Hs, Hn; by eapply list_elem_of_lookup_2).
    rewrite Es. split; [|done]. split; [|split].
    + intros r'. rewrite Er. intros Hr%elem_of_delete_sub. auto.
    + by rewrite Ep.
    + intros s. rewrite Er, Es. intros Hr%elem_of_delete_sub. eauto.
  - by rewrite Ed, Hnd.
Qed.

Lemma winds_become p p' k s s' :
  alive p = true → p_routines p !! k = Some (RShutdown s) → p_routines p' = <[k := RShutdown s']> (p_routines p) →
  rank s' = S (rank s) → p_pkts p' = p_pkts p → p_cancelled p' = p_cancelled p → p_done p' = p_done p →
  ike_running (p_sys p') = ike_running (p_sys p) → process_running (p_sys p') = true → winds p p'.
Proof.
  intros [Hrun Hnd]%andb_true_iff Hk Er Hrk Ep Ec Ed Ei Hr. apply negb_true_iff in Hnd.
  assert (∀ r, r ∈ p_routines p' → r = RShutdown s' ∨ r ∈ p_routines p) as Hsub.
  { intros r. rewrite Er, (insert_perm _ _ _ _ Hk). intros [->|Hin%elem_of_delete_sub]%elem_of_cons; auto. }
  assert (∀ r, r ∈ p_routines p → r = RShutdown s ∨ r ∈ p_routines p') as Hsup.
  { intros r. rewrite Er, (insert_perm _ _ _ _ Hk), (delete_Permutation _ _ _ Hk) at 1.
    intros [->|Hin]%elem_of_cons; [by left|]. right. by apply list_elem_of_further. }
  split; [done|..].
  - unfold work. rewrite Er, Ep, Ed, (insert_perm _ _ _ _ Hk), (cnt_delete weight _ _ _ Hk), cnt_cons.
    cbn [weight]. rewrite Hrk. assert (rank s' ≤ 5)%nat by (destruct s'; cbn; lia). lia.
  - intros He Hin. apply Hsub in Hin as [|Hin]; [done|]. rewrite Ep. destruct (He Hin) as [(a & c & Ha)|Hx]; [|by right].
    left. exists a, c. by apply Hsup in Ha as [|].
  - intros (Hn & Hp & Hi). split; [|done]. rewrite <- Ep in Hp. split; [|split; [done|]].
    + intros r Hr'. apply Hsub in Hr' as [->|]; auto.
    + intros s0 _. rewrite Ei. apply (Hi s). by eapply list_elem_of_lookup_2.
  - by rewrite Ed, Hnd.
Qed.

(** The receiver of an AMF tells the loop that it ends. *)
Lemma winds_amf p p' k a c :
  alive p = true → p_routines p !! k = Some (RAmf a c) → p_routines p' = delete k (p_routines p) →
  p_pkts p' = p_pkts p ++ [mkNgapPkt a c []] → p_cancelled p' = p_cancelled p → p_done p' = p_done p →
  p_sys p' = p_sys p → winds p p'.
Proof.
  intros [Hrun Hnd]%andb_true_iff Hk Er Ep Ec Ed Es. apply negb_true_iff in Hnd. split; [done|..].
  - unfold work. rewrite Er, Ep, Ed, (cnt_delete weight _ _ _ Hk), length_app. cbn [weight length]. lia.
  - intros _ _. right. exists (mkNgapPkt a c []). rewrite Ep. split; [|done]. apply elem_of_app. right. apply list_elem_of_here.
  - intros (Hn & Hp & Hi). rewrite Es. split; [|done]. split; [|split].
    + intros r. rewrite Er. intros Hr%elem_of_delete_sub. auto.
    + rewrite Ep. apply Forall_app. split; [done|]. by repeat constructor.
    + intros s. rewrite Er, Es. intros Hr%elem_of_delete_sub. eauto.
  - by rewrite Ed, Hnd.
Qed.

Lemma exec_empty_packet a c s s' : exec (InNgapPacket a c []) s = Some s' → process_running s = true →
  ngap_running s' = false ∧ ike_running s' = ike_running s ∧ process_running s' = true.
Proof. unfold exec. intros He Hr. rewrite Hr in He. cbn [negb] in He. destruct (ngap_running s); [|done]. by injection He as <-. Qed.

(** The loop takes a packet: it ends with the first empty one. *)
Lemma winds_ngap p p' k : Good p → alive p = true → p_routines p !! k = Some RNgap → ngap_step k APacket p = Some p' → winds p p'.
Proof.
  intros HG [Hrun Hnd]%andb_true_iff Hk Hs. apply negb_true_iff in Hnd. cbn [ngap_step] in Hs.
  destruct (p_pkts p) as [|[a c msg] q] eqn:Hq; [done|]. apply bind_Some in Hs as (p1 & (s & He & ->)%handles_Some & Hs).
  cbn [p_sys] in He. change (exec (InNgapPacket a c msg) (p_sys p) = Some s) in He.
  destruct (exec_running _ _ _ He) as (_ & Ei & _). change (ike_running s = ike_running (p_sys p)) in Ei.
  set (p1 := (p <| p_pkts := q |> <| p_sys := s |>)) in Hs.
  assert (p' = (if ngap_running s then p1 else finish k p1)) as -> by (by injection Hs as <-). clear Hs.
  assert (∀ r, r ∈ p_routines (if ngap_running s then p1 else finish k p1) → r ∈ p_routines p) as Hsub.
  { intros r. destruct (ngap_running s); [done|]. apply elem_of_delete_sub. }
  assert (p_pkts (if ngap_running s then p1 else finish k p1) = q) as Hq' by by destruct (ngap_running s).
  assert (p_sys (if ngap_running s then p1 else finish k p1) = s) as Hs' by by destruct (ngap_running s).
  split.
  - by destruct (ngap_running s).
  - unfold work. rewrite Hq, Hq'. assert (p_done (if ngap_running s then p1 else finish k p1) = p_done p) as -> by by destruct (ngap_running s).
    assert (cnt weight (p_routines (if ngap_running s then p1 else finish k p1)) ≤ cnt weight (p_routines p))%nat.
    { destruct (ngap_running s); [done|]. cbn [finish p_routines]. rewrite (cnt_delete weight _ _ _ Hk).
      change (p_routines (finish k p1)) with (delete k (p_routines p)). lia. }
    cbn [length]. lia.
  - intros Hn Hin. destruct (ngap_running s) eqn:En.
    + destruct (Hn (list_elem_of_lookup_2 _ _ _ Hk)) as [|(x & Hx & Hb)]; [by left|]. right. exists x. split; [|done].
      rewrite Hq in Hx. apply elem_of_cons in Hx as [->|Hx]; [|done]. cbn in Hb. subst msg.
      destruct (exec_empty_packet _ _ _ _ He Hrun) as [En' _]. by rewrite En in En'.
    + exfalso. pose proof (g_ngap p HG) as Hc. rewrite (cnt_delete _ _ _ _ Hk) in Hc. change (one_of RNgap RNgap) with 1%nat in Hc.
      apply (cnt_elem (one_of RNgap)) in Hin. change (one_of RNgap RNgap) with 1%nat in Hin.
      change (p_routines (finish k p1)) with (delete k (p_routines p)) in Hin. destruct (ngap_running (p_sys p)); cbn in *; lia.
  - intros (Hn & Hp & Hi). rewrite Hq in Hp. apply Forall_cons in Hp as [Hb Hp]. cbn in Hb. subst msg.
    destruct (exec_empty_packet _ _ _ _ He Hrun) as (_ & _ & Hpr). rewrite Hs'. split; [|done]. split; [|split].
    + intros r Hr%Hsub. auto.
    + by rewrite Hq'.
    + intros s0 Hr%Hsub. rewrite Hs', Ei. eauto.
  - destruct (ngap_running s); cbn; by rewrite Hnd.
Qed.

(** The shutdown goroutine ends with its signal. *)
Lemma winds_signal p p' k : Good p → alive p = true → p_routines p !! k = Some (RShutdown SIkeSignal) →
  shutdown_step k SIkeSignal p = Some p' → winds p p'.
Proof.
  intros HG [Hrun Hnd]%andb_true_iff Hk Hs. apply negb_true_iff in Hnd. cbn [shutdown_step] in Hs.
  apply bind_Some in Hs as (p1 & (s & He & ->)%handles_Some & Hs).
  unfold exec in He. rewrite Hrun in He. cbn [negb] in He. injection He as <-.
  set (p1 := p <| p_sys := _ |>) in Hs.
  assert (p_sys p' = p_sys p1 ∧ p_pkts p' = p_pkts p ∧ p_cancelled p' = p_cancelled p ∧ p_done p' = p_done p) as (Es & Ep & Ec & Ed).
  { destruct (list_find _ _) as [[j r]|]; injection Hs as <-; [|done]. by case_decide. }
  assert (∃ old, p_routines p ≡ₚ RShutdown SIkeSignal :: old ++ p_routines p' ∧ Forall (eq RIke) old) as (old & Eo & Ho).
  { destruct (list_find _ _) as [[j r]|] eqn:Hf; injection Hs as <-.
    - apply list_find_Some in Hf as (Hj & -> & _).
      assert (j ≠ k) as Hjk by (intros ->; rewrite Hk in Hj; discriminate Hj).
      exists [RIke]. split; [|by repeat constructor]. rewrite (delete2_perm _ j k RIke (RShutdown SIkeSignal) Hj Hk Hjk). case_decide; apply Permutation_swap.
    - exists []. split; [by apply delete_Permutation|done]. }
  assert (∀ r, r ∈ p_routines p' → r ∈ p_routines p) as Hsub.
  { intros r Hr. rewrite Eo. apply list_elem_of_further, elem_of_app. by right. }
  split; [done|..].
  - unfold work. rewrite Ep, Ed, Eo, cnt_cons, cnt_app. cbn [weight rank]. lia.
  - intros He Hin%Hsub. destruct (He Hin) as [(a & c & Ha)|Hx]; [|right; by rewrite Ep].
    left. exists a, c. rewrite Eo in Ha. apply elem_of_cons in Ha as [|[Ha|Ha]%elem_of_app]; [done| |done].
    rewrite Forall_forall in Ho. by specialize (Ho _ Ha).
  - intros (Hn & Hp & Hi). rewrite Es. split.
    + split; [|split].
      * intros r Hr%Hsub. auto.
      * by rewrite Ep.
      * intros s Hin. exfalso. pose proof (g_one p HG) as H1. rewrite Eo, cnt_cons, cnt_app in H1.
        apply (cnt_elem shut) in Hin. cbn [shut] in *. lia.
    + cbn. apply (Hi SIkeSignal). by eapply list_elem_of_lookup_2.
  - by rewrite Ed, Hnd.
Qed.

(** Deleting the interfaces of a list. *)
Lemma delete_links l (w : World) :
  ∃ t, (for_each l (λ '(_, iface), do_io (IoLinkDel iface);; mret tt) : H unit unit) w = (Next tt, w <| trace := t |>) ∧
    (∀ x, x ∈ trace w → x ∈ t) ∧ ∀ (id : Z) iface, (id, iface) ∈ l → IoLinkDel iface ∈ t.
Proof.
  revert w. induction l as [|[id x] l IH]; intros w.
  - exists (trace w). split; [by destruct w|]. split; [done|]. by intros ?? ?%not_elem_of_nil.
  - destruct (IH (w <| trace := IoLinkDel x :: trace w |>)) as (t & Hr & Hsub & Hl). exists t. split; [exact Hr|]. split.
    + intros y Hy. apply Hsub. by apply list_elem_of_further.
    + intros id' iface [[= -> ->]|Hin]%elem_of_cons; [apply Hsub, list_elem_of_here|by eapply Hl].
Qed.

Lemma removeIPsecInterfaces_removes w : interfaces_removed (removeIPsecInterfaces w).2.
Proof.
  unfold removeIPsecInterfaces. rewrite run_bind. cbn [gets]. rewrite run_bind, run_range_map.
  destruct (delete_links (range_order _ (draws w) (map_to_list (XfrmIfaces w))) (w <| draws := S (draws w) |>)) as (t & -> & _ & Hl).
  intros id l Hin. cbn in Hin |- *. apply (Hl id). rewrite range_order_perm. by apply elem_of_map_to_list.
Qed.

Lemma winds_main p p' : alive p = true → WaitRoutineStopped p = Some p' → winds p p'.
Proof.
  intros [Hrun Hnd]%andb_true_iff Hs. apply negb_true_iff in Hnd. unfold WaitRoutineStopped in Hs. case_decide; [|done].
  apply bind_Some in Hs as (q & (s & He & ->)%handles_Some & [= <-]). unfold exec in He. rewrite Hrun in He.
  cbn [negb] in He. injection He as <-. split; [done|..].
  - unfold work. cbn -[cnt]. rewrite Hnd. cbn -[cnt]. lia.
  - done.
  - done.
  - intros _. apply removeIPsecInterfaces_removes.
Qed.

(** Stop closes the connections of the UEs in the pool, which are UEs. *)
Lemma Stop_returns w : Inv w → match (Nwucp.Stop w).1 with Panicked _ => False | _ => True end.
Proof.
  intros Hi. unfold Nwucp.Stop. rewrite run_bind. cbn [gets]. rewrite run_bind, run_range_map.
  assert (∀ k r, (k, r) ∈ range_order _ (draws w) (map_to_list (RANUePool w)) → is_Some (h_ran w !! r)) as Hl.
  { intros k r. rewrite range_order_perm, elem_of_map_to_list. intros Hr. destruct (p_ran _ Hi _ _ Hr) as (u & Hu & _). by exists u. }
  revert Hl. generalize (range_order (Z * ref) (draws w) (map_to_list (RANUePool w))) as l. intros l.
  assert (∀ w', h_ran w' = h_ran w → (∀ k r, (k, r) ∈ l → is_Some (h_ran w !! r)) →
    match (for_each l (λ '(_, r), u ← get_ran (Some r); match TCPConnection u with
      | None => mret tt | Some connection => do_io (IoTcpClose connection);; mret tt end) w' : ctl unit unit * World).1
    with Panicked _ => False | _ => True end) as Hgen; [|by apply Hgen].
  induction l as [|[k r] l IH]; intros w' Hw Hl; [done|]. destruct (Hl k r (list_elem_of_here _ _)) as [u Hu].
  cbn [for_each]. rewrite !run_bind, (run_get_ran w' r u) by (by rewrite Hw).
  destruct (TCPConnection u); (apply IH; [done|]; intros k' r' Hin; by eapply Hl, list_elem_of_further).
Qed.

Lemma winds_shutdown p p' k s : Good p → alive p = true → p_routines p !! k = Some (RShutdown s) →
  shutdown_step k s p = Some p' → winds p p'.
Proof.
  intros HG Ha Hk Hs. pose proof Ha as [Hrun _]%andb_true_iff. destruct s; [..|by eapply winds_signal]; cbn [shutdown_step] in Hs.
  - destruct (p_cancelled p); [|done]. injection Hs as <-. by eapply (winds_become p _ k SWait SNgap).
  - injection Hs as <-. by eapply (winds_become p _ k SNgap SNwucp).
  - apply bind_Some in Hs as (q & (s & He & ->)%handles_Some & [= <-]).
    destruct (exec_running _ _ _ He) as (_ & Ei & _).
    apply (winds_become p _ k SNwucp SNwuup); try done. cbn. unfold exec in He. rewrite Hrun in He. cbn [negb] in He.
    injection He as <-. unfold fatal. cbn. pose proof (Stop_returns _ (reachable_Inv _ (g_reach p HG))) as Hst.
    by destruct (Nwucp.Stop _) as [[]?].
  - injection Hs as <-. by eapply (winds_become p _ k SNwuup SIke).
  - injection Hs as <-. by eapply (winds_become p _ k SIke SIkeSignal).
Qed.

Lemma winds_once p p' k r i : alive p = true → p_routines p !! k = Some r → noisy r = true →
  once k i AGo p = Some p' → winds p p'.
Proof.
  intros Ha Hk Hn Hs. cbn [once] in Hs. apply bind_Some in Hs as (q & (s & _ & ->)%handles_Some & [= <-]).
  apply (winds_finish p _ k r); try done; intros; (destruct r; done || congruence).
Qed.
Lemma not_open sk p : negb (is_open sk p) = true → is_open sk p = false.
Proof. apply negb_true_iff. Qed.

Lemma stop_step_winds p p' : Good p → alive p = true → closed_is_eof = true → stop_step p p' → winds p p'.
Proof.
  intros HG Ha Heof (l & Hl & Hs). unfold step in Hs. rewrite Ha in Hs. cbn [negb] in Hs.
  destruct l as [k a| | | | |]; try discriminate Hl; [|by apply winds_main].
  cbn [winds_down] in Hl. destruct (p_routines p !! k) as [r|] eqn:Hk; [|done]. cbn in Hs.
  destruct r as [s| |ad c| |u c|u b| |ip x b| | |la], a; try discriminate Hl; cbn [routine_step] in Hs.
  - by eapply winds_shutdown.
  - by eapply winds_ngap.
  - apply not_open in Hl. cbn [amf_step] in Hs. rewrite Hl, Heof in Hs. injection Hs as <-. by eapply winds_amf.
  - apply not_open in Hl. cbn [amf_step] in Hs. by rewrite Hl, Heof in Hs.
  - injection Hs as <-. by eapply winds_finish.
  - cbn [serve_step] in Hs. apply bind_Some in Hs as (q & (s & _ & ->)%handles_Some & [= <-]). by eapply winds_finish.
  - by eapply winds_once.
  - injection Hs as <-. by eapply winds_finish.
  - by eapply winds_once.
  - injection Hs as <-. by eapply winds_finish.
  - injection Hs as <-. by eapply winds_finish.
Qed.

(** Until the process has ended there is a step. *)
Lemma stop_progress p : Good p → alive p = true → p_cancelled p = true → closed_is_eof = true → ngap_ends p →
  ∃ p', stop_step p p'.
Proof.
  intros HG Ha Hc Heof Hn. pose proof Ha as [Hrun Hnd]%andb_true_iff.
  assert (∀ k a r, p_routines p !! k = Some r → winds_down (LGo k a) p = true → is_Some (routine_step k r a p) →
    ∃ p', stop_step p p') as Hgo.
  { intros k a r Hk Hw [p' Hs]. exists p', (LGo k a). split; [done|]. unfold step. by rewrite Ha, Hk. }
  assert (∀ i, loopless i = true → (∀ c, i ≠ InTimer c) → is_Some (handles i p)) as Hex.
  { intros i Hl Ht. unfold handles, exec. rewrite Hrun. destruct i; try discriminate Hl; try (by eexists). by destruct (Ht c). }
  destruct (decide (cnt shut (p_routines p) = 0%nat)) as [Hz|Hz].
  2: { destruct (cnt_pos shut (p_routines p)) as (r & Hin & Hr); [lia|]. destruct r as [s| | | | | | | | | |]; try (cbn in Hr; lia).
    apply list_elem_of_lookup_1 in Hin as [k Hk]. apply (Hgo k AGo (RShutdown s) Hk); [by cbn; rewrite Hk|].
    cbn [routine_step]. destruct s; cbn [shutdown_step]; rewrite ?Hc; try (by eexists).
    - destruct (Hex InNwucpStop) as [q ->]; [done..|]. by eexists.
    - unfold handles, exec. rewrite Hrun. cbn. destruct (list_find _ _) as [[]|]; by eexists. }
  assert (∀ sk, is_open sk p = false) as Hcl.
  { intros sk. apply bool_decide_eq_false. intros (s & Hin & _)%(g_open p HG). apply (cnt_elem shut) in Hin. cbn [shut] in Hin. lia. }
  assert (ike_running (p_sys p) = false) as Hi.
  { destruct (ike_running (p_sys p)) eqn:Ei; [|done]. destruct (g_stage p HG Ei) as [s Hin]. apply (cnt_elem shut) in Hin. cbn [shut] in Hin. lia. }
  assert (∀ r, r ∈ p_routines p → r ≠ RNgap → ∃ p', stop_step p p') as Hother.
  { intros r Hin Hr. apply list_elem_of_lookup_1 in Hin as [k Hk].
    assert (r ≠ RIke) as Hri.
    { intros ->. apply list_elem_of_lookup_2, (cnt_elem (one_of RIke)) in Hk. rewrite (g_ike p HG), Hi in Hk. change (one_of RIke RIke) with 1%nat in Hk. cbn in Hk. lia. }
    assert (∀ s, r ≠ RShutdown s) as Hrs.
    { intros s ->. apply list_elem_of_lookup_2, (cnt_elem shut) in Hk. cbn [shut] in Hk. lia. }
    destruct r as [s| |ad c| |u c|u b| |ip x b| | |la]; try congruence.
    - apply (Hgo k AEof _ Hk); cbn; rewrite ?Hk, Hcl; [done|]. rewrite Heof. by eexists.
    - apply (Hgo k AFail _ Hk); cbn; rewrite ?Hk, ?Hcl; [done|]. by eexists.
    - apply (Hgo k AFail _ Hk); cbn; rewrite ?Hk; [done|]. destruct (Hex (InReaderEnd u c)) as [q ->]; [done..|]. by eexists.
    - apply (Hgo k AGo _ Hk); cbn; rewrite ?Hk; [done|]. destruct (Hex (InForward u b)) as [q ->]; [done..|]. by eexists.
    - apply (Hgo k AFail _ Hk); cbn; rewrite ?Hk, ?Hcl; [done|]. by eexists.
    - apply (Hgo k AGo _ Hk); cbn; rewrite ?Hk; [done|]. destruct (Hex (InUplink ip x b)) as [q ->]; [done..|]. by eexists.
    - apply (Hgo k AFail _ Hk); cbn; rewrite ?Hk, ?Hcl; [done|]. by eexists.
    - apply (Hgo k AFail _ Hk); cbn; rewrite ?Hk, ?Hcl; [done|]. by eexists. }
  destruct (p_routines p) as [|r l] eqn:Er.
  - destruct (Hex InRemoveInterfaces) as [q Hq]; [done..|]. eexists _, LMain. split; [done|]. unfold step. rewrite Ha. cbn [negb].
    unfold WaitRoutineStopped. rewrite decide_True by (rewrite (g_wg p HG), Er; done). by rewrite Hq.
  - destruct (decide (r = RNgap)) as [->|Hr]; [|by apply (Hother r); [apply list_elem_of_here|]].
    destruct (Hn ltac:(rewrite Er; apply list_elem_of_here)) as [(a & c & Hin)|([a c msg] & Hx & _)].
    + rewrite Er in Hin. by apply (Hother (RAmf a c)).
    + assert (ngap_running (p_sys p) = true) as Hnr.
      { pose proof (g_ngap p HG) as Hg. rewrite Er, cnt_cons in Hg. change (one_of RNgap RNgap) with 1%nat in Hg.
        destruct (ngap_running (p_sys p)); [done|cbn in Hg; lia]. }
      apply (Hgo 0%nat APacket RNgap); [done|by cbn; rewrite Er|]. cbn [routine_step ngap_step].
      destruct (p_pkts p) as [|[a' c' m] q]; [by apply not_elem_of_nil in Hx|].
      unfold handles, exec. cbn -[ngap_turn]. rewrite Hrun, Hnr. cbn -[ngap_turn]. by eexists.
Qed.


(** ** When it does not come to an end *)

(** The routines after a step: the one that takes it and the IKE loop may be gone, the others
    stay, and only handlers and readers of NAS connections are new. *)
Definition minor (r : routine) : Prop :=
  match r with RServe _ _ | RForward _ _ | RUplink _ _ _ | RShutdown _ => True | _ => False end.
Definition moved (r : routine) (l l' : list routine) : Prop :=
  ∃ gone new rest, l ≡ₚ gone ++ rest ∧ l' ≡ₚ new ++ rest ∧ Forall (λ x, x = r ∨ x = RIke) gone ∧ Forall minor new.

Lemma moved_refl r l : moved r l l.
Proof. exists [], [], l. by repeat split. Qed.
Lemma moved_delete r k l : l !! k = Some r → moved r l (delete k l).
Proof. intros Hk. exists [r], [], (delete k l). split; [by apply delete_Permutation|]. split; [done|]. split; [|done]. by repeat constructor. Qed.
Lemma moved_spawn r x l : minor x → moved r l (l ++ [x]).
Proof. intros Hx. exists [], [x], l. split; [done|]. split; [by rewrite Permutation_app_comm|]. split; [done|]. by repeat constructor. Qed.
Lemma moved_insert r x k l : l !! k = Some r → minor x → moved r l (<[k := x]> l).
Proof.
  intros Hk Hx. exists [r], [x], (delete k l). split; [by apply delete_Permutation|]. split; [by eapply insert_perm|].
  split; [by repeat constructor|]. by repeat constructor.
Qed.
#[local] Hint Resolve moved_refl moved_delete moved_spawn moved_insert : core.

Lemma handles_routines i p p' : handles i p = Some p' → p_routines p' = p_routines p ∧ p_pkts p' = p_pkts p ∧ p_done p' = p_done p.
Proof. by intros (s & _ & ->)%handles_Some. Qed.

Lemma routine_step_moved k r a p p' : p_routines p !! k = Some r → routine_step k r a p = Some p' →
  moved r (p_routines p) (p_routines p').
Proof.
  intros Hk Hs.
  assert (∀ i q, handles i p = Some q → p_routines q = p_routines p) as Hh by by intros i q [? _]%handles_routines.
  destruct r as [s| |ad c| |u c|u b| |ip x b| | |la], a; try discriminate Hs; cbn [routine_step] in Hs.
  - destruct s; cbn [shutdown_step] in Hs; try (injection Hs as <-; by eapply moved_insert).
    + destruct (p_cancelled p); [|done]. injection Hs as <-. by eapply moved_insert.
    + apply bind_Some in Hs as (q & Hq%Hh & [= <-]). cbn. rewrite Hq. by eapply moved_insert.
    + apply bind_Some in Hs as (q & Hq%Hh & Hs). destruct (list_find _ _) as [[j r]|] eqn:Hf; injection Hs as <-.
      * apply list_find_Some in Hf as (Hj & -> & _).
        assert (j ≠ k) as Hjk by (intros ->; rewrite Hk in Hj; discriminate Hj).
        exists [RIke; RShutdown SIkeSignal], []. eexists. split; [exact (delete2_perm _ j k _ _ Hj Hk Hjk)|].
        split; [by case_decide; cbn; rewrite Hq|]. split; [|done]. apply Forall_cons. split; [by right|]. apply Forall_cons. split; [by left|done].
      * cbn. rewrite Hq. by apply moved_delete.
  - cbn [ngap_step] in Hs. destruct (p_pkts p) as [|[ad c msg] l]; [done|]. apply bind_Some in Hs as (q & [Hq _]%handles_routines & [= <-]).
    destruct (ngap_running _); cbn; rewrite Hq; auto.
  - cbn [ngap_step] in Hs. apply bind_Some in Hs as (q & Hq%Hh & [= <-]). destruct (ngap_running _); cbn; rewrite Hq; auto.
  - cbn [amf_step] in Hs. repeat (case_match; try discriminate Hs); injection Hs as <-; apply moved_refl.
  - cbn [amf_step] in Hs. case_match; [|done]. injection Hs as <-. by apply moved_delete.
  - cbn [amf_step] in Hs. case_match; [|done]. injection Hs as <-. by apply moved_delete.
  - cbn [accept_step] in Hs. case_match; [|done]. apply bind_Some in Hs as (q & Hq%Hh & [= <-]).
    repeat case_match; cbn; rewrite Hq; auto; by apply moved_spawn.
  - injection Hs as <-. by apply moved_delete.
  - cbn [serve_step] in Hs. case_match; [done|]. injection Hs as <-. by apply moved_spawn.
  - cbn [serve_step] in Hs. apply bind_Some in Hs as (q & Hq%Hh & [= <-]). cbn. rewrite Hq. by apply moved_delete.
  - cbn [once] in Hs. apply bind_Some in Hs as (q & Hq%Hh & [= <-]). cbn. rewrite Hq. by apply moved_delete.
  - cbn [gre_step] in Hs. case_match; [|done]. injection Hs as <-. by apply moved_spawn.
  - injection Hs as <-. by apply moved_delete.
  - cbn [once] in Hs. apply bind_Some in Hs as (q & Hq%Hh & [= <-]). cbn. rewrite Hq. by apply moved_delete.
  - cbn [gtpu_step] in Hs. case_match; [|done]. rewrite (Hh _ _ Hs). apply moved_refl.
  - injection Hs as <-. by apply moved_delete.
  - cbn [ike_step] in Hs. destruct (p_ike_pkts p) as [|[lc la ra msg] l]; [done|]. apply bind_Some in Hs as (q & [Hq _]%handles_routines & [= <-]).
    destruct (ike_running _); cbn; rewrite Hq; auto.
  - cbn [ike_step] in Hs. apply bind_Some in Hs as (q & Hq%Hh & [= <-]). destruct (ike_running _); cbn; rewrite Hq; auto.
  - assert (∀ ra m, p_routines (receive_ike la ra m p) = p_routines p) as Hrcv.
    { intros ra m. unfold receive_ike. by case_decide. }
    cbn [receiver_step] in Hs. case_match; [done|]. case_decide; [|injection Hs as <-; rewrite Hrcv; apply moved_refl].
    destruct (handleNattMsg msg); [injection Hs as <-; apply moved_refl..| |injection Hs as <-; rewrite Hrcv; apply moved_refl].
    apply bind_Some in Hs as (q & Hq%Hh & [= <-]). case_match; cbn; rewrite Hq; auto.
  - injection Hs as <-. by apply moved_delete.
Qed.

Lemma step_moved l p p' : step l p = Some p' →
  match l with
  | LGo k _ => ∃ r, p_routines p !! k = Some r ∧ moved r (p_routines p) (p_routines p')
  | _ => p_routines p' = p_routines p
  end.
Proof.
  unfold step. destruct (alive p); [|done]. cbn [negb]. destruct l; intros Hs.
  - apply bind_Some in Hs as (r & Hk & Hs). exists r. split; [done|]. by eapply routine_step_moved.
  - by injection Hs as <-.
  - apply (handles_routines _ _ _ Hs).
  - apply (handles_routines _ _ _ Hs).
  - apply (handles_routines _ _ _ Hs).
  - unfold WaitRoutineStopped in Hs. case_decide; [|done]. apply bind_Some in Hs as (q & [Hq _]%handles_routines & [= <-]). exact Hq.
Qed.
Lemma moved_stays r l l' x : moved r l l' → x ∈ l → x ≠ r → x ≠ RIke → x ∈ l'.
Proof.
  intros (gone & new & rest & -> & -> & Hg & _) [Hx|Hx]%elem_of_app H1 H2; [|apply elem_of_app; by right].
  rewrite Forall_forall in Hg. by destruct (Hg x Hx).
Qed.
Lemma moved_new r l l' x : moved r l l' → x ∈ l' → ¬ minor x → x ∈ l.
Proof.
  intros (gone & new & rest & -> & -> & _ & Hn) [Hx|Hx]%elem_of_app H1; [|apply elem_of_app; by right].
  rewrite Forall_forall in Hn. by destruct H1; apply Hn.
Qed.
Lemma step_not_new l p p' x : step l p = Some p' → x ∈ p_routines p' → ¬ minor x → x ∈ p_routines p.
Proof.
  intros Hs%step_moved Hx Hm. destruct l; try by rewrite Hs in Hx. destruct Hs as (r & _ & Hs). by eapply moved_new.
Qed.

(** A step of the process is one of System.v or does not touch its state. *)
Definition sys_step (s s' : Sys) : Prop := s' = s ∨ ∃ i, exec i s = Some s'.
Lemma sys_step_refl s : sys_step s s.
Proof. by left. Qed.
Lemma handles_sys i p p' : handles i p = Some p' → sys_step (p_sys p) (p_sys p').
Proof. intros (s & He & ->)%handles_Some. right. by exists i. Qed.
#[local] Hint Resolve sys_step_refl : core.

(** The queue of NGAP packets, and the end of the run, in a step of a goroutine. *)
Lemma routine_step_frame k r a p p' : routine_step k r a p = Some p' →
  p_done p' = p_done p ∧ sys_step (p_sys p) (p_sys p') ∧
  (p_pkts p' = p_pkts p ∨ (r = RNgap ∧ ∃ x, p_pkts p = x :: p_pkts p') ∨ ∃ ad c, r = RAmf ad c).
Proof.
  intros Hs.
  assert (∀ i q, handles i p = Some q → p_done q = p_done p ∧ p_pkts q = p_pkts p ∧ sys_step (p_sys p) (p_sys q)) as Hh.
  { intros i q Hq. pose proof (handles_sys _ _ _ Hq). by destruct (handles_routines _ _ _ Hq) as (? & ? & ?). }
  destruct r as [s| |ad c| |u c|u b| |ip x b| | |la], a; try discriminate Hs; cbn [routine_step] in Hs;
    try (injection Hs as <-; by eauto 6);
    try (cbn [serve_step once] in Hs; apply bind_Some in Hs as (q & (? & ? & ?)%Hh & [= <-]); by eauto 6).
  - destruct s; cbn [shutdown_step] in Hs; try (injection Hs as <-; by eauto 6).
    + destruct (p_cancelled p); [|done]. injection Hs as <-. by eauto 6.
    + apply bind_Some in Hs as (q & (? & ? & ?)%Hh & [= <-]). by eauto 6.
    + apply bind_Some in Hs as (q & (? & ? & ?)%Hh & Hs). destruct (list_find _ _) as [[j r]|]; injection Hs as <-; [case_decide|]; by eauto 6.
  - cbn [ngap_step] in Hs. destruct (p_pkts p) as [|[ad c msg] l]; [done|].
    apply bind_Some in Hs as (q & Hh' & [= <-]). destruct (handles_routines _ _ _ Hh') as (_ & Hp & Hq). apply handles_sys in Hh'. cbn in Hp, Hq.
    destruct (ngap_running _); (split; [done|]; split; [exact Hh'|]; right; left; split; [done|]; eexists; cbn; by rewrite Hp).
  - cbn [ngap_step] in Hs. apply bind_Some in Hs as (q & (? & ? & ?)%Hh & [= <-]). destruct (ngap_running _); by eauto 6.
  - cbn [amf_step] in Hs. repeat (case_match; try discriminate Hs); injection Hs as <-;
      (split; [done|]; split; [by left|]; right; right; by eauto).
  - cbn [amf_step] in Hs. case_match; [|done]. injection Hs as <-.
    split; [done|]; split; [by left|]; right; right; by eauto.
  - cbn [amf_step] in Hs. case_match; [|done]. injection Hs as <-.
    split; [done|]; split; [by left|]; right; right; by eauto.
  - cbn [accept_step] in Hs. case_match; [|done]. apply bind_Some in Hs as (q & (? & ? & ?)%Hh & [= <-]). repeat case_match; by eauto 6.
  - cbn [serve_step] in Hs. case_match; [done|]. injection Hs as <-. by eauto 6.
  - cbn [gre_step] in Hs. case_match; [|done]. injection Hs as <-. by eauto 6.
  - cbn [gtpu_step] in Hs. case_match; [|done]. destruct (Hh _ _ Hs) as (? & ? & ?). by eauto 6.
  - cbn [ike_step] in Hs. destruct (p_ike_pkts p) as [|[lc la ra msg] l]; [done|].
    apply bind_Some in Hs as (q & Hq & [= <-]); destruct (handles_routines _ _ _ Hq) as (_ & ? & ?); apply handles_sys in Hq.
    destruct (ike_running _); (split; [done|]; split; [exact Hq|]; by left).
  - cbn [ike_step] in Hs. apply bind_Some in Hs as (q & (? & ? & ?)%Hh & [= <-]). destruct (ike_running _); by eauto 6.
  - assert (∀ ra m, p_done (receive_ike la ra m p) = p_done p ∧ p_pkts (receive_ike la ra m p) = p_pkts p ∧ p_sys (receive_ike la ra m p) = p_sys p) as Hrcv
      by (intros; unfold receive_ike; by case_decide).
    cbn [receiver_step] in Hs. case_match; [done|]. case_decide; [|injection Hs as <-; edestruct Hrcv as (-> & -> & ->); by eauto].
    destruct (handleNattMsg msg); [injection Hs as <-; by eauto 6..| |injection Hs as <-; edestruct Hrcv as (-> & -> & ->); by eauto].
    apply bind_Some in Hs as (q & (? & ? & ?)%Hh & [= <-]). case_match; by eauto 6.
Qed.

(** A run is over only by the main goroutine, with the wait group at zero. *)
Lemma step_done l p p' : Good p → step l p = Some p' → p_done p' = true → p_routines p = [].
Proof.
  intros HG Hs Hd. unfold step in Hs. destruct (alive p) eqn:Ha; [|done]. cbn [negb] in Hs.
  apply andb_true_iff in Ha as [_ Hnd%negb_true_iff]. destruct l.
  - apply bind_Some in Hs as (r & Hk & (Hs & _)%routine_step_frame). congruence.
  - injection Hs as <-. by cbn in Hd; rewrite Hnd in Hd.
  - apply handles_routines in Hs as (_ & _ & Hs). congruence.
  - apply handles_routines in Hs as (_ & _ & Hs). congruence.
  - apply handles_routines in Hs as (_ & _ & Hs). congruence.
  - unfold WaitRoutineStopped in Hs. case_decide as Hw; [|done]. rewrite (g_wg p HG) in Hw. by destruct (p_routines p).
Qed.
Lemma step_pkts l p p' : step l p = Some p' → (∀ ad c, RAmf ad c ∉ p_routines p) → ∀ x, x ∈ p_pkts p' → x ∈ p_pkts p.
Proof.
  unfold step. destruct (alive p) eqn:Ha; [|done]. cbn [negb]. intros Hs Hn x Hx. destruct l.
  - apply bind_Some in Hs as (r & Hk & (_ & _ & [E1|[(_ & y & E1)|(ad & c & ->)]])%routine_step_frame).
    + by rewrite <- E1.
    + rewrite E1. by apply list_elem_of_further.
    + destruct (Hn ad c). by eapply list_elem_of_lookup_2.
  - by injection Hs as <-.
  - apply handles_routines in Hs as (_ & Hs & _). by rewrite <- Hs.
  - apply handles_routines in Hs as (_ & Hs & _). by rewrite <- Hs.
  - apply handles_routines in Hs as (_ & Hs & _). by rewrite <- Hs.
  - unfold WaitRoutineStopped in Hs. case_decide as Hw; [|done].
    apply bind_Some in Hs as (q & (_ & Hq & _)%handles_routines & [= <-]). cbn in Hx. by rewrite <- Hq.
Qed.

Lemma step_sys l p p' : step l p = Some p' → sys_step (p_sys p) (p_sys p').
Proof.
  unfold step. destruct (alive p) eqn:Ha; [|done]. cbn [negb]. intros Hs. destruct l.
  - apply bind_Some in Hs as (r & Hk & (_ & Hs & _)%routine_step_frame). exact Hs.
  - injection Hs as <-. apply sys_step_refl.
  - by eapply handles_sys.
  - by eapply handles_sys.
  - by eapply handles_sys.
  - unfold WaitRoutineStopped in Hs. case_decide as Hw; [|done].
    apply bind_Some in Hs as (q & Hq%handles_sys & [= <-]). exact Hq.
Qed.

(** C5. The process implements the system of System.v: with the queues, the sockets and the
    goroutines forgotten, each of its steps is an input of the system or changes nothing, and its
    states are reachable ones, so that every invariant of the system holds in the process. The
    wait group counts the goroutines, and a server's loop runs exactly when its goroutine does. *)
Theorem process_refines_system p :
  runs p →
  reachable (p_sys p) ∧ p_wg p = Z.of_nat (length (p_routines p)) ∧
  (ike_running (p_sys p) = true ↔ RIke ∈ p_routines p) ∧ (ngap_running (p_sys p) = true ↔ RNgap ∈ p_routines p) ∧
  ∀ l p', step l p = Some p' → p_sys p' = p_sys p ∨ ∃ i, exec i (p_sys p) = Some (p_sys p').
Proof.
  intros HG%runs_Good.
  assert (∀ r b, cnt (one_of r) (p_routines p) = b2n b → (b = true ↔ r ∈ p_routines p)) as Hiff.
  { intros r b Hc. split.
    - intros ->. destruct (cnt_pos (one_of r) (p_routines p)) as (r' & Hin & Hr); [by rewrite Hc; cbn; lia|].
      unfold one_of in Hr. destruct (bool_decide (r = r')) eqn:Hb; [|cbn in Hr; lia].
      by apply bool_decide_eq_true in Hb as ->.
    - intros Hin%(cnt_elem (one_of r)). unfold one_of in Hin at 1. rewrite bool_decide_eq_true_2 in Hin by done.
      rewrite Hc in Hin. destruct b; [done|cbn in Hin; lia]. }
  split; [apply HG|]. split; [apply HG|]. split; [apply Hiff, HG|]. split; [apply Hiff, HG|].
  intros l p' Hs. exact (step_sys _ _ _ Hs).
Qed.

(** The NGAP loop runs while no receiver is left to end it; or the IKE loop is lost before the
    shutdown goroutine signals it. *)
Definition blocked (p : Proc) : Prop :=
  (RNgap ∈ p_routines p ∧ (∀ ad c, RAmf ad c ∉ p_routines p) ∧ (∀ x, x ∈ p_pkts p → np_Buf x ≠ [])) ∨
  (ike_running (p_sys p) = false ∧ ∃ s, RShutdown s ∈ p_routines p).

Lemma exec_ngap_goes_on i s s' :
  match i with InNgapPacket _ _ msg => msg ≠ [] | InNgapEvent => True | _ => False end →
  exec i s = Some s' → ngap_running s' = true ∨ process_running s' = false.
Proof.
  unfold exec. destruct (process_running s); [|done]. change (negb true) with false. cbv iota. intros Hi Hx.
  destruct i as [| |ad c msg| | | | | | | | | | | | | |]; try done; (destruct (ngap_running s) eqn:Hn; [|done]).
  - injection Hx as <-. destruct msg as [|b msg]; [done|]. unfold ngap_turn. rewrite run_bind, run_call.
    destruct (NGAPDispatch _ _ _ _) as [[]?]; cbn; rewrite ?Hn; auto.
  - destruct (ngap_queue _) as [|e q]; [done|]. injection Hx as <-. unfold ngap_turn. rewrite run_bind, run_call.
    destruct (HandleNgapEvent _ _) as [[]?]; cbn; rewrite ?Hn; auto.
Qed.

Lemma blocked_step l p p' : Good p → blocked p → step l p = Some p' → process_running (p_sys p') = false ∨ blocked p'.
Proof.
  intros HG Hb Hs. pose proof (Good_step _ _ _ HG Hs) as HG'. pose proof (step_moved _ _ _ Hs) as Hm.
  destruct Hb as [(Hn & Hna & Hp)|(Hi & s & Hin)].
  - assert ((∀ ad c, RAmf ad c ∉ p_routines p') ∧ (∀ x, x ∈ p_pkts p' → np_Buf x ≠ [])) as [Hna' Hp'].
    { split.
      - intros ad c Hin. apply (Hna ad c). eapply step_not_new; [exact Hs|exact Hin|by intros []].
      - intros x Hx. apply Hp. by eapply step_pkts. }
    enough (process_running (p_sys p') = false ∨ RNgap ∈ p_routines p') as [|]; [by left|right; by left|].
    destruct l as [k a| | | | |]; try (right; by rewrite Hm).
    destruct Hm as (r & Hk & Hm). destruct (decide (RNgap = r)) as [<-|Hne]; [|right; by eapply moved_stays].
    unfold step in Hs. destruct (alive p); [|done]. cbn [negb] in Hs. rewrite Hk in Hs. cbn [mbind option_bind routine_step] in Hs.
    assert (∀ i p1 q, p_sys p1 = p_sys p → p_routines p1 = p_routines p → handles i p1 = Some q →
      match i with InNgapPacket _ _ msg => msg ≠ [] | InNgapEvent => True | _ => False end →
      p' = (if ngap_running (p_sys q) then q else finish k q) → process_running (p_sys p') = false ∨ RNgap ∈ p_routines p') as Hgo.
    { intros i p1 q Es Er (s & He & ->)%handles_Some Hi ->. rewrite Es in He. cbn.
      destruct (exec_ngap_goes_on _ _ _ Hi He) as [E1|E1]; [rewrite E1; right; cbn; by rewrite Er|left; by destruct (ngap_running s)]. }
    destruct a; try discriminate Hs; cbn [ngap_step] in Hs.
    + destruct (p_pkts p) as [|[ad c msg] l] eqn:Hq; [done|]. apply bind_Some in Hs as (q & Hh & [= Hs]).
      eapply Hgo; [..|exact Hh| |by symmetry]; try done. apply (Hp (mkNgapPkt ad c msg)). apply list_elem_of_here.
    + apply bind_Some in Hs as (q & Hh & [= Hs]). by eapply Hgo; [..|exact Hh| |symmetry].
  - assert (ike_running (p_sys p') = false) as Hi'.
    { destruct (ike_running (p_sys p')) eqn:Ei; [|done]. exfalso.
      destruct (cnt_pos (one_of RIke) (p_routines p')) as (r & Hr & Hr1); [rewrite (g_ike _ HG'), Ei; cbn; lia|].
      unfold one_of in Hr1. case_bool_decide as Hb; [subst r|cbn in Hr1; lia].
      assert (RIke ∈ p_routines p) as Hr0 by (eapply step_not_new; [exact Hs|done|tauto]).
      apply (cnt_elem (one_of RIke)) in Hr0. rewrite (g_ike _ HG), Hi in Hr0.
      change (one_of RIke RIke) with 1%nat in Hr0. cbn in Hr0. lia. }
    enough (process_running (p_sys p') = false ∨ ∃ s', RShutdown s' ∈ p_routines p') as [|]; [by left|right; by right|].
    destruct l as [k a| | | | |]; try (right; exists s; by rewrite Hm).
    destruct Hm as (r & Hk & Hm). destruct (decide (RShutdown s = r)) as [<-|Hne]; [|right; exists s; by eapply moved_stays].
    unfold step in Hs. destruct (alive p); [|done]. cbn [negb] in Hs. rewrite Hk in Hs. cbn [mbind option_bind routine_step] in Hs.
    destruct a; try discriminate Hs.
    assert (∀ s' q, p_routines q = <[k := RShutdown s']> (p_routines p) → ∃ s', RShutdown s' ∈ p_routines q) as Hbe.
    { intros s' q Hq. exists s'. rewrite Hq, (insert_perm _ _ _ _ Hk). apply list_elem_of_here. }
    destruct s; cbn [shutdown_step] in Hs.
    + destruct (p_cancelled p); [|done]. injection Hs as <-. right. by eapply Hbe.
    + injection Hs as <-. right. by eapply Hbe.
    + apply bind_Some in Hs as (q & [Hq _]%handles_routines & [= <-]). right. eapply Hbe. cbn. by rewrite Hq.
    + injection Hs as <-. right. by eapply Hbe.
    + injection Hs as <-. right. by eapply Hbe.
    + left. apply bind_Some in Hs as (q & (s & He & ->)%handles_Some & Hs). unfold exec in He.
      destruct (process_running (p_sys p)); [|done]. cbn [negb] in He. injection He as <-.
      destruct (list_find _ _) as [[j r]|]; injection Hs as <-; [case_decide|]; done.
Qed.

(** C19. What keeps the interfaces in the kernel: once the NGAP loop has no receiver left that
    would end it - the last one ended by an error other than io.EOF - or the IKE loop has ended by
    a panic before the shutdown, no continuation of the run gets past the wait group. *)
Theorem blocked_never_done p q : runs p → alive p = true → blocked p → reaches p q → p_done q = false.
Proof.
  intros HG%runs_Good Ha Hb Hr.
  assert (Good q ∧ p_done q = false ∧ (process_running (p_sys q) = false ∨ blocked q)) as (_ & ? & _); [|done].
  apply andb_true_iff in Ha as [_ Hd%negb_true_iff].
  induction Hr as [|l q1 q2 _ (HG1 & Hd1 & Hb1) Hs]; [by auto|].
  split; [by eapply Good_step|]. destruct Hb1 as [Hp1|Hb1].
  { unfold step, alive in Hs. by rewrite Hp1 in Hs. }
  split; [|by eapply blocked_step]. apply not_true_is_false. intros Hd2%(step_done _ _ _ HG1 Hs).
  destruct Hb1 as [(Hin & _)|(_ & s & Hin)]; rewrite Hd2 in Hin; by apply not_elem_of_nil in Hin.
Qed.
End Shutdown.

(** ** A process

    One AMF that accepts the connection, all sockets open; a read from a closed SCTP connection
    reports io.EOF, or another error. *)
#[local] Existing Instance toy.
#[local] Instance toy_laws_all : EnvLaws := toy_laws all_ok.
#[local] Existing Instance Factory.sample_env.
Definition net (eof : bool) : NetEnv := {|
  dial_sctp := λ _ _ i, if decide (i = 2%nat) then Some 3 else None;
  get_sent_param := λ _, true;
  set_sent_param := λ _, true;
  subscribe_events := λ _, true;
  remote_addr := λ _, "127.0.0.18:38412";
  nas_listens := λ _, true;
  gre_listens := λ _, true;
  gtpu_resolves := λ _, true;
  ike_resolves := λ _ port, Some (mkUDP [192; 168; 127; 1] port);
  ike_listens := λ _, true;
  closed_is_eof := eof;
|}%string.
#[local] Instance net_eof : NetEnv := net true.

Fixpoint steps (ls : list label) (p : Proc) : Proc :=
  match ls with [] => p | l :: ls => steps ls (default p (step l p)) end.
Lemma steps_reaches ls p q : reaches p q → reaches p (steps ls q).
Proof.
  revert q. induction ls as [|l ls IH]; intros q Hq; [done|]. apply IH. cbn. destruct (step l q) eqn:Hs; [|done].
  by eapply reaches_step.
Qed.

Definition proc0 : Proc := (Run Factory.sample_config (@initial_world toy ([] : list Z) ([] : list Z) ([] : list bytes) "eth0")).2.
Lemma proc0_runs : runs proc0.
Proof.
  exists Factory.sample_config, ([] : list Z), ([] : list Z), ([] : list bytes), "eth0", proc0.
  split; [|apply reaches_refl]. unfold proc0.
  assert ((Run Factory.sample_config (@initial_world toy ([] : list Z) ([] : list Z) ([] : list bytes) "eth0")).1 = None)
    as Hn by (vm_compute; reflexivity).
  destruct (Run _ _) as [o p]. cbn in Hn. by rewrite Hn.
Qed.
Lemma proc0_goroutines : p_routines proc0 =
  [RShutdown SWait; RAmf "127.0.0.18:38412" 3; RNgap; RAccept; RGre; RGtpu;
   RReceiver (mkUDP [192; 168; 127; 1] 500); RReceiver (mkUDP [192; 168; 127; 1] 4500); RIke].
Proof. vm_compute. reflexivity. Qed.
Lemma steps_runs ls p : runs p → runs (steps ls p).
Proof.
  intros (c & g1 & g2 & pool & parent & p0 & HR & Hr). exists c, g1, g2, pool, parent, p0. split; [exact HR|].
  by apply steps_reaches.
Qed.

#[local] Opaque proc0.

(** A whole shutdown in one of its orders. *)
Definition shutdown_schedule : list label :=
  [LCancel; LGo 0 AGo; LGo 0 AGo; LGo 0 AGo; LGo 0 AGo; LGo 0 AGo; LGo 0 AGo; LGo 0 AEof; LGo 0 APacket; LGo 0 AFail;
   LGo 0 AFail; LGo 0 AFail; LGo 0 AFail; LGo 0 AFail; LMain].
Example shutdown_schedule_done :
  p_done (steps shutdown_schedule proc0) = true ∧ IoLinkDel (mkLink "xfrmi-default" 1) ∈ trace (world (steps shutdown_schedule proc0)).
Proof. split; [vm_compute; reflexivity|]. vm_compute. apply list_elem_of_here. Qed.

Definition proc1 : Proc := steps [LCancel] proc0.
Lemma proc1_ngap_ends : ngap_ends proc1.
Proof.
  intros _. left. exists "127.0.0.18:38412"%string, 3. assert (p_routines proc1 = p_routines proc0) as -> by (vm_compute; reflexivity).
  rewrite proc0_goroutines. apply list_elem_of_further, list_elem_of_here.
Qed.


Lemma process_refines_system_witness : reachable (p_sys proc0) ∧ p_wg proc0 = 9.
Proof.
  destruct (process_refines_system proc0 proc0_runs) as (Hr & Hw & _). split; [exact Hr|]. rewrite Hw, proc0_goroutines. reflexivity.
Defined.

(** The receiver of the AMF ends with an error: the loop is never told. *)
Definition proc2 : Proc := steps [LGo 1 AFail] proc0.
Lemma proc2_blocked : blocked proc2.
Proof.
  assert (p_routines proc2 = [RShutdown SWait; RNgap; RAccept; RGre; RGtpu;
    RReceiver (mkUDP [192; 168; 127; 1] 500); RReceiver (mkUDP [192; 168; 127; 1] 4500); RIke]) as Er by (vm_compute; reflexivity).
  left. rewrite Er. split; [apply list_elem_of_further, list_elem_of_here|]. split.
  - intros ad c Hin. by repeat (apply elem_of_cons in Hin as [|Hin]; [done|]); apply not_elem_of_nil in Hin.
  - assert (p_pkts proc2 = []) as -> by (vm_compute; reflexivity). by intros x ?%not_elem_of_nil.
Qed.
Lemma blocked_never_done_witness : p_done (steps (shutdown_schedule ++ shutdown_schedule) proc2) = false.
Proof.
  apply (blocked_never_done proc2); [apply (steps_runs [LGo 1 AFail]), proc0_runs|vm_compute; reflexivity|apply proc2_blocked|].
  apply steps_reaches, reaches_refl.
Defined.
