(* ===== verification/Start.v ===== *)
(** * Start-up (cmd/main.go, pkg/service/init.go, internal/context/context.go)

    From the command line to the running process: the flags that override the configuration,
    the log files, the context with the keys and certificates it reads, the application with
    its logger, and what a failing start leaves behind. Files, parsers of keys and
    certificates, the list of network interfaces and the logger's level names are the class
    [StartEnv]. The pprof server and the metrics server are packages of their own. *)

From Stdlib Require Import Ascii.
From S2P Require Import Prelude Monad IkeMsg NgapTypes NgapMsg Env State ToyEnv Context Xfrm NgapSend Invariant System Service.
From S2P Require Import Factory.

(** Where the logger writes. *)
Inductive LogOut := Stderr | Discard | OtherOut.
#[global] Instance LogOut_eq_dec : EqDecision LogOut.
Proof. solve_decision. Defined.

(** The logger of the process. *)
Record LogState := mkLog { log_Out : LogOut; log_Level : Z; log_ReportCaller : bool }.

Class StartEnv `{E : Env} := {
  clean_path : string → string;
  (** the directory and the file of a path; a path from its elements *)
  split_path : string → string * string;
  join_path : string → string → string;
  log_file_hook : string → bool;
  mkdir_all : string → bool;
  pem_decode : bytes → option bytes;
  (** an RSA private key, or in the PKCS8 form a key of another kind *)
  rsa_key : Type;
  parse_pkcs8 : bytes → option (option rsa_key);
  parse_pkcs1 : bytes → option rsa_key;
  (** the subject public key info of a certificate *)
  parse_certificate : bytes → option bytes;
  new_generator : Z → Z → idgen;
  new_ippool : string → option ippool;
  (** the interfaces with their addresses; a name as an IPv4 address in text form *)
  interfaces : option (list (string * option (list string)));
  resolve_ip4 : string → option string;
  parse_level : string → option Z;
  metrics_starts : string → bool;
}.

Section Start.
Context `{SE : StartEnv} `{FE : FactoryEnv}.

(** ** The context *)

(** src/internal/context/context.go:140-150 (decodePEM) *)
Definition decodePEM (path : string) : res bytes :=
  match read_file (clean_path path) with
  | None => Err "Cannot read file"
  | Some content => match pem_decode content with None => Err "Decode pem failed" | Some b => Ok b end
  end.

(** The text before the first slash. *)
Fixpoint before_slash (s : string) : option string :=
  match s with
  | EmptyString => None
  | String c s =>
      if decide (c = "/"%char) then Some EmptyString else String c <$> before_slash s
  end.

(** src/internal/context/context.go:169-173 (getInterfaceName)

    An address without a slash has the index -1, out of the bounds of the slice. *)
Fixpoint has_address (ip : string) (addrs : list string) : res bool :=
  match addrs with
  | [] => Ok false
  | a :: addrs =>
      match before_slash a with
      | None => Panic "slice bounds out of range"
      | Some p => if decide (ip = p) then Ok true else has_address ip addrs
      end
  end.

(** src/internal/context/context.go:164-174 (getInterfaceName) *)
Fixpoint find_interface (ip : string) (l : list (string * option (list string))) : res string :=
  match l with
  | [] => Err "cannot find interface name for IP"
  | (_, None) :: _ => Err "Addrs"
  | (name, Some addrs) :: l => b ← has_address ip addrs; if (b : bool) then Ok name else find_interface ip l
  end.

(** src/internal/context/context.go:152-176 (getInterfaceName) *)
Definition getInterfaceName (IPAddress : string) : res string :=
  match interfaces with
  | None => Err "Interfaces"
  | Some l =>
      match resolve_ip4 IPAddress with
      | None => Err "Error resolving address"
      | Some ip => find_interface ip l
      end
  end.

(** src/internal/context/context.go:35-68 (N3IWFContext)

    The shared state of State.v with the security data. *)
Record N3IWFContext := mkContext {
  n3iwf_world : World;
  CertificateAuthority : bytes;
  N3IWFCertificate : bytes;
  N3IWFPrivateKey : rsa_key;
}.

Definition required {A} (o : option A) (why : string) : res A := match o with Some a => Ok a | None => Err why end.
Definition MaxInt64 : Z := 2 ^ 63 - 1.

(** src/internal/context/context.go:79-98 (NewContext)

    PKCS8, else PKCS1; only an RSA key is accepted. *)
Definition private_key (c : Config) : res rsa_key :=
  path ← GetIKECertKeyPath c;
  block ← decodePEM path;
  key ← match parse_pkcs8 block with
        | Some key => Ok key
        | None => key ← required (parse_pkcs1 block) "Parse PKCS1 pricate key failed"; Ok (Some key)
        end;
  required key "Private key is not an rsa private key".

(** src/internal/context/context.go:70-138 (NewContext) *)
Definition NewContext (c : Config) : res N3IWFContext :=
  key ← private_key c;
  caPath ← GetIKECAPemPath c;
  block ← decodePEM caPath;
  info ← required (parse_certificate block) "Parse certificate authority failed";
  certPath ← GetIKECertPemPath c;
  cert ← decodePEM certPath;
  range ← GetUEIPAddrRange c;
  pool ← required (new_ippool range) "NewContext()";
  ip ← GetIKEBindAddr c;
  name ← getInterfaceName ip;
  Ok (mkContext (initial_world (new_generator 0 MaxInt64) (new_generator 1 MaxUint32) pool name) (sha1 info) cert key).

(** ** The application *)

(** src/pkg/service/init.go:123-137 (N3iwfApp.SetLogEnable) *)
Definition app_SetLogEnable (enable : bool) (s : Config * LogState) : Config * LogState :=
  if enable && bool_decide (log_Out s.2 = Stderr) then s
  else if negb enable && bool_decide (log_Out s.2 = Discard) then s
  else (SetLogEnable enable s.1, mkLog (if enable then Stderr else Discard) (log_Level s.2) (log_ReportCaller s.2)).

(** src/pkg/service/init.go:139-154 (N3iwfApp.SetLogLevel) *)
Definition app_SetLogLevel (level : string) (s : Config * LogState) : Config * LogState :=
  match parse_level level with
  | None => s
  | Some lvl =>
      if decide (lvl = log_Level s.2) then s
      else (SetLogLevel level s.1, mkLog (log_Out s.2) lvl (log_ReportCaller s.2))
  end.

(** src/pkg/service/init.go:156-164 (N3iwfApp.SetReportCaller) *)
Definition app_SetReportCaller (reportCaller : bool) (s : Config * LogState) : Config * LogState :=
  if decide (reportCaller = log_ReportCaller s.2) then s
  else (SetLogReportCaller reportCaller s.1, mkLog (log_Out s.2) (log_Level s.2) reportCaller).

(** What the metrics server is created with. *)
Record InitMetrics := mkInitMetrics {
  im_BindingIPv4 : string; im_Scheme : string; im_Namespace : string; im_MetricsPort : Z; im_Key : string; im_Pem : string;
}.

(** src/pkg/service/init.go:92-109 (getInitMetrics) *)
Definition getInitMetrics (c : Config) : res InitMetrics :=
  ns ← GetMetricsNamespace c;
  key ← GetMetricsCertKeyPath c;
  pem ← GetMetricsCertPemPath c;
  Ok (mkInitMetrics (GetMetricsBindingAddr c) (GetMetricsScheme c) ns (GetMetricsPort c) key pem).

(** src/pkg/service/init.go:34-45 (N3iwfApp)

    Before it runs: the servers are created empty. *)
Record App := mkApp {
  n3iwfCtx : N3IWFContext;
  app_cfg : Config;
  app_log : LogState;
  metricsServer : option InitMetrics;
}.

(** src/pkg/service/init.go:47-90 (NewApp) *)
Definition NewApp (c : Config) (tlsKeyLogPath : string) (log : LogState) : res App :=
  let '(c, log) := app_SetLogEnable (GetLogEnable c) (c, log) in
  let '(c, log) := app_SetLogLevel (GetLogLevel c) (c, log) in
  let '(c, log) := app_SetReportCaller (GetLogReportCaller c) (c, log) in
  ctx ← NewContext c;
  if AreMetricsEnabled c
  then
    m ← getInitMetrics c;
    if metrics_starts tlsKeyLogPath then Ok (mkApp ctx c log (Some m)) else Err "metrics.NewServer"
  else Ok (mkApp ctx c log None).

(** ** The command line *)

(** src/cmd/main.go:33-65 (main)

    The flags, each with its value or the zero value. *)
Record Flags := mkFlags {
  fl_config : string; fl_log : list string; fl_nolog : bool; fl_loglevel : string; fl_reportcaller : bool; fl_debug : bool;
}.

(** src/cmd/main.go:137-160 (initLogFile)

    The key file of the first log path is the one returned. *)
Fixpoint initLogFile (logTlsKeyPath : string) (logNfPath : list string) : res string :=
  match logNfPath with
  | [] => Ok logTlsKeyPath
  | path :: l =>
      if negb (log_file_hook path) then Err "LogFileHook"
      else if decide (logTlsKeyPath ≠ EmptyString) then initLogFile logTlsKeyPath l
      else
        let tmpDir := join_path (split_path path).1 "key" in
        if negb (mkdir_all tmpDir) then Err "MkdirAll"
        else initLogFile (join_path tmpDir (split_path N3iwfDefaultTLSKeyLogPath).2) l
  end.

(** src/cmd/main.go:114-123 (action) *)
Definition override (f : Flags) (c : Config) : Config :=
  let c := if fl_nolog f then SetLogEnable false c else c in
  let c := if decide (fl_loglevel f ≠ EmptyString) then SetLogLevel (fl_loglevel f) c else c in
  if fl_reportcaller f then SetLogReportCaller true c else c.

(** src/cmd/main.go:81-135 (action)

    Up to the start of the application. *)
Definition action (f : Flags) (log : LogState) : res App :=
  tlsKeyLogPath ← initLogFile EmptyString (fl_log f);
  c ← ReadConfig (fl_config f);
  NewApp (override f c) tlsKeyLogPath log.
End Start.

(** ** Properties *)
Section Properties.
Context `{SE : StartEnv} `{FE : FactoryEnv}.

Lemma required_Ok {A} (o : option A) why a : required o why = Ok a → o = Some a.
Proof. destruct o; [by intros [= ->]|done]. Qed.
Lemma decodePEM_Ok path b : decodePEM path = Ok b → read_file (clean_path path) ≫= pem_decode = Some b.
Proof. unfold decodePEM. destruct (read_file _) as [x|]; [|done]. cbn. destruct (pem_decode x); [by intros [= ->]|done]. Qed.

(** An interface has the address [ip]. *)
Definition bears (ip : string) (addrs : list string) : Prop := Exists (λ a, before_slash a = Some ip) addrs.

Lemma has_address_spec ip addrs b : has_address ip addrs = Ok b → if b then bears ip addrs else ¬ bears ip addrs.
Proof.
  unfold bears. induction addrs as [|a addrs IH]; cbn.
  - intros [= <-]. by intros ?%Exists_nil.
  - destruct (before_slash a) as [p|] eqn:Ea; [|done]. case_decide as Hp.
    + intros [= <-]. left. by subst.
    + intros Hb%IH. destruct b; [by right|]. rewrite Exists_cons, Ea. intros [[= E1]|He]; [congruence|exact (Hb He)].
Qed.

(** The first interface that bears the address. *)
Lemma find_interface_spec ip l name : find_interface ip l = Ok name →
  ∃ before addrs after, l = before ++ (name, Some addrs) :: after ∧ bears ip addrs ∧
    Forall (λ x, ∃ addrs, x.2 = Some addrs ∧ ¬ bears ip addrs) before.
Proof.
  induction l as [|[n [addrs|]] l IH]; cbn; [done| |done]. intros (b & Hb%has_address_spec & Hn)%bind_Ok. destruct b.
  - injection Hn as ->. by exists [], addrs, l.
  - destruct (IH Hn) as (before & addrs' & after & -> & Hi & Hf). exists ((n, Some addrs) :: before), addrs', after.
    split; [done|]. split; [done|]. apply Forall_cons. split; [|done]. by exists addrs.
Qed.

(** C20. A context is created only from an RSA key that the key file holds in one of the two
    formats, a certificate authority and a certificate that can be decoded and an address range
    that can be parsed; the identifier generators cover the 63-bit UE identifiers and the
    non-zero tunnel identifiers, the hash is that of the authority's public key, no UE exists
    yet, and the parent of the XFRM interfaces is the first interface with the bind address. *)
Theorem NewContext_ok c n :
  NewContext c = Ok n →
  ∃ co block caBlock info range pool ip before addrs after,
    c_Configuration c = Some co ∧
    read_file (clean_path (or_default (co_PrivateKey co) N3iwfDefaultCertKeyPath)) ≫= pem_decode = Some block ∧
    (parse_pkcs8 block = Some (Some (N3IWFPrivateKey n)) ∨
      parse_pkcs8 block = None ∧ parse_pkcs1 block = Some (N3IWFPrivateKey n)) ∧
    read_file (clean_path (or_default (co_CertificateAuthority co) N3iwfDefaultCertPemPath)) ≫= pem_decode = Some caBlock ∧
    parse_certificate caBlock = Some info ∧ CertificateAuthority n = sha1 info ∧
    read_file (clean_path (or_default (co_Certificate co) N3iwfDefaultCertPemPath)) ≫= pem_decode = Some (N3IWFCertificate n) ∧
    range = co_UEIPAddressRange co ∧ new_ippool range = Some pool ∧ resolve_ip4 (co_IKEBindAddr co) = Some ip ∧
    interfaces = Some (before ++ (XfrmParentIfaceName (n3iwf_world n), Some addrs) :: after) ∧ bears ip addrs ∧
    Forall (λ x, ∃ addrs, x.2 = Some addrs ∧ ¬ bears ip addrs) before ∧
    n3iwf_world n = initial_world (new_generator 0 MaxInt64) (new_generator 1 MaxUint32) pool (XfrmParentIfaceName (n3iwf_world n)).
Proof.
  unfold NewContext, private_key, GetIKECertKeyPath, GetIKECAPemPath, GetIKECertPemPath, GetUEIPAddrRange, GetIKEBindAddr.
  destruct (c_Configuration c) as [co|]; [|done]. cbn [deref].
  rewrite !bind_Ok. cbn [mret res_ret]. intros (key & (path & [= <-] & Hp)%bind_Ok & H).
  apply bind_Ok in Hp as (block & Hblock%decodePEM_Ok & Hp). apply bind_Ok in Hp as (k & Hk & Hkey%required_Ok).
  apply bind_Ok in H as (p1 & [= <-] & H). apply bind_Ok in H as (caBlock & Hca%decodePEM_Ok & H).
  apply bind_Ok in H as (info & Hinfo%required_Ok & H). apply bind_Ok in H as (p2 & [= <-] & H).
  apply bind_Ok in H as (cert & Hcert%decodePEM_Ok & H). apply bind_Ok in H as (rg & [= <-] & H).
  apply bind_Ok in H as (pool & Hpool%required_Ok & H). apply bind_Ok in H as (addr & [= <-] & H).
  apply bind_Ok in H as (name & Hname & [= <-]). unfold getInterfaceName in Hname.
  destruct interfaces as [l|] eqn:Hl; [|done]. destruct (resolve_ip4 _) as [ip|] eqn:Hip; [|done].
  destruct (find_interface_spec _ _ _ Hname) as (before & addrs & after & -> & Hb & Hf).
  exists co, block, caBlock, info, (co_UEIPAddressRange co), pool, ip, before, addrs, after.
  repeat (split; [done|]). split; [|by repeat split].
  destruct (parse_pkcs8 block) as [k'|]; [injection Hk as ->; left; by f_equal|]. right. split; [done|].
  apply bind_Ok in Hk as (k' & Hk%required_Ok & [= <-]). cbn. by injection Hkey as ->.
Qed.

Lemma SetLogEnable_same c : c_Logger c ≠ None → SetLogEnable (GetLogEnable c) c = c.
Proof. destruct c as [? ? [[]|]]; done. Qed.

(** The three setters keep the rest of the configuration, and each one the other two values. *)
Lemma app_SetLogEnable_spec b s : let s' := app_SetLogEnable b s in
  log_Out s'.2 = (if b then Stderr else Discard) ∧ log_Level s'.2 = log_Level s.2 ∧ log_ReportCaller s'.2 = log_ReportCaller s.2 ∧
  (s'.1 = s.1 ∨ s'.1 = SetLogEnable b s.1).
Proof.
  unfold app_SetLogEnable. destruct s as [c [o l r]]. cbn.
  destruct b; cbn; case_bool_decide; subst; cbn; repeat split; auto.
Qed.
Lemma app_SetLogLevel_spec v s : let s' := app_SetLogLevel v s in
  log_Out s'.2 = log_Out s.2 ∧ log_ReportCaller s'.2 = log_ReportCaller s.2 ∧
  (∀ lvl, parse_level v = Some lvl → log_Level s'.2 = lvl) ∧ (s'.1 = s.1 ∨ s'.1 = SetLogLevel v s.1).
Proof.
  unfold app_SetLogLevel. destruct s as [c [o l r]]. cbn. destruct (parse_level v) as [lvl|]; [|by repeat split; auto].
  case_decide; cbn; repeat split; auto; by intros ? [= <-].
Qed.
Lemma app_SetReportCaller_spec b s : let s' := app_SetReportCaller b s in
  log_Out s'.2 = log_Out s.2 ∧ log_Level s'.2 = log_Level s.2 ∧ log_ReportCaller s'.2 = b ∧
  (s'.1 = s.1 ∨ s'.1 = SetLogReportCaller b s.1).
Proof. unfold app_SetReportCaller. destruct s as [c [o l r]]. cbn. case_decide; cbn; repeat split; auto. Qed.

(** The values that the accessors give after a setter was called with the value they gave. *)
Definition log_view (c : Config) : bool * string * bool * option Configuration :=
  (GetLogEnable c, GetLogLevel c, GetLogReportCaller c, c_Configuration c).
Lemma log_view_enable c : log_view (SetLogEnable (GetLogEnable c) c) = log_view c.
Proof. by destruct c as [? ? [[]|]]. Qed.
Lemma log_view_level c : log_view (SetLogLevel (GetLogLevel c) c) = log_view c.
Proof. by destruct c as [? ? [[]|]]. Qed.
Lemma log_view_caller c : log_view (SetLogReportCaller (GetLogReportCaller c) c) = log_view c.
Proof. by destruct c as [? ? [[]|]]. Qed.

(** The process logs as its configuration says: whatever the logger was set to before,
    after NewApp its output, its level (if the name is one) and the reporting of callers are the
    configured ones; these are the values of the file unless a flag replaces them, and the
    flags change nothing else of the configuration. *)
Theorem logger_follows_config f log c a :
  ReadConfig (fl_config f) = Ok c → action f log = Ok a →
  log_Out (app_log a) = (if GetLogEnable (app_cfg a) then Stderr else Discard) ∧
  (∀ lvl, parse_level (GetLogLevel (app_cfg a)) = Some lvl → log_Level (app_log a) = lvl) ∧
  log_ReportCaller (app_log a) = GetLogReportCaller (app_cfg a) ∧
  log_view (app_cfg a) =
    (if fl_nolog f then false else GetLogEnable c,
     if decide (fl_loglevel f ≠ EmptyString) then fl_loglevel f else GetLogLevel c,
     if fl_reportcaller f then true else GetLogReportCaller c,
     c_Configuration c).
Proof.
  intros Hc. unfold action. intros (tls & _ & H)%bind_Ok. rewrite Hc in H. cbn in H.
  assert (log_view (override f c) =
    (if fl_nolog f then false else GetLogEnable c,
     if decide (fl_loglevel f ≠ EmptyString) then fl_loglevel f else GetLogLevel c,
     if fl_reportcaller f then true else GetLogReportCaller c, c_Configuration c)) as Ho.
  { unfold override. destruct (fl_nolog f), (decide (fl_loglevel f ≠ EmptyString)), (fl_reportcaller f), c as [? ? [[]|]]; done. }
  rewrite <- Ho. set (c0 := override f c) in *. clearbody c0. unfold NewApp in H.
  pose proof (app_SetLogEnable_spec (GetLogEnable c0) (c0, log)) as H1.
  destruct (app_SetLogEnable _ _) as [c1 l1]. cbn in H1. destruct H1 as (Eo & _ & _ & H1).
  pose proof (app_SetLogLevel_spec (GetLogLevel c1) (c1, l1)) as H2.
  destruct (app_SetLogLevel _ _) as [c2 l2]. cbn in H2. destruct H2 as (Eo2 & _ & El2 & H2).
  pose proof (app_SetReportCaller_spec (GetLogReportCaller c2) (c2, l2)) as H3.
  destruct (app_SetReportCaller _ _) as [c3 l3]. cbn in H3. destruct H3 as (Eo3 & El3 & Er3 & H3).
  assert (log_view c1 = log_view c0) as V1 by (destruct H1 as [->| ->]; [done|apply log_view_enable]).
  assert (log_view c2 = log_view c1) as V2 by (destruct H2 as [->| ->]; [done|apply log_view_level]).
  assert (log_view c3 = log_view c2) as V3 by (destruct H3 as [->| ->]; [done|apply log_view_caller]).
  assert (app_cfg a = c3 ∧ app_log a = l3) as [-> ->].
  { apply bind_Ok in H as (ctx & _ & H). destruct (AreMetricsEnabled c3); [|by injection H as <-].
    apply bind_Ok in H as (m & _ & H). destruct (metrics_starts tls); [|done]. by injection H as <-. }
  rewrite Eo3, Eo2, Eo, El3, Er3. unfold log_view in *. simplify_eq/=.
  assert (GetLogEnable c3 = GetLogEnable c0) as -> by congruence.
  split; [done|]. split; [intros lvl Hl; apply El2; congruence|]. split; congruence.
Qed.
End Properties.

(** ** A start that fails *)
Section Failure.
Context `{E : Env} `{NE : NetEnv} `{FE : FactoryEnv}.

(** [keeps P a]: a part of the start-up keeps [P], whether it goes on or fails. *)
Definition keeps (P : World → Prop) (a : startup) : Prop := ∀ p, P (world p) → P (world (a p).2).
Lemma keeps_also P a b : keeps P a → keeps P b → keeps P (also a b).
Proof. intros Ha Hb p Hp. unfold also. specialize (Ha p Hp). destruct (a p) as [[e|] q]; [done|]. by apply Hb. Qed.
Lemma keeps_with_cfg {A} P (r : res A) f : (∀ a, keeps P (f a)) → keeps P (with_cfg r f).
Proof. intros H p Hp. unfold with_cfg. destruct r; [by apply H|done..]. Qed.
Lemma keeps_fail_unless P b why : keeps P (fail_unless b why).
Proof. by intros p Hp. Qed.
Lemma keeps_update P (f : Proc → Proc) : (∀ p, world (f p) = world p) → keeps P (λ p, (None, f p)).
Proof. intros H p Hp. cbn. by rewrite H. Qed.

(** Nothing but NGAP messages leaves the process, and the interfaces stay. *)
Definition only_ngap (w w' : World) : Prop :=
  XfrmIfaces w' = XfrmIfaces w ∧ ∃ t, trace w' = t ++ trace w ∧ Forall (λ x, match x with IoNgap _ _ _ => True | _ => False end) t.
Lemma SendNGSetupRequest_only_ngap {R} a c w : only_ngap w ((SendNGSetupRequest a c : H R unit) w).2.
Proof.
  unfold SendNGSetupRequest. rewrite run_bind. cbn [gets].
  assert (only_ngap w w) as Hw by (split; [done|]; by exists []).
  destruct (negb _); [exact Hw|]. rewrite run_bind. destruct BuildNGSetupRequest as [m|e|e]; cbn [lift mret prog_ret panic]; [|exact Hw..].
  destruct (ngap_encode m) as [pkt|]; [|exact Hw]. split; [done|]. exists [IoNgap c m pkt]. split; [done|]. by repeat constructor.
Qed.

(** The default interface is in the table and has not been deleted. *)
Definition left_behind (link : Link) (w : World) : Prop :=
  XfrmIfaces w !! cfg_XfrmIfaceId cfg = Some link ∧ (∃ name parent, IoLinkAdd name parent (cfg_XfrmIfaceId cfg) ∈ trace w) ∧
  ∀ l, IoLinkDel l ∉ trace w.
Lemma left_behind_only_ngap link w w' : only_ngap w w' → left_behind link w → left_behind link w'.
Proof.
  intros (Hx & t & Ht & Hf) (Hl & (n & p & Ha) & Hd). split; [by rewrite Hx|]. rewrite Ht. split.
  - exists n, p. apply elem_of_app. by right.
  - intros l [Hin|Hin]%elem_of_app; [|by apply (Hd l)]. rewrite Forall_forall in Hf. exact (Hf _ Hin).
Qed.

Lemma start_leaves w s : trace w = [] → XfrmIfaces w = ∅ → start w = Some s →
  ∃ link, left_behind link (sys_world s).
Proof.
  intros Ht Hx. unfold start, initDefaultXfrmInterface, SetupIPsecXfrmi, call, do_io, gets, modify, mbind, prog_bind, ret, mret, prog_ret.
  cbn -[io_ok io_link]. repeat (destruct (io_ok _ _); cbn -[io_ok io_link]; [|done]).
  intros [= <-]. eexists. split; [cbn -[io_link]; rewrite Hx, lookup_empty; apply lookup_insert_eq|]. split.
  - do 2 eexists. cbn -[io_link]. do 4 apply list_elem_of_further. apply list_elem_of_here.
  - intros l. cbn -[io_link]. rewrite Ht. intros Hin.
    by repeat (apply elem_of_cons in Hin as [|Hin]; [done|]); apply not_elem_of_nil in Hin.
Qed.

Lemma keeps_start_amfs link la l : keeps (left_behind link) (start_amfs la l).
Proof.
  induction l as [|remote l IH]; intros p Hp; cbn [start_amfs]; [done|]. destruct (connect_amf la remote) as [e|conn]; [done|].
  apply IH. change (left_behind link (world (default p (handles (InConnected (remote_addr conn) conn) p)))).
  destruct (handles _ p) as [q|] eqn:Hh; [|done]. unfold handles in Hh. apply bind_Some in Hh as (s & He & [= <-]).
  unfold exec in He. destruct (process_running _); [|done]. cbn [negb] in He. injection He as <-.
  eapply left_behind_only_ngap; [apply SendNGSetupRequest_only_ngap|exact Hp].
Qed.

End Failure.

(** ** A host

    Two network interfaces, a PKCS1 key. The AMF answers, or it does not. *)
#[local] Existing Instance toy.
#[local] Existing Instance sample_env.
#[local] Instance sample_start : StartEnv := {|
  clean_path := λ p, p;
  split_path := λ p, (p, p);
  join_path := λ a b, (a +:+ "/" +:+ b)%string;
  log_file_hook := λ _, true;
  mkdir_all := λ _, true;
  pem_decode := λ b, Some b;
  rsa_key := bytes;
  parse_pkcs8 := λ _, None;
  parse_pkcs1 := λ b, Some b;
  parse_certificate := λ b, Some b;
  new_generator := λ _ _, ([] : list Z);
  new_ippool := λ _, Some ([] : list bytes);
  interfaces := Some [("lo", Some ["127.0.0.1/8"]); ("eth0", Some ["10.9.0.1/16"; "172.16.2.100/24"])]%string;
  resolve_ip4 := λ s, Some s;
  parse_level := λ s, if decide (s = "info"%string) then Some 4 else if decide (s = "debug"%string) then Some 5 else None;
  metrics_starts := λ _, true;
|}.

Lemma NewContext_ok_witness : ∃ n, NewContext sample_config = Ok n ∧
  ∃ before addrs after, interfaces = Some (before ++ ("eth0"%string, Some addrs) :: after) ∧ bears "172.16.2.100" addrs.
Proof.
  assert (match NewContext sample_config with
    | Ok n => bool_decide (XfrmParentIfaceName (n3iwf_world n) = "eth0"%string) | _ => false end = true) as H by (vm_compute; reflexivity).
  destruct (NewContext sample_config) as [n|e|e] eqn:Hn; [|discriminate H..]. exists n. split; [done|].
  apply bool_decide_eq_true in H as En.
  destruct (NewContext_ok sample_config n Hn) as
    (co & b & cb & i & r & pl & ip & before & addrs & after & Hc & _ & _ & _ & _ & _ & _ & _ & _ & Hip & Hi & Hb & _).
  exists before, addrs, after. split; [by rewrite <- En|]. injection Hc as <-. injection Hip as <-. exact Hb.
Defined.

Definition sample_flags : Flags := mkFlags EmptyString ["./log/n3iwf.log"%string] true "debug" false false.
Lemma logger_follows_config_witness : ∃ a, action sample_flags (mkLog Stderr 4 false) = Ok a ∧
  log_Out (app_log a) = Discard ∧ log_Level (app_log a) = 5.
Proof.
  assert (is_ok (action sample_flags (mkLog Stderr 4 false)) = true) as H by (vm_compute; reflexivity).
  destruct (action sample_flags (mkLog Stderr 4 false)) as [a|e|e] eqn:Ha; [|discriminate H..]. exists a. split; [done|].
  destruct (logger_follows_config sample_flags (mkLog Stderr 4 false) sample_config a sample_ReadConfig Ha) as (Ho & Hl & _ & Hv).
  injection Hv as He Hlv _ _. split; [by rewrite Ho, He|]. apply Hl. by rewrite Hlv.
Defined.

#[local] Instance unreachable_amf : NetEnv := {|
  dial_sctp := λ _ _ _, None;
  get_sent_param := λ _, true;
  set_sent_param := λ _, true;
  subscribe_events := λ _, true;
  remote_addr := λ _, EmptyString;
  nas_listens := λ _, true;
  gre_listens := λ _, true;
  gtpu_resolves := λ _, true;
  ike_resolves := λ _ port, Some (mkUDP [192; 168; 127; 1] port);
  ike_listens := λ _, true;
  closed_is_eof := true;
|}.
Definition context0 : World := @initial_world toy ([] : list Z) ([] : list Z) ([] : list bytes) "eth0".
