(* ===== verification/Sessions.v ===== *)
(** * The life of a PDU session set-up, across both servers

    A set-up starts in the NGAP handlers, which sort the requested sessions into
    unactivated and failed ones; the IKE server then requests one child SA after the other;
    the NGAP server reports the outcome. The three share the temporary set-up data of the UE.
    Here: what the sorting leaves, the end of the request loop, and what is reported. *)

From S2P Require Import Prelude Monad NgapTypes NgapMsg IkeMsg Proposals Env State ToyEnv Context Xfrm IkeServer IkeSaInit IkeAuth IkeEvents NgapSend NgapEvents NgapUe Invariant.

(** ** Results of early returns *)
Section Returns.
Context {S R : Type} (P : R → Prop).

(** Every early return has a result that satisfies [P]. *)
Definition returns {A} (m : prog S R A) : Prop := ∀ s r, (m s).1 = Return r → P r.

Lemma returns_bind {A B} (m : prog S R A) (f : A → prog S R B) :
  returns m → (∀ a, returns (f a)) → returns (m ≫= f).
Proof.
  intros Hm Hf s r. rewrite run_bind. destruct (m s) as [[a|r'|e] s'] eqn:Em; [apply Hf| |done].
  intros [= <-]. apply (Hm s). by rewrite Em.
Qed.
Lemma returns_none {A} (m : prog S R A) :
  (∀ s, match (m s).1 with Return _ => False | _ => True end) → returns m.
Proof. intros H s r Hr. specialize (H s). by rewrite Hr in H. Qed.
Lemma returns_for_each {A} (l : list A) body :
  (∀ x, returns (body x : prog S R unit)) → returns (for_each l body).
Proof. intros H. induction l; [by apply returns_none|]. by apply returns_bind. Qed.
End Returns.

#[global] Instance EvtError_eq_dec : EqDecision EvtError.
Proof. solve_decision. Defined.

Section Sessions.
Context `{E : Env}.
Implicit Types w : World.

(** ** Sorting *)

(** What the set-up of sessions keeps: of every session its identifier and its tunnel. *)
Definition session_kept (s s' : PDUSession) : Prop :=
  pdu_Id s' = pdu_Id s ∧ (is_Some (GTPConnInfo s) → is_Some (GTPConnInfo s')).
Definition sorting w w' : Prop :=
  below (h_pdu w) (next_ref w) → below (h_pdu w') (next_ref w') ∧
    ∀ p s, h_pdu w !! p = Some s → ∃ s', h_pdu w' !! p = Some s' ∧ session_kept s s'.

#[export] Instance sorting_preorder : PreOrder sorting.
Proof.
  split.
  - intros w Hb. split; [done|]. intros p s Hs. by exists s.
  - intros w1 w2 w3 H1 H2 (Hb & Hk)%H1. destruct (H2 Hb) as (Hb' & Hk'). split; [done|].
    intros p s (s' & (s'' & ? & [? ?])%Hk' & [? ?])%Hk. exists s''. split; [done|].
    split; [congruence|auto].
Qed.

Lemma sorting_upd_pdu {R} p f : (∀ s, session_kept s (f s)) → stable sorting (upd_pdu p f : H R unit).
Proof.
  intros Hf w Hb. cbn -[alter]. split; [by apply below_alter|]. intros q s Hs.
  destruct (decide (q = p)) as [->|]; [exists (f s); rewrite lookup_alter_eq, Hs; by split; [|apply Hf]|].
  exists s. by rewrite lookup_alter_ne.
Qed.
Lemma sorting_upd_ran {R} r f : stable sorting (upd_ran r f : H R unit).
Proof. intros w Hb. split; [done|]. intros p s Hs. by exists s. Qed.
Lemma sorting_upd_temp {R} r f : stable sorting (upd_temp r f : H R unit).
Proof. intros w Hb. split; [done|]. intros p s Hs. by exists s. Qed.
Lemma sorting_new_pdu {R} s : stable sorting (new_pdu s : H R ref).
Proof.
  intros w Hb. set (w' := (_ w).2). change (h_pdu w') with (<[next_ref w := s]> (h_pdu w)).
  split; [by apply below_insert|]. intros p s' Hs. exists s'. split; [|done].
  rewrite lookup_insert_ne; [done|]. intros <-. by rewrite (below_fresh _ _ Hb) in Hs.
Qed.
Lemma sorting_NewTEID {R} r : stable sorting (NewTEID r : H R Z).
Proof.
  unfold NewTEID. repeat stable_step; intros w Hb; (split; [done|]; intros p s Hs; by exists s).
Qed.

#[local] Hint Extern 1 (stable sorting (upd_pdu _ _)) => apply sorting_upd_pdu; intros ?; split; cbn; eauto : go_rules.
#[local] Hint Resolve sorting_NewTEID sorting_upd_ran sorting_upd_temp sorting_new_pdu : go_rules.
Lemma sorting_security p x : stable sorting (setup_security p x).
Proof. unfold setup_security. stable_auto. Qed.
Lemma sorting_qos p l : stable sorting (setup_qos p l).
Proof. unfold setup_qos. stable_auto. Qed.
Lemma sorting_tunnel r p x : stable sorting (setup_tunnel r p x).
Proof. unfold setup_tunnel. stable_auto. Qed.
#[local] Hint Resolve sorting_security sorting_qos sorting_tunnel : go_rules.
Lemma sorting_transfer r p ies : stable sorting (handlePDUSessionResourceSetupRequestTransfer r p ies).
Proof. unfold handlePDUSessionResourceSetupRequestTransfer. stable_auto. Qed.
#[local] Hint Resolve sorting_transfer : go_rules.
Lemma sorting_setup_session {R} cxt r tmp item : stable sorting (setup_session cxt r tmp item : H R unit).
Proof.
  unfold setup_session, CreatePDUSession, DeletePDUSession, append_failed, get_ran, get_temp. stable_auto.
Qed.
Lemma transfer_temps r p ies : stable (keeps h_temp) (handlePDUSessionResourceSetupRequestTransfer r p ies).
Proof.
  unfold handlePDUSessionResourceSetupRequestTransfer, setup_security, setup_qos, setup_tunnel, NewTEID. keeps_auto.
Qed.

Lemma NewTEID_sessions {R} r : stable (keeps h_pdu) (NewTEID r : H R Z).
Proof. unfold NewTEID. keeps_auto. Qed.

Lemma NewTEID_next {R} r w : ∃ t w', (NewTEID r : H R Z) w = (Next t, w').
Proof.
  unfold NewTEID, mbind, prog_bind. cbn. destruct (id_alloc _) as [[t g]|]; cbn; [|by do 2 eexists].
  case_decide; by do 2 eexists.
Qed.

(** A successful transfer has given the session its tunnel. *)
Lemma setup_tunnel_true r p ul w x w' s :
  setup_tunnel r p ul w = (Next (true, x), w') → h_pdu w !! p = Some s →
  ∃ s', h_pdu w' !! p = Some s' ∧ is_Some (GTPConnInfo s').
Proof.
  unfold setup_tunnel. destruct ul as [[g|]|]; [|done..]. rewrite !run_bind. cbn [deref mret prog_ret].
  rewrite run_bind. cbn [deref mret prog_ret]. case_decide; [done|].
  rewrite run_bind. destruct (slice_to _ _) as [teid|?|?]; [|done..]. cbn [lift mret prog_ret].
  destruct (udp_resolves _); [|done]. cbn [negb]. rewrite run_bind.
  destruct (NewTEID r w) as [[t|?|?] w1] eqn:Ht; [|done..]. case_decide; [done|].
  rewrite run_bind. cbn [upd_pdu modify]. intros [= <- <-] Hs.
  pose proof (NewTEID_sessions (R := bool * bytes) r w) as E1. unfold keeps in E1. rewrite Ht in E1. cbn in E1.
  cbn -[alter]. rewrite lookup_alter_eq, E1, Hs. by eexists.
Qed.

(** A session stays in the heap over statements that keep sessions. *)
Lemma sorting_bind_next {R A B} (m : H R A) (f : A → H R B) w b w' p :
  stable sorting m → (m ≫= f) w = (Next b, w') → below (h_pdu w) (next_ref w) → is_Some (h_pdu w !! p) →
  ∃ a w1, f a w1 = (Next b, w') ∧ below (h_pdu w1) (next_ref w1) ∧ is_Some (h_pdu w1 !! p).
Proof.
  intros Hm Hr Hb [s Hs]. destruct (Hm w Hb) as (Hb1 & Hk). rewrite run_bind in Hr.
  destruct (m w) as [[a|?|?] w1]; [|done..]. exists a, w1. split; [done|]. split; [done|].
  destruct (Hk _ _ Hs) as (s' & ? & _). by exists s'.
Qed.

Lemma transfer_true r p ies w x w' :
  handlePDUSessionResourceSetupRequestTransfer r p ies w = (Next (true, x), w') →
  below (h_pdu w) (next_ref w) → is_Some (h_pdu w !! p) →
  ∃ s', h_pdu w' !! p = Some s' ∧ is_Some (GTPConnInfo s').
Proof.
  unfold handlePDUSessionResourceSetupRequestTransfer. destruct (setup_ies ies) as [l [|d ds]]; [|done].
  do 4 (intros Hr Hb Hp; eapply sorting_bind_next in Hr as (? & ? & Hr & Hb' & Hp'); [|solve [auto with go_rules nocore | stable_auto]|done|done];
    revert Hr Hb' Hp'; clear Hb Hp; cbv beta).
  intros Hr _ [s Hs]. by eapply setup_tunnel_true.
Qed.

Lemma transfer_returns_false r p ies :
  returns (λ x, x.1 = false) (handlePDUSessionResourceSetupRequestTransfer r p ies).
Proof.
  assert (∀ b, returns (λ x : bool * bytes, x.1 = false) (ret (false, b) : H (bool * bytes) unit)) as Hf
    by (intros b w x [= <-]; done).
  unfold handlePDUSessionResourceSetupRequestTransfer. destruct (setup_ies ies) as [l [|d ds]].
  2: { intros w x [= <-]. done. }
  apply returns_bind; [by apply returns_none|intros _].
  apply returns_bind; [|intros _; apply returns_bind; [|intros items; apply returns_bind; [|intros _]]].
  - unfold setup_security. destruct (tr_Security l) as [s|]; [|by apply returns_none].
    apply returns_bind; [|intros ?]; [destruct (sei_Integrity s)|destruct (sei_Confidentiality s)];
      first [apply Hf | by apply returns_none].
  - apply returns_none. by destruct (tr_Qos l).
  - unfold setup_qos. apply returns_for_each. intros i. apply returns_bind; [by apply returns_none|]. intros _.
    case_decide; [apply Hf|by apply returns_none].
  - intros w x. unfold setup_tunnel. destruct (tr_UL l) as [[g|]|]; [|done..].
    rewrite !run_bind. cbn [deref mret prog_ret]. rewrite run_bind. cbn [deref mret prog_ret].
    case_decide; [by intros [= <-]|]. rewrite run_bind. destruct (slice_to _ _); [|done..]. cbn [lift mret prog_ret].
    destruct (udp_resolves _); [|by intros [= <-]]. cbn [negb]. rewrite run_bind. destruct (NewTEID_next (R := bool * bytes) r w) as (t & w1 & ->).
    case_decide; [by intros [= <-]|done].
Qed.

(** The failed sessions of a procedure. *)
Definition failed_list (cxt : bool) (t : PDUSessionSetupTemporaryData) : option (list SessionItem) :=
  if cxt then FailedListCxtRes t else FailedListSURes t.
Definition set_failed (cxt : bool) (l : list SessionItem) (t : PDUSessionSetupTemporaryData) :=
  if cxt then t <| FailedListCxtRes := Some l |> else t <| FailedListSURes := Some l |>.

Lemma run_upd_temp {R} w r f t :
  h_temp w !! r = Some t → (upd_temp r f : H R unit) w = (Next tt, w <| h_temp := <[r := f t]> (h_temp w) |>).
Proof.
  intros Ht. unfold upd_temp, modify, update. cbn -[alter]. do 2 f_equal.
  apply map_eq. intros k. destruct (decide (k = r)) as [->|]; [by rewrite lookup_alter_eq, Ht, lookup_insert_eq|].
  by rewrite lookup_alter_ne, lookup_insert_ne.
Qed.

Lemma append_failed_run {R} cxt tmp id tr w t fl :
  h_temp w !! tmp = Some t → failed_list cxt t = Some fl →
  (append_failed cxt tmp id tr : H R unit) w =
    (Next tt, w <| h_temp := <[tmp := set_failed cxt (fl ++ [mkItem id tr]) t]> (h_temp w) |>).
Proof.
  intros Ht Hf. unfold append_failed. rewrite run_bind, (run_get_temp w tmp t Ht).
  destruct cxt; cbn in Hf; rewrite Hf; rewrite run_bind; cbn [append_item lift mret prog_ret]; by apply run_upd_temp.
Qed.

Lemma CreatePDUSession_run {R} r id n w :
  match (CreatePDUSession r id n : H R _) w with
  | (Next None, w') => w' = w
  | (Next (Some p), w') => p = next_ref w ∧ next_ref w' = S p ∧ h_temp w' = h_temp w ∧
      ∃ s, h_pdu w' = <[p := s]> (h_pdu w) ∧ pdu_Id s = id
  | (Return _, _) => False
  | (Panicked _, _) => True
  end.
Proof.
  unfold CreatePDUSession. rewrite run_bind. destruct (get_ran (Some r) w) as [[u|?|?] w1] eqn:Hu; [|by unfold get_ran, mbind, prog_bind in Hu; cbn in Hu; destruct (h_ran w !! r)|done].
  apply (get_at h_ran) in Hu as (-> & _). destruct (PduSessionList u !! id); [done|].
  unfold new_pdu, fresh_ref, mbind, prog_bind. cbn. do 3 (split; [done|]). by eexists.
Qed.

(** The outcome of one session: it ends up in exactly one of the two lists. *)
Definition sorted_session (cxt : bool) (tmp : ref) (item : SetupItem) (t : PDUSessionSetupTemporaryData)
    (fl : list SessionItem) w w' : Prop :=
  below (h_pdu w') (next_ref w') ∧
  (∀ p s, h_pdu w !! p = Some s → ∃ s', h_pdu w' !! p = Some s' ∧ session_kept s s') ∧
  ∃ t', h_temp w' !! tmp = Some t' ∧ FailedErrStr t' = FailedErrStr t ∧
    ((∃ p s, UnactivatedPDUSession t' = UnactivatedPDUSession t ++ [p] ∧ failed_list cxt t' = Some fl ∧
        h_pdu w' !! p = Some s ∧ pdu_Id s = sr_PDUSessionID item ∧ is_Some (GTPConnInfo s)) ∨
     (∃ tr, UnactivatedPDUSession t' = UnactivatedPDUSession t ∧
        failed_list cxt t' = Some (fl ++ [mkItem (sr_PDUSessionID item) tr]))).

Lemma setup_session_step {R} cxt r tmp item w t fl :
  below (h_pdu w) (next_ref w) → h_temp w !! tmp = Some t → failed_list cxt t = Some fl →
  match (setup_session cxt r tmp item : H R unit) w with
  | (Next _, w') => sorted_session cxt tmp item t fl w w'
  | (Return _, _) => False
  | (Panicked _, _) => True
  end.
Proof.
  intros Hb Ht Hf.
  assert (∀ id tr t, failed_list cxt (set_failed cxt (fl ++ [mkItem id tr]) t) = Some (fl ++ [mkItem id tr]) ∧
    UnactivatedPDUSession (set_failed cxt (fl ++ [mkItem id tr]) t) = UnactivatedPDUSession t ∧
    FailedErrStr (set_failed cxt (fl ++ [mkItem id tr]) t) = FailedErrStr t) as Hset by by destruct cxt.
  unfold setup_session. rewrite run_bind.
  pose proof (CreatePDUSession_run (R := R) r (sr_PDUSessionID item) (sr_SNSSAI item) w) as Hc.
  destruct (CreatePDUSession _ _ _ w) as [[[p|]|?|?] w1]; [|subst w1|done|done].
  2: { rewrite (append_failed_run cxt tmp _ _ w t fl Ht Hf). split; [done|].
       split; [intros p s Hs; by exists s|]. eexists. split; [apply lookup_insert_eq|]. split; [apply Hset|].
       right. eexists. split; apply Hset. }
  destruct Hc as (-> & Hn & Ht1 & s1 & Hp & Hid). set (p := next_ref w) in *.
  assert (below (h_pdu w1) (next_ref w1)) as Hb1 by (rewrite Hp, Hn; by apply below_insert).
  rewrite run_bind, run_call. set (tr := aper_setup_request _).
  pose proof (sorting_transfer r p tr w1 Hb1) as (Hb2 & Hk2).
  pose proof (transfer_temps r p tr w1) as Ht2. unfold keeps in Ht2.
  pose proof (transfer_returns_false r p tr w1) as Hret.
  pose proof (λ x w2, transfer_true r p tr w1 x w2) as Htrue.
  destruct (handlePDUSessionResourceSetupRequestTransfer r p tr w1) as [c w2]. cbn [fst snd] in *.
  assert (∃ s2, h_pdu w2 !! p = Some s2 ∧ session_kept s1 s2) as (s2 & Hs2 & Hid2 & _)
    by (apply Hk2; rewrite Hp; apply lookup_insert_eq).
  assert (∀ q s, h_pdu w !! q = Some s → ∃ s', h_pdu w2 !! q = Some s' ∧ session_kept s s') as Hk.
  { intros q s Hq. apply Hk2. rewrite Hp, lookup_insert_ne; [done|]. intros <-. by rewrite (below_fresh _ _ Hb) in Hq. }
  assert (h_temp w2 !! tmp = Some t) as Htw by congruence.
  assert (∀ tr', match ((DeletePDUSession r (sr_PDUSessionID item);; append_failed cxt tmp (sr_PDUSessionID item) tr') : H R unit) w2 with
    | (Next _, w') => h_pdu w' = h_pdu w2 ∧ next_ref w' = next_ref w2 ∧
        h_temp w' !! tmp = Some (set_failed cxt (fl ++ [mkItem (sr_PDUSessionID item) tr']) t)
    | _ => False end) as Hdel.
  { intros tr'. rewrite run_bind. cbn [DeletePDUSession upd_ran modify]. by rewrite (append_failed_run cxt tmp _ _ _ t fl); [apply conj; [done|split; [done|apply lookup_insert_eq]]|..]. }
  assert (∀ tr', match ((DeletePDUSession r (sr_PDUSessionID item);; append_failed cxt tmp (sr_PDUSessionID item) tr') : H R unit) w2 with
    | (Next _, w') => sorted_session cxt tmp item t fl w w' | (Return _, _) => False | (Panicked _, _) => True end) as Hbad.
  { intros tr'. specialize (Hdel tr'). revert Hdel.
    match goal with |- match ?x with _ => _ end → _ => destruct x as [[[]|?|?] w3] end; [|done..]. intros Hdel.
    destruct Hdel as (E1 & E2 & E3). rewrite <- E1, <- E2 in *. split; [done|]. split; [done|].
    eexists. split; [exact E3|]. split; [apply Hset|]. right. exists tr'. split; apply Hset. }
  destruct c as [[[] x]|[[] x]|e]; [|apply Hbad|by specialize (Hret _ eq_refl)|apply Hbad|done].
  rewrite (run_upd_temp w2 tmp _ t Htw). split; [done|]. split; [done|].
  eexists. split; [apply lookup_insert_eq|]. split; [done|]. left. exists p.
  destruct (Htrue _ _ eq_refl Hb1) as (s' & Hs' & Hg); [rewrite Hp, lookup_insert_eq; by eexists|].
  exists s'. split; [done|]. split; [by destruct cxt|]. split; [done|]. split; [congruence|done].
Qed.

(** Sessions that are ready for a child SA, with their identifiers. *)
Definition ready w (ps : list ref) (ids : list Z) : Prop :=
  Forall2 (λ p id, ∃ s, h_pdu w !! p = Some s ∧ pdu_Id s = id ∧ is_Some (GTPConnInfo s)) ps ids.

Lemma ready_kept w w' ps ids :
  (∀ p s, h_pdu w !! p = Some s → ∃ s', h_pdu w' !! p = Some s' ∧ session_kept s s') → ready w ps ids → ready w' ps ids.
Proof.
  intros Hk Hr. eapply Forall2_impl; [exact Hr|]. intros p id (s & Hs & <- & Hg). destruct (Hk _ _ Hs) as (s' & ? & Hi & Hg').
  exists s'. eauto.
Qed.


(** ** The loop of child SA requests *)

Lemma bind_next {R A B} (m : H R A) (f : A → H R B) w b w' :
  (m ≫= f) w = (Next b, w') → ∃ a w1, m w = (Next a, w1) ∧ f a w1 = (Next b, w').
Proof. rewrite run_bind. destruct (m w) as [[a|?|?] w1]; [|done..]. intros Hf. by exists a, w1. Qed.

Lemma request_temps u sa p : stable (keeps h_temp) (child_sa_request u sa p).
Proof. unfold child_sa_request, CreateHalfChildSA. keeps_auto. Qed.
Lemma send_temps {R} a b m k : stable (keeps h_temp) (SendIKEMessageToUE a b m k : H R bool).
Proof. unfold SendIKEMessageToUE. keeps_auto. Qed.

(** A turn after which the loop goes on has dealt with one session. *)
Lemma create_turn_true u sa tmp id w w' t :
  create_turn u sa tmp id w = (Next true, w') → h_temp w !! tmp = Some t →
  ∃ t', h_temp w' !! tmp = Some t' ∧ Index t' = Index t + 1 ∧
    UnactivatedPDUSession t' = UnactivatedPDUSession t ∧ Index t < len (UnactivatedPDUSession t).
Proof.
  intros Hr Ht. unfold create_turn in Hr. rewrite run_bind, (run_get_temp w tmp t Ht) in Hr.
  case_decide as Hlt; [|done].
  apply bind_next in Hr as (p & w1 & Hp & Hr). destruct (at_ _ _) in Hp; [|done..]. injection Hp as _ <-.
  apply bind_next in Hr as (pdu & w1 & Hp & Hr). apply (get_at h_pdu) in Hp as (-> & _).
  apply bind_next in Hr as (payload & w1 & Hp & Hr).
  pose proof (request_temps u sa pdu w) as Hk. unfold keeps in Hk. rewrite Hp in Hk. cbn [snd] in Hk.
  destruct payload as [payload|]; [|done]. case_decide; [done|]. destruct (notify_5g_qos _ _); [|done].
  rewrite run_bind, (run_upd_temp w1 tmp _ t) in Hr by congruence.
  apply bind_next in Hr as (s & w2 & Hp' & Hr). apply (get_at h_sa) in Hp' as (-> & _).
  apply bind_next in Hr as (conn & w2 & Hp' & Hr). destruct (sa_IKEConnection s); [|done]. injection Hp' as -> <-.
  apply bind_next in Hr as (ok & w2 & Hsend & Hr).
  match type of Hsend with SendIKEMessageToUE ?a ?b ?m ?k ?x = _ => pose proof (send_temps (R := unit) a b m k x) as Hk2 end.
  unfold keeps in Hk2. rewrite Hsend in Hk2. cbn [snd] in Hk2.
  destruct ok; [by apply bind_next in Hr as (? & ? & _ & ?)|].
  rewrite run_bind in Hr. erewrite run_upd_temp in Hr by (rewrite Hk2; apply lookup_insert_eq).
  injection Hr as <-. eexists. split; [apply lookup_insert_eq|]. split; [done|]. split; [done|]. lia.
Qed.

Lemma create_loop_fuel n fuel u sa tmp id w t :
  h_temp w !! tmp = Some t → (Z.to_nat (len (UnactivatedPDUSession t) - Index t) < n ≤ fuel)%nat →
  create_loop fuel u sa tmp id w = create_loop n u sa tmp id w.
Proof.
  revert fuel w t. induction n as [|n IH]; intros [|fuel] w t Ht Hn; [lia..|]. cbn [create_loop].
  rewrite !run_bind. destruct (create_turn u sa tmp id w) as [[[]|?|?] w1] eqn:Ec; try done.
  destruct (create_turn_true _ _ _ _ _ _ _ Ec Ht) as (t1 & Ht1 & Hi & Hu & Hlt).
  apply (IH fuel w1 t1 Ht1). rewrite Hu, Hi. lia.
Qed.

(** C40. The loop of child SA requests ends: with the number of turns granted by
    [CreatePDUSessionChildSA], one more than there are sessions, the loop is left by its own
    conditions, since any larger number of turns gives the same outcome and the same state. *)
Theorem create_loop_enough fuel u sa tmp id w t :
  h_temp w !! tmp = Some t → 0 ≤ Index t → (S (length (UnactivatedPDUSession t)) ≤ fuel)%nat →
  create_loop fuel u sa tmp id w = create_loop (S (length (UnactivatedPDUSession t))) u sa tmp id w.
Proof. intros Ht Hi Hf. apply (create_loop_fuel _ _ _ _ _ _ _ t Ht). unfold len. lia. Qed.

(** ** The report *)

(** The lists of the procedure whose code the set-up data holds. *)
Definition procedure_cxt (t : PDUSessionSetupTemporaryData) : bool :=
  bool_decide (NGAPProcedureCode t = ProcedureCodeInitialContextSetup).
Definition setup_list (t : PDUSessionSetupTemporaryData) : option (list SessionItem) :=
  if procedure_cxt t then SetupListCxtRes t else SetupListSURes t.
Definition add_setup (i : SessionItem) (t : PDUSessionSetupTemporaryData) :=
  if procedure_cxt t then t <| SetupListCxtRes ::= fmap (λ l, l ++ [i]) |> else t <| SetupListSURes ::= fmap (λ l, l ++ [i]) |>.
Definition add_failed (i : SessionItem) (t : PDUSessionSetupTemporaryData) :=
  if procedure_cxt t then t <| FailedListCxtRes ::= fmap (λ l, l ++ [i]) |> else t <| FailedListSURes ::= fmap (λ l, l ++ [i]) |>.

(** What the report makes of the sessions and of the error strings at the same positions. *)
Definition setup_item (s : PDUSession) : SessionItem :=
  mkItem (pdu_Id s) (default [] (g ← GTPConnInfo s;
    aper_setup_response (mkSetupRes (be_put 4 (IncomingTEID g)) (cfg_N3iwfGtpBindAddress cfg) (QFIList s)))).
Definition failed_item (s : PDUSession) : SessionItem :=
  mkItem (pdu_Id s) (default [] (aper_setup_unsuccessful
    (mkCause CauseTransport CauseTransportPresentTransportResourceUnavailable) None)).
Definition report_one (e : EvtError) (s : PDUSession) (t : PDUSessionSetupTemporaryData) :=
  match e with ErrNil => add_setup (setup_item s) t | _ => add_failed (failed_item s) t end.
Fixpoint report_all (errs : list EvtError) (ss : list PDUSession) (t : PDUSessionSetupTemporaryData) :=
  match errs, ss with
  | e :: errs, s :: ss => report_all errs ss (report_one e s t)
  | _, _ => t
  end.

(** The transfers can be encoded. *)
Definition encodable : Prop :=
  (∀ x, is_Some (aper_setup_response x)) ∧ (∀ c d, is_Some (aper_setup_unsuccessful c d)).
Definition recorded (e : EvtError) : Prop := e = ErrNil ∨ e = ErrTransportResourceUnavailable.

Lemma add_kept i t :
  (procedure_cxt (add_setup i t) = procedure_cxt t ∧ FailedErrStr (add_setup i t) = FailedErrStr t ∧
     setup_list (add_setup i t) = (λ l, l ++ [i]) <$> setup_list t ∧
     failed_list (procedure_cxt t) (add_setup i t) = failed_list (procedure_cxt t) t) ∧
  (procedure_cxt (add_failed i t) = procedure_cxt t ∧ FailedErrStr (add_failed i t) = FailedErrStr t ∧
     setup_list (add_failed i t) = setup_list t ∧
     failed_list (procedure_cxt t) (add_failed i t) = (λ l, l ++ [i]) <$> failed_list (procedure_cxt t) t).
Proof.
  assert (∀ t', NGAPProcedureCode t' = NGAPProcedureCode t → procedure_cxt t' = procedure_cxt t) as Hp
    by (intros t' Ht'; unfold procedure_cxt; by rewrite Ht').
  unfold setup_list, add_setup, add_failed. destruct (procedure_cxt t) eqn:Ec; by rewrite !Hp.
Qed.

Lemma report_session_run w tmp t i e p s :
  encodable → h_temp w !! tmp = Some t → at_ (FailedErrStr t) i = Ok e → recorded e →
  h_pdu w !! p = Some s → is_Some (GTPConnInfo s) →
  is_Some (setup_list t) → is_Some (failed_list (procedure_cxt t) t) →
  report_session tmp i p w = (Next tt, w <| h_temp := <[tmp := report_one e s t]> (h_temp w) |>).
Proof.
  intros [H1 H2] Ht He Hrec Hp [g Hg] [sl Hsl] [fl Hfl]. unfold report_session.
  rewrite run_bind, (run_get_temp w tmp t Ht), He, run_bind. cbn [lift mret prog_ret].
  unfold report_one, add_setup, add_failed, setup_list, failed_list in *. fold (procedure_cxt t).
  destruct Hrec as [-> | ->].
  - rewrite run_bind, (run_get_pdu w p s Hp), run_bind. unfold BuildPDUSessionResourceSetupResponseTransfer, setup_item.
    rewrite Hg. cbn [lift mret prog_ret mbind option_bind].
    destruct (H1 (mkSetupRes (be_put 4 (IncomingTEID g)) (cfg_N3iwfGtpBindAddress cfg) (QFIList s))) as [tr ->].
    destruct (procedure_cxt t); rewrite Hsl, run_bind; cbn [append_item lift mret prog_ret default];
      rewrite (run_upd_temp w tmp _ t Ht); unfold update; by rewrite Hsl.
  - cbn [setup_cause]. unfold BuildPDUSessionResourceSetupUnsuccessfulTransfer, failed_item.
    destruct (H2 (mkCause CauseTransport CauseTransportPresentTransportResourceUnavailable) None) as [tr ->].
    rewrite run_bind, (run_get_pdu w p s Hp).
    destruct (procedure_cxt t); rewrite Hfl, run_bind; cbn [append_item lift mret prog_ret default];
      rewrite (run_upd_temp w tmp _ t Ht); unfold update; by rewrite Hfl.
Qed.

Lemma report_one_kept e s t :
  procedure_cxt (report_one e s t) = procedure_cxt t ∧ FailedErrStr (report_one e s t) = FailedErrStr t ∧
  (is_Some (setup_list t) → is_Some (setup_list (report_one e s t))) ∧
  (is_Some (failed_list (procedure_cxt t) t) → is_Some (failed_list (procedure_cxt t) (report_one e s t))).
Proof.
  destruct (add_kept (setup_item s) t) as [(E1 & E2 & E3 & E4) _].
  destruct (add_kept (failed_item s) t) as [_ (F1 & F2 & F3 & F4)].
  destruct e; unfold report_one; rewrite ?E1, ?E2, ?E3, ?E4, ?F1, ?F2, ?F3, ?F4;
    (split; [done|]; split; [done|]; split; rewrite ?fmap_is_Some; done).
Qed.

Lemma report_sessions_run w tmp t pre errs more ps ss :
  encodable → h_temp w !! tmp = Some t → FailedErrStr t = pre ++ errs ++ more → Forall recorded errs →
  length errs = length ps → Forall2 (λ p s, h_pdu w !! p = Some s ∧ is_Some (GTPConnInfo s)) ps ss →
  is_Some (setup_list t) → is_Some (failed_list (procedure_cxt t) t) →
  report_sessions tmp (len pre) ps w = (Next tt, w <| h_temp := <[tmp := report_all errs ss t]> (h_temp w) |>).
Proof.
  intros Henc Ht He Hrec Hlen Hps Hsl Hfl. revert w t pre errs Ht He Hrec Hlen Hsl Hfl Hps.
  revert ss. induction ps as [|p ps IH]; intros ss w t pre errs Ht He Hrec Hlen Hsl Hfl Hps.
  { apply Forall2_nil_inv_l in Hps as ->. destruct errs; [|done]. cbn.
    rewrite insert_id by done. by destruct w. }
  destruct errs as [|e errs]; [done|]. apply Forall_cons in Hrec as [Hr Hrec].
  apply Forall2_cons_inv_l in Hps as (s & ss' & [Hp Hg] & Hps & ->). cbn [report_sessions report_all].
  assert (at_ (FailedErrStr t) (len pre) = Ok e) as Hat.
  { unfold at_. rewrite He. rewrite decide_True by len_lia. unfold len. rewrite Nat2Z.id.
    cbn. by rewrite list_lookup_middle. }
  rewrite run_bind, (report_session_run w tmp t (len pre) e p s Henc Ht Hat Hr Hp Hg Hsl Hfl).
  destruct (report_one_kept e s t) as (K1 & K2 & K3 & K4).
  set (w1 := w <| h_temp := _ |>). replace (len pre + 1) with (len (pre ++ [e])) by len_lia.
  rewrite (IH ss' w1 (report_one e s t) (pre ++ [e]) errs).
  - unfold w1, update. cbn. by rewrite insert_insert_eq.
  - apply lookup_insert_eq.
  - by rewrite K2, He, <- app_assoc.
  - done.
  - cbn in Hlen. lia.
  - auto.
  - rewrite K1. auto.
  - done.
Qed.

(** The sessions with an error string, in their list. *)
Definition reported (e : EvtError) (mk : PDUSession → SessionItem) (errs : list EvtError) (ss : list PDUSession)
    : list SessionItem :=
  omap (λ '(e', s), if decide (e' = e) then Some (mk s) else None) (zip errs ss).

Lemma report_all_lists errs ss t sl fl :
  Forall recorded errs → setup_list t = Some sl → failed_list (procedure_cxt t) t = Some fl →
  setup_list (report_all errs ss t) = Some (sl ++ reported ErrNil setup_item errs ss) ∧
  failed_list (procedure_cxt t) (report_all errs ss t) =
    Some (fl ++ reported ErrTransportResourceUnavailable failed_item errs ss).
Proof.
  intros Hrec. revert ss t sl fl. induction Hrec as [|e errs He _ IH]; intros [|s ss] t sl fl Hsl Hfl;
    try (unfold reported; cbn; by rewrite !app_nil_r).
  cbn [report_all]. destruct (add_kept (setup_item s) t) as [(E1 & _ & E3 & E4) _].
  destruct (add_kept (failed_item s) t) as [_ (F1 & _ & F3 & F4)]. unfold reported.
  destruct He as [-> | ->]; cbn [zip zip_with omap list_omap report_one].
  - rewrite decide_True, decide_False by done.
    destruct (IH ss (add_setup (setup_item s) t) (sl ++ [setup_item s]) fl) as [-> H2].
    + by rewrite E3, Hsl.
    + by rewrite E1, E4.
    + rewrite E1 in H2. by rewrite H2, <- app_assoc.
  - rewrite decide_False, decide_True by done.
    destruct (IH ss (add_failed (failed_item s) t) sl (fl ++ [failed_item s])) as [-> H2].
    + by rewrite F3.
    + by rewrite F1, F4, Hfl.
    + split; [done|]. rewrite F1 in H2. by rewrite H2, <- app_assoc.
Qed.

End Sessions.

(** ** Applications to concrete states *)

(** The IKE socket accepts the first message only. *)
Definition once : list IO → IO → bool := λ t x,
  match x with
  | IoIke _ _ _ => negb (existsb (λ y, match y with IoIke _ _ _ => true | _ => false end) t)
  | _ => true
  end.
#[local] Instance toy_once : Env := toy_env once.

(** Two sessions wait for their child SAs. *)
Definition pdu_waiting (id teid : Z) : PDUSession :=
  mkPDU id (Some 0) None (mkSNSSAI [1] None) None true true None None
    (Some (mkGTP "10.0.0.9" "10.0.0.9:2152" teid 77)) [9] ∅.
Definition temp_two : PDUSessionSetupTemporaryData :=
  zero_Temp <| UnactivatedPDUSession := [11; 12]%nat |> <| NGAPProcedureCode := ProcedureCodePDUSessionResourceSetup |>
    <| SetupListSURes := Some [] |> <| FailedListSURes := Some [] |>.
Definition sa_up : IKESecurityAssociation :=
  zero_SA <| LocalSPI := 100 |> <| IKESAKey := Some [3] |> <| State := 4 |> <| sa_IkeUE := Some 2%nat |>
    <| sa_IKEConnection := Some (mkSock 1 n3_addr ue_addr) |>.
Definition two_world : World :=
  world0 once <| IKESA := {[ 100 := 1%nat ]} |> <| h_sa := {[ 1%nat := sa_up ]} |>
    <| IKEUePool := {[ 100 := 2%nat ]} |>
    <| h_ike := {[ 2%nat := init_IkeUe <| N3IWFIKESecurityAssociation := Some 1%nat |> <| IPSecInnerIP := [10; 0; 0; 2] |> ]} |>
    <| h_pdu := <[11%nat := pdu_waiting 5 1]> {[ 12%nat := pdu_waiting 6 2 ]} |> <| h_temp := {[ 9%nat := temp_two ]} |>
    <| RANUePool := {[ 1 := 5%nat ]} |> <| h_ran := {[ 5%nat := ue_connected ]} |>
    <| IKESPIToNGAPId := {[ 100 := 1 ]} |> <| NGAPIdToIKESPI := {[ 1 := 100 ]} |>
    <| AMFPool := {[ "amf"%string := 6%nat ]} |> <| h_amf := {[ 6%nat := init_AMF "amf" (Some 3) ]} |> <| next_ref := 20%nat |>.
(** The answer of the UE to the first request. *)
Definition child_answer : IKEMessage :=
  mkMsg 7 100 CREATE_CHILD_SA true true 0
    [PSA [mkProposal 1 TypeESP [0; 0; 0; 9] [toy_encr] [] [toy_integ] [] []]; PNonce [8]; PTSi []; PTSr []].


(** Requests for the sessions 5, 6 and 5 again. *)
Definition request_items : list SetupItem :=
  [mkSetupItem 5 None (mkSNSSAI [1] None) [9]; mkSetupItem 6 None (mkSNSSAI [1] None) [9];
   mkSetupItem 5 None (mkSNSSAI [1] None) [9]].
Definition temp_empty : PDUSessionSetupTemporaryData :=
  zero_Temp <| FailedErrStr := [ErrNil] |> <| SetupListSURes := Some [] |> <| FailedListSURes := Some [] |>.
Definition request_world : World :=
  two_world <| h_temp := {[ 9%nat := temp_empty ]} |> <| h_pdu := ∅ |>.


Lemma create_loop_enough_witness :
  create_loop 50 2%nat 1%nat 9%nat 1 two_world = create_loop 3 2%nat 1%nat 9%nat 1 two_world.
Proof. apply (create_loop_enough 50 2%nat 1%nat 9%nat 1 two_world temp_two); [reflexivity|vm_compute; discriminate|cbn; lia]. Defined.

Definition reported_temp : PDUSessionSetupTemporaryData :=
  temp_two <| FailedErrStr := [ErrNil; ErrTransportResourceUnavailable] |>.
Definition report_world : World := two_world <| h_temp := {[ 9%nat := reported_temp ]} |>.

